(* ===== verification/_CoqProject ===== *)
-Q . S2P
Prelude.v
RingBuffer.v
ShmPool.v
RpcQueue.v
RpcHelper.v
RpcHelperMem.v
RpcHostentMem.v
McsKm.v
Services.v
RpcModel.v
RpcLayout.v
RpcBackend.v
RpcServer.v
RpcServerProps.v
RpcForward.v
Baremetal.v
Mica.v
Listener.v
ListenerThread.v
MicaTool.v
Jailhouse.v
UserMsg.v
Umt.v
UmtProgress.v
RpcWorkers.v
Pty.v
Routing.v
Debug.v
Syscalls.v
Daemon.v
