(* ===== verification/Prelude.v ===== *)
(** * Verification of the mixed-criticality framework (mcs)

    mcs runs a second operating system (the client OS) beside Linux on cores of its
    own.  The parts of the program and how they interact:

    - the kernel module [mcs_km] gives user space the memory reserved for client
      OSes, boots a core and passes interrupts on;
    - the library ([src/library]) manages a client OS: it loads the firmware, starts
      and stops the remote processor (bare metal through the kernel module, or a
      jailhouse cell), hands out shared memory, and sets up the rpmsg device and the
      debug ring buffers in it;
    - the daemon micad ([src/mica/micad]) takes commands on control sockets, runs the
      life cycle of the clients through the library, and registers services with
      them: remote procedure calls (the client OS calls libc functions of Linux),
      terminals, messages of user processes, and debugging with gdb;
    - the user message library ([src/library/user_msg]) is linked into programs that
      talk to the client OS through micad.

    * Files

    Each file models the source files named at its top, one definition per C
    function with the name of the function; a loop of a function is a definition of
    its own.  The files are in dependency order.

    - [Prelude]: machine integers, byte memory, C strings, programs with external
      calls ([io]), monitors of their calls ([wp], [wpv]), tactics and hints.
    - [RingBuffer], [ShmPool]: [rbuf_device/ring_buffer.c], [memory/shm_pool.c].
    - [RpcQueue], [RpcHelper], [RpcHelperMem], [RpcHostentMem], [RpcModel], [RpcLayout], [RpcBackend],
      [RpcServer], [RpcServerProps], [RpcForward] and [RpcWorkers]: the RPC service
      ([services/rpc]): request queue and workers, marshalling of name service results
      and the memory it needs, message structures and their layout, the 83 handlers,
      dispatch, the handlers that pass a call on, and the concurrent runs of callback,
      workers and handlers.
    - [McsKm]: the kernel module.
    - [Services]: the service registry of a client and the endpoint table that
      survives a restart of the host ([rpmsg_service.c], [mica_rsc_table.c]).
    - [Baremetal], [Jailhouse]: the two kinds of remote processor.
    - [Mica]: life cycle of a client OS ([mica.c], [remoteproc_core.c],
      [rpmsg_vdev.c], [rbuf_dev.c]); it uses [ShmPool] and [RingBuffer].
    - [Listener]: the control sockets ([socket_listener.c]); [ListenerThread]: the thread
      that serves them and its start, run concurrently; [MicaTool]: the other end of the
      sockets, the command line tool ([mica.py]).
    - [UserMsg], [Umt], [UmtProgress]: the user message library and the service behind
      it, with the concurrent runs of user processes, micad and the client OS.
    - [Pty]: the terminals ([rpmsg_pty.c]).
    - [Debug]: gdb proxy server, ring buffer module and debug service, with the
      concurrent runs of a debug session; it uses [RingBuffer].
    - [Daemon]: [main.c].
    - Two files put components together: [Routing] registers the services of micad in
      the registry (the class [Routed] is what the registry needs of a service, the four
      service tables are its instances); [Syscalls] runs [Baremetal] and [UserMsg] on the
      kernel module (the class [Device] says which calls enter it).

    * How the code is modelled

    Pure code is a function; a C integer is a [Z] with its wrap-around written out,
    memory is a list of bytes.  A function that calls the kernel, libc, OpenAMP or
    libmetal is a term of [io]: it makes a call and continues with the answer.  None
    of that outside code is defined here; where it calls back into the repository, as
    [remoteproc_load] does through the image store, the answer is what it does with the
    operations it was given.  A theorem for every oracle holds whatever
    the outside answers; where the code relies on documented behaviour, a predicate
    on answers is a hypothesis ([write_answers], [libc_sane], ...) with a witness.
    Failure of the code itself - access outside an array, use of a freed object - is
    [None], errors are the code's negative numbers.  Threads that share state are
    programs of one step relation, a call being one atomic step ([Umt.step],
    [Debug.dstep], [RpcWorkers.wstep], [RingBuffer.ring_step], the event
    batches of [Listener], [ListenerThread.step]).

    * What the theorems show

    The comment of a theorem names every condition it has.

    - Data structures: the ring buffer refines a byte queue under every interleaving,
      until its counters wrap (below); the pool grants disjoint regions as long as
      addresses do not wrap; the RPC queue is a bounded FIFO that loses no request.
    - Formats: address lists, host entries, the endpoint table and the message that
      creates a client survive encoding and decoding, host entries in the memory they are
      decoded into.
    - End to end: every user process gets the answer to its own message, unless the
      message the service sends first is answered too, or a wait is interrupted; every
      RPC request is served once, whichever worker takes it; a remote call of 47
      functions is the local call, with its arguments, result and errno, and read data
      arrive unchanged; an endpoint of a single client reaches the service its name
      matches, whenever it is announced, or finds no memory; a start boots the core
      through kernel module and firmware once; a user process gets its copy area mapped;
      what gdb and the client OS send arrives in order, behind what an earlier session
      left in the queues, and complete unless a send is short; text reaches the terminal
      with carriage returns and complete unless a write fails; the tool sends what its
      configuration file says and shows the verdict of the daemon, unless it is late.
    - Liveness: in every order of steps the RPC workers come to rest and have served
      every accepted request then, if no handler faults and the library calls return;
      the user processes have all returned, but for the exceptions the theorem names;
      and the start of the listener returns, with the result it has without threads.
    - Invariants: listeners and clients of the daemon, endpoints bound once, distinct
      terminal numbers, the poll handshake of the kernel module.
    - Safety: a core is booted only on request, a running client OS is not booted
      again, mappings stay inside the checked range, handlers reply once and with
      the request's trace id if the library keeps its contract ([libc_sane]).
    - Resources: module load and unload, client start and stop with both openings of the
      firmware file, cells with the pipe of their notifier, mappings, the proxy server's
      sockets and the daemon's pid file are given back exactly once on every path; the
      exceptions are conditions of the theorems and theorems of their own.
    - The theorems without a number at the end of a file show behaviour that the code
      does not mean to have, most of them on a concrete run.

    * Bounds and fuel

    A loop without a bound of its own takes fuel.  Where the code must return, the
    theorem gives the amount that is enough: [len + 1] rounds for a write to a ring
    that is drained, [2 * len + 1] for the terminal, more than the number of packets for
    the tool's [recv], [n + 2] tests of a flag that is waited for with [n] spurious
    wake-ups.  A loop that runs out of fuel is told apart from one that has ended
    ([PRunning], [None], [false]).  The service threads run forever
    by design; their fuel is the number of rounds observed, and the theorems about
    them hold for every amount.  The counters of a ring are 32 bits wide: a ring whose
    capacity does not divide 2^32 is correct until 2^32 bytes were written, which the
    theorems about rings and about the debug session have as a hypothesis;
    [kfifo_counter_wrap_corrupts] shows what happens then.

    * Not modelled

    Weak memory (barriers and cache maintenance), timing, log output (but for the
    length of an RPC log line), the builds MICA_DEBUG_LOG and TEST_RING_BUFFER, the
    pages' protection bits.  As log output is left out, [set_rsp_base] reads errno right
    after the library call; the code writes a log line in between, and a write that fails
    there would change errno.  The races between a service thread and the removal of its
    service ([rpmsg_pty.c], [rpmsg_umt.c]), between the notifier of a cell and the removal
    of the cell, and between the listening thread and its stop are left out: the model
    runs the two one after the other.  The exit call of the listening thread when
    epoll_wait fails, and signals before their handlers are set, end the daemon without
    any of the clean-up shown here.  Of the Python tool, the parsing of arguments and
    configuration files (Python's libraries) and what it prints are left out.  Test
    programs, scripts and images are not part of the running system. *)

From stdpp Require Export base list strings relations.
From Stdlib Require Export ZArith Lia.

#[export] Set Default Goal Selector "!".

Declare Scope mcs_scope.
Delimit Scope mcs_scope with mcs.
Global Open Scope Z_scope.

(** ** Machine integers

    A w-bit C integer is a [Z]; each conversion or arithmetic operation that
    can leave the range is wrapped explicitly. *)

Definition wrapu (w x : Z) : Z := x mod 2 ^ w.
Definition wraps (w x : Z) : Z := (x + 2 ^ (w - 1)) mod 2 ^ w - 2 ^ (w - 1).

(** [unsigned int], [uint64_t]/[size_t]/[unsigned long] and [int] of LP64. *)
Abbreviation u16 := (wrapu 16).
Abbreviation u32 := (wrapu 32).
Abbreviation u64 := (wrapu 64).
Abbreviation i16 := (wraps 16).
Abbreviation i32 := (wraps 32).
Abbreviation i64 := (wraps 64).

Lemma wrapu_range w x : 0 <= w -> 0 <= wrapu w x < 2 ^ w.
Proof. intros. apply Z.mod_pos_bound, Z.pow_pos_nonneg; lia. Qed.

Lemma wrapu_small w x : 0 <= x < 2 ^ w -> wrapu w x = x.
Proof. apply Z.mod_small. Qed.

Lemma wrapu_idem w x : 0 <= w -> wrapu w (wrapu w x) = wrapu w x.
Proof. intros. apply wrapu_small, wrapu_range; done. Qed.

Lemma wraps_small w x : 0 < w -> - 2 ^ (w - 1) <= x < 2 ^ (w - 1) -> wraps w x = x.
Proof.
  intros Hw Hx. unfold wraps.
  assert (2 ^ w = 2 * 2 ^ (w - 1)) as E.
  { rewrite <- Z.pow_succ_r by lia. f_equal; lia. }
  rewrite Z.mod_small; lia.
Qed.

(** Subtraction of two wrapped counters recovers their distance. *)
Lemma wrapu_sub_wrapped w a b :
  0 <= w -> 0 <= a - b < 2 ^ w -> wrapu w (wrapu w a - wrapu w b) = a - b.
Proof.
  intros Hw Hd. unfold wrapu.
  rewrite <- Zminus_mod. by apply Z.mod_small.
Qed.

Lemma wrapu_add_l w a b : 0 <= w -> wrapu w (wrapu w a + b) = wrapu w (a + b).
Proof. intros. unfold wrapu. apply Z.add_mod_idemp_l. apply Z.pow_nonzero; lia. Qed.

(** ** Error numbers ([errno.h], [linux/errno-base.h]) *)

Definition EPERM := 1.
Definition ENXIO := 6.
Definition EAGAIN := 11.
Definition ENOMEM := 12.
Definition EFAULT := 14.
Definition EBUSY := 16.
Definition EEXIST := 17.
Definition ENODEV := 19.
Definition EINVAL := 22.
Definition ENOSPC := 28.

(** ** Power-of-two alignment, [x & ~(a - 1)] and [(x + a - 1) & ~(a - 1)],
    computed in 64 bits. *)

Definition align_down (x a : Z) : Z := Z.land x (u64 (Z.lnot (a - 1))).
Definition align_up (x a : Z) : Z := Z.land (u64 (x + (a - 1))) (u64 (Z.lnot (a - 1))).

Lemma u64_lnot_ones k :
  0 <= k <= 64 -> u64 (Z.lnot (2 ^ k - 1)) = 2 ^ 64 - 2 ^ k.
Proof.
  intros Hk. unfold wrapu, Z.lnot.
  assert (2 ^ k <= 2 ^ 64) by (apply Z.pow_le_mono_r; lia).
  assert (0 < 2 ^ k) by (apply Z.pow_pos_nonneg; lia).
  rewrite <- (Z_mod_plus_full _ 1 (2 ^ 64)).
  rewrite Z.mod_small; lia.
Qed.

Lemma land_clear_low x k :
  0 <= k <= 64 -> 0 <= x < 2 ^ 64 -> Z.land x (2 ^ 64 - 2 ^ k) = x - x mod 2 ^ k.
Proof.
  intros Hk Hx.
  assert (2 ^ 64 - 2 ^ k = Z.ldiff (Z.ones 64) (Z.ones k)) as ->.
  { rewrite <- Z.sub_nocarry_ldiff.
    - rewrite !Z.ones_equiv. lia.
    - apply Z.bits_inj'. intros n Hn. rewrite Z.ldiff_spec, Z.bits_0.
      rewrite !Z.testbit_ones by lia.
      destruct (Z.ltb_spec n k), (Z.ltb_spec n 64), (Z.leb_spec 0 n); cbn; lia. }
  rewrite <- Z.land_ones by lia.
  assert (Z.land x (Z.ldiff (Z.ones 64) (Z.ones k)) = Z.ldiff x (Z.ones k)) as ->.
  { rewrite <- (Z.mod_small x (2 ^ 64)) at 2 by lia.
    rewrite <- Z.land_ones by lia.
    apply Z.bits_inj'. intros n Hn.
    rewrite Z.land_spec, !Z.ldiff_spec, Z.land_spec.
    by rewrite andb_assoc. }
  rewrite Z.sub_nocarry_ldiff.
  - apply Z.bits_inj'. intros n Hn. rewrite !Z.ldiff_spec, Z.land_spec.
    by destruct (Z.testbit x n), (Z.testbit (Z.ones k) n).
  - apply Z.bits_inj'. intros n Hn. rewrite Z.ldiff_spec, Z.land_spec, Z.bits_0.
    by destruct (Z.testbit x n), (Z.testbit (Z.ones k) n).
Qed.

Lemma align_down_spec x k :
  0 <= k <= 64 -> 0 <= x < 2 ^ 64 -> align_down x (2 ^ k) = x - x mod 2 ^ k.
Proof. intros. unfold align_down. rewrite u64_lnot_ones by done. by apply land_clear_low. Qed.

Lemma align_up_spec x k :
  0 <= k <= 64 -> 0 <= x -> x + (2 ^ k - 1) < 2 ^ 64 ->
  align_up x (2 ^ k) = (x + (2 ^ k - 1)) / 2 ^ k * 2 ^ k.
Proof.
  intros Hk Hx Hlt.
  assert (0 < 2 ^ k) by (apply Z.pow_pos_nonneg; lia).
  unfold align_up. rewrite u64_lnot_ones by done.
  rewrite wrapu_small by lia. rewrite land_clear_low by lia.
  pose proof (Z_div_mod_eq_full (x + (2 ^ k - 1)) (2 ^ k)). lia.
Qed.

(** The rounded value is the least multiple of the alignment above [x]. *)
Lemma align_up_bounds x k :
  0 <= k <= 64 -> 0 <= x -> x + (2 ^ k - 1) < 2 ^ 64 ->
  x <= align_up x (2 ^ k) < x + 2 ^ k /\ (2 ^ k | align_up x (2 ^ k)).
Proof.
  intros Hk Hx Hlt.
  assert (0 < 2 ^ k) by (apply Z.pow_pos_nonneg; lia).
  rewrite align_up_spec by done.
  pose proof (Z_div_mod_eq_full (x + (2 ^ k - 1)) (2 ^ k)).
  pose proof (Z.mod_pos_bound (x + (2 ^ k - 1)) (2 ^ k) ltac:(lia)).
  split; [lia|]. by eexists.
Qed.

(** ** Byte arrays

    [memread off n l] are the [n] bytes at offset [off]; [memwrite off src l]
    is [memcpy] of [src] to offset [off]; what lies beyond the end of the array
    is not written, so a theorem about a copy states that it is in bounds. *)

Definition memread {A} (off n : nat) (l : list A) : list A := take n (drop off l).
Definition memwrite {A} (off : nat) (src l : list A) : list A :=
  take off l ++ take (length l - off) src ++ drop (off + length src) l.

Section memory.
Context {A : Type}.
Implicit Types l src : list A.

Lemma length_memwrite off src l : length (memwrite off src l) = length l.
Proof.
  unfold memwrite. rewrite !length_app, !length_take, length_drop. lia.
Qed.

Lemma memread_memwrite off src l :
  (off + length src <= length l)%nat -> memread off (length src) (memwrite off src l) = src.
Proof.
  intros H. unfold memread, memwrite.
  rewrite (take_ge src) by lia.
  rewrite drop_app_length' by (rewrite length_take; lia).
  by rewrite take_app_length.
Qed.

Lemma memwrite_nil off l : memwrite off [] l = l.
Proof. unfold memwrite. rewrite take_nil, Nat.add_0_r. apply take_drop. Qed.

Lemma memwrite_app l1 l2 src l3 :
  length l2 = length src -> memwrite (length l1) src (l1 ++ l2 ++ l3) = l1 ++ src ++ l3.
Proof.
  intros H. unfold memwrite. rewrite take_app_length.
  rewrite (take_ge src) by (rewrite !length_app; lia).
  f_equal. f_equal. rewrite app_assoc.
  apply drop_app_length'. rewrite length_app; lia.
Qed.

Lemma memwrite_0_app l2 src l3 :
  length l2 = length src -> memwrite 0 src (l2 ++ l3) = src ++ l3.
Proof. apply (memwrite_app []). Qed.

(** Byte [i] after a copy that is in bounds. *)
Lemma lookup_memwrite off src l i :
  (off + length src <= length l)%nat ->
  memwrite off src l !! i =
    if decide (off <= i < off + length src)%nat then src !! (i - off)%nat else l !! i.
Proof.
  intros H. unfold memwrite. rewrite (take_ge src) by lia.
  case_decide as E.
  - rewrite lookup_app_r by (rewrite length_take; lia).
    rewrite lookup_app_l by (rewrite length_take; lia).
    f_equal. rewrite length_take. lia.
  - destruct (decide (i < off)%nat).
    + rewrite lookup_app_l by (rewrite length_take; lia).
      by rewrite lookup_take_lt by lia.
    + rewrite lookup_app_r by (rewrite length_take; lia).
      rewrite lookup_app_r by (rewrite length_take; lia).
      rewrite lookup_drop, length_take. f_equal. lia.
Qed.

Lemma memread_app_at l1 src l2 n :
  n = length src -> memread (length l1) n (l1 ++ src ++ l2) = src.
Proof.
  intros ->. unfold memread. by rewrite drop_app_length, take_app_length.
Qed.

Lemma length_memread off n l : (off + n <= length l)%nat -> length (memread off n l) = n.
Proof. intros. unfold memread. rewrite length_take, length_drop. lia. Qed.

Lemma lookup_memread off n l i :
  (i < n)%nat -> memread off n l !! i = l !! (off + i)%nat.
Proof. intros. unfold memread. rewrite lookup_take_lt by lia. apply lookup_drop. Qed.

(** A copy does not change what lies before it. *)
Lemma memread_memwrite_before o n off src l :
  (o + n <= off)%nat -> memread o n (memwrite off src l) = memread o n l.
Proof.
  intros H. apply list_eq. intros i.
  destruct (decide (i < n)%nat) as [Hi|Hi].
  - rewrite !lookup_memread by done. unfold memwrite.
    destruct (decide (o + i < length l)%nat).
    + rewrite lookup_app_l by (rewrite length_take; lia). by rewrite lookup_take_lt by lia.
    + rewrite (take_ge l) by lia. replace (length l - off)%nat with 0%nat by lia. cbn [take app].
      rewrite drop_ge, app_nil_r by lia. done.
  - unfold memread. by rewrite !lookup_take_ge by lia.
Qed.

Lemma memread_take o n m l : (o + n <= m)%nat -> memread o n (take m l) = memread o n l.
Proof.
  intros H. apply list_eq. intros i. destruct (decide (i < n)%nat) as [Hi|Hi].
  - rewrite !lookup_memread by done. by rewrite lookup_take_lt by lia.
  - unfold memread. by rewrite !lookup_take_ge by lia.
Qed.
End memory.

(** ** Little-endian integers and NUL-terminated strings in memory *)

Fixpoint le_bytes (n : nat) (z : Z) : list Z :=
  match n with
  | O => []
  | S n => z mod 256 :: le_bytes n (z / 256)
  end.
Fixpoint le_val (l : list Z) : Z :=
  match l with
  | [] => 0
  | b :: l => b + 256 * le_val l
  end.

Lemma length_le_bytes n z : length (le_bytes n z) = n.
Proof. revert z. induction n as [|n IH]; intros z; cbn; [done|by rewrite IH]. Qed.

Lemma le_val_bytes n z : le_val (le_bytes n z) = z mod 256 ^ Z.of_nat n.
Proof.
  revert z. induction n as [|n IH]; intros z; cbn [le_bytes le_val].
  - by rewrite Z.mod_1_r.
  - rewrite IH, Nat2Z.inj_succ, Z.pow_succ_r, Z.rem_mul_r by lia. done.
Qed.

Lemma le_val_bytes4 z : le_val (le_bytes 4 z) = u32 z.
Proof. by rewrite le_val_bytes. Qed.

Lemma le_val_bytes2 z : le_val (le_bytes 2 z) = u16 z.
Proof. by rewrite le_val_bytes. Qed.

Lemma wraps_wrapu w z : 0 < w -> wraps w (wrapu w z) = wraps w z.
Proof.
  intros. unfold wraps, wrapu. rewrite Z.add_mod_idemp_l; [done|].
  apply Z.pow_nonzero; lia.
Qed.

(** The string that starts at the head of the list: the bytes before the first
    NUL, [None] if there is none. *)
Fixpoint cstr (l : list Z) : option (list Z) :=
  match l with
  | [] => None
  | b :: l => if b =? 0 then Some [] else cons b <$> cstr l
  end.

Definition no_nul (s : list Z) : Prop := Forall (fun b => b <> 0) s.

Lemma cstr_app s l : no_nul s -> cstr (s ++ 0 :: l) = Some s.
Proof.
  induction 1 as [|b s Hb _ IH]; cbn; [done|].
  rewrite (proj2 (Z.eqb_neq _ _)) by done. by rewrite IH.
Qed.

Lemma cstr_app_nul s l : no_nul s -> cstr ((s ++ [0]) ++ l) = Some s.
Proof. intros. rewrite <- app_assoc. by apply cstr_app. Qed.

(** ** Newlines for a terminal

    The loop that copies text into an array and puts a carriage return before each
    newline, as [rpc_backend.c] and [rpmsg_pty.c] have it: [i] bytes are read, [j]
    returns were added. *)

Fixpoint crlf_fill (data : list Z) (i j : nat) (msg : list Z) : nat * nat * list Z :=
  match data with
  | [] => (i, j, msg)
  | b :: data =>
      let '(j, msg) := if b =? 10 then (S j, memwrite (i + j) [13] msg) else (j, msg) in
      crlf_fill data (S i) j (memwrite (i + j) [b] msg)
  end.

Fixpoint crlf (l : list Z) : list Z :=
  match l with
  | [] => []
  | b :: l => if b =? 10 then 13 :: b :: crlf l else b :: crlf l
  end.

Lemma length_crlf l : (length l <= length (crlf l) <= 2 * length l)%nat.
Proof. induction l as [|b l IH]; cbn; [lia|]. case_match; cbn; lia. Qed.

Lemma memwrite_snoc (d l : list Z) x b : memwrite (length d) [b] (d ++ x :: l) = (d ++ [b]) ++ l.
Proof. rewrite <- app_assoc. by apply (memwrite_app d [x] [b] l). Qed.

Lemma crlf_fill_spec data i j d junk :
  length d = (i + j)%nat -> (length (crlf data) <= length junk)%nat ->
  exists i' j' junk',
    crlf_fill data i j (d ++ junk) = (i', j', (d ++ crlf data) ++ junk') /\
    (i' + j' = length (d ++ crlf data))%nat /\ (length junk' + length (crlf data) = length junk)%nat.
Proof.
  revert i j d junk. induction data as [|b data IH]; intros i j d junk Hd Hj; cbn [crlf_fill crlf] in *.
  - exists i, j, junk. rewrite app_nil_r. cbn. split_and!; [done|done|lia].
  - destruct (b =? 10); cbn [length] in Hj.
    + destruct junk as [|x [|y junk]]; [cbn in Hj; lia..|].
      rewrite <- Hd, memwrite_snoc.
      replace (i + S j)%nat with (length (d ++ [13])) by (rewrite length_app; cbn; lia).
      rewrite memwrite_snoc.
      destruct (IH (S i) (S j) ((d ++ [13]) ++ [b]) junk) as (i' & j' & junk' & E & El & Hn).
      * rewrite !length_app. cbn. lia.
      * cbn in Hj. lia.
      * exists i', j', junk'. rewrite E, <- !app_assoc in *. split_and!; [done|done|cbn; lia].
    + destruct junk as [|x junk]; [cbn in Hj; lia|]. rewrite <- Hd, memwrite_snoc.
      destruct (IH (S i) j (d ++ [b]) junk) as (i' & j' & junk' & E & El & Hn).
      * rewrite !length_app. cbn. lia.
      * cbn in Hj |- *. lia.
      * exists i', j', junk'. rewrite E, <- !app_assoc in *. split_and!; [done|done|cbn; lia].
Qed.

(** ** C strings

    Names are [string]s; [strlcpy dst src size] keeps at most [size - 1]
    characters. *)

Definition strlcpy (s : string) (size : nat) : string := String.substring 0 (size - 1) s.
Fixpoint strprefix (n : nat) (s : string) : string :=
  match n, s with
  | S n, String c s => String c (strprefix n s)
  | _, _ => EmptyString
  end.
(** [strncmp(a, b, n) == 0] and [strcmp(a, b) == 0]. *)
Definition strncmp0 (a b : string) (n : nat) : bool := bool_decide (strprefix n a = strprefix n b).
Definition strcmp0 (a b : string) : bool := bool_decide (a = b).

Lemma strprefix_all n s : (String.length s <= n)%nat -> strprefix n s = s.
Proof.
  revert s. induction n as [|n IH]; intros [|c s]; cbn; intros; try done; try lia.
  f_equal. apply IH. lia.
Qed.

Lemma strncmp0_bounded a b n :
  (String.length a <= n)%nat -> (String.length b <= n)%nat -> strncmp0 a b n = strcmp0 a b.
Proof. intros. unfold strncmp0, strcmp0. by rewrite !strprefix_all. Qed.

Lemma strlcpy_idem s n : strlcpy (strlcpy s n) n = strlcpy s n.
Proof.
  unfold strlcpy. generalize (n - 1)%nat as k. intros k. revert s.
  induction k as [|k IH]; intros [|c s]; cbn; try done. by rewrite IH.
Qed.

Lemma strlcpy_short s n : (String.length s < n)%nat -> strlcpy s n = s.
Proof.
  unfold strlcpy. intros H. assert (String.length s <= n - 1)%nat as H' by lia. clear H. revert H'.
  generalize (n - 1)%nat as k. induction s as [|ch s IH]; intros [|k]; cbn; intros; try done; try lia.
  f_equal. apply IH. lia.
Qed.

Lemma length_strprefix n s : (String.length (strprefix n s) <= n)%nat.
Proof. revert s. induction n as [|n IH]; intros [|ch s]; cbn; try lia. specialize (IH s). lia. Qed.

Lemma string_length_app a b : String.length (a +:+ b) = (String.length a + String.length b)%nat.
Proof. induction a as [|ch a IH]; [done|]. apply (f_equal S IH). Qed.

Lemma string_app_assoc (a b c : string) : (a +:+ b) +:+ c = a +:+ (b +:+ c).
Proof. induction a as [|ch a IH]; [done|]. apply (f_equal (String ch) IH). Qed.

Lemma string_app_nil_r (a : string) : a +:+ "" = a.
Proof. induction a as [|ch a IH]; [done|]. apply (f_equal (String ch) IH). Qed.

(** ** Programs that call the outside world

    A C function that calls code outside this repository is a term of
    [io C A R]: it returns, or it makes an external call [c : C] and continues
    with the answer [a : A].  [exec] runs it against an oracle, which chooses
    each answer from the history of calls; a theorem for every oracle holds for
    every behaviour of the outside world. *)

Inductive io (C A R : Type) : Type :=
| Ret (r : R)
| Call (c : C) (k : A -> io C A R).
Arguments Ret {C A R} r.
Arguments Call {C A R} c k.

Section io.
Context {C A : Type}.

Fixpoint bind {R S : Type} (p : io C A R) (f : R -> io C A S) : io C A S :=
  match p with
  | Ret r => f r
  | Call c k => Call c (fun a => bind (k a) f)
  end.

Definition call (c : C) : io C A A := Call c Ret.

Definition history := list (C * A).
Definition oracle := history -> C -> A.

Fixpoint exec {R : Type} (o : oracle) (p : io C A R) (h : history) : R * history :=
  match p with
  | Ret r => (r, h)
  | Call c k => let a := o h c in exec o (k a) (h ++ [(c, a)])
  end.

Definition result {R} (o : oracle) (p : io C A R) : R := (exec o p []).1.
Definition trace {R} (o : oracle) (p : io C A R) : history := (exec o p []).2.

Lemma exec_bind {R S} o (p : io C A R) (f : R -> io C A S) h :
  exec o (bind p f) h = let '(r, h') := exec o p h in exec o (f r) h'.
Proof. revert h. induction p as [r|c k IH]; intros h; cbn; [done|apply IH]. Qed.

(** A history only grows. *)
Lemma exec_extends {R} o (p : io C A R) h : exists t, (exec o p h).2 = h ++ t.
Proof.
  revert h. induction p as [r|c k IH]; intros h; cbn.
  - exists []. by rewrite app_nil_r.
  - destruct (IH (o h c) (h ++ [(c, o h c)])) as [t ->].
    exists ((c, o h c) :: t). by rewrite <- app_assoc.
Qed.
End io.
Arguments history C A : clear implicits.
Arguments oracle C A : clear implicits.

(** ** Monitors

    A monitor folds the calls of a program into a state, e.g. the resources it
    holds.  [wp p Q s] holds if [p], started with monitor state [s], ends with
    [Q] whatever the outside world answers. *)

Section wp.
Context {C A S : Type} (step : S -> C -> A -> S).

Fixpoint wp {R : Type} (p : io C A R) (Q : R -> S -> Prop) (s : S) : Prop :=
  match p with
  | Ret r => Q r s
  | Call c k => forall a, wp (k a) Q (step s c a)
  end.

Definition observe (s : S) (h : history C A) : S := foldl (fun s ca => step s ca.1 ca.2) s h.

Lemma observe_snoc s h c a : observe s (h ++ [(c, a)]) = step (observe s h) c a.
Proof. unfold observe. by rewrite foldl_app. Qed.

Lemma wp_bind {R T} (p : io C A R) (f : R -> io C A T) Q s :
  wp p (fun r s' => wp (f r) Q s') s -> wp (bind p f) Q s.
Proof. revert s. induction p as [r|c k IH]; intros s; cbn; auto. Qed.

Lemma wp_mono {R} (p : io C A R) (Q Q' : R -> S -> Prop) s :
  wp p Q s -> (forall r s', Q r s' -> Q' r s') -> wp p Q' s.
Proof. intros Hp HQ. revert s Hp. induction p as [r|c k IH]; intros s; cbn; auto. Qed.

Lemma wp_sound {R} o (p : io C A R) Q s h :
  wp p Q (observe s h) -> Q (exec o p h).1 (observe s (exec o p h).2).
Proof.
  revert h. induction p as [r|c k IH]; intros h Hp; cbn in *; [done|].
  apply IH. rewrite observe_snoc. apply Hp.
Qed.

Lemma wp_result_trace {R} o (p : io C A R) Q s :
  wp p Q s -> Q (result o p) (observe s (trace o p)).
Proof. apply (wp_sound o p Q s []). Qed.

(** A part of a program whose answer may be anything. *)
Lemma wp_any {R T} (p : io C A R) (f : R -> io C A T) Q s :
  (forall r s', wp (f r) Q s') -> wp (bind p f) Q s.
Proof. intros Hf. apply wp_bind. revert s. induction p as [r|c k IH]; intros s; cbn; auto. Qed.
End wp.
Arguments wp : simpl nomatch.

(** The same with a contract on the outside world: [valid c a] holds if [a] is a
    possible answer to [c]. *)
Section wpv.
Context {C A S : Type} (step : S -> C -> A -> S) (valid : C -> A -> Prop).

Fixpoint wpv {R : Type} (p : io C A R) (Q : R -> S -> Prop) (s : S) : Prop :=
  match p with
  | Ret r => Q r s
  | Call c k => forall a, valid c a -> wpv (k a) Q (step s c a)
  end.

Lemma wpv_bind {R T} (p : io C A R) (f : R -> io C A T) Q s :
  wpv p (fun r s' => wpv (f r) Q s') s -> wpv (bind p f) Q s.
Proof. revert s. induction p as [r|c k IH]; intros s; cbn; auto. Qed.

Lemma wpv_mono {R} (p : io C A R) (Q Q' : R -> S -> Prop) s :
  wpv p Q s -> (forall r s', Q r s' -> Q' r s') -> wpv p Q' s.
Proof. intros Hp HQ. revert s Hp. induction p as [r|c k IH]; intros s; cbn; auto. Qed.

Lemma wpv_sound {R} o (p : io C A R) Q s h :
  (forall h c, valid c (o h c)) ->
  wpv p Q (observe step s h) -> Q (exec o p h).1 (observe step s (exec o p h).2).
Proof.
  intros Ho. revert h. induction p as [r|c k IH]; intros h Hp; cbn in *; [done|].
  apply IH. rewrite observe_snoc. by apply Hp.
Qed.

Lemma wpv_result_trace {R} o (p : io C A R) Q s :
  (forall h c, valid c (o h c)) -> wpv p Q s -> Q (result o p) (observe step s (trace o p)).
Proof. intros Ho. apply (wpv_sound o p Q s [] Ho). Qed.

Lemma wpv_true {R} (p : io C A R) s : wpv p (fun _ _ => True) s.
Proof. revert s. induction p as [r|c k IH]; intros s; cbn; auto. Qed.

(** A part of a program whose answer may be anything. *)
Lemma wpv_any {R T} (p : io C A R) (f : R -> io C A T) Q s :
  (forall r s', wpv (f r) Q s') -> wpv (bind p f) Q s.
Proof. intros Hf. apply wpv_bind. eapply wpv_mono; [apply wpv_true|]. auto. Qed.
End wpv.
Arguments wpv : simpl nomatch.

(** Two accounts of the same program. *)
Lemma wpv_and {C A S R : Type} (step : S -> C -> A -> S) (V V' : C -> A -> Prop) (p : io C A R) Q Q' s :
  wpv step V p Q s -> wpv step V' p Q' s ->
  wpv step (fun c a => V c a /\ V' c a) p (fun r s' => Q r s' /\ Q' r s') s.
Proof.
  revert s. induction p as [r|c k IH]; intros s; cbn; [by split|]. intros H H' a [Ha Ha']. apply IH; auto.
Qed.

Notation "x <- p ;; q" := (bind p (fun x => q))
  (at level 100, p at next level, right associativity, only parsing) : mcs_scope.
Notation "p ;;; q" := (bind p (fun _ => q))
  (at level 100, right associativity, only parsing) : mcs_scope.
Global Open Scope mcs_scope.

(** ** Removal of one occurrence, [None] if there is none *)

Fixpoint remove1 {A} `{EqDecision A} (x : A) (l : list A) : option (list A) :=
  match l with
  | [] => None
  | y :: l => if decide (x = y) then Some l else cons y <$> remove1 x l
  end.

Lemma remove1_head {A} `{EqDecision A} (x : A) l : remove1 x (x :: l) = Some l.
Proof. cbn. by rewrite decide_True. Qed.

Lemma remove1_app_r {A} `{EqDecision A} (x : A) l1 l2 :
  x ∉ l1 -> remove1 x (l1 ++ l2) = app l1 <$> remove1 x l2.
Proof.
  induction l1 as [|y l1 IH]; cbn; intros H.
  - by destruct (remove1 x l2).
  - rewrite decide_False, IH by set_solver. by destruct (remove1 x l2).
Qed.

Lemma remove1_perm {A} `{EqDecision A} (x : A) l l' :
  l ≡ₚ x :: l' -> exists l2, remove1 x l = Some l2 /\ l2 ≡ₚ l'.
Proof.
  revert l'. induction l as [|y l IH]; intros l' Hp.
  { by apply Permutation_nil_cons in Hp. }
  cbn. destruct (decide (x = y)) as [->|Hne].
  - exists l. split; [done|]. by apply Permutation_cons_inv in Hp.
  - assert (x ∈ l) as Hin.
    { assert (x ∈ y :: l) as H by (rewrite Hp; set_solver). set_solver. }
    apply list_elem_of_split in Hin as (l1 & l3 & ->).
    destruct (IH (l1 ++ l3)) as (l2 & E & Hl2); [by rewrite Permutation_middle|].
    exists (y :: l2). rewrite E. split; [done|]. rewrite Hl2.
    apply (Permutation_cons_inv (a := x)). rewrite <- Hp.
    rewrite Permutation_swap. by rewrite Permutation_middle.
Qed.

Lemma NoDup_fmap_elem_inj {A B} (f : A -> B) (l : list A) x y :
  NoDup (f <$> l) -> x ∈ l -> y ∈ l -> f x = f y -> x = y.
Proof.
  induction l as [|z l IH]; cbn; [set_solver|]. intros [Hz Hn]%NoDup_cons Hx Hy E.
  apply elem_of_cons in Hx as [->|Hx], Hy as [->|Hy]; eauto; exfalso; apply Hz.
  - rewrite E. by apply list_elem_of_fmap_2.
  - rewrite <- E. by apply list_elem_of_fmap_2.
Qed.

(** ** Termination

    A relation that changes one element of a list is well-founded if the changes of
    its elements are, and a program with external calls is finite. *)

Definition upd1 {A} (R : A -> A -> Prop) (l' l : list A) : Prop :=
  exists i x x', l !! i = Some x /\ R x' x /\ l' = <[i := x']> l.

Lemma Acc_upd1 {A} (R : A -> A -> Prop) l : Forall (Acc R) l -> Acc (upd1 R) l.
Proof.
  induction 1 as [|x l Hx _ Hl]; [by constructor; intros ? (i & ? & ? & ? & _)|].
  revert l Hl. induction Hx as [x _ IHx]. intros l Hl. induction Hl as [l Hl' IHl].
  constructor. intros l' ([|i] & y & y' & Hi & Hr & ->); cbn in *.
  - injection Hi as ->. apply IHx; [done|]. by constructor.
  - apply IHl. by exists i, y, y'.
Qed.

Definition next_prog {C A R : Type} (p' p : io C A R) : Prop := exists c k a, p = Call c k /\ p' = k a.

Lemma next_prog_wf {C A R : Type} : well_founded (@next_prog C A R).
Proof. intros p. induction p as [r|c k IH]; constructor; intros p' (c' & k' & a & E & ->); by simplify_eq. Qed.

(** A thread that may have ended. *)
Definition next_opt {C A R : Type} (p' p : option (io C A R)) : Prop :=
  match p', p with
  | None, Some _ => True
  | Some p', Some p => next_prog p' p
  | _, _ => False
  end.

Lemma next_opt_wf {C A R : Type} : well_founded (@next_opt C A R).
Proof.
  assert (Acc (@next_opt C A R) None) as Hnone by (constructor; by intros []).
  intros [p|]; [|done]. induction (next_prog_wf p) as [p _ IH]. constructor.
  intros [p'|]; [|done]. apply IH.
Qed.

(** ** Automation *)

Create HintDb mcs discriminated.
#[export] Hint Resolve wrapu_range : mcs.

(** Destructs the tests of a translated C function until it has returned. *)
Ltac csteps :=
  repeat (cbn in *; try case_match; simplify_eq; try done).

(** Turns boolean comparisons of the source into propositions. *)
Ltac bool_to_Prop :=
  repeat match goal with
  | H : (_ <? _) = true |- _ => apply Z.ltb_lt in H
  | H : (_ <? _) = false |- _ => apply Z.ltb_ge in H
  | H : (_ <=? _) = true |- _ => apply Z.leb_le in H
  | H : (_ <=? _) = false |- _ => apply Z.leb_gt in H
  | H : (_ =? _) = true |- _ => apply Z.eqb_eq in H
  | H : (_ =? _) = false |- _ => apply Z.eqb_neq in H
  | H : (_ && _)%bool = true |- _ => apply andb_true_iff in H as [? ?]
  | H : (_ || _)%bool = false |- _ => apply orb_false_iff in H as [? ?]
  | H : negb _ = true |- _ => apply negb_true_iff in H
  | H : negb _ = false |- _ => apply negb_false_iff in H
  end.
