(* ===== verification/RingBuffer.v ===== *)
(** * The shared-memory ring buffer ([library/rbuf_device/ring_buffer.c])

    A [ring_buffer] is the C structure: two free-running 32-bit counters, the
    capacity and the data area.  The operations are those of the source; [wmb()]
    orders them and has no counterpart in this sequentially consistent model.
    The theorems relate the structure to the byte queue it stores
    ([contents]). *)

From S2P Require Import Prelude.

Record ring_buffer := RingBuffer {
  rb_in : Z;
  rb_out : Z;
  rb_len : Z;
  rb_esize : Z;
  rb_data : list Z;
}.

(** [sizeof(ring_buffer_t)]: four [unsigned int]s and an empty array. *)
Definition sizeof_ring_buffer : Z := 16.

(** [esize] and the data area are not touched by the initialisation. *)
Definition ring_buffer_init (rb : ring_buffer) (len : Z) : ring_buffer :=
  RingBuffer 0 0 (u32 len) (rb_esize rb) (rb_data rb).

(** Both addresses may be NULL ([None]).  [len <= sizeof(ring_buffer_t)]
    compares an [int] with a [size_t], so [len] is converted to 64 bits. *)
Definition ring_buffer_pair_init (rxaddr txaddr : option ring_buffer) (len : Z)
    : Z * option ring_buffer * option ring_buffer :=
  match rxaddr, txaddr with
  | Some rx, Some tx =>
      if u64 len <=? sizeof_ring_buffer then (-1, rxaddr, txaddr)
      else (0, Some (ring_buffer_init rx (i32 (u64 (len - sizeof_ring_buffer)))),
               Some (ring_buffer_init tx (i32 (u64 (len - sizeof_ring_buffer)))))
  | _, _ => (-1, rxaddr, txaddr)
  end.

Definition kfifo_unused (fifo : ring_buffer) : Z :=
  u32 (rb_len fifo - u32 (rb_in fifo - rb_out fifo)).

(** The two [memcpy] calls into the data area. *)
Definition kfifo_copy_in (fifo : ring_buffer) (src : list Z) (len off : Z) : ring_buffer :=
  let size := rb_len fifo in
  let off := off mod size in
  let l := Z.min len (size - off) in
  let d1 := memwrite (Z.to_nat off) (take (Z.to_nat l) src) (rb_data fifo) in
  let d2 := memwrite 0 (take (Z.to_nat (len - l)) (drop (Z.to_nat l) src)) d1 in
  RingBuffer (rb_in fifo) (rb_out fifo) (rb_len fifo) (rb_esize fifo) d2.

Definition __kfifo_in (fifo : ring_buffer) (buf : list Z) (len : Z) : ring_buffer * Z :=
  let l := kfifo_unused fifo in
  let len := if l <? len then l else len in
  let fifo := kfifo_copy_in fifo buf len (rb_in fifo) in
  (RingBuffer (u32 (rb_in fifo + len)) (rb_out fifo) (rb_len fifo) (rb_esize fifo)
     (rb_data fifo), len).

(** The two [memcpy] calls out of the data area: the bytes stored at [dst]. *)
Definition kfifo_copy_out (fifo : ring_buffer) (len off : Z) : list Z :=
  let size := rb_len fifo in
  let off := off mod size in
  let l := Z.min len (size - off) in
  memread (Z.to_nat off) (Z.to_nat l) (rb_data fifo) ++
  memread 0 (Z.to_nat (len - l)) (rb_data fifo).

Definition __kfifo_out_peek (fifo : ring_buffer) (len : Z) : list Z * Z :=
  let l := u32 (rb_in fifo - rb_out fifo) in
  let len := if l <? len then l else len in
  (kfifo_copy_out fifo len (rb_out fifo), len).

Definition __kfifo_out (fifo : ring_buffer) (len : Z) : ring_buffer * list Z * Z :=
  let '(buf, len) := __kfifo_out_peek fifo len in
  (RingBuffer (rb_in fifo) (u32 (rb_out fifo + len)) (rb_len fifo) (rb_esize fifo)
     (rb_data fifo), buf, len).

(** One iteration of the loop of [ring_buffer_write] (lines 174-175). *)
Definition ring_buffer_write_step (rb : ring_buffer) (buf : list Z) (cnt len : Z)
    : ring_buffer * Z :=
  let '(rb, o) := __kfifo_in rb (drop (Z.to_nat cnt) buf) (u32 (len - cnt)) in
  (rb, i32 (cnt + i32 o)).

(** The loop spins until every byte is written; [peer i] is what the other
    side does to the shared structure between iteration [i] and the next one.
    [None] is "still spinning after [fuel] iterations". *)
Fixpoint ring_buffer_write_loop (fuel : nat) (peer : nat -> ring_buffer -> ring_buffer)
    (rb : ring_buffer) (buf : list Z) (cnt len : Z) : option (ring_buffer * Z) :=
  if cnt <? len then
    match fuel with
    | O => None
    | S fuel =>
        let '(rb, cnt) := ring_buffer_write_step rb buf cnt len in
        ring_buffer_write_loop fuel peer (peer fuel rb) buf cnt len
    end
  else Some (rb, cnt).

Definition ring_buffer_write fuel peer rb buf len :=
  ring_buffer_write_loop fuel peer rb buf 0 len.

(** The [int] length is converted to [unsigned int]. *)
Definition ring_buffer_read (rb : ring_buffer) (len : Z) : ring_buffer * list Z * Z :=
  let '(rb, buf, n) := __kfifo_out rb (u32 len) in (rb, buf, i32 n).

(** ** The stored queue and the representation invariant *)

Definition used (rb : ring_buffer) : Z := u32 (rb_in rb - rb_out rb).

(** The stored bytes, oldest first: the occupied arc of the data area. *)
Definition contents (rb : ring_buffer) : list Z :=
  let off := Z.to_nat (rb_out rb mod rb_len rb) in
  take (Z.to_nat (used rb)) (drop off (rb_data rb) ++ take off (rb_data rb)).

(** Either the capacity divides [2^32], or neither counter has wrapped. *)
Record ring_inv (rb : ring_buffer) : Prop := RingInv {
  ri_len : 0 < rb_len rb < 2 ^ 32;
  ri_data : length (rb_data rb) = Z.to_nat (rb_len rb);
  ri_in : 0 <= rb_in rb < 2 ^ 32;
  ri_out : 0 <= rb_out rb < 2 ^ 32;
  ri_used : used rb <= rb_len rb;
  ri_wrap : (rb_len rb | 2 ^ 32) \/ rb_out rb <= rb_in rb;
}.

(** The capacity promised to a client: writing [n] more bytes does not take
    the [in] counter past [2^32], unless wrapping is harmless. *)
Definition no_wrap (rb : ring_buffer) (n : Z) : Prop :=
  (rb_len rb | 2 ^ 32) \/ rb_in rb + n < 2 ^ 32.

Lemma no_wrap_mono rb n m : no_wrap rb n -> m <= n -> no_wrap rb m.
Proof. unfold no_wrap. intros [?|?] ?; [by left|right; lia]. Qed.

Lemma used_range rb : 0 <= used rb < 2 ^ 32.
Proof. apply wrapu_range. lia. Qed.

Lemma out_mod_range rb : ring_inv rb -> 0 <= rb_out rb mod rb_len rb < rb_len rb.
Proof. intros []. apply Z.mod_pos_bound. lia. Qed.

Lemma used_unwrapped rb :
  ring_inv rb -> rb_out rb <= rb_in rb -> used rb = rb_in rb - rb_out rb.
Proof. intros [] ?. apply wrapu_small. lia. Qed.

(** The counter [in] designates the slot behind the stored bytes. *)
Lemma in_slot rb :
  ring_inv rb -> rb_in rb mod rb_len rb = (rb_out rb + used rb) mod rb_len rb.
Proof.
  intros [Hl _ Hi Ho Hu Hw]. unfold used, wrapu.
  destruct Hw as [[k Hk]|Hw].
  - rewrite (Z.mod_eq (rb_in rb - rb_out rb)) by lia. rewrite Hk.
    set (q := (rb_in rb - rb_out rb) / _).
    replace (rb_out rb + _) with (rb_in rb + (- (k * q)) * rb_len rb) by lia.
    by rewrite Z_mod_plus_full.
  - rewrite (Z.mod_small (_ - _)) by lia. f_equal. lia.
Qed.

Lemma kfifo_unused_spec rb : ring_inv rb -> kfifo_unused rb = rb_len rb - used rb.
Proof.
  intros H. pose proof (used_range rb). destruct H as [? ? ? ? Hu ?].
  unfold kfifo_unused. fold (used rb). apply wrapu_small. lia.
Qed.

Lemma length_contents rb : ring_inv rb -> length (contents rb) = Z.to_nat (used rb).
Proof.
  intros H. pose proof (used_range rb). destruct H as [? Hd ? ? Hu ?].
  unfold contents. rewrite length_take, length_app, length_drop, length_take. lia.
Qed.

(** Byte [i] of the queue is in slot [(out + i) mod len]. *)
Lemma lookup_contents rb i :
  ring_inv rb -> (i < Z.to_nat (used rb))%nat ->
  contents rb !! i = rb_data rb !! Z.to_nat ((rb_out rb + Z.of_nat i) mod rb_len rb).
Proof.
  intros H Hi. pose proof (out_mod_range rb H). pose proof (used_range rb).
  destruct H as [Hl Hd _ _ Hu _]. unfold contents. rewrite lookup_take_lt by done.
  rewrite <- Zplus_mod_idemp_l. set (o := rb_out rb mod rb_len rb) in *. clearbody o.
  destruct (Z_lt_le_dec (o + Z.of_nat i) (rb_len rb)).
  - rewrite lookup_app_l by (rewrite length_drop; lia).
    rewrite lookup_drop, Z.mod_small by lia. f_equal. lia.
  - rewrite lookup_app_r by (rewrite length_drop; lia).
    rewrite length_drop, lookup_take_lt by lia.
    rewrite <- (Z_mod_plus_full (o + Z.of_nat i) (-1)), Z.mod_small by lia. f_equal. lia.
Qed.

(** ** Copying in and out *)

Lemma length_copy_in rb src len off :
  length (rb_data (kfifo_copy_in rb src len off)) = length (rb_data rb).
Proof. unfold kfifo_copy_in. cbn. by rewrite !length_memwrite. Qed.

(** [kfifo_copy_in] stores byte [k] of [src] in slot [(off + k) mod size]. *)
Lemma lookup_copy_in rb src len off j :
  0 < rb_len rb -> length (rb_data rb) = Z.to_nat (rb_len rb) ->
  0 <= len <= rb_len rb -> (Z.to_nat len <= length src)%nat -> 0 <= j < rb_len rb ->
  rb_data (kfifo_copy_in rb src len off) !! Z.to_nat j =
    let k := (j - off) mod rb_len rb in
    if k <? len then src !! Z.to_nat k else rb_data rb !! Z.to_nat j.
Proof.
  intros Hl Hd Hlen Hsrc Hj. unfold kfifo_copy_in. cbn [rb_data].
  set (o := off mod rb_len rb).
  assert (0 <= o < rb_len rb) by (apply Z.mod_pos_bound; lia).
  assert ((j - off) mod rb_len rb = (j - o) mod rb_len rb) as ->
    by (unfold o; by rewrite Zminus_mod_idemp_r).
  rewrite lookup_memwrite; rewrite ?length_memwrite, ?length_take, ?length_drop; [|lia].
  rewrite lookup_memwrite by (rewrite length_take; lia).
  rewrite ?length_take, ?length_drop.
  destruct (Z_lt_le_dec j o) as [Hjo|Hjo].
  - rewrite <- (Z_mod_plus_full (j - o) 1), (Z.mod_small (j - o + _)) by lia. cbv zeta.
    rewrite (decide_False (P := (Z.to_nat o <= _ < _)%nat)) by lia.
    destruct (Z.ltb_spec (j - o + 1 * rb_len rb) len).
    + rewrite decide_True by lia. rewrite lookup_take_lt by lia.
      rewrite lookup_drop. f_equal. lia.
    + rewrite decide_False by lia. done.
  - rewrite (Z.mod_small (j - o)) by lia. cbv zeta.
    rewrite (decide_False (P := (_ <= Z.to_nat j < 0 + _)%nat)) by lia.
    destruct (Z.ltb_spec (j - o) len).
    + rewrite decide_True by lia. rewrite lookup_take_lt by lia. f_equal. lia.
    + rewrite decide_False by lia. done.
Qed.

(** Reading [len] bytes from slot [off mod size] on. *)
Lemma copy_out_spec rb len :
  ring_inv rb -> 0 <= len <= used rb ->
  kfifo_copy_out rb len (rb_out rb) = take (Z.to_nat len) (contents rb).
Proof.
  intros H Hlen. pose proof (out_mod_range rb H). pose proof (used_range rb).
  destruct H as [Hl Hd _ _ Hu _]. unfold kfifo_copy_out, contents.
  set (o := rb_out rb mod rb_len rb) in *. cbv zeta.
  rewrite take_take, Nat.min_l by lia. unfold memread. rewrite drop_0.
  rewrite take_app, length_drop. f_equal.
  - destruct (Z_lt_le_dec len (rb_len rb - o)).
    + f_equal. lia.
    + rewrite !take_ge; rewrite ?length_drop; [done|lia|lia].
  - rewrite take_take. f_equal. lia.
Qed.

(** ** Enqueueing and dequeueing refine a byte queue *)

Lemma used_after_in rb n :
  ring_inv rb -> 0 <= n <= rb_len rb - used rb ->
  u32 (u32 (rb_in rb + n) - rb_out rb) = used rb + n.
Proof.
  intros [] Hn. pose proof (used_range rb).
  unfold Z.sub. rewrite wrapu_add_l by lia.
  replace (rb_in rb + n + - rb_out rb) with (rb_in rb - rb_out rb + n) by lia.
  rewrite <- wrapu_add_l by lia. apply wrapu_small. unfold used in *. lia.
Qed.

Lemma kfifo_in_len rb len :
  ring_inv rb ->
  (if kfifo_unused rb <? len then kfifo_unused rb else len) = Z.min len (rb_len rb - used rb).
Proof. intros H. rewrite kfifo_unused_spec by done. case_match; bool_to_Prop; lia. Qed.

(** The bytes an enqueue of [len] bytes stores. *)
Definition stored (rb : ring_buffer) (len : Z) : Z := Z.min len (rb_len rb - used rb).

Lemma no_wrap_stored rb len : no_wrap rb len -> no_wrap rb (stored rb len).
Proof. intros H. apply (no_wrap_mono _ _ _ H). unfold stored. lia. Qed.

(** The counters after an enqueue of [n] bytes keep the invariant. *)
Lemma kfifo_in_inv rb buf len :
  ring_inv rb -> 0 <= len < 2 ^ 32 -> no_wrap rb (stored rb len) ->
  ring_inv (__kfifo_in rb buf len).1.
Proof.
  intros H Hlen Hw. unfold __kfifo_in. cbn [fst rb_in rb_out rb_len rb_esize rb_data].
  rewrite kfifo_in_len by done. unfold stored in Hw. set (n := Z.min _ _) in *.
  pose proof (used_range rb). pose proof (ri_used _ H). pose proof (ri_in _ H).
  pose proof (ri_len _ H).
  assert (0 <= n <= rb_len rb - used rb) by lia.
  split; cbn; [apply H| | apply wrapu_range; lia | apply H | |].
  - rewrite !length_memwrite. apply H.
  - unfold used. cbn. rewrite used_after_in by done. lia.
  - destruct (ri_wrap _ H) as [?|?]; [by left|].
    destruct Hw as [?|?]; [by left|right]. rewrite wrapu_small; lia.
Qed.

Lemma kfifo_in_contents rb buf len :
  ring_inv rb -> 0 <= len < 2 ^ 32 -> (Z.to_nat len <= length buf)%nat ->
  no_wrap rb (stored rb len) ->
  contents (__kfifo_in rb buf len).1 =
    contents rb ++ take (Z.to_nat (Z.min len (rb_len rb - used rb))) buf.
Proof.
  intros H Hlen Hbuf Hw. pose proof (kfifo_in_inv rb buf len H Hlen Hw) as H'.
  pose proof (used_range rb). pose proof (ri_used _ H). pose proof (ri_len _ H).
  pose proof (ri_data _ H). pose proof (in_slot _ H) as Hslot.
  set (rb' := (__kfifo_in rb buf len).1) in *. set (n := Z.min _ _) in *.
  assert (used rb' = used rb + n) as Hu.
  { unfold rb', __kfifo_in, used at 1. cbn.
    rewrite kfifo_in_len by done. apply used_after_in; [done|]. unfold n. lia. }
  assert (rb_data rb' = rb_data (kfifo_copy_in rb buf n (rb_in rb))) as Hd.
  { unfold rb', __kfifo_in. rewrite kfifo_in_len by done. done. }
  assert (rb_out rb' = rb_out rb /\ rb_len rb' = rb_len rb) as [Ho Hl] by done.
  clearbody rb'. unfold n in *.
  apply list_eq_same_length with (n := Z.to_nat (used rb + Z.min len (rb_len rb - used rb))).
  { rewrite length_app, length_contents, length_take by done. lia. }
  { rewrite length_contents by done. f_equal. lia. }
  intros i x y Hi. rewrite lookup_contents by (lia || done). rewrite Hd, Ho, Hl.
  rewrite lookup_copy_in; [|lia..|apply Z.mod_pos_bound; lia]. cbv zeta.
  rewrite Zminus_mod, Hslot, <- Zminus_mod, Zminus_mod_idemp_l.
  replace (rb_out rb + Z.of_nat i - (rb_out rb + used rb)) with (Z.of_nat i - used rb) by lia.
  destruct (Z_lt_le_dec (Z.of_nat i) (used rb)).
  - rewrite <- (Z_mod_plus_full (Z.of_nat i - used rb) 1), Z.mod_small by lia.
    case_match; bool_to_Prop; [lia|].
    rewrite lookup_app_l by (rewrite length_contents by done; lia).
    rewrite lookup_contents by (lia || done). congruence.
  - rewrite Z.mod_small by lia. case_match; bool_to_Prop; [|lia].
    rewrite lookup_app_r by (rewrite length_contents by done; lia).
    rewrite length_contents, lookup_take_lt by (lia || done).
    replace (Z.to_nat (Z.of_nat i - used rb)) with (i - Z.to_nat (used rb))%nat by lia.
    congruence.
Qed.

Lemma kfifo_in_count rb buf len :
  ring_inv rb -> (__kfifo_in rb buf len).2 = Z.min len (rb_len rb - used rb).
Proof. intros H. unfold __kfifo_in. cbn. by apply kfifo_in_len. Qed.

Lemma kfifo_in_frame rb buf len :
  rb_len (__kfifo_in rb buf len).1 = rb_len rb /\ rb_out (__kfifo_in rb buf len).1 = rb_out rb.
Proof. done. Qed.

Lemma kfifo_out_len rb len :
  (if used rb <? len then used rb else len) = Z.min len (used rb).
Proof. case_match; bool_to_Prop; lia. Qed.

Lemma kfifo_out_inv rb len :
  ring_inv rb -> 0 <= len -> ring_inv (__kfifo_out rb len).1.1.
Proof.
  intros H Hlen. unfold __kfifo_out, __kfifo_out_peek. fold (used rb). cbn.
  rewrite kfifo_out_len. set (n := Z.min _ _).
  pose proof (used_range rb). pose proof (ri_used _ H). pose proof (ri_in _ H).
  pose proof (ri_out _ H). pose proof (ri_len _ H).
  split; cbn; [apply H|apply H|apply H|apply wrapu_range; lia| |].
  - unfold used; cbn. unfold wrapu at 2. unfold wrapu. rewrite Zminus_mod_idemp_r.
    replace (rb_in rb - (rb_out rb + n)) with (rb_in rb - rb_out rb - n) by lia.
    rewrite <- Zminus_mod_idemp_l. change ((rb_in rb - rb_out rb) mod _) with (used rb).
    rewrite Z.mod_small; lia.
  - destruct (ri_wrap _ H) as [?|Hle]; [by left|right].
    apply used_unwrapped in Hle; [|done]. rewrite wrapu_small; lia.
Qed.

Lemma kfifo_out_used rb len :
  ring_inv rb -> 0 <= len -> used (__kfifo_out rb len).1.1 = used rb - Z.min len (used rb).
Proof.
  intros H Hlen. unfold __kfifo_out, __kfifo_out_peek. fold (used rb). cbn.
  rewrite kfifo_out_len. pose proof (used_range rb).
  unfold used at 1; cbn. unfold wrapu. rewrite Zminus_mod_idemp_r.
  replace (rb_in rb - (rb_out rb + _)) with (rb_in rb - rb_out rb - Z.min len (used rb)) by lia.
  rewrite <- Zminus_mod_idemp_l. change ((rb_in rb - rb_out rb) mod _) with (used rb).
  rewrite Z.mod_small; lia.
Qed.

Lemma kfifo_out_contents rb len :
  ring_inv rb -> 0 <= len ->
  contents rb = (__kfifo_out rb len).1.2 ++ contents (__kfifo_out rb len).1.1.
Proof.
  intros H Hlen. pose proof (kfifo_out_inv rb len H Hlen) as H'.
  pose proof (kfifo_out_used rb len H Hlen) as Hu. pose proof (used_range rb).
  set (n := Z.min len (used rb)) in *.
  assert ((__kfifo_out rb len).1.2 = take (Z.to_nat n) (contents rb)) as ->.
  { unfold __kfifo_out, __kfifo_out_peek. fold (used rb). cbn.
    rewrite kfifo_out_len. apply copy_out_spec; [done|lia]. }
  set (rb' := (__kfifo_out rb len).1.1) in *.
  assert (rb_data rb' = rb_data rb /\ rb_len rb' = rb_len rb) as [Hd Hl] by done.
  assert (rb_out rb' mod rb_len rb = (rb_out rb + n) mod rb_len rb) as Ho.
  { unfold rb', __kfifo_out, __kfifo_out_peek. fold (used rb). cbn.
    rewrite kfifo_out_len. fold n. pose proof (ri_out _ H). pose proof (ri_in _ H).
    destruct (ri_wrap _ H) as [[k Hk]|Hle].
    - pose proof (ri_len _ H). assert (0 < k) by nia.
      unfold wrapu. rewrite Hk, (Z.mul_comm k), Z.rem_mul_r by lia.
      by rewrite (Z.mul_comm (rb_len rb)), Z_mod_plus_full, Zmod_mod.
    - apply used_unwrapped in Hle; [|done]. rewrite wrapu_small by lia. done. }
  clearbody rb'. rewrite <- (take_drop (Z.to_nat n) (contents rb)) at 1. f_equal.
  apply list_eq_same_length with (n := Z.to_nat (used rb - n)).
  { rewrite length_contents by done. lia. }
  { rewrite length_drop, length_contents by done. lia. }
  intros i x y Hi. rewrite lookup_drop, !lookup_contents by (lia || done).
  rewrite Hd, Hl, <- (Zplus_mod_idemp_l (rb_out rb')), Ho, Zplus_mod_idemp_l.
  replace (rb_out rb + Z.of_nat (Z.to_nat n + i)) with (rb_out rb + n + Z.of_nat i) by lia.
  congruence.
Qed.

(** ** The writer's loop *)

Lemma write_step_spec rb buf cnt len :
  ring_inv rb -> 0 <= cnt < len -> len < 2 ^ 31 -> (Z.to_nat len <= length buf)%nat ->
  no_wrap rb (len - cnt) ->
  let '(rb', cnt') := ring_buffer_write_step rb buf cnt len in
  let n := Z.min (len - cnt) (rb_len rb - used rb) in
  cnt' = cnt + n /\ ring_inv rb' /\ rb_len rb' = rb_len rb /\
  rb_in rb' = u32 (rb_in rb + n) /\
  contents rb' = contents rb ++ memread (Z.to_nat cnt) (Z.to_nat n) buf.
Proof.
  intros H Hcnt Hlen Hbuf Hw%no_wrap_stored. unfold ring_buffer_write_step.
  rewrite wrapu_small by lia.
  destruct (__kfifo_in rb _ (len - cnt)) as [rb' o] eqn:E.
  pose proof (kfifo_in_count rb (drop (Z.to_nat cnt) buf) (len - cnt) H) as Ho.
  pose proof (kfifo_in_inv rb (drop (Z.to_nat cnt) buf) (len - cnt) H ltac:(lia) Hw) as Hi.
  pose proof (kfifo_in_contents rb (drop (Z.to_nat cnt) buf) (len - cnt) H ltac:(lia)
    ltac:(rewrite length_drop; lia) Hw) as Hc.
  pose proof (kfifo_in_len rb (len - cnt) H) as Hn.
  pose proof (used_range rb). pose proof (ri_used _ H).
  rewrite E in Ho, Hi, Hc. cbn in Ho, Hi, Hc. subst o.
  rewrite (wraps_small 32 (Z.min _ _)), wraps_small by lia. split_and!; try done.
  - unfold __kfifo_in in E. by simplify_eq.
  - unfold __kfifo_in in E. rewrite Hn in E. by simplify_eq.
Qed.

(** What the writer may assume of the reader: it leaves a valid ring, does not
    touch the writer's counter, and frees something when the ring is full. *)
Definition draining (peer : nat -> ring_buffer -> ring_buffer) : Prop :=
  forall i rb, ring_inv rb ->
    ring_inv (peer i rb) /\ rb_len (peer i rb) = rb_len rb /\ rb_in (peer i rb) = rb_in rb /\
    used (peer i rb) < rb_len rb.

Lemma write_loop_returns peer buf len fuel rb cnt :
  draining peer -> ring_inv rb -> 0 <= cnt <= len -> len < 2 ^ 31 ->
  (Z.to_nat len <= length buf)%nat -> no_wrap rb (len - cnt) ->
  len - cnt <= Z.of_nat fuel -> used rb < rb_len rb \/ len - cnt < Z.of_nat fuel ->
  exists rb', ring_buffer_write_loop fuel peer rb buf cnt len = Some (rb', len) /\
    ring_inv rb'.
Proof.
  intros Hp. revert rb cnt. induction fuel as [|fuel IH]; intros rb cnt Hi Hc Hl Hb Hw Hf Hfree.
  - cbn. destruct (Z.ltb_spec cnt len); [lia|]. replace len with cnt by lia. eauto.
  - cbn [ring_buffer_write_loop]. destruct (Z.ltb_spec cnt len); [|replace len with cnt by lia; eauto].
    pose proof (write_step_spec rb buf cnt len Hi ltac:(lia) Hl Hb Hw) as Hs.
    destruct (ring_buffer_write_step rb buf cnt len) as [rb1 cnt1].
    cbv zeta in Hs. destruct Hs as (Hcnt & Hi1 & Hl1 & Hin1 & _).
    destruct (Hp fuel rb1 Hi1) as (Hi2 & Hl2 & Hin2 & Hu2).
    pose proof (ri_used _ Hi). pose proof (used_range rb).
    apply IH; try done; try lia.
    unfold no_wrap in *. rewrite Hl2, Hl1, Hin2, Hin1.
    pose proof (ri_in _ Hi).
    destruct Hw as [?|?]; [by left|right]. rewrite wrapu_small; lia.
Qed.

(** ** Concurrent use: any interleaving of enqueues and dequeues

    A configuration carries the ring, every byte ever written and every byte
    ever read. *)

Record ring_config := RingConfig {
  rc_ring : ring_buffer;
  rc_written : list Z;
  rc_read : list Z;
}.

Inductive ring_step : ring_config -> ring_config -> Prop :=
| ring_step_in rb w r buf len :
    0 <= len < 2 ^ 32 -> (Z.to_nat len <= length buf)%nat ->
    ring_step (RingConfig rb w r)
      (RingConfig (__kfifo_in rb buf len).1 (w ++ take (Z.to_nat (__kfifo_in rb buf len).2) buf) r)
| ring_step_out rb w r len :
    0 <= len < 2 ^ 32 ->
    ring_step (RingConfig rb w r)
      (RingConfig (__kfifo_out rb len).1.1 w (r ++ (__kfifo_out rb len).1.2)).

(** [n] bytes in all can be stored, from the ring [start] on, before the 32-bit
    counter [in] wraps; a capacity that divides [2^32] lifts the bound. *)
Definition counter_lasts (start : ring_buffer) (n : nat) : Prop := no_wrap start (Z.of_nat n).

(** The ring is valid and stores what was written and not yet read; unless
    wrapping is harmless, [in] has counted every byte written. *)
Record fifo_config (start : ring_buffer) (c : ring_config) : Prop := FifoConfig {
  fc_inv : ring_inv (rc_ring c);
  fc_fifo : rc_written c = rc_read c ++ contents (rc_ring c);
  fc_len : rb_len (rc_ring c) = rb_len start;
  fc_in : (rb_len start | 2 ^ 32) \/
          rb_in (rc_ring c) = rb_in start + Z.of_nat (length (rc_written c));
}.

(** What has been written stays written, so the bound at the end of a run
    holds throughout it. *)
Lemma ring_step_written start c c' :
  ring_step c c' -> counter_lasts start (length (rc_written c')) ->
  counter_lasts start (length (rc_written c)).
Proof.
  intros [] Hb; cbn [rc_written] in *; [|done].
  apply (no_wrap_mono _ _ _ Hb). rewrite length_app. lia.
Qed.

Lemma ring_step_fifo start c c' :
  ring_step c c' -> counter_lasts start (length (rc_written c')) ->
  fifo_config start c -> fifo_config start c'.
Proof.
  intros [rb w r buf len Hlen Hbuf|rb w r len Hlen] Hb [Hi Hc Hl Hin];
    cbn [rc_ring rc_written rc_read] in *.
  - pose proof (used_range rb). pose proof (ri_used _ Hi). pose proof (ri_in _ Hi).
    rewrite kfifo_in_count in * by done. fold (stored rb len) in *.
    assert (0 <= stored rb len) by (unfold stored; lia).
    assert (length (take (Z.to_nat (stored rb len)) buf) = Z.to_nat (stored rb len)) as Hs
      by (rewrite length_take; unfold stored in *; lia).
    rewrite length_app, Hs in Hb.
    assert (no_wrap rb (stored rb len)) as Hw.
    { unfold counter_lasts, no_wrap in *. rewrite Hl.
      destruct Hb as [?|?]; [by left|]. destruct Hin as [?|?]; [by left|right; lia]. }
    split; cbn [rc_ring rc_written rc_read]; [by apply kfifo_in_inv| |done|].
    + rewrite kfifo_in_contents, Hc by done. by rewrite app_assoc.
    + destruct Hin as [?|Hin]; [by left|]. destruct Hb as [?|Hb]; [by left|right].
      unfold __kfifo_in, kfifo_copy_in. cbn [fst rb_in]. rewrite kfifo_in_len by done.
      fold (stored rb len). rewrite length_app, Hs, (wrapu_small 32 (_ + _)) by lia. lia.
  - split; cbn [rc_ring rc_written rc_read]; [apply kfifo_out_inv; [done|lia]| |done|done].
    rewrite Hc, (kfifo_out_contents rb len) by (done || lia). by rewrite app_assoc.
Qed.

Lemma ring_steps_fifo start c c' :
  rtc ring_step c c' -> counter_lasts start (length (rc_written c')) ->
  fifo_config start c -> fifo_config start c'.
Proof.
  intros Hr. revert c' Hr. refine (rtc_ind_r _ c _ _); [done|].
  intros c1 c2 _ Hs IH Hb H0. apply (ring_step_fifo start c1); try done.
  apply IH; [|done]. by apply (ring_step_written start c1 c2).
Qed.

(** ** Concrete rings for the witnesses *)

Definition ring8 : ring_buffer := RingBuffer 0 0 8 0 (replicate 8 0).

Lemma ring8_inv : ring_inv ring8.
Proof.
  split; try done. left. by exists (2 ^ 29).
Qed.

(** A reader that takes one byte between two iterations. *)
Definition read_one (_ : nat) (rb : ring_buffer) : ring_buffer := (__kfifo_out rb 1).1.1.

Lemma read_one_draining : draining read_one.
Proof.
  intros i rb Hi. unfold read_one.
  pose proof (kfifo_out_inv rb 1 Hi ltac:(lia)). pose proof (kfifo_out_used rb 1 Hi ltac:(lia)).
  pose proof (ri_used _ Hi). pose proof (used_range rb). pose proof (ri_len _ Hi).
  split_and!; try done. lia.
Qed.

(** ** Properties *)

(** C19: an enqueue ([__kfifo_in]) appends to the stored queue exactly the bytes
    it reports, as many as were asked for and fit, and keeps the ring valid, as
    long as storing them does not take the 32-bit counter [in] past [2^32] (or
    the capacity divides [2^32]); past it bytes go to the wrong slots, see
    [kfifo_counter_wrap_corrupts]. *)
Theorem kfifo_in_refines rb buf len :
  ring_inv rb -> 0 <= len < 2 ^ 32 -> (Z.to_nat len <= length buf)%nat ->
  (rb_len rb | 2 ^ 32) \/ rb_in rb + Z.min len (rb_len rb - used rb) < 2 ^ 32 ->
  let '(rb', n) := __kfifo_in rb buf len in
  n = Z.min len (rb_len rb - used rb) /\ ring_inv rb' /\
  contents rb' = contents rb ++ take (Z.to_nat n) buf.
Proof.
  intros Hi Hlen Hbuf Hw.
  pose proof (kfifo_in_count rb buf len Hi) as Hn.
  pose proof (kfifo_in_inv rb buf len Hi Hlen Hw) as Hi'.
  pose proof (kfifo_in_contents rb buf len Hi Hlen Hbuf Hw) as Hc.
  destruct (__kfifo_in rb buf len) as [rb' n]. cbn in *. subst n. done.
Qed.

Lemma kfifo_in_refines_witness :
  let '(rb', n) := __kfifo_in ring8 [104; 105] 2 in
  n = Z.min 2 (rb_len ring8 - used ring8) /\ ring_inv rb' /\
  contents rb' = contents ring8 ++ take (Z.to_nat n) [104; 105].
Proof.
  apply (kfifo_in_refines ring8 [104; 105] 2).
  - apply ring8_inv.
  - lia.
  - cbn. lia.
  - left. by exists (2 ^ 29).
Defined.

(** C20: a dequeue ([__kfifo_out]) returns the oldest bytes of the queue, as
    many as were asked for and are stored, removes exactly those and keeps the
    ring valid; the peek it is built on returns the same bytes. *)
Theorem kfifo_out_refines rb len :
  ring_inv rb -> 0 <= len < 2 ^ 32 ->
  let '(rb', got, n) := __kfifo_out rb len in
  n = Z.min len (used rb) /\ Z.of_nat (length got) = n /\ ring_inv rb' /\
  contents rb = got ++ contents rb' /\ __kfifo_out_peek rb len = (got, n).
Proof.
  intros Hi Hlen.
  pose proof (kfifo_out_inv rb len Hi ltac:(lia)) as Hi'.
  pose proof (kfifo_out_contents rb len Hi ltac:(lia)) as Hc.
  pose proof (kfifo_out_used rb len Hi ltac:(lia)) as Hu. pose proof (used_range rb).
  pose proof (f_equal length Hc) as Hlen'. rewrite length_app in Hlen'.
  rewrite !length_contents in Hlen' by done.
  destruct (__kfifo_out rb len) as [[rb' got] n] eqn:E. cbn [fst snd] in *.
  unfold __kfifo_out in E. destruct (__kfifo_out_peek rb len) as [b m] eqn:Ep.
  simplify_eq. unfold __kfifo_out_peek in Ep. fold (used rb) in Ep.
  rewrite kfifo_out_len in Ep. simplify_eq. split_and!; try done. lia.
Qed.

Lemma kfifo_out_refines_witness :
  let '(rb', got, n) := __kfifo_out (__kfifo_in ring8 [104; 105] 2).1 1 in
  n = Z.min 1 (used (__kfifo_in ring8 [104; 105] 2).1) /\ Z.of_nat (length got) = n /\
  ring_inv rb' /\
  contents (__kfifo_in ring8 [104; 105] 2).1 = got ++ contents rb' /\
  __kfifo_out_peek (__kfifo_in ring8 [104; 105] 2).1 1 = (got, n).
Proof.
  apply (kfifo_out_refines (__kfifo_in ring8 [104; 105] 2).1 1); [|lia].
  apply kfifo_in_inv; [apply ring8_inv|lia|]. left. by exists (2 ^ 29).
Defined.

(** C26: over every interleaving of whole enqueues and dequeues on one ring,
    starting empty, the bytes read are a prefix of the bytes written, in order,
    and the rest is what the ring stores: nothing is lost, duplicated or
    reordered, as long as the bytes stored since the start do not take the
    32-bit counter [in] past [2^32], or without that bound when the capacity
    divides [2^32]. *)
Theorem ring_interleaving_fifo rb c :
  ring_inv rb -> used rb = 0 -> rtc ring_step (RingConfig rb [] []) c ->
  (rb_len rb | 2 ^ 32) \/ rb_in rb + Z.of_nat (length (rc_written c)) < 2 ^ 32 ->
  ring_inv (rc_ring c) /\ rc_written c = rc_read c ++ contents (rc_ring c).
Proof.
  intros Hi Hu Hr Hb.
  assert (fifo_config rb (RingConfig rb [] [])) as H0.
  { split; cbn; [done|unfold contents; by rewrite Hu|done|right; lia]. }
  by destruct (ring_steps_fifo rb _ c Hr Hb H0).
Qed.

Lemma ring_interleaving_fifo_witness :
  let c := RingConfig (__kfifo_out (__kfifo_in ring8 [1; 2; 3] 3).1 2).1.1 [1; 2; 3] [1; 2] in
  ring_inv (rc_ring c) /\ rc_written c = rc_read c ++ contents (rc_ring c).
Proof.
  apply (ring_interleaving_fifo ring8); [apply ring8_inv|done| |cbn; right; lia].
  eapply rtc_l.
  - apply (ring_step_in ring8 [] [] [1; 2; 3] 3); [lia|cbn; lia].
  - apply rtc_once. apply (ring_step_out (__kfifo_in ring8 [1; 2; 3] 3).1 [1; 2; 3] [] 2). lia.
Defined.

(** C27: [ring_buffer_write] returns, and reports every byte, when the other
    side keeps draining the ring and the [len] bytes do not take the 32-bit
    counter [in] past [2^32] (or the capacity divides [2^32]): [len + 1]
    iterations are enough. *)
Theorem ring_buffer_write_returns peer rb buf len :
  draining peer -> ring_inv rb -> 0 <= len < 2 ^ 31 -> (Z.to_nat len <= length buf)%nat ->
  no_wrap rb len ->
  exists rb', ring_buffer_write (S (Z.to_nat len)) peer rb buf len = Some (rb', len) /\
    ring_inv rb'.
Proof.
  intros. apply write_loop_returns; try done; try lia. by rewrite Z.sub_0_r.
Qed.

Lemma ring_buffer_write_returns_witness :
  exists rb', ring_buffer_write 21 read_one ring8 (replicate 20 7) 20 = Some (rb', 20) /\
    ring_inv rb'.
Proof.
  apply (ring_buffer_write_returns read_one ring8 (replicate 20 7) 20).
  - apply read_one_draining.
  - apply ring8_inv.
  - lia.
  - cbn. lia.
  - left. by exists (2 ^ 29).
Defined.

(** With no reader a write that does not fit never returns: once the ring
    is full and bytes are left, no number of iterations is enough. *)
Theorem ring_buffer_write_spins fuel rb buf cnt len :
  ring_inv rb -> used rb = rb_len rb -> 0 <= cnt < len -> len < 2 ^ 31 ->
  ring_buffer_write_loop fuel (fun _ rb => rb) rb buf cnt len = None.
Proof.
  intros Hi Hu Hc Hl.
  assert (forall buf', __kfifo_in rb buf' (u32 (len - cnt)) = (rb, 0)) as Hnop.
  { intros buf'. unfold __kfifo_in.
    rewrite (wrapu_small 32 (len - cnt)), kfifo_in_len, Hu by (done || lia).
    pose proof (ri_in _ Hi). pose proof (ri_len _ Hi).
    replace (Z.min (len - cnt) (rb_len rb - rb_len rb)) with 0 by lia.
    unfold kfifo_copy_in. cbn [rb_in rb_out rb_len rb_esize rb_data].
    assert (0 <= rb_in rb mod rb_len rb < rb_len rb) by (apply Z.mod_pos_bound; lia).
    replace (Z.min 0 (rb_len rb - rb_in rb mod rb_len rb)) with 0 by lia.
    rewrite Z.add_0_r, wrapu_small by lia. change (Z.to_nat (0 - 0)) with 0%nat.
    change (Z.to_nat 0) with 0%nat. rewrite !take_0, !memwrite_nil. by destruct rb. }
  induction fuel as [|fuel IH]; cbn [ring_buffer_write_loop].
  - by rewrite (proj2 (Z.ltb_lt _ _)) by lia.
  - rewrite (proj2 (Z.ltb_lt _ _)) by lia.
    unfold ring_buffer_write_step. rewrite Hnop.
    rewrite (wraps_small 32 0), Z.add_0_r, wraps_small by lia. apply IH.
Qed.

Lemma ring_buffer_write_spins_witness :
  ring_buffer_write_loop 1000 (fun _ rb => rb) (RingBuffer 8 0 8 0 (replicate 8 0)) [1] 0 1 = None.
Proof.
  apply (ring_buffer_write_spins 1000 (RingBuffer 8 0 8 0 (replicate 8 0)) [1] 0 1); try done.
  split; try done. left. by exists (2 ^ 29).
Defined.

Lemma ring_buffer_pair_init_ok rx tx len :
  sizeof_ring_buffer < len < 2 ^ 31 ->
  length (rb_data rx) = Z.to_nat (len - sizeof_ring_buffer) ->
  length (rb_data tx) = Z.to_nat (len - sizeof_ring_buffer) ->
  exists rx' tx', ring_buffer_pair_init (Some rx) (Some tx) len = (0, Some rx', Some tx') /\
    ring_inv rx' /\ ring_inv tx' /\ contents rx' = [] /\ contents tx' = [] /\
    rb_len rx' = len - sizeof_ring_buffer /\ rb_len tx' = len - sizeof_ring_buffer.
Proof.
  unfold ring_buffer_pair_init, sizeof_ring_buffer. intros H Hrx Htx.
  rewrite (wrapu_small 64) by lia. rewrite (proj2 (Z.leb_gt _ _)) by lia.
  rewrite wrapu_small, wraps_small by lia.
  unfold ring_buffer_init. rewrite wrapu_small by lia.
  eexists _, _. split; [done|].
  split_and!; try done; split; cbn [rb_in rb_out rb_len rb_esize rb_data];
    try done; try lia; try (by right); change (0 <= len - 16); lia.
Qed.

(** [ring_buffer_pair_init] rejects a NULL address or a length that has no
    room behind the header, without touching memory; otherwise, for a
    non-negative length, both rings become valid, empty and of capacity
    [len - sizeof(ring_buffer_t)]. *)
Theorem ring_buffer_pair_init_spec rx tx len :
  0 <= len < 2 ^ 31 ->
  (len <= sizeof_ring_buffer ->
     ring_buffer_pair_init (Some rx) (Some tx) len = (-1, Some rx, Some tx)) /\
  (forall o, ring_buffer_pair_init None o len = (-1, None, o) /\
             ring_buffer_pair_init o None len = (-1, o, None)) /\
  (sizeof_ring_buffer < len ->
   length (rb_data rx) = Z.to_nat (len - sizeof_ring_buffer) ->
   length (rb_data tx) = Z.to_nat (len - sizeof_ring_buffer) ->
   exists rx' tx', ring_buffer_pair_init (Some rx) (Some tx) len = (0, Some rx', Some tx') /\
     ring_inv rx' /\ ring_inv tx' /\ contents rx' = [] /\ contents tx' = [] /\
     rb_len rx' = len - sizeof_ring_buffer /\ rb_len tx' = len - sizeof_ring_buffer).
Proof.
  intros Hlen. split_and!.
  - unfold ring_buffer_pair_init, sizeof_ring_buffer. intros H. rewrite (wrapu_small 64) by lia.
    by rewrite (proj2 (Z.leb_le _ _)) by lia.
  - intros [?|]; done.
  - intros H. apply ring_buffer_pair_init_ok. lia.
Qed.

Lemma ring_buffer_pair_init_spec_witness :
  let r := RingBuffer 9 9 9 9 (replicate 8 0) in
  (24 <= sizeof_ring_buffer ->
     ring_buffer_pair_init (Some r) (Some r) 24 = (-1, Some r, Some r)) /\
  (forall o, ring_buffer_pair_init None o 24 = (-1, None, o) /\
             ring_buffer_pair_init o None 24 = (-1, o, None)) /\
  (sizeof_ring_buffer < 24 ->
   length (rb_data r) = Z.to_nat (24 - sizeof_ring_buffer) ->
   length (rb_data r) = Z.to_nat (24 - sizeof_ring_buffer) ->
   exists rx' tx', ring_buffer_pair_init (Some r) (Some r) 24 = (0, Some rx', Some tx') /\
     ring_inv rx' /\ ring_inv tx' /\ contents rx' = [] /\ contents tx' = [] /\
     rb_len rx' = 24 - sizeof_ring_buffer /\ rb_len tx' = 24 - sizeof_ring_buffer).
Proof.
  exact (ring_buffer_pair_init_spec (RingBuffer 9 9 9 9 (replicate 8 0))
           (RingBuffer 9 9 9 9 (replicate 8 0)) 24 ltac:(lia)).
Defined.

(** That the counter does not wrap is needed for an enqueue.  With the 4080-byte
    capacity of a page-sized ring, both counters at [2^32 - 1] and so the ring
    valid and empty, byte 1 goes into slot 255 and, the counter having wrapped
    to 0, byte 2 goes into slot 0 instead of slot 256: reading two bytes back
    gives 1 and a stale byte. *)
Theorem kfifo_counter_wrap_corrupts :
  let rb0 := RingBuffer (2 ^ 32 - 1) (2 ^ 32 - 1) 4080 0 (replicate 4080 0) in
  let rb1 := (__kfifo_in rb0 [1] 1).1 in
  let rb2 := (__kfifo_in rb1 [2] 1).1 in
  ring_inv rb0 /\ contents rb0 = [] /\ contents rb1 = [1] /\
  (__kfifo_out rb2 2).1.2 = [1; 0].
Proof.
  split_and!; [|vm_compute; reflexivity..].
  split; try done; by right.
Qed.
