(* ===== verification/ShmPool.v ===== *)
(** * The shared memory pool ([library/memory/shm_pool.c])

    The pool hands out regions of the memory shared with the client OS by
    advancing [unused_shmem_start]; nothing is ever given back.  Addresses are
    64-bit.  [remoteproc_mmap], [metal_io_phys_to_virt] and
    [metal_io_virt_to_phys] belong to OpenAMP and libmetal and are parameters. *)

From S2P Require Import Prelude.

(** The shared memory fields of [struct mica_client]; [IO] is the type of
    [struct metal_io_region]. *)
Record shmem (IO : Type) := Shmem {
  phys_shmem_start : Z;
  shmem_size : Z;
  virt_shmem_start : Z;
  virt_shmem_end : Z;
  unused_shmem_start : Z;
  shbuf_io : IO;
}.
Arguments Shmem {IO}.
Arguments phys_shmem_start {IO}.
Arguments shmem_size {IO}.
Arguments virt_shmem_start {IO}.
Arguments virt_shmem_end {IO}.
Arguments unused_shmem_start {IO}.
Arguments shbuf_io {IO}.

Section shm_pool.
  Context {IO : Type}.
  (** [metal_io_phys_to_virt]: [None] is NULL. *)
  Context (metal_io_phys_to_virt : IO -> Z -> option Z).
  Context (metal_io_virt_to_phys : IO -> Z -> Z).
  (** [remoteproc_mmap(&client->rproc, &pa, NULL, size, 0, &io)]: the address
      (or NULL), the physical address written back and the I/O region. *)
  Context (remoteproc_mmap : Z -> Z -> option (Z * Z * IO)).

  Implicit Type client : shmem IO.

Definition shm_pool_phys_to_virt client (phys : Z) : option Z :=
  metal_io_phys_to_virt (shbuf_io client) phys.

Definition shm_pool_virt_to_phys client (va : Z) : Z :=
  metal_io_virt_to_phys (shbuf_io client) va.

(** [shmem_size] is an [unsigned int]. *)
Definition init_shmem_pool client (pa size : Z) : Z * shmem IO :=
  match remoteproc_mmap pa size with
  | None => (- EPERM, client)
  | Some (va, pa, io) => (0, Shmem pa (u32 size) va (u64 (va + size)) va io)
  end.

(** [None] is NULL. *)
Definition alloc_shmem_region client (phys size : Z) : option Z * shmem IO :=
  let take_from va :=
    if virt_shmem_end client <? u64 (va + size) then (None, client)
    else (Some va, Shmem (phys_shmem_start client) (shmem_size client)
           (virt_shmem_start client) (virt_shmem_end client) (u64 (va + size))
           (shbuf_io client)) in
  if phys =? 0 then take_from (unused_shmem_start client)
  else match shm_pool_phys_to_virt client phys with
       | None => (None, client)
       | Some va => if va <? unused_shmem_start client then (None, client) else take_from va
       end.

(** A run of allocations: the regions granted, in order. *)
Fixpoint alloc_regions client (reqs : list (Z * Z)) : list (Z * Z) * shmem IO :=
  match reqs with
  | [] => ([], client)
  | (phys, size) :: reqs =>
      let '(r, client) := alloc_shmem_region client phys size in
      let '(rs, client) := alloc_regions client reqs in
      (match r with Some va => (va, size) :: rs | None => rs end, client)
  end.

(** ** Invariant *)

Definition pool_ok client : Prop :=
  0 <= virt_shmem_start client <= unused_shmem_start client /\
  unused_shmem_start client <= virt_shmem_end client < 2 ^ 64.

(** A request that does not wrap around the address space.  The pointer sum
    [va + size] is not checked for overflow by the code. *)
Definition fits_address_space (size : Z) client : Prop :=
  0 <= size /\ virt_shmem_end client + size < 2 ^ 64.

Lemma alloc_frame client phys size :
  let client' := (alloc_shmem_region client phys size).2 in
  virt_shmem_start client' = virt_shmem_start client /\
  virt_shmem_end client' = virt_shmem_end client.
Proof. unfold alloc_shmem_region. csteps. Qed.

Lemma alloc_spec client phys size :
  pool_ok client -> fits_address_space size client ->
  (forall va, shm_pool_phys_to_virt client phys = Some va -> va < virt_shmem_end client) ->
  match alloc_shmem_region client phys size with
  | (Some va, client') =>
      unused_shmem_start client <= va /\ va + size <= virt_shmem_end client /\
      unused_shmem_start client' = va + size /\ pool_ok client'
  | (None, client') => client' = client
  end.
Proof.
  intros [Hs He] [Hsz Hfit] Hva. unfold alloc_shmem_region, pool_ok.
  repeat (case_match; simplify_eq/=; bool_to_Prop; try done).
  - assert (u64 (unused_shmem_start client + size) = unused_shmem_start client + size) as E
      by (apply wrapu_small; lia). rewrite E in *. lia.
  - specialize (Hva _ eq_refl).
    match goal with _ : u64 (?va + _) <= _ |- _ =>
      assert (u64 (va + size) = va + size) as E by (apply wrapu_small; lia) end.
    rewrite E in *. lia.
Qed.

(** Regions laid out one behind the other, from [lo] up to [hi]. *)
Fixpoint laid_out (lo hi : Z) (rs : list (Z * Z)) : Prop :=
  match rs with
  | [] => lo <= hi
  | (va, size) :: rs => lo <= va /\ 0 <= size /\ laid_out (va + size) hi rs
  end.

Lemma laid_out_upper lo hi rs : laid_out lo hi rs -> lo <= hi.
Proof.
  revert lo. induction rs as [|[va size] rs IH]; intros lo; cbn; [done|].
  intros (? & ? & H). apply IH in H. lia.
Qed.

Lemma laid_out_in_range lo hi rs va size :
  laid_out lo hi rs -> (va, size) ∈ rs -> lo <= va /\ va + size <= hi.
Proof.
  revert lo. induction rs as [|[va' size'] rs IH]; intros lo; cbn; [by intros _ ?%elem_of_nil|].
  intros (? & ? & H) [E|Hin]%elem_of_cons.
  - simplify_eq. apply laid_out_upper in H. lia.
  - specialize (IH _ H Hin). lia.
Qed.

Lemma laid_out_disjoint lo hi rs i j a b :
  laid_out lo hi rs -> (i < j)%nat -> rs !! i = Some a -> rs !! j = Some b ->
  a.1 + a.2 <= b.1.
Proof.
  revert lo i j. induction rs as [|[va size] rs IH]; intros lo i j; [done|].
  intros (? & ? & H) Hij Hi Hj. destruct j as [|j]; [lia|]. cbn in Hj.
  destruct i as [|i]; cbn in Hi; [|exact (IH _ i j H ltac:(lia) Hi Hj)].
  simplify_eq. destruct b as [vb sb].
  apply list_elem_of_lookup_2 in Hj. destruct (laid_out_in_range _ _ _ _ _ H Hj). done.
Qed.

Lemma alloc_regions_laid_out client reqs :
  pool_ok client ->
  Forall (fun req => fits_address_space req.2 client) reqs ->
  (forall client' phys va, shm_pool_phys_to_virt client' phys = Some va ->
     va < virt_shmem_end client) ->
  laid_out (unused_shmem_start client) (virt_shmem_end client) (alloc_regions client reqs).1.
Proof.
  intros Hok Hreqs Hva. revert client Hok Hreqs Hva.
  induction reqs as [|[phys size] reqs IH]; intros client Hok Hreqs Hva.
  - cbn. unfold pool_ok in Hok. lia.
  - apply Forall_cons in Hreqs as [Hfit Hreqs].
    pose proof (alloc_spec client phys size Hok Hfit (Hva client phys)) as Hsp.
    pose proof (alloc_frame client phys size) as [Hf1 Hf2]. cbn [alloc_regions].
    destruct (alloc_shmem_region client phys size) as [r client']. cbn [snd] in Hf1, Hf2.
    assert (pool_ok client') as Hok' by (destruct r; [apply Hsp|by subst]).
    specialize (IH client' Hok').
    destruct (alloc_regions client' reqs) as [rs client'']. cbn in *.
    rewrite Hf2 in IH.
    assert (laid_out (unused_shmem_start client') (virt_shmem_end client) rs) as Hl.
    { apply IH; [|done]. eapply Forall_impl; [exact Hreqs|].
      unfold fits_address_space. by rewrite Hf2. }
    destruct r as [va|].
    + destruct Hsp as (? & ? & Hu & _). rewrite Hu in Hl. destruct Hfit. done.
    + subst client'. done.
Qed.

Lemma length_alloc_regions client reqs :
  (length (alloc_regions client reqs).1 <= length reqs)%nat.
Proof.
  revert client. induction reqs as [|[phys size] reqs IH]; intros client; cbn [alloc_regions]; [done|].
  destruct (alloc_shmem_region _ _ _) as [r client']. specialize (IH client').
  destruct (alloc_regions client' reqs) as [rs client'']. destruct r; cbn in *; lia.
Qed.

Lemma alloc_regions_app client reqs1 reqs2 :
  alloc_regions client (reqs1 ++ reqs2) =
    let '(rs1, client1) := alloc_regions client reqs1 in
    let '(rs2, client2) := alloc_regions client1 reqs2 in (rs1 ++ rs2, client2).
Proof.
  revert client. induction reqs1 as [|[phys size] reqs1 IH]; intros client; cbn [app alloc_regions].
  - by destruct (alloc_regions client reqs2).
  - destruct (alloc_shmem_region _ _ _) as [r client']. rewrite IH.
    destruct (alloc_regions client' reqs1) as [rs1 client1].
    destruct (alloc_regions client1 reqs2) as [rs2 client2]. by destruct r.
Qed.

End shm_pool.

(** ** Properties *)

(** [alloc_shmem_region] returns NULL and changes nothing, or returns a
    region that lies in the unused part of the pool and advances
    [unused_shmem_start] behind it; the pool stays well formed.  The request must
    not wrap around the address space, and [metal_io_phys_to_virt] must answer
    with an address of the pool. *)
Theorem alloc_shmem_region_spec {IO} (p2v : IO -> Z -> option Z) client phys size :
  pool_ok client -> fits_address_space size client ->
  (forall va, p2v (shbuf_io client) phys = Some va -> va < virt_shmem_end client) ->
  match alloc_shmem_region p2v client phys size with
  | (Some va, client') =>
      unused_shmem_start client <= va /\ va + size <= virt_shmem_end client /\
      unused_shmem_start client' = va + size /\ pool_ok client'
  | (None, client') => client' = client
  end.
Proof. apply alloc_spec. Qed.

Definition pool_example : shmem unit := Shmem 0x70000000 0x20000 0x10000 0x30000 0x10000 tt.
Definition p2v_example (_ : unit) (pa : Z) : option Z :=
  if (0x70000000 <=? pa) && (pa <? 0x70020000) then Some (pa - 0x70000000 + 0x10000) else None.

Lemma p2v_example_range io pa va : p2v_example io pa = Some va -> va < 0x30000.
Proof. unfold p2v_example. intros. csteps. bool_to_Prop. lia. Qed.

Lemma alloc_shmem_region_spec_witness :
  match alloc_shmem_region p2v_example pool_example 0x70001000 0x1000 with
  | (Some va, client') =>
      unused_shmem_start pool_example <= va /\ va + 0x1000 <= virt_shmem_end pool_example /\
      unused_shmem_start client' = va + 0x1000 /\ pool_ok client'
  | (None, client') => client' = pool_example
  end.
Proof.
  apply (alloc_shmem_region_spec p2v_example pool_example 0x70001000 0x1000).
  - unfold pool_ok. cbn. lia.
  - unfold fits_address_space. cbn. lia.
  - intros va. apply p2v_example_range.
Defined.

(** C28: over any sequence of requests, by physical address or not, the granted
    regions lie inside the pool and are pairwise disjoint, provided that the pool is
    well-formed, that no requested size added to the pool's end wraps around 2^64, and
    that the I/O region translates physical addresses to addresses below the pool's
    end; [alloc_shmem_region_wraps] shows that a wrapping size breaks it. *)
Theorem alloc_regions_disjoint {IO} (p2v : IO -> Z -> option Z) client reqs i j a b :
  pool_ok client -> Forall (fun req => fits_address_space req.2 client) reqs ->
  (forall io phys va, p2v io phys = Some va -> va < virt_shmem_end client) ->
  i <> j ->
  (alloc_regions p2v client reqs).1 !! i = Some a ->
  (alloc_regions p2v client reqs).1 !! j = Some b ->
  virt_shmem_start client <= a.1 /\ a.1 + a.2 <= virt_shmem_end client /\
  (a.1 + a.2 <= b.1 \/ b.1 + b.2 <= a.1).
Proof.
  intros Hok Hreqs Hva Hij Hi Hj.
  assert (laid_out (unused_shmem_start client) (virt_shmem_end client)
            (alloc_regions p2v client reqs).1) as Hl.
  { apply alloc_regions_laid_out; try done. intros ???. apply Hva. }
  destruct a as [va sa]. pose proof (list_elem_of_lookup_2 _ _ _ Hi) as Hin.
  destruct (laid_out_in_range _ _ _ _ _ Hl Hin). unfold pool_ok in Hok. cbn [fst snd].
  split_and!; [lia|lia|].
  destruct (decide (i < j)%nat).
  - left. exact (laid_out_disjoint _ _ _ i j _ _ Hl ltac:(lia) Hi Hj).
  - right. exact (laid_out_disjoint _ _ _ j i _ _ Hl ltac:(lia) Hj Hi).
Qed.

Lemma alloc_regions_disjoint_witness :
  virt_shmem_start pool_example <= 0x10000 /\ 0x10000 + 0x1000 <= virt_shmem_end pool_example /\
  (0x10000 + 0x1000 <= 0x12000 \/ 0x12000 + 0x2000 <= 0x10000).
Proof.
  apply (alloc_regions_disjoint p2v_example pool_example [(0, 0x1000); (0x70002000, 0x2000)]
           0 1 (0x10000, 0x1000) (0x12000, 0x2000)).
  - unfold pool_ok. cbn. lia.
  - repeat constructor; unfold fits_address_space; cbn; lia.
  - intros io phys va. apply p2v_example_range.
  - done.
  - done.
  - done.
Defined.

(** That the sum does not wrap is needed for an allocation: a request of [2^64 - 4096]
    bytes passes the range test on a 128 KiB pool, and moves
    [unused_shmem_start] below the pool. *)
Theorem alloc_shmem_region_wraps :
  let '(r, client') := alloc_shmem_region p2v_example pool_example 0 (2 ^ 64 - 4096) in
  pool_ok pool_example /\ r = Some (virt_shmem_start pool_example) /\ ~ pool_ok client'.
Proof.
  cbn. split_and!; [unfold pool_ok; cbn; lia|done|]. intros [[_ H] _].
  vm_compute in H. by apply H.
Qed.
