(* ===== verification/RpcQueue.v ===== *)
(** * The request queue of the RPC workers ([services/rpc/rpc_workers.c])

    The circular queue of requests, the blocking operations around it and the
    worker threads.  [A] is the type of a [req_t]; a slot is a pointer, so
    [option A].  Every operation on the queue runs under [rq->lock] and is one
    atomic step. *)

From S2P Require Import Prelude.

Definition WORKERS : Z := 5.
Definition MAX_QUEUE_SIZE : Z := 256.

Record rpc_queue (A : Type) := RpcQueue {
  rq_q : list (option A);
  rq_head : Z;
  rq_tail : Z;
  rq_size : Z;
}.
Arguments RpcQueue {A}.
Arguments rq_q {A}.
Arguments rq_head {A}.
Arguments rq_tail {A}.
Arguments rq_size {A}.

Section queue.
Context {A : Type}.
Implicit Types rq : rpc_queue A.

(** The array has [MAX_QUEUE_SIZE] slots; the first [size] are cleared. *)
Definition rq_init rq (size : Z) : rpc_queue A :=
  RpcQueue (memwrite 0 (replicate (Z.to_nat size) None) (rq_q rq)) 0 0 size.

Definition __dequeue rq : rpc_queue A * option A * Z :=
  if rq_head rq =? rq_tail rq then (rq, None, -1)
  else
    let preq := default None (rq_q rq !! Z.to_nat (rq_head rq)) in
    let head := rq_head rq + 1 in
    let head := if head =? rq_size rq then 0 else head in
    (RpcQueue (rq_q rq) head (rq_tail rq) (rq_size rq), preq, 0).

Definition __enqueue rq (req : option A) : rpc_queue A * Z :=
  if (rq_tail rq + 1) mod rq_size rq =? rq_head rq then (rq, -1)
  else
    let q := <[Z.to_nat (rq_tail rq) := req]> (rq_q rq) in
    let tail := rq_tail rq + 1 in
    let tail := if tail =? rq_size rq then 0 else tail in
    (RpcQueue q (rq_head rq) tail (rq_size rq), 0).

(** [dequeue]: the error of [__dequeue], and whether the caller then waits on
    [rq->cond]; it does not retry after it is woken. *)
Definition dequeue rq : rpc_queue A * option A * Z * bool :=
  let '(rq, req, err) := __dequeue rq in
  (rq, req, err, err =? -1).

(** [enqueue]: the error, and whether [rq->cond] is signalled. *)
Definition enqueue rq (req : option A) : rpc_queue A * Z * bool :=
  let '(rq, err) := __enqueue rq req in
  (rq, err, err =? 0).

(** A NULL request is ignored; the result of [enqueue] is dropped. *)
Definition enqueue_req rq (req : option A) : rpc_queue A * bool :=
  match req with
  | None => (rq, false)
  | Some _ => let '(rq, _, signalled) := enqueue rq req in (rq, signalled)
  end.

(** ** The queue stored in the array *)

Record queue_inv rq : Prop := QueueInv {
  qi_size : 1 < rq_size rq;
  qi_len : Z.of_nat (length (rq_q rq)) = rq_size rq;
  qi_head : 0 <= rq_head rq < rq_size rq;
  qi_tail : 0 <= rq_tail rq < rq_size rq;
}.

Definition pending rq : list (option A) :=
  if rq_head rq <=? rq_tail rq
  then memread (Z.to_nat (rq_head rq)) (Z.to_nat (rq_tail rq - rq_head rq)) (rq_q rq)
  else drop (Z.to_nat (rq_head rq)) (rq_q rq) ++ take (Z.to_nat (rq_tail rq)) (rq_q rq).

Lemma length_pending rq :
  queue_inv rq -> Z.of_nat (length (pending rq)) = (rq_tail rq - rq_head rq) mod rq_size rq.
Proof.
  intros []. unfold pending, memread. destruct (Z.leb_spec (rq_head rq) (rq_tail rq)).
  - rewrite length_take, length_drop, Z.mod_small by lia. lia.
  - rewrite length_app, length_drop, length_take.
    rewrite <- (Z_mod_plus_full _ 1), Z.mod_small by lia. lia.
Qed.

Lemma dequeue_empty rq :
  queue_inv rq -> (pending rq = [] <-> rq_head rq = rq_tail rq).
Proof.
  intros H. pose proof (length_pending rq H) as Hl. destruct H. split.
  - intros E. rewrite E in Hl. cbn in Hl. symmetry in Hl.
    apply Z.mod_divide in Hl as [k Hk]; [|lia]. assert (k = 0) by nia. nia.
  - intros E. rewrite E, Z.sub_diag, Z.mod_0_l in Hl by lia.
    destruct (pending rq); [done|cbn in Hl; lia].
Qed.

Lemma next_slot i n : 0 <= i < n -> (if i + 1 =? n then 0 else i + 1) = (i + 1) mod n.
Proof.
  intros. case_match; bool_to_Prop.
  - subst n. by rewrite Z.mod_same by lia.
  - by rewrite Z.mod_small by lia.
Qed.

Lemma dequeue_some rq :
  queue_inv rq -> rq_head rq <> rq_tail rq ->
  exists rq' x, __dequeue rq = (rq', x, 0) /\ queue_inv rq' /\ pending rq = x :: pending rq' /\
    rq_size rq' = rq_size rq.
Proof.
  intros H Hne. destruct H as [Hs Hl Hh Ht]. unfold __dequeue.
  rewrite (proj2 (Z.eqb_neq _ _)) by done.
  destruct (rq_q rq !! Z.to_nat (rq_head rq)) as [x|] eqn:E;
    [|apply lookup_ge_None in E; lia].
  eexists _, x. split; [done|]. rewrite next_slot by lia.
  split_and!; [split; cbn; try done; apply Z.mod_pos_bound; lia| |done].
  unfold pending, memread. cbn [rq_q rq_head rq_tail rq_size].
  destruct (Z.leb_spec (rq_head rq) (rq_tail rq)).
  - rewrite Z.mod_small by lia. rewrite (proj2 (Z.leb_le _ _)) by lia.
    rewrite (drop_S _ _ _ E).
    replace (Z.to_nat (rq_tail rq - rq_head rq))
      with (S (Z.to_nat (rq_tail rq - (rq_head rq + 1)))) by lia.
    cbn. do 3 f_equal. lia.
  - rewrite (drop_S _ _ _ E). rewrite <- app_comm_cons. f_equal.
    destruct (decide (rq_head rq + 1 = rq_size rq)) as [Hlast|].
    + rewrite Hlast, Z.mod_same by lia. rewrite (proj2 (Z.leb_le _ _)) by lia.
      rewrite drop_ge by lia. cbn. by rewrite drop_0, Z.sub_0_r.
    + rewrite Z.mod_small by lia. rewrite (proj2 (Z.leb_gt _ _)) by lia.
      f_equal. f_equal. lia.
Qed.

Lemma enqueue_full rq req :
  queue_inv rq -> Z.of_nat (length (pending rq)) = rq_size rq - 1 -> __enqueue rq req = (rq, -1).
Proof.
  intros H Hl. rewrite length_pending in Hl by done. destruct H as [Hs Hlen Hh Ht].
  unfold __enqueue.
  assert ((rq_tail rq + 1) mod rq_size rq = rq_head rq) as ->; [|by rewrite Z.eqb_refl].
  rewrite <- (Z.mod_small (rq_head rq) (rq_size rq)) by lia.
  replace (rq_tail rq + 1) with (rq_tail rq - rq_head rq + (rq_head rq + 1)) by lia.
  rewrite <- Zplus_mod_idemp_l, Hl.
  replace (rq_size rq - 1 + (rq_head rq + 1)) with (rq_head rq + 1 * rq_size rq) by lia.
  rewrite Z_mod_plus_full. by rewrite ?Zmod_mod.
Qed.

Lemma enqueue_room rq req :
  queue_inv rq -> Z.of_nat (length (pending rq)) < rq_size rq - 1 ->
  exists rq', __enqueue rq req = (rq', 0) /\ queue_inv rq' /\ pending rq' = pending rq ++ [req] /\
    rq_size rq' = rq_size rq.
Proof.
  intros H Hl. rewrite length_pending in Hl by done. destruct H as [Hs Hlen Hh Ht].
  assert ((rq_tail rq + 1) mod rq_size rq <> rq_head rq) as Hroom.
  { intros E. rewrite <- E in Hl. rewrite Zminus_mod_idemp_r in Hl.
    replace (rq_tail rq - (rq_tail rq + 1)) with (-1) in Hl by lia.
    rewrite <- (Z_mod_plus_full (-1) 1), Z.mod_small in Hl by lia. lia. }
  unfold __enqueue. rewrite (proj2 (Z.eqb_neq _ _)) by done.
  rewrite next_slot by lia. eexists. split; [done|].
  split_and!; [split; cbn; rewrite ?length_insert; try done; apply Z.mod_pos_bound; lia| |done].
  unfold pending, memread. cbn [rq_q rq_head rq_tail rq_size].
  destruct (decide (rq_tail rq + 1 = rq_size rq)) as [Hlast|Hlast].
  - rewrite Hlast, Z.mod_same in * by lia.
    rewrite (proj2 (Z.leb_gt (rq_head rq) 0)), (proj2 (Z.leb_le (rq_head rq) _)) by lia.
    cbn [Z.to_nat]. rewrite take_0, app_nil_r.
    rewrite insert_take_drop, (drop_ge _ (S _)) by lia.
    rewrite drop_app_le by (rewrite length_take; lia).
    rewrite take_drop_commute. do 3 f_equal. lia.
  - rewrite Z.mod_small in * by lia.
    assert (take (Z.to_nat (rq_tail rq + 1)) (<[Z.to_nat (rq_tail rq):=req]> (rq_q rq)) =
            take (Z.to_nat (rq_tail rq)) (rq_q rq) ++ [req]) as Htake.
    { replace (Z.to_nat (rq_tail rq + 1)) with (S (Z.to_nat (rq_tail rq))) by lia.
      rewrite (take_S_r _ _ req) by (apply list_lookup_insert_eq; lia).
      by rewrite take_insert_ge by lia. }
    destruct (Z.leb_spec (rq_head rq) (rq_tail rq)).
    + rewrite (proj2 (Z.leb_le _ _)) by lia.
      rewrite !take_drop_commute.
      replace (Z.to_nat (rq_head rq) + Z.to_nat (rq_tail rq + 1 - rq_head rq))%nat
        with (Z.to_nat (rq_tail rq + 1)) by lia.
      replace (Z.to_nat (rq_head rq) + Z.to_nat (rq_tail rq - rq_head rq))%nat
        with (Z.to_nat (rq_tail rq)) by lia.
      rewrite Htake. by rewrite drop_app_le by (rewrite length_take; lia).
    + rewrite (proj2 (Z.leb_gt _ _)) by lia.
      rewrite Htake, app_assoc. f_equal. f_equal. by rewrite drop_insert_lt by lia.
Qed.
End queue.

(** ** Requests and worker threads *)

(** [H] is the type of a handler ([rpc_cb_t]); a NULL function is [None]. *)
Record rpc_service (H : Type) := RpcService {
  sv_id : Z;
  cb_function : option H;
}.
Arguments RpcService {H}.
Arguments sv_id {H}.
Arguments cb_function {H}.

(** [inst] is the one static [service_inst], so it is not carried. *)
Record req_t (H : Type) := Req {
  req_data : list Z;
  req_service : option (rpc_service H);
  req_priv : Z;
}.
Arguments Req {H}.
Arguments req_data {H}.
Arguments req_service {H}.
Arguments req_priv {H}.

Section workers.
Context {H : Type}.

(** [alloc] says whether [malloc] returned memory. *)
Definition build_req (alloc : bool) (data : list Z) (service : option (rpc_service H)) (priv : Z)
    : option (req_t H) :=
  if alloc then Some (Req data service priv) else None.

(** What one turn of the loop of [worker_thread] does: it waits for a signal,
    or it calls the handler of the request it took, or it drops a request that
    has no handler. *)
Inductive worker_action :=
| Waits
| Serves (cb : H) (data : list Z) (priv : Z)
| Discards.

Definition worker_thread (rq : rpc_queue (req_t H)) : rpc_queue (req_t H) * worker_action :=
  let '(rq, req, _, waits) := dequeue rq in
  match req with
  | None => (rq, Waits)
  | Some r =>
      match req_service r with
      | Some (RpcService _ (Some cb)) => (rq, Serves cb (req_data r) (req_priv r))
      | _ => (rq, Discards)
      end
  end.

(** The queue with its workers: how many are awake, how many wait on the
    condition variable, the requests accepted so far and those taken so far. *)
Record worker_pool := WorkerPool {
  wp_rq : rpc_queue (req_t H);
  wp_awake : Z;
  wp_waiting : Z;
  wp_accepted : list (req_t H);
  wp_taken : list (req_t H);
}.

(** [workers_init] when every thread is created. *)
Definition workers_init (rq : rpc_queue (req_t H)) : worker_pool :=
  WorkerPool (rq_init rq MAX_QUEUE_SIZE) WORKERS 0 [] [].

(** [pthread_cond_signal] wakes one waiting worker, if there is one. *)
Definition signal (awake waiting : Z) : Z * Z :=
  if 0 <? waiting then (awake + 1, waiting - 1) else (awake, waiting).

Inductive pool_step : worker_pool -> worker_pool -> Prop :=
| pool_enqueue rq a w acc tk r rq' :
    enqueue_req rq (Some r) = (rq', true) ->
    pool_step (WorkerPool rq a w acc tk)
              (WorkerPool rq' (signal a w).1 (signal a w).2 (acc ++ [r]) tk)
| pool_overflow rq a w acc tk r rq' :
    enqueue_req rq (Some r) = (rq', false) ->
    pool_step (WorkerPool rq a w acc tk) (WorkerPool rq' a w acc tk)
| pool_wait rq a w acc tk rq' err :
    0 < a -> dequeue rq = (rq', None, err, true) ->
    pool_step (WorkerPool rq a w acc tk) (WorkerPool rq' (a - 1) (w + 1) acc tk)
| pool_take rq a w acc tk rq' r err :
    0 < a -> dequeue rq = (rq', Some r, err, false) ->
    pool_step (WorkerPool rq a w acc tk) (WorkerPool rq' a w acc (tk ++ [r]))
| pool_spurious_wakeup rq a w acc tk :
    0 < w -> pool_step (WorkerPool rq a w acc tk) (WorkerPool rq (a + 1) (w - 1) acc tk).

Record pool_inv (p : worker_pool) : Prop := PoolInv {
  pi_queue : queue_inv (wp_rq p);
  pi_size : rq_size (wp_rq p) = MAX_QUEUE_SIZE;
  pi_workers : 0 <= wp_awake p /\ 0 <= wp_waiting p /\ wp_awake p + wp_waiting p = WORKERS;
  pi_fifo : Some <$> wp_accepted p = (Some <$> wp_taken p) ++ pending (wp_rq p);
  pi_awake : pending (wp_rq p) <> [] -> 0 < wp_awake p;
}.

Lemma workers_init_inv rq :
  Z.of_nat (length (rq_q rq)) = MAX_QUEUE_SIZE -> pool_inv (workers_init rq).
Proof.
  intros Hl. split; cbn; try done.
  split; cbn; rewrite ?length_memwrite; done.
Qed.

Lemma signal_counts a w :
  0 <= a -> 0 <= w -> 0 < a + w ->
  0 < (signal a w).1 /\ 0 <= (signal a w).2 /\ (signal a w).1 + (signal a w).2 = a + w.
Proof. intros. unfold signal. case_match; bool_to_Prop; cbn; lia. Qed.

Lemma enqueue_req_cases (rq : rpc_queue (req_t H)) r rq' b :
  queue_inv rq -> enqueue_req rq (Some r) = (rq', b) ->
  if b then queue_inv rq' /\ rq_size rq' = rq_size rq /\ pending rq' = pending rq ++ [Some r]
  else rq' = rq /\ Z.of_nat (length (pending rq)) = rq_size rq - 1.
Proof.
  intros Hi E. unfold enqueue_req, enqueue in E.
  pose proof (length_pending rq Hi) as Hl.
  pose proof (Z.mod_pos_bound (rq_tail rq - rq_head rq) (rq_size rq)) as Hb.
  pose proof (qi_size _ Hi).
  destruct (decide (Z.of_nat (length (pending rq)) < rq_size rq - 1)).
  - destruct (enqueue_room rq (Some r) Hi l) as (rq1 & E1 & ? & ? & ?).
    rewrite E1 in E. by simplify_eq/=.
  - rewrite (enqueue_full rq (Some r) Hi) in E by lia. simplify_eq/=. split; [done|lia].
Qed.

Lemma dequeue_cases (rq : rpc_queue (req_t H)) :
  queue_inv rq ->
  match dequeue rq with
  | (rq', req, err, waits) =>
      if waits then rq' = rq /\ req = None /\ pending rq = []
      else pending rq = req :: pending rq' /\ queue_inv rq' /\ rq_size rq' = rq_size rq
  end.
Proof.
  intros Hi. unfold dequeue. destruct (decide (rq_head rq = rq_tail rq)) as [E|E].
  - unfold __dequeue. rewrite (proj2 (Z.eqb_eq _ _) E). cbn.
    split_and!; [done|done|]. by apply dequeue_empty.
  - destruct (dequeue_some rq Hi E) as (rq' & x & -> & ? & ? & ?). done.
Qed.

Lemma pool_step_inv p p' : pool_step p p' -> pool_inv p -> pool_inv p'.
Proof.
  intros Hs [Hq Hsz Hw Hf Ha].
  destruct Hs as [rq a w acc tk r rq' E|rq a w acc tk r rq' E|rq a w acc tk rq' err H0 E
    |rq a w acc tk rq' r err H0 E|rq a w acc tk H0]; cbn in *.
  - destruct (enqueue_req_cases rq r rq' true Hq E) as (Hq' & Hs' & Hp).
    pose proof (signal_counts a w ltac:(lia) ltac:(lia) ltac:(unfold WORKERS in *; lia)).
    split; cbn; [done|congruence|lia| |intros; lia].
    by rewrite fmap_app, Hf, Hp, app_assoc.
  - destruct (enqueue_req_cases rq r rq' false Hq E) as [-> _]. split; done.
  - pose proof (dequeue_cases rq Hq) as Hd. rewrite E in Hd. destruct Hd as (-> & _ & Hp).
    split; cbn; try done; lia.
  - pose proof (dequeue_cases rq Hq) as Hd. rewrite E in Hd. destruct Hd as (Hp & Hq' & Hs').
    split; cbn; [done|congruence|done| |intros; lia].
    by rewrite fmap_app, Hf, Hp, <- app_assoc.
  - split; cbn; try done; intros; lia.
Qed.
End workers.

(** ** Properties *)

(** [__enqueue] and [__dequeue] implement a bounded first-in first-out
    queue of [size - 1] requests: a full queue refuses and is unchanged, otherwise
    the request goes to the end; an empty queue answers NULL and -1, otherwise the
    oldest request leaves. *)
Theorem rpc_queue_refines {A} (rq : rpc_queue A) (req : option A) :
  queue_inv rq ->
  (if decide (Z.of_nat (length (pending rq)) = rq_size rq - 1)
   then __enqueue rq req = (rq, -1)
   else exists rq', __enqueue rq req = (rq', 0) /\ queue_inv rq' /\
          pending rq' = pending rq ++ [req]) /\
  match pending rq with
  | [] => __dequeue rq = (rq, None, -1)
  | x :: rest => exists rq', __dequeue rq = (rq', x, 0) /\ queue_inv rq' /\ pending rq' = rest
  end.
Proof.
  intros Hi. split.
  - case_decide as E; [by apply enqueue_full|].
    pose proof (length_pending rq Hi).
    pose proof (Z.mod_pos_bound (rq_tail rq - rq_head rq) (rq_size rq)).
    pose proof (qi_size _ Hi).
    destruct (enqueue_room rq req Hi ltac:(lia)) as (rq' & ? & ? & ? & ?). eauto.
  - destruct (decide (rq_head rq = rq_tail rq)) as [E|E].
    + rewrite (proj2 (dequeue_empty rq Hi) E). unfold __dequeue.
      by rewrite (proj2 (Z.eqb_eq _ _) E).
    + destruct (dequeue_some rq Hi E) as (rq' & x & Hd & Hi' & Hp & _). rewrite Hp. eauto.
Qed.

Definition queue4 : rpc_queue nat := RpcQueue [Some 3; None; None; Some 2]%nat 3 1 4.

Lemma queue4_inv : queue_inv queue4.
Proof. by split. Qed.

Lemma rpc_queue_refines_witness :
  (if decide (Z.of_nat (length (pending queue4)) = rq_size queue4 - 1)
   then __enqueue queue4 (Some 5%nat) = (queue4, -1)
   else exists rq', __enqueue queue4 (Some 5%nat) = (rq', 0) /\ queue_inv rq' /\
          pending rq' = pending queue4 ++ [Some 5%nat]) /\
  match pending queue4 with
  | [] => __dequeue queue4 = (queue4, None, -1)
  | x :: rest => exists rq', __dequeue queue4 = (rq', x, 0) /\ queue_inv rq' /\ pending rq' = rest
  end.
Proof. apply (rpc_queue_refines queue4 (Some 5%nat)), queue4_inv. Defined.

(** C18: in every reachable state of the queue and its five workers, the
    requests taken are the first ones accepted, in order, the others are still
    queued, and while a request is queued some worker is awake: no wakeup is
    lost. *)
Theorem worker_pool_no_lost_request {H} (rq : rpc_queue (req_t H)) p :
  Z.of_nat (length (rq_q rq)) = MAX_QUEUE_SIZE ->
  rtc pool_step (workers_init rq) p ->
  Some <$> wp_accepted p = (Some <$> wp_taken p) ++ pending (wp_rq p) /\
  (pending (wp_rq p) <> [] -> 0 < wp_awake p) /\
  wp_awake p + wp_waiting p = WORKERS.
Proof.
  intros Hl Hr. pose proof (workers_init_inv rq Hl) as Hi. revert Hi.
  induction Hr as [p|p1 p2 p3 Hs _ IH]; intros Hi; [|by apply IH, (pool_step_inv p1)].
  destruct Hi as [_ _ Hw Hf Ha]. split_and!; [done|done|lia].
Qed.

Lemma worker_pool_no_lost_request_witness :
  let rq := RpcQueue (replicate 256 None) 0 0 0 in
  let r := Req [] (Some (RpcService 1 (Some tt))) 0 in
  let p := WorkerPool (enqueue_req (rq_init rq MAX_QUEUE_SIZE) (Some r)).1 5 0 [r] [] in
  Some <$> wp_accepted p = (Some <$> wp_taken p) ++ pending (wp_rq p) /\
  (pending (wp_rq p) <> [] -> 0 < wp_awake p) /\ wp_awake p + wp_waiting p = WORKERS.
Proof.
  apply (worker_pool_no_lost_request (RpcQueue (replicate 256 None) 0 0 0)); [done|].
  apply rtc_once. refine (pool_enqueue _ _ _ _ _ _ _ _). vm_compute. reflexivity.
Defined.

(** A worker turn calls a handler exactly when a request with a handler is
    queued, and it is the oldest one; the turn removes only that request. *)
Theorem worker_thread_turn {H} (rq : rpc_queue (req_t H)) :
  queue_inv rq ->
  match pending rq with
  | Some r :: rest =>
      pending (worker_thread rq).1 = rest /\
      (worker_thread rq).2 =
        match req_service r with
        | Some (RpcService _ (Some cb)) => Serves cb (req_data r) (req_priv r)
        | _ => Discards
        end
  | None :: rest => pending (worker_thread rq).1 = rest /\ (worker_thread rq).2 = Waits
  | [] => worker_thread rq = (rq, Waits)
  end.
Proof.
  intros Hi. pose proof (dequeue_cases rq Hi) as Hd. unfold worker_thread.
  destruct (dequeue rq) as [[[rq' req] err] [|]].
  - destruct Hd as (-> & -> & ->). done.
  - destruct Hd as (-> & _ & _).
    destruct req as [[data [[id [cb|]]|] priv]|]; done.
Qed.

Lemma worker_thread_turn_witness :
  let rq := RpcQueue [Some (Req [7] (Some (RpcService 1 (Some 9%nat))) 4); None] 0 1 2 in
  pending (worker_thread rq).1 = [] /\ (worker_thread rq).2 = Serves 9%nat [7] 4.
Proof.
  exact (worker_thread_turn
    (RpcQueue [Some (Req [7] (Some (RpcService 1 (Some 9%nat))) 4); None] 0 1 2)
    ltac:(by split)).
Defined.
