(* ===== verification/RpcHelper.v ===== *)
(** * Marshalling of name-service results ([services/rpc/rpc_helper.c])

    [encode_addrlist]/[decode_addrlist] and [encode_hostent]/[decode_hostent]
    work on byte buffers with the structure layouts of the LP64 ABI.  A string is
    the list of its bytes without the NUL; a NULL pointer is [None].  Decoding
    answers with the value of the decoded structure; a read outside the buffer
    is [DecOOB]. *)

From S2P Require Import Prelude.

Definition RPC_EBASE : Z := 3000.
Definition RPC_ENO_SLOT : Z := RPC_EBASE + 1.
Definition RPC_EOVERLONG : Z := RPC_EBASE + 2.
Definition RPC_ECORRUPTED : Z := RPC_EBASE + 3.
Definition RPC_ENEED_INIT : Z := RPC_EBASE + 4.
Definition RPC_EINVAL : Z := RPC_EBASE + 5.
Definition RPC_ENOMEM : Z := RPC_EBASE + 6.

Inductive decoded (A : Type) :=
| DecOk (a : A)
| DecErr (e : Z)
| DecOOB.
Arguments DecOk {A}.
Arguments DecErr {A}.
Arguments DecOOB {A}.

(** ** Address lists *)

(** [struct addrinfo]; [ai_next] is the tail of the list. *)
Record addrinfo := Addrinfo {
  ai_flags : Z;
  ai_family : Z;
  ai_socktype : Z;
  ai_protocol : Z;
  ai_addrlen : Z;
  ai_addr : option (list Z);
  ai_canonname : option (list Z);
}.

(** [sizeof(iaddrinfo_t) - sizeof(int)]: the five fields copied as they are. *)
Definition hlen : nat := 20.

Definition ai_header (p : addrinfo) : list Z :=
  le_bytes 4 (ai_flags p) ++ le_bytes 4 (ai_family p) ++ le_bytes 4 (ai_socktype p) ++
  le_bytes 4 (ai_protocol p) ++ le_bytes 4 (ai_addrlen p).

(** [strlen(p->ai_canonname) + 1], or 0 for a NULL name. *)
Definition aclen_of (p : addrinfo) : Z :=
  match ai_canonname p with Some s => Z.of_nat (length s) + 1 | None => 0 end.

(** The first loop: the length of the encoding, an [int]. *)
Fixpoint encoded_len (ai : list addrinfo) (len : Z) : Z :=
  match ai with
  | [] => len
  | p :: ai => encoded_len ai (i32 (i32 (len + (20 + ai_addrlen p + 4)) + aclen_of p))
  end.

(** The body of the second loop (lines 64-81). *)
Definition encode_node (buf : list Z) (bi : nat) (p : addrinfo) : list Z * nat :=
  let buf := memwrite bi (ai_header p) buf in
  let bi := (bi + hlen)%nat in
  let aclen := aclen_of p in
  let buf := memwrite bi (le_bytes 4 aclen) buf in
  let bi := (bi + 4)%nat in
  let '(buf, bi) :=
    match ai_addr p with
    | Some a => if 0 <? ai_addrlen p
                then (memwrite bi (take (Z.to_nat (ai_addrlen p)) a) buf,
                      (bi + Z.to_nat (ai_addrlen p))%nat)
                else (buf, bi)
    | None => (buf, bi)
    end in
  match ai_canonname p with
  | Some s => if 0 <? aclen then (memwrite bi (s ++ [0]) buf, (bi + Z.to_nat aclen)%nat)
              else (buf, bi)
  | None => (buf, bi)
  end.

Fixpoint encode_nodes (buf : list Z) (bi : nat) (ai : list addrinfo) : list Z :=
  match ai with
  | [] => buf
  | p :: ai => let '(buf, bi) := encode_node buf bi p in encode_nodes buf bi ai
  end.

(** The result, the buffer and [*buflen]. *)
Definition encode_addrlist (ai : list addrinfo) (buf : option (list Z)) (buflen : option Z)
    : Z * option (list Z) * option Z :=
  match ai, buf, buflen with
  | _ :: _, Some b, Some bl =>
      let len := encoded_len ai 0 in
      if bl <? len then (- RPC_EOVERLONG, buf, buflen)
      else (Z.of_nat (length ai), Some (encode_nodes b 0 ai), Some len)
  | _, _, _ => (- RPC_EINVAL, buf, buflen)
  end.

(** [memcpy] of a 4-byte integer out of the buffer. *)
Definition get32 (l : list Z) (off : nat) : Z := le_val (memread off 4 l).

(** The body of the loop of [decode_addrlist] (lines 95-135).  The header is
    read before any check.  [bi + addr.ai_addrlen] is an [unsigned int] sum. *)
Definition decode_node (buf : list Z) (bi : nat) (buflen : Z) : decoded (addrinfo * nat) :=
  if (length buf <? bi + hlen)%nat then DecOOB else
  let addrlen := get32 buf (bi + 16) in
  let hdr addr canon :=
    Addrinfo (i32 (get32 buf bi)) (i32 (get32 buf (bi + 4))) (i32 (get32 buf (bi + 8)))
      (i32 (get32 buf (bi + 12))) addrlen addr canon in
  if buflen <=? Z.of_nat (bi + hlen) then DecErr (- RPC_EOVERLONG) else
  let bi1 := (bi + hlen)%nat in
  if buflen <=? Z.of_nat (bi1 + 4) then DecErr (- RPC_EOVERLONG) else
  let aclen := i32 (get32 buf bi1) in
  let bi2 := (bi1 + 4)%nat in
  if (0 <? addrlen) && (buflen <=? u32 (Z.of_nat bi2 + addrlen)) then DecErr (- RPC_EOVERLONG)
  else
  let bi3 := (bi2 + Z.to_nat addrlen)%nat in
  if (length buf <? bi3)%nat then DecOOB else
  let addr := Some (memread bi2 (Z.to_nat addrlen) buf) in
  if 0 <? aclen then
    match cstr (drop bi3 buf) with
    | Some s => DecOk (hdr addr (Some s), (bi3 + Z.to_nat aclen)%nat)
    | None => DecOOB
    end
  else DecOk (hdr addr None, bi3).

Fixpoint decode_nodes (buf : list Z) (bi cnt : nat) (buflen : Z) : decoded (list addrinfo) :=
  match cnt with
  | O => DecOk []
  | S cnt =>
      match decode_node buf bi buflen with
      | DecOk (p, bi) =>
          match decode_nodes buf bi cnt buflen with
          | DecOk ps => DecOk (p :: ps)
          | DecErr e => DecErr e
          | DecOOB => DecOOB
          end
      | DecErr e => DecErr e
      | DecOOB => DecOOB
      end
  end.

(** [cnt] below 1 runs no iteration; [malloc] is taken to succeed. *)
Definition decode_addrlist (buf : list Z) (cnt buflen : Z) : decoded (list addrinfo) :=
  decode_nodes buf 0 (Z.to_nat cnt) buflen.

(** ** What one node becomes on the wire *)

Definition node_bytes (p : addrinfo) : list Z :=
  ai_header p ++ le_bytes 4 (aclen_of p) ++ default [] (ai_addr p) ++
  match ai_canonname p with Some s => s ++ [0] | None => [] end.

Arguments node_bytes : simpl never.
Arguments encode_node : simpl never.
Arguments decode_node : simpl never.

(** An address list as the resolver returns it: values in range, the address
    as long as [ai_addrlen] says, names without NUL. *)
Record addrinfo_ok (p : addrinfo) : Prop := AddrinfoOk {
  ao_flags : - 2 ^ 31 <= ai_flags p < 2 ^ 31;
  ao_family : - 2 ^ 31 <= ai_family p < 2 ^ 31;
  ao_socktype : - 2 ^ 31 <= ai_socktype p < 2 ^ 31;
  ao_protocol : - 2 ^ 31 <= ai_protocol p < 2 ^ 31;
  ao_addr : exists a, ai_addr p = Some a /\ ai_addrlen p = Z.of_nat (length a);
  ao_canon : forall s, ai_canonname p = Some s -> no_nul s;
}.

Lemma length_ai_header p : length (ai_header p) = hlen.
Proof. unfold ai_header. by rewrite !length_app, !length_le_bytes. Qed.

Lemma length_node_bytes p :
  addrinfo_ok p -> Z.of_nat (length (node_bytes p)) = 20 + ai_addrlen p + 4 + aclen_of p.
Proof.
  intros H. destruct (ao_addr _ H) as (a & Ea & El).
  unfold node_bytes, aclen_of. rewrite !length_app, length_ai_header, length_le_bytes, Ea, El.
  unfold hlen. destruct (ai_canonname p); cbn [default length]; rewrite ?length_app;
    cbn [length]; cbn; lia.
Qed.

Lemma encode_node_spec pre mid post p :
  addrinfo_ok p -> length mid = length (node_bytes p) ->
  encode_node (pre ++ mid ++ post) (length pre) p =
    (pre ++ node_bytes p ++ post, (length pre + length (node_bytes p))%nat).
Proof.
  intros H Hm. destruct (ao_addr _ H) as (a & Ea & El).
  pose proof (length_node_bytes p H) as Hl.
  unfold encode_node. rewrite Ea.
  set (cn := match ai_canonname p with Some s => s ++ [0] | None => [] end).
  assert (node_bytes p = ai_header p ++ le_bytes 4 (aclen_of p) ++ a ++ cn) as Hn.
  { unfold node_bytes. by rewrite Ea. }
  rewrite Hn in *. clear Hn.
  rewrite !length_app, length_ai_header, length_le_bytes in *.
  (* cut the old bytes like the new ones *)
  rewrite <- (take_drop hlen mid). set (m1 := take hlen mid). set (r1 := drop hlen mid).
  rewrite <- (take_drop 4 r1). set (m2 := take 4 r1). set (r2 := drop 4 r1).
  rewrite <- (take_drop (length a) r2). set (m3 := take (length a) r2).
  set (m4 := drop (length a) r2).
  assert (length m1 = hlen) by (unfold m1; rewrite length_take; lia).
  assert (length r1 = (4 + (length a + length cn))%nat) by (unfold r1; rewrite length_drop; lia).
  assert (length m2 = 4%nat) by (unfold m2; rewrite length_take; lia).
  assert (length r2 = (length a + length cn)%nat) by (unfold r2; rewrite length_drop; lia).
  assert (length m3 = length a) by (unfold m3; rewrite length_take; lia).
  assert (length m4 = length cn) by (unfold m4; rewrite length_drop; lia).
  rewrite <- !app_assoc.
  rewrite memwrite_app by (rewrite length_ai_header; lia).
  replace (length pre + hlen)%nat with (length (pre ++ ai_header p))
    by (rewrite length_app, length_ai_header; lia).
  rewrite (app_assoc pre (ai_header p)), memwrite_app by (rewrite length_le_bytes; lia).
  replace (length (pre ++ ai_header p) + 4)%nat
    with (length ((pre ++ ai_header p) ++ le_bytes 4 (aclen_of p)))
    by (rewrite length_app, length_le_bytes; lia).
  rewrite (app_assoc (pre ++ _)).
  set (pre2 := (pre ++ ai_header p) ++ le_bytes 4 (aclen_of p)).
  assert ((if 0 <? ai_addrlen p
     then (memwrite (length pre2) (take (Z.to_nat (ai_addrlen p)) a) (pre2 ++ m3 ++ m4 ++ post),
           (length pre2 + Z.to_nat (ai_addrlen p))%nat)
     else (pre2 ++ m3 ++ m4 ++ post, length pre2)) =
     ((pre2 ++ a) ++ m4 ++ post, length (pre2 ++ a))) as ->.
  { rewrite El, Nat2Z.id. destruct (Z.ltb_spec 0 (Z.of_nat (length a))).
    - rewrite take_ge by lia. rewrite memwrite_app by lia. by rewrite length_app, <- app_assoc.
    - destruct a; [|cbn in *; lia]. destruct m3; [|cbn in *; lia]. cbn. by rewrite app_nil_r. }
  assert (length pre2 = (length pre + 24)%nat) as Hpre2.
  { unfold pre2. rewrite !length_app, length_ai_header, length_le_bytes. unfold hlen. lia. }
  transitivity ((pre2 ++ a) ++ cn ++ post, length ((pre2 ++ a) ++ cn)).
  2: { f_equal; [unfold pre2; by rewrite <- ?app_assoc|].
       rewrite !length_app, Hpre2. unfold hlen. lia. }
  unfold aclen_of in *. subst cn. destruct (ai_canonname p) as [s|].
  - rewrite (proj2 (Z.ltb_lt _ _)) by lia.
    rewrite memwrite_app by lia. f_equal. rewrite !length_app. cbn [length]. lia.
  - destruct m4; [|cbn in *; lia]. by rewrite app_nil_r.
Qed.

Definition list_bytes (ai : list addrinfo) : list Z := concat (node_bytes <$> ai).

Lemma encode_nodes_spec pre mid post ai :
  Forall addrinfo_ok ai -> length mid = length (list_bytes ai) ->
  encode_nodes (pre ++ mid ++ post) (length pre) ai = pre ++ list_bytes ai ++ post.
Proof.
  intros Hok. revert pre mid. induction Hok as [|p ai Hp Hok IH]; intros pre mid Hm; cbn.
  - by destruct mid.
  - unfold list_bytes in Hm. cbn in Hm. rewrite length_app in Hm.
    rewrite <- (take_drop (length (node_bytes p)) mid), <- app_assoc.
    rewrite encode_node_spec by (try rewrite length_take; try done; lia).
    rewrite (app_assoc pre), <- length_app.
    rewrite IH by (rewrite length_drop; unfold list_bytes; lia).
    unfold list_bytes. cbn. by rewrite <- !app_assoc.
Qed.

Lemma encoded_len_spec ai len :
  Forall addrinfo_ok ai -> 0 <= len -> len + Z.of_nat (length (list_bytes ai)) < 2 ^ 31 ->
  encoded_len ai len = len + Z.of_nat (length (list_bytes ai)).
Proof.
  intros Hok. revert len. induction Hok as [|p ai Hp Hok IH]; intros len H0 Hlt; cbn.
  - lia.
  - unfold list_bytes in *. cbn in *. rewrite length_app in *.
    pose proof (length_node_bytes p Hp) as Hl. pose proof (ao_addr _ Hp) as (a & _ & Ha).
    assert (0 <= aclen_of p) by (unfold aclen_of; case_match; lia).
    rewrite (wraps_small 32 (len + _)), (wraps_small 32 (_ + aclen_of p)) by lia.
    rewrite IH by lia. lia.
Qed.

Lemma memread_skip {A} (pre l : list A) k n :
  memread (length pre + k) n (pre ++ l) = memread k n l.
Proof. unfold memread. rewrite <- drop_drop, drop_app_length. done. Qed.

Lemma get32_skip pre l k : get32 (pre ++ l) (length pre + k) = get32 l k.
Proof. unfold get32. by rewrite memread_skip. Qed.

Lemma get32_skip0 pre l : get32 (pre ++ l) (length pre) = get32 l 0.
Proof. rewrite <- (get32_skip pre l 0). by rewrite Nat.add_0_r. Qed.

(** The fields of a header, read where [decode_node] reads them. *)
Lemma get32_header p rest :
  get32 (ai_header p ++ rest) 0 = u32 (ai_flags p) /\
  get32 (ai_header p ++ rest) 4 = u32 (ai_family p) /\
  get32 (ai_header p ++ rest) 8 = u32 (ai_socktype p) /\
  get32 (ai_header p ++ rest) 12 = u32 (ai_protocol p) /\
  get32 (ai_header p ++ rest) 16 = u32 (ai_addrlen p).
Proof. rewrite <- !le_val_bytes4. done. Qed.

Lemma decode_node_spec pre post p buflen :
  addrinfo_ok p ->
  Z.of_nat (length pre + length (node_bytes p)) < buflen < 2 ^ 31 ->
  decode_node (pre ++ node_bytes p ++ post) (length pre) buflen =
    DecOk (p, (length pre + length (node_bytes p))%nat).
Proof.
  intros H Hb. pose proof (length_node_bytes p H) as Hl.
  pose proof (ao_addr _ H) as (a & Ea & El). pose proof (ao_canon _ H) as Hcn.
  set (cn := match ai_canonname p with Some s => s ++ [0] | None => [] end).
  assert (node_bytes p ++ post =
    ai_header p ++ le_bytes 4 (aclen_of p) ++ a ++ cn ++ post) as Hn.
  { unfold node_bytes. rewrite Ea. cbn [default id]. by rewrite <- !app_assoc. }
  assert (0 <= aclen_of p < 2 ^ 31) as Hac by (unfold aclen_of in *; case_match; lia).
  assert (length (node_bytes p) = (24 + length a + length cn)%nat) as Hlen.
  { unfold aclen_of, cn in *. destruct (ai_canonname p); rewrite ?length_app; cbn [length]; lia. }
  unfold decode_node.
  rewrite (proj2 (Nat.ltb_ge _ _)) by (rewrite !length_app; unfold hlen; lia).
  destruct (get32_header p (le_bytes 4 (aclen_of p) ++ a ++ cn ++ post))
    as (G0 & G4 & G8 & G12 & G16).
  rewrite Hn, (get32_skip pre _ 4), (get32_skip pre _ 8), (get32_skip pre _ 12),
    (get32_skip pre _ 16), (get32_skip0 pre), G0, G4, G8, G12, G16.
  rewrite !(proj2 (Z.leb_gt buflen _)) by (unfold hlen; lia).
  assert (get32 (pre ++ ai_header p ++ le_bytes 4 (aclen_of p) ++ a ++ cn ++ post)
            (length pre + hlen) = aclen_of p) as ->.
  { rewrite get32_skip. rewrite <- (length_ai_header p), get32_skip0.
    change (get32 _ 0) with (le_val (le_bytes 4 (aclen_of p))).
    rewrite le_val_bytes4. apply wrapu_small. lia. }
  rewrite (wrapu_small 32 (ai_addrlen p)), (wrapu_small 32 (_ + ai_addrlen p)) by
    (unfold hlen; lia).
  rewrite (proj2 (Z.leb_gt buflen (_ + _))), andb_false_r by (unfold hlen; lia).
  rewrite (proj2 (Nat.ltb_ge _ _))
    by (rewrite !length_app, length_ai_header, length_le_bytes; unfold hlen; lia).
  assert (pre ++ ai_header p ++ le_bytes 4 (aclen_of p) ++ a ++ cn ++ post =
          (pre ++ ai_header p ++ le_bytes 4 (aclen_of p)) ++ a ++ cn ++ post) as ->
    by by rewrite <- !app_assoc.
  assert ((length pre + hlen + 4)%nat =
          length (pre ++ ai_header p ++ le_bytes 4 (aclen_of p))) as ->.
  { rewrite !length_app, length_ai_header, length_le_bytes. unfold hlen. lia. }
  rewrite (memread_app_at _ a) by lia.
  assert (forall n, n = length a -> drop (length (pre ++ ai_header p ++ le_bytes 4 (aclen_of p)) + n)
    ((pre ++ ai_header p ++ le_bytes 4 (aclen_of p)) ++ a ++ cn ++ post) = cn ++ post) as Hdrop.
  { intros n ->. rewrite <- drop_drop, drop_app_length. by rewrite drop_app_length. }
  rewrite Hdrop by lia. rewrite !wraps_wrapu, !(wraps_small 32) by (lia || apply H).
  rewrite !length_app, length_ai_header, length_le_bytes, Hlen.
  unfold cn, aclen_of in *. destruct p as [f fa st pr al ad cno]; cbn in *.
  destruct cno as [s|].
  - rewrite (proj2 (Z.ltb_lt _ _)) by lia.
    rewrite <- app_assoc. cbn [app]. rewrite cstr_app by (by apply Hcn).
    subst ad. do 2 f_equal. rewrite length_app. cbn [length]. unfold hlen. lia.
  - cbn. subst ad. do 2 f_equal. unfold hlen. lia.
Qed.

Lemma decode_nodes_spec pre post ai buflen :
  Forall addrinfo_ok ai ->
  Z.of_nat (length pre + length (list_bytes ai)) < buflen < 2 ^ 31 ->
  decode_nodes (pre ++ list_bytes ai ++ post) (length pre) (length ai) buflen = DecOk ai.
Proof.
  intros Hok. revert pre. induction Hok as [|p ai Hp Hok IH]; intros pre Hb; cbn; [done|].
  unfold list_bytes in *. cbn in *. rewrite length_app in Hb. rewrite <- app_assoc.
  rewrite decode_node_spec by (done || lia).
  rewrite app_assoc, <- length_app, IH by (rewrite length_app; lia). done.
Qed.

(** The header of the last node of [ai ++ [p]] fits but its address ends at
    [buflen]: the bound test is [>=]. *)
Lemma decode_node_exact pre p buflen :
  addrinfo_ok p -> ai_canonname p = None -> 0 < ai_addrlen p ->
  Z.of_nat (length pre + length (node_bytes p)) = buflen -> buflen < 2 ^ 31 ->
  decode_node (pre ++ node_bytes p) (length pre) buflen = DecErr (- RPC_EOVERLONG).
Proof.
  intros H Hc Ha He Hb. pose proof (length_node_bytes p H) as Hl.
  pose proof (ao_addr _ H) as (a & Ea & El).
  unfold aclen_of in Hl. rewrite Hc in Hl.
  unfold decode_node.
  rewrite (proj2 (Nat.ltb_ge _ _)) by (rewrite !length_app; unfold hlen; lia).
  rewrite !(proj2 (Z.leb_gt buflen _)) by (unfold hlen; lia).
  assert (get32 (pre ++ node_bytes p) (length pre + 16) = ai_addrlen p) as ->.
  { rewrite get32_skip. unfold node_bytes.
    destruct (get32_header p (le_bytes 4 (aclen_of p) ++ default [] (ai_addr p) ++
      match ai_canonname p with Some s => s ++ [0] | None => [] end)) as (_ & _ & _ & _ & ->).
    apply wrapu_small. lia. }
  rewrite (proj2 (Z.ltb_lt _ _)) by done. rewrite wrapu_small by (unfold hlen; lia).
  rewrite (proj2 (Z.leb_le _ _)) by (unfold hlen; lia). done.
Qed.

(** ** Host entries *)

Record hostent := Hostent {
  h_name : option (list Z);
  h_aliases : option (list (list Z));
  h_addrtype : Z;
  h_length : Z;
  h_addr_list : option (list (list Z));
}.

(** [ihostent_t] and its image in the buffer (24 bytes). *)
Record ihostent := Ihostent {
  h_name_idx : Z;
  h_aliases_idx : Z;
  ih_aliaslen : Z;
  ih_addrlen : Z;
  ih_addrtype : Z;
  ih_length : Z;
  h_addr_list_idx : Z;
}.

Definition sizeof_ihostent : nat := 24.

Definition ihostent_bytes (ih : ihostent) : list Z :=
  le_bytes 4 (h_name_idx ih) ++ le_bytes 4 (h_aliases_idx ih) ++
  le_bytes 2 (ih_aliaslen ih) ++ le_bytes 2 (ih_addrlen ih) ++
  le_bytes 4 (ih_addrtype ih) ++ le_bytes 4 (ih_length ih) ++ le_bytes 4 (h_addr_list_idx ih).

Definition get16 (l : list Z) (off : nat) : Z := le_val (memread off 2 l).

Definition ihostent_of_bytes (l : list Z) : ihostent :=
  Ihostent (i32 (get32 l 0)) (i32 (get32 l 4)) (i16 (get16 l 8)) (i16 (get16 l 10))
    (i32 (get32 l 12)) (i32 (get32 l 16)) (i32 (get32 l 20)).

(** The loops over the aliases (lines 224-232) and the addresses (lines
    238-245): copy each item behind [tlen] and count it in a [short].  [None]
    for the index is the early return with [-RPC_EOVERLONG]. *)
Fixpoint encode_items (items : list (list Z)) (buf : list Z) (tlen : nat) (cnt buflen : Z)
    : list Z * option (nat * Z) :=
  match items with
  | [] => (buf, Some (tlen, cnt))
  | x :: items =>
      if buflen <=? Z.of_nat (tlen + length x) then (buf, None)
      else encode_items items (memwrite tlen x buf) (tlen + length x) (i16 (cnt + 1)) buflen
  end.

(** The result and the buffer; an early return leaves what was copied. *)
Definition encode_hostent (ht : option hostent) (buf : option (list Z)) (buflen : Z)
    : Z * option (list Z) :=
  match ht, buf with
  | Some ht, Some buf =>
      let '(buf, r) :=
        match h_name ht with
        | Some s => encode_items [s ++ [0]] buf sizeof_ihostent 0 buflen
        | None => (buf, Some (sizeof_ihostent, 0))
        end in
      match r with
      | None => (- RPC_EOVERLONG, Some buf)
      | Some (t1, _) =>
          let '(buf, r) :=
            encode_items ((fun s => s ++ [0]) <$> default [] (h_aliases ht)) buf t1 0 buflen in
          match r with
          | None => (- RPC_EOVERLONG, Some buf)
          | Some (t2, aliaslen) =>
              let '(buf, r) :=
                encode_items (take (Z.to_nat (h_length ht)) <$> default [] (h_addr_list ht))
                  buf t2 0 buflen in
              match r with
              | None => (- RPC_EOVERLONG, Some buf)
              | Some (t3, addrlen) =>
                  let ih := Ihostent (Z.of_nat sizeof_ihostent) (Z.of_nat t1) aliaslen addrlen
                              (h_addrtype ht) (h_length ht) (Z.of_nat t2) in
                  (Z.of_nat t3, Some (memwrite 0 (ihostent_bytes ih) buf))
              end
          end
      end
  | _, _ => (- RPC_EINVAL, buf)
  end.

(** [n] strings from the front of [data] (lines 178-186). *)
Fixpoint decode_strings (n : nat) (data : list Z) : option (list (list Z) * list Z) :=
  match n with
  | O => Some ([], data)
  | S n =>
      s ← cstr data;
      '(ss, rest) ← decode_strings n (drop (length s + 1) data);
      Some (s :: ss, rest)
  end.

(** [n] addresses of [len] bytes (lines 190-193). *)
Fixpoint decode_addrs (n len : nat) (data : list Z) : option (list (list Z)) :=
  match n with
  | O => Some []
  | S n =>
      if (length data <? len)%nat then None
      else cons (take len data) <$> decode_addrs n len (drop len data)
  end.

(** [malloc] is taken to succeed.  The data behind the [ihostent_t] is copied
    into the new block, into which the decoded pointers point. *)
Definition decode_hostent (src_buf : option (list Z)) (buflen : Z) : decoded hostent :=
  match src_buf with
  | None => DecErr (- RPC_EINVAL)
  | Some src =>
      if u64 buflen <? Z.of_nat sizeof_ihostent then DecErr (- RPC_EINVAL) else
      if (length src <? Z.to_nat buflen)%nat then DecOOB else
      let ih := ihostent_of_bytes src in
      if (h_aliases_idx ih <? h_name_idx ih) || (h_addr_list_idx ih <? h_aliases_idx ih)
      then DecErr (- RPC_ECORRUPTED) else
      let data := memread sizeof_ihostent (Z.to_nat buflen - sizeof_ihostent) src in
      let name_len := Z.to_nat (h_aliases_idx ih - h_name_idx ih) in
      let name := if h_name_idx ih =? h_aliases_idx ih then Some None
                  else Some <$> cstr data in
      match name, decode_strings (Z.to_nat (ih_aliaslen ih)) (drop name_len data) with
      | Some name, Some (aliases, rest) =>
          match decode_addrs (Z.to_nat (ih_addrlen ih)) (Z.to_nat (ih_length ih)) rest with
          | Some addrs =>
              DecOk (Hostent name (Some aliases) (ih_addrtype ih) (ih_length ih) (Some addrs))
          | None => DecOOB
          end
      | _, _ => DecOOB
      end
  end.

Arguments ihostent_bytes : simpl never.

Lemma length_ihostent_bytes ih : length (ihostent_bytes ih) = sizeof_ihostent.
Proof. unfold ihostent_bytes. by rewrite !length_app, !length_le_bytes. Qed.

Record ihostent_ok (ih : ihostent) : Prop := IhostentOk {
  io_name : 0 <= h_name_idx ih < 2 ^ 31;
  io_aliases : 0 <= h_aliases_idx ih < 2 ^ 31;
  io_aliaslen : 0 <= ih_aliaslen ih < 2 ^ 15;
  io_addrlen : 0 <= ih_addrlen ih < 2 ^ 15;
  io_type : - 2 ^ 31 <= ih_addrtype ih < 2 ^ 31;
  io_length : - 2 ^ 31 <= ih_length ih < 2 ^ 31;
  io_addrs : 0 <= h_addr_list_idx ih < 2 ^ 31;
}.

Lemma ihostent_roundtrip ih rest :
  ihostent_ok ih -> ihostent_of_bytes (ihostent_bytes ih ++ rest) = ih.
Proof.
  intros [H1 H2 H3 H4 H5 H6 H7]. destruct ih as [a b c d e f g]. cbn in *.
  unfold ihostent_of_bytes.
  change (get32 _ 0) with (le_val (le_bytes 4 a)). change (get32 _ 4) with (le_val (le_bytes 4 b)).
  change (get16 _ 8) with (le_val (le_bytes 2 c)). change (get16 _ 10) with (le_val (le_bytes 2 d)).
  change (get32 _ 12) with (le_val (le_bytes 4 e)).
  change (get32 _ 16) with (le_val (le_bytes 4 f)).
  change (get32 _ 20) with (le_val (le_bytes 4 g)).
  rewrite !le_val_bytes4, !le_val_bytes2, !wraps_wrapu, !(wraps_small 32), !(wraps_small 16)
    by (lia || done). done.
Qed.

Lemma encode_items_spec items pre mid post cnt buflen :
  length mid = length (concat items) -> 0 <= cnt -> cnt + Z.of_nat (length items) < 2 ^ 15 ->
  Z.of_nat (length pre + length mid) < buflen ->
  encode_items items (pre ++ mid ++ post) (length pre) cnt buflen =
    (pre ++ concat items ++ post,
     Some ((length pre + length (concat items))%nat, cnt + Z.of_nat (length items))).
Proof.
  revert pre mid cnt. induction items as [|x items IH]; intros pre mid cnt Hm H0 Hc Hb; cbn in *.
  - destruct mid; [|done]. by rewrite Z.add_0_r, Nat.add_0_r.
  - rewrite length_app in Hm.
    rewrite (proj2 (Z.leb_gt _ _)) by lia.
    rewrite <- (take_drop (length x) mid), <- app_assoc.
    rewrite memwrite_app by (rewrite length_take; lia).
    rewrite wraps_small by lia. rewrite (app_assoc pre x), <- length_app.
    rewrite IH; rewrite ?length_drop; [|rewrite ?length_app; lia..].
    rewrite <- !app_assoc, !length_app.
    do 3 f_equal; lia.
Qed.

Lemma decode_strings_spec ss rest :
  Forall no_nul ss ->
  decode_strings (length ss) (concat ((fun s => s ++ [0]) <$> ss) ++ rest) = Some (ss, rest).
Proof.
  induction 1 as [|s ss Hs _ IH]; cbn; [done|].
  rewrite <- (app_assoc (s ++ [0])), cstr_app_nul by done. cbn [mbind option_bind].
  replace (length s + 1)%nat with (length (s ++ [0])) by by rewrite length_app.
  by rewrite drop_app_length, IH.
Qed.

Lemma decode_addrs_spec addrs len :
  Forall (fun a => length a = len) addrs ->
  decode_addrs (length addrs) len (concat addrs) = Some addrs.
Proof.
  induction 1 as [|a addrs Ha _ IH]; cbn [decode_addrs concat length]; [done|].
  rewrite (proj2 (Nat.ltb_ge _ _)) by (rewrite length_app; lia).
  subst len. by rewrite take_app_length, drop_app_length, IH.
Qed.

(** A host entry as the resolver returns it. *)
Record hostent_ok (ht : hostent) : Prop := HostentOk {
  ho_name : forall s, h_name ht = Some s -> no_nul s;
  ho_aliases : exists l, h_aliases ht = Some l /\ Forall no_nul l /\ Z.of_nat (length l) < 2 ^ 15;
  ho_addrtype : - 2 ^ 31 <= h_addrtype ht < 2 ^ 31;
  ho_length : 0 <= h_length ht < 2 ^ 31;
  ho_addrs : exists l, h_addr_list ht = Some l /\
    Forall (fun a => length a = Z.to_nat (h_length ht)) l /\ Z.of_nat (length l) < 2 ^ 15;
}.

(** The bytes behind the [ihostent_t]. *)
Definition name_bytes (ht : hostent) : list Z :=
  match h_name ht with Some s => s ++ [0] | None => [] end.
Definition alias_bytes (ht : hostent) : list Z :=
  concat ((fun s => s ++ [0]) <$> default [] (h_aliases ht)).
Definition addr_bytes (ht : hostent) : list Z := concat (default [] (h_addr_list ht)).
Definition hostent_size (ht : hostent) : nat :=
  (sizeof_ihostent + length (name_bytes ht) + length (alias_bytes ht) + length (addr_bytes ht))%nat.

Definition hostent_header (ht : hostent) : ihostent :=
  Ihostent (Z.of_nat sizeof_ihostent) (Z.of_nat (sizeof_ihostent + length (name_bytes ht)))
    (Z.of_nat (length (default [] (h_aliases ht))))
    (Z.of_nat (length (default [] (h_addr_list ht))))
    (h_addrtype ht) (h_length ht)
    (Z.of_nat (sizeof_ihostent + length (name_bytes ht) + length (alias_bytes ht))).

Lemma encode_hostent_bytes ht buf buflen :
  hostent_ok ht -> Z.of_nat (hostent_size ht) < buflen -> (hostent_size ht <= length buf)%nat ->
  encode_hostent (Some ht) (Some buf) buflen =
    (Z.of_nat (hostent_size ht),
     Some (ihostent_bytes (hostent_header ht) ++ name_bytes ht ++ alias_bytes ht ++
           addr_bytes ht ++ drop (hostent_size ht) buf)).
Proof.
  intros H Hb Hl. destruct (ho_aliases _ H) as (al & Eal & _ & Hal).
  destruct (ho_addrs _ H) as (ad & Ead & Hadl & Had).
  unfold hostent_size in *.
  assert (take (Z.to_nat (h_length ht)) <$> ad = ad) as Htake.
  { rewrite <- (list_fmap_id ad) at 2. apply list_fmap_ext. intros i a Ha. cbn.
    rewrite take_ge; [done|]. eapply Forall_lookup_1 in Ha; [|exact Hadl]. cbn in Ha. lia. }
  (* cut the buffer *)
  rewrite <- (take_drop sizeof_ihostent buf) at 1. set (m0 := take _ buf). set (r0 := drop _ buf).
  rewrite <- (take_drop (length (name_bytes ht)) r0). set (m1 := take _ r0). set (r1 := drop _ r0).
  rewrite <- (take_drop (length (alias_bytes ht)) r1). set (m2 := take _ r1). set (r2 := drop _ r1).
  rewrite <- (take_drop (length (addr_bytes ht)) r2). set (m3 := take _ r2). set (r3 := drop _ r2).
  assert (drop (sizeof_ihostent + length (name_bytes ht) + length (alias_bytes ht) +
    length (addr_bytes ht)) buf = r3) as ->
    by (unfold r3, r2, r1, r0; rewrite !drop_drop; f_equal; lia).
  assert (length m0 = sizeof_ihostent) as L0 by (unfold m0; rewrite length_take; lia).
  assert (length m1 = length (name_bytes ht)) as L1
    by (unfold m1, r0; rewrite length_take, length_drop; lia).
  assert (length m2 = length (alias_bytes ht)) as L2
    by (unfold m2, r1, r0; rewrite length_take, !length_drop; lia).
  assert (length m3 = length (addr_bytes ht)) as L3
    by (unfold m3, r2, r1, r0; rewrite length_take, !length_drop; lia).
  clearbody m0 m1 m2 m3 r3. clear r0 r1 r2 Hl. unfold encode_hostent. rewrite <- L0.
  assert (match h_name ht with
    | Some s => encode_items [s ++ [0]] (m0 ++ m1 ++ m2 ++ m3 ++ r3) (length m0) 0 buflen
    | None => (m0 ++ m1 ++ m2 ++ m3 ++ r3, Some (length m0, 0)) end =
    (m0 ++ name_bytes ht ++ m2 ++ m3 ++ r3,
     Some ((length m0 + length (name_bytes ht))%nat, match h_name ht with Some _ => 1 | None => 0 end))) as ->.
  { unfold name_bytes in *. destruct (h_name ht).
    - rewrite encode_items_spec; cbn [concat length]; rewrite ?app_nil_r; try done; lia.
    - destruct m1; [|done]. cbn. by rewrite Nat.add_0_r. }
  rewrite <- length_app, app_assoc.
  unfold alias_bytes, addr_bytes in *. rewrite Eal, Ead in *. cbn [default id] in *.
  rewrite encode_items_spec; rewrite ?length_fmap, ?length_app; [|lia..].
  rewrite app_assoc, <- !length_app, Htake.
  rewrite encode_items_spec; [|rewrite ?length_app; lia..].
  rewrite !Z.add_0_l. f_equal; [f_equal; rewrite !length_app; lia|].
  f_equal. rewrite <- !app_assoc.
  rewrite memwrite_0_app by (by rewrite length_ihostent_bytes).
  f_equal. unfold hostent_header, alias_bytes. rewrite Eal, Ead. cbn [default id].
  rewrite <- L0. do 2 f_equal; rewrite !length_app; lia.
Qed.

Lemma hostent_header_ok ht :
  hostent_ok ht -> Z.of_nat (hostent_size ht) < 2 ^ 31 -> ihostent_ok (hostent_header ht).
Proof.
  intros H Hs. unfold hostent_size in Hs. destruct (ho_aliases _ H) as (al & Eal & _ & Hal).
  destruct (ho_addrs _ H) as (ad & Ead & _ & Had). pose proof (ho_length _ H).
  pose proof (ho_addrtype _ H).
  split; cbn [hostent_header h_name_idx h_aliases_idx ih_aliaslen ih_addrlen ih_addrtype
    ih_length h_addr_list_idx]; rewrite ?Eal, ?Ead; cbn [default id]; lia.
Qed.

Lemma decode_hostent_bytes ht rest :
  hostent_ok ht -> Z.of_nat (hostent_size ht) < 2 ^ 31 ->
  decode_hostent (Some (ihostent_bytes (hostent_header ht) ++ name_bytes ht ++ alias_bytes ht ++
           addr_bytes ht ++ rest)) (Z.of_nat (hostent_size ht)) = DecOk ht.
Proof.
  intros H Hs. pose proof (hostent_header_ok ht H Hs) as Hh. unfold decode_hostent.
  rewrite wrapu_small by lia.
  rewrite (proj2 (Z.ltb_ge _ _)) by (unfold hostent_size; lia).
  rewrite Nat2Z.id, (proj2 (Nat.ltb_ge _ _))
    by (rewrite !length_app, length_ihostent_bytes; unfold hostent_size; lia).
  rewrite ihostent_roundtrip by done.
  cbn [hostent_header h_name_idx h_aliases_idx ih_aliaslen ih_addrlen ih_addrtype
    ih_length h_addr_list_idx].
  rewrite !(proj2 (Z.ltb_ge _ _)) by lia. cbn [orb].
  assert (memread sizeof_ihostent (hostent_size ht - sizeof_ihostent)
    (ihostent_bytes (hostent_header ht) ++ name_bytes ht ++ alias_bytes ht ++ addr_bytes ht ++ rest)
    = name_bytes ht ++ alias_bytes ht ++ addr_bytes ht) as ->.
  { rewrite <- (length_ihostent_bytes (hostent_header ht)) at 1.
    rewrite (app_assoc (alias_bytes ht)), (app_assoc (name_bytes ht)).
    apply memread_app_at. rewrite !length_app. unfold hostent_size. lia. }
  replace (Z.to_nat (Z.of_nat (sizeof_ihostent + length (name_bytes ht)) -
    Z.of_nat sizeof_ihostent)) with (length (name_bytes ht)) by lia.
  rewrite drop_app_length, !Nat2Z.id.
  destruct (ho_aliases _ H) as (al & Eal & Hnul & Hal).
  destruct (ho_addrs _ H) as (ad & Ead & Hadl & Had).
  unfold alias_bytes at 2, addr_bytes at 2. rewrite Eal, Ead. cbn [default id].
  rewrite decode_strings_spec by done. rewrite decode_addrs_spec by done.
  pose proof (ho_name _ H) as Hname. unfold name_bytes.
  destruct (h_name ht) as [s|] eqn:En.
  - rewrite (proj2 (Z.eqb_neq _ _)) by (rewrite length_app; cbn [length]; lia).
    rewrite cstr_app_nul by (by apply Hname).
    destruct ht; cbn in *; by subst.
  - rewrite (proj2 (Z.eqb_eq _ _)) by (cbn [length]; lia).
    destruct ht; cbn in *; by subst.
Qed.

(** ** Properties *)

(** C29: an address list survives the wire: [encode_addrlist] reports the number
    of entries and the length of the encoding, and [decode_addrlist] of the buffer
    with any bound above that length gives the same list, the addresses and names
    included. *)
Theorem addrlist_roundtrip ai buf buflen bound :
  ai <> [] -> Forall addrinfo_ok ai ->
  Z.of_nat (length (list_bytes ai)) <= buflen -> (length (list_bytes ai) <= length buf)%nat ->
  Z.of_nat (length (list_bytes ai)) < bound < 2 ^ 31 ->
  exists buf',
    encode_addrlist ai (Some buf) (Some buflen) =
      (Z.of_nat (length ai), Some buf', Some (Z.of_nat (length (list_bytes ai)))) /\
    length buf' = length buf /\
    decode_addrlist buf' (Z.of_nat (length ai)) bound = DecOk ai.
Proof.
  intros Hne Hok Hbl Hbuf Hb. unfold encode_addrlist, decode_addrlist.
  destruct ai as [|p ai]; [done|]. rewrite Nat2Z.id.
  rewrite encoded_len_spec by (done || lia). rewrite Z.add_0_l.
  rewrite (proj2 (Z.ltb_ge _ _)) by done. eexists. split; [done|].
  rewrite <- (take_drop (length (list_bytes (p :: ai))) buf).
  pose proof (encode_nodes_spec [] (take (length (list_bytes (p :: ai))) buf)
    (drop (length (list_bytes (p :: ai))) buf) (p :: ai) Hok) as E.
  cbn [app length] in E. rewrite E by (rewrite length_take; lia). split.
  - rewrite !length_app, length_take. lia.
  - apply (decode_nodes_spec []); [done|]. cbn [length]. lia.
Qed.

Definition ai_example : list addrinfo :=
  [Addrinfo 2 2 1 6 4 (Some [127; 0; 0; 1]) (Some [108; 111]);
   Addrinfo 0 2 (-1) 17 2 (Some [10; 9]) None].

Lemma ai_example_ok : Forall addrinfo_ok ai_example.
Proof.
  repeat constructor; cbn; try lia; try (eexists; split; [done|done]); intros; simplify_eq;
    repeat constructor; done.
Qed.

Lemma addrlist_roundtrip_witness :
  exists buf',
    encode_addrlist ai_example (Some (replicate 432 0)) (Some 432) =
      (Z.of_nat (length ai_example), Some buf', Some (Z.of_nat (length (list_bytes ai_example)))) /\
    length buf' = length (replicate 432 0) /\
    decode_addrlist buf' (Z.of_nat (length ai_example)) 432 = DecOk ai_example.
Proof.
  apply (addrlist_roundtrip ai_example (replicate 432 0) 432 432).
  - done.
  - apply ai_example_ok.
  - by vm_compute.
  - apply Nat.leb_le. by vm_compute.
  - split; by vm_compute.
Defined.

(** C30: [encode_addrlist] answers [-RPC_EINVAL] for a NULL list, buffer or
    length and [-RPC_EOVERLONG] for a list that does not fit, and writes
    nothing in these cases. *)
Theorem encode_addrlist_errors ai buf buflen :
  (forall b bl, encode_addrlist [] b bl = (- RPC_EINVAL, b, bl)) /\
  (forall l bl, encode_addrlist l None bl = (- RPC_EINVAL, None, bl)) /\
  (forall l b, encode_addrlist l b None = (- RPC_EINVAL, b, None)) /\
  (ai <> [] -> Forall addrinfo_ok ai -> buflen < Z.of_nat (length (list_bytes ai)) < 2 ^ 31 ->
   encode_addrlist ai (Some buf) (Some buflen) = (- RPC_EOVERLONG, Some buf, Some buflen)).
Proof.
  unfold encode_addrlist. split_and!; try (intros; csteps; done).
  intros Hne Hok Hb. destruct ai as [|p ai]; [done|].
  rewrite encoded_len_spec by (done || lia).
  by rewrite (proj2 (Z.ltb_lt _ _)) by lia.
Qed.

Lemma encode_addrlist_errors_witness :
  (forall b bl, encode_addrlist [] b bl = (- RPC_EINVAL, b, bl)) /\
  (forall l bl, encode_addrlist l None bl = (- RPC_EINVAL, None, bl)) /\
  (forall l b, encode_addrlist l b None = (- RPC_EINVAL, b, None)) /\
  (ai_example <> [] -> Forall addrinfo_ok ai_example ->
   3 < Z.of_nat (length (list_bytes ai_example)) < 2 ^ 31 ->
   encode_addrlist ai_example (Some [1; 2; 3]) (Some 3) =
     (- RPC_EOVERLONG, Some [1; 2; 3], Some 3)).
Proof. exact (encode_addrlist_errors ai_example [1; 2; 3] 3). Defined.

(** The bound of the decoder is one byte too strict: a buffer that holds
    exactly one encoded entry with an address and no name is refused with
    [-RPC_EOVERLONG] when it is decoded with its own length. *)
Theorem decode_addrlist_exact_length p :
  addrinfo_ok p -> ai_canonname p = None -> 0 < ai_addrlen p ->
  Z.of_nat (length (node_bytes p)) < 2 ^ 31 ->
  decode_addrlist (node_bytes p) 1 (Z.of_nat (length (node_bytes p))) = DecErr (- RPC_EOVERLONG).
Proof.
  intros H Hc Ha Hb. unfold decode_addrlist.
  change (Z.to_nat 1) with 1%nat. cbn [decode_nodes].
  by rewrite (decode_node_exact [] p) by done.
Qed.

Lemma decode_addrlist_exact_length_witness :
  decode_addrlist (node_bytes (Addrinfo 0 2 1 17 2 (Some [10; 9]) None)) 1 26 =
    DecErr (- RPC_EOVERLONG).
Proof.
  apply (decode_addrlist_exact_length (Addrinfo 0 2 1 17 2 (Some [10; 9]) None)); try done.
  split; cbn; try lia; [|done]. by eexists.
Defined.

(** A host entry survives the wire: [encode_hostent] returns the number of
    bytes used, and [decode_hostent] of those bytes gives the same name, aliases
    and addresses. *)
Theorem hostent_roundtrip ht buf buflen :
  hostent_ok ht -> Z.of_nat (hostent_size ht) < buflen < 2 ^ 31 ->
  (hostent_size ht <= length buf)%nat ->
  exists buf',
    encode_hostent (Some ht) (Some buf) buflen = (Z.of_nat (hostent_size ht), Some buf') /\
    decode_hostent (Some buf') (Z.of_nat (hostent_size ht)) = DecOk ht.
Proof.
  intros H Hb Hl. rewrite encode_hostent_bytes by (done || lia).
  eexists. split; [done|]. apply decode_hostent_bytes; [done|lia].
Qed.

Definition ht_example : hostent :=
  Hostent (Some [104]) (Some [[97]; [98; 99]]) 2 4 (Some [[127; 0; 0; 1]; [10; 0; 0; 2]]).

Lemma ht_example_ok : hostent_ok ht_example.
Proof.
  split; cbn; try lia.
  - intros; simplify_eq; repeat constructor; done.
  - eexists. split; [done|]. split; [repeat constructor; done|cbn; lia].
  - eexists. split; [done|]. split; [repeat constructor; done|cbn; lia].
Qed.

Lemma hostent_roundtrip_witness :
  exists buf',
    encode_hostent (Some ht_example) (Some (replicate 432 0)) 432 =
      (Z.of_nat (hostent_size ht_example), Some buf') /\
    decode_hostent (Some buf') (Z.of_nat (hostent_size ht_example)) = DecOk ht_example.
Proof.
  apply (hostent_roundtrip ht_example (replicate 432 0) 432).
  - apply ht_example_ok.
  - cbn. lia.
  - rewrite length_replicate. cbn. lia.
Defined.
