(* ===== verification/RpcHelperMem.v ===== *)
(** * Memory of decoded address lists ([services/rpc/rpc_helper.c])

    [decode_addrlist] builds a linked list of blocks from [malloc], and [freeaddrlist]
    gives it back.  This file follows the blocks and the pointers in them; what the
    nodes hold otherwise, and the reads of the buffer, are in the marshalling file. *)

From S2P Require Import Prelude RpcHelper.

(** A pointer that was not stored yet is [Junk]. *)
Inductive ptr := Junk | Null | Blk (id : nat).
(** [struct addrinfo] with its [ai_canonname] and [ai_next], or a string. *)
Inductive block := BNode (canonname next : ptr) | BStr (s : list Z).
(** Blocks by number; [None]: freed. *)
Abbreviation heap := (list (option block)).

(** [None]: the pointer is not one that [malloc] returned and that is still in use. *)
Definition free (h : heap) (p : ptr) : option heap :=
  match p with
  | Null => Some h
  | Junk => None
  | Blk i => match h !! i with Some (Some _) => Some (<[i := None]> h) | _ => None end
  end.

(** [ok]: there is memory. *)
Definition __strdup (ok : bool) (h : heap) (s : list Z) : heap * ptr :=
  if ok then (h ++ [Some (BStr s)], Blk (length h)) else (h, Null).

(** At most [fuel] nodes. *)
Fixpoint freeaddrlist (fuel : nat) (h : heap) (ai : ptr) : option heap :=
  match ai, fuel with
  | Null, _ => Some h
  | Blk i, S fuel =>
      match h !! i with
      | Some (Some (BNode canonname next)) =>
          h ← free h canonname;
          h ← free h ai;
          freeaddrlist fuel h next
      | _ => None
      end
  | _, _ => None
  end.

(** [*pp = p], where [pp] points to [out] or to the [ai_next] of a node. *)
Definition store_pp (h : heap) (out : ptr) (pp : option nat) (p : ptr) : heap * ptr :=
  match pp with
  | None => (h, p)
  | Some i =>
      match h !! i with
      | Some (Some (BNode canonname _)) => (<[i := Some (BNode canonname p)]> h, out)
      | _ => (h, out)
      end
  end.

(** The loop from entry [i] on; [ok] says which calls of [malloc] succeed.  [None]: a
    read outside the buffer, or [free] of a pointer that is not valid. *)
Fixpoint decode_loop (ok : nat -> bool) (buf : list Z) (buflen : Z) (cnt i bi : nat) (h : heap) (out : ptr)
    (pp : option nat) : option (Z * heap * ptr) :=
  match cnt with
  | O => Some (0, h, out)
  | S cnt =>
      let clean (ret : Z) (h : heap) (out : ptr) :=
        h ← freeaddrlist (S (length h)) h out; Some (ret, h, out) in
      if (length buf <? bi + hlen)%nat then None
      else if negb (ok (2 * i)%nat) then
        let '(h, out) := store_pp h out pp Null in clean (- RPC_ENOMEM) h out
      else
        let p := length h in
        let '(h, out) := store_pp (h ++ [Some (BNode Junk Junk)]) out pp (Blk p) in
        match decode_node buf bi buflen with
        | DecOOB => None
        | DecErr e => clean e h out
        | DecOk (ai, bi) =>
            let '(h, canonname) :=
              match ai_canonname ai with
              | Some s => __strdup (ok (2 * i + 1)%nat) h s
              | None => (h, Null)
              end in
            decode_loop ok buf buflen cnt (S i) bi (<[p := Some (BNode canonname Null)]> h) out (Some p)
        end
  end.
Definition decode_addrlist_mem (ok : nat -> bool) (buf : list Z) (cnt buflen : Z) : option (Z * heap * ptr) :=
  decode_loop ok buf buflen (Z.to_nat cnt) 0 0 [] Null None.

(** ** The list in memory *)

(** Blocks from number [off] on for nodes with these names, the last one linked to
    [tail]. *)
Definition head (off : nat) (l : list (option (list Z))) (tail : ptr) : ptr :=
  match l with [] => tail | _ => Blk off end.
Definition size (x : option (list Z)) : nat := match x with Some _ => 2 | None => 1 end.
Fixpoint layout (off : nat) (l : list (option (list Z))) (tail : ptr) : heap :=
  match l with
  | [] => []
  | x :: l =>
      Some (BNode (match x with Some _ => Blk (off + 1) | None => Null end) (head (off + size x) l tail)) ::
      match x with Some s => [Some (BStr s)] | None => [] end ++ layout (off + size x) l tail
  end.
Fixpoint last_id (off : nat) (l : list (option (list Z))) : option nat :=
  match l with
  | [] => None
  | [x] => Some off
  | x :: l => last_id (off + size x) l
  end.

Lemma length_layout off l t : length (layout off l t) = sum_list_with size l.
Proof.
  revert off. induction l as [|x l IH]; intros off; [done|]. cbn. rewrite length_app, IH.
  destruct x; cbn; lia.
Qed.

Lemma store_pp_layout pre l p rest :
  let off := length pre in
  l <> [] ->
  exists i, last_id off l = Some i /\
    forall out, store_pp (pre ++ layout off l Null ++ rest) out (Some i) p = (pre ++ layout off l p ++ rest, out).
Proof.
  intros off. subst off. revert pre. induction l as [|x l IH]; intros pre Hl; [done|].
  destruct l as [|y l].
  - exists (length pre). split; [done|]. intros out. cbn [layout store_pp head app].
    rewrite list_lookup_middle by done. cbn. by rewrite insert_app_r_alt, Nat.sub_diag by lia.
  - destruct (IH (pre ++ Some (BNode (match x with Some _ => Blk (length pre + 1) | None => Null end)
        (Blk (length pre + size x))) :: match x with Some s => [Some (BStr s)] | None => [] end)) as (i & Ei & H);
      [done|].
    assert (length (pre ++ Some (BNode (match x with Some _ => Blk (length pre + 1) | None => Null end)
        (Blk (length pre + size x))) :: match x with Some s => [Some (BStr s)] | None => [] end) =
      (length pre + size x)%nat) as El by (rewrite length_app; by destruct x).
    rewrite El in *. exists i. split; [done|]. intros out. specialize (H out).
    rewrite <- !app_assoc in H. cbn [app] in H. cbn [layout head]. cbn [app]. rewrite <- !app_assoc.
    exact H.
Qed.

Lemma head_snoc off l x t : head off (l ++ [x]) t = head off l (Blk (off + sum_list_with size l)).
Proof. destruct l; cbn; [by rewrite Nat.add_0_r|done]. Qed.

Lemma layout_snoc off l x t :
  layout off (l ++ [x]) t =
    layout off l (Blk (off + sum_list_with size l)) ++ layout (off + sum_list_with size l) [x] t.
Proof.
  revert off. induction l as [|y l IH]; intros off; [cbn; by rewrite Nat.add_0_r|].
  rewrite <- app_comm_cons. cbn [layout sum_list_with app]. rewrite IH, head_snoc, Nat.add_assoc.
  by rewrite <- app_assoc.
Qed.

Lemma last_id_snoc off l x : last_id off (l ++ [x]) = Some (off + sum_list_with size l)%nat.
Proof.
  revert off. induction l as [|y l IH]; intros off; [cbn; by rewrite Nat.add_0_r|].
  rewrite <- app_comm_cons. destruct (l ++ [x]) as [|z l'] eqn:E; [by destruct l|].
  change (last_id off (y :: z :: l')) with (last_id (off + size y) (z :: l')). rewrite IH.
  cbn [sum_list_with]. f_equal. lia.
Qed.

(** Freeing the list frees its blocks and goes on at [tail]. *)
Lemma free_layout pre l t rest k :
  freeaddrlist (length l + k) (pre ++ layout (length pre) l t ++ rest) (head (length pre) l t) =
    freeaddrlist k (pre ++ replicate (sum_list_with size l) None ++ rest) t.
Proof.
  revert pre. induction l as [|x l IH]; intros pre; [done|].
  cbn [length Nat.add head freeaddrlist layout app]. rewrite list_lookup_middle by done.
  destruct x as [s|]; cbn [size sum_list_with replicate app free mbind option_bind].
  - rewrite lookup_app_r by lia. replace (length pre + 1 - length pre)%nat with 1%nat by lia. cbn [lookup list_lookup].
    rewrite insert_app_r_alt by lia. replace (length pre + 1 - length pre)%nat with 1%nat by lia.
    cbn [insert list_insert mbind option_bind]. rewrite list_lookup_middle by done.
    rewrite insert_app_r_alt, Nat.sub_diag by lia. cbn [insert list_insert mbind option_bind].
    specialize (IH (pre ++ [None; None])). rewrite length_app in IH. cbn [length] in IH.
    rewrite <- !app_assoc in IH. exact IH.
  - rewrite list_lookup_middle by done.
    rewrite insert_app_r_alt, Nat.sub_diag by lia. cbn [insert list_insert mbind option_bind].
    specialize (IH (pre ++ [None])). rewrite length_app in IH. cbn [length] in IH.
    rewrite <- !app_assoc in IH. exact IH.
Qed.

(** The whole list is freed, with fuel for every block. *)
Lemma freeaddrlist_all l :
  freeaddrlist (S (length (layout 0 l Null))) (layout 0 l Null) (head 0 l Null) =
    Some (replicate (length (layout 0 l Null)) None).
Proof.
  assert (length l <= length (layout 0 l Null))%nat as Hle.
  { rewrite length_layout. clear. induction l as [|[] l IH]; cbn; lia. }
  replace (S (length (layout 0 l Null))) with (length l + (S (length (layout 0 l Null)) - length l))%nat by lia.
  generalize (S (length (layout 0 l Null)) - length l)%nat as k. intros k.
  pose proof (free_layout [] l Null [] k) as H. cbn [app length] in H.
  rewrite !app_nil_r in H. rewrite H, length_layout. by destruct k.
Qed.

Lemma store_pp_list l p rest :
  store_pp (layout 0 l Null ++ rest) (head 0 l Null) (last_id 0 l) p = (layout 0 l p ++ rest, head 0 l p).
Proof.
  destruct l as [|x l]; [done|]. destruct (store_pp_layout [] (x :: l) p rest) as (i & Ei & H); [done|].
  cbn [app length] in *. rewrite Ei, H. done.
Qed.

(** The new node is filled in: the list has one node more. *)
Lemma fill_node (l : list (option (list Z))) (canon : option (list Z)) (ok : bool) :
  let n := length (layout 0 l Null) in
  let x := if ok then canon else None in
  let h := layout 0 l (Blk n) ++ [Some (BNode Junk Junk)] in
  let '(h, canonname) := match canon with Some s => __strdup ok h s | None => (h, Null) end in
  <[n := Some (BNode canonname Null)]> h = layout 0 (l ++ [x]) Null /\ last_id 0 (l ++ [x]) = Some n /\
  head 0 (l ++ [x]) Null = head 0 l (Blk n).
Proof.
  intros n x h. subst h. assert (n = sum_list_with size l) as En by apply length_layout.
  assert (length (layout 0 l (Blk n)) = n) as El by (by rewrite length_layout).
  rewrite last_id_snoc, head_snoc, layout_snoc, Nat.add_0_l, <- En.
  subst x. destruct canon as [s|], ok; cbn [__strdup layout app head size];
    rewrite <- ?app_assoc, insert_app_r_alt, El, Nat.sub_diag, ?length_app, ?El by lia; done.
Qed.

(** The loop on a well-formed encoding: it builds the list, or it runs out of memory
    and frees what it has built. *)
Lemma decode_loop_ok ok buf buflen cnt i bi l ais :
  decode_nodes buf bi cnt buflen = DecOk ais ->
  exists ret h out,
    decode_loop ok buf buflen cnt i bi (layout 0 l Null) (head 0 l Null) (last_id 0 l) = Some (ret, h, out) /\
    (ret = 0 /\ (exists names, h = layout 0 (l ++ names) Null /\ out = head 0 (l ++ names) Null /\
                  length names = length ais /\ ((forall k, ok k = true) -> names = ai_canonname <$> ais)) \/
     ret = - RPC_ENOMEM /\ (exists k, ok k = false) /\ Forall (fun b => b = None) h).
Proof.
  revert i bi l ais. induction cnt as [|cnt IH]; intros i bi l ais E; cbn [decode_nodes decode_loop] in *.
  { injection E as <-. eexists _, _, _. split; [done|]. left. split; [done|]. exists []. by rewrite app_nil_r. }
  destruct (decode_node buf bi buflen) as [[ai bi']| |] eqn:En; try done.
  destruct (decode_nodes buf bi' cnt buflen) as [ais'| |] eqn:Er; try done. injection E as <-.
  destruct (length buf <? bi + hlen)%nat eqn:Eb; [unfold decode_node in En; by rewrite Eb in En|].
  destruct (ok (2 * i)%nat) eqn:Eok; cbn [negb].
  - rewrite store_pp_list. pose proof (fill_node l (ai_canonname ai) (ok (2 * i + 1)%nat)) as Hfill.
    cbv zeta in Hfill. destruct (match ai_canonname ai with Some s => _ | None => _ end) as [h canonname].
    destruct Hfill as (-> & El & Eh). rewrite <- El, <- Eh.
    destruct (IH (S i) bi' (l ++ [if ok (2 * i + 1)%nat then ai_canonname ai else None]) ais' Er)
      as (ret & h' & out & Ed & Hcase).
    exists ret, h', out. split; [exact Ed|]. destruct Hcase as [(-> & names & -> & -> & Hlen & Hall)|?]; [left|by right].
    split; [done|]. exists ((if ok (2 * i + 1)%nat then ai_canonname ai else None) :: names).
    rewrite <- app_assoc. split_and!; try done; [cbn; lia|]. intros Hok. by rewrite Hok, Hall.
  - pose proof (store_pp_list l Null []) as Hs. rewrite !app_nil_r in Hs. rewrite Hs, freeaddrlist_all.
    eexists _, _, _. split; [done|]. right. split_and!; [done|by exists (2 * i)%nat|]. by apply Forall_replicate.
Qed.

(** A list whose last node was just allocated cannot be freed. *)
Lemma free_unfinished l k :
  let n := length (layout 0 l Null) in
  freeaddrlist k (layout 0 l (Blk n) ++ [Some (BNode Junk Junk)]) (head 0 l (Blk n)) = None.
Proof.
  intros n. assert (n = sum_list_with size l) as En by apply length_layout.
  assert (forall k, freeaddrlist (length l + k) (layout 0 l (Blk n) ++ [Some (BNode Junk Junk)]) (head 0 l (Blk n)) = None)
    as Hlong.
  { intros k'. pose proof (free_layout [] l (Blk n) [Some (BNode Junk Junk)] k') as H. cbn [app length] in H.
    rewrite H, <- En. destruct k' as [|k']; [done|]. cbn [freeaddrlist].
    rewrite lookup_app_r, length_replicate, Nat.sub_diag by (rewrite length_replicate; lia). done. }
  assert (forall j k h p, freeaddrlist (j + k) h p = None -> freeaddrlist k h p = None) as Hless.
  { clear. intros j k. revert j. induction k as [|k IH]; intros j h p.
    - destruct p; [by destruct j|by destruct (j + 0)%nat|done].
    - replace (j + S k)%nat with (S (j + k)) by lia. destruct p as [| |i]; cbn [freeaddrlist]; try done.
      destruct (h !! i) as [[[canon next|]|]|]; try done.
      destruct (free h canon) as [h1|]; [|done]. cbn [mbind option_bind].
      destruct (free h1 (Blk i)) as [h2|]; [|done]. cbn [mbind option_bind]. apply IH. }
  apply (Hless (length l)), Hlong.
Qed.

Lemma decode_loop_error buf buflen cnt i bi l e :
  decode_nodes buf bi cnt buflen = DecErr e ->
  decode_loop (fun _ => true) buf buflen cnt i bi (layout 0 l Null) (head 0 l Null) (last_id 0 l) = None.
Proof.
  revert i bi l. induction cnt as [|cnt IH]; intros i bi l E; cbn [decode_nodes decode_loop] in *; [done|].
  destruct (length buf <? bi + hlen)%nat; [done|]. cbn [negb]. rewrite store_pp_list.
  destruct (decode_node buf bi buflen) as [[ai bi']|e'|] eqn:En; try done.
  - destruct (decode_nodes buf bi' cnt buflen) as [ais'| |] eqn:Er; try done.
    pose proof (fill_node l (ai_canonname ai) true) as Hfill. cbv zeta in Hfill.
    destruct (match ai_canonname ai with Some s => _ | None => _ end) as [h canonname].
    destruct Hfill as (-> & El & Eh). rewrite <- El, <- Eh. injection E as ->. exact (IH (S i) bi' (l ++ [ai_canonname ai]) Er).
  - by rewrite free_unfinished.
Qed.

(** C40: A well-formed address list is decoded without loss of memory: whichever calls of
    [malloc] fail, decoding returns 0 with a list that [freeaddrlist] gives back
    completely, or [-RPC_ENOMEM] with everything freed; with enough memory it is the
    former and every node has its name. *)
Theorem addrlist_memory_balanced (ok : nat -> bool) (buf : list Z) (cnt buflen : Z) (ais : list addrinfo) :
  decode_addrlist buf cnt buflen = DecOk ais ->
  exists ret h out, decode_addrlist_mem ok buf cnt buflen = Some (ret, h, out) /\
    (ret = 0 /\ freeaddrlist (S (length h)) h out = Some (replicate (length h) None) /\
       ((forall k, ok k = true) -> h = layout 0 (ai_canonname <$> ais) Null) \/
     ret = - RPC_ENOMEM /\ (exists k, ok k = false) /\ Forall (fun b => b = None) h).
Proof.
  intros E. destruct (decode_loop_ok ok buf buflen (Z.to_nat cnt) 0 0 [] ais E) as (ret & h & out & Ed & Hcase).
  exists ret, h, out. split; [exact Ed|]. destruct Hcase as [(-> & names & -> & -> & _ & Hall)|?]; [left|by right].
  cbn [app]. split_and!; [done|apply freeaddrlist_all|]. intros Hok. by rewrite (Hall Hok).
Qed.

Lemma addrlist_memory_balanced_witness :
  exists ret h out, decode_addrlist_mem (fun k => (k <? 1)%nat) (replicate 48 0) 1 48 = Some (ret, h, out) /\ ret = 0.
Proof.
  destruct (addrlist_memory_balanced (fun k => (k <? 1)%nat) (replicate 48 0) 1 48
    [Addrinfo 0 0 0 0 0 (Some []) None]) as (ret & h & out & E & _); [by vm_compute|].
  exists ret, h, out. split; [exact E|]. vm_compute in E. by injection E as <-.
Defined.

(** A malformed list is not: the error path of decoding frees the pointers of the node it
    was about to fill in, which have no value yet (lines 121 and 139). *)
Theorem malformed_list_frees_junk (buf : list Z) (cnt buflen e : Z) :
  decode_addrlist buf cnt buflen = DecErr e -> decode_addrlist_mem (fun _ => true) buf cnt buflen = None.
Proof. apply (decode_loop_error buf buflen (Z.to_nat cnt) 0 0 []). Qed.

Lemma malformed_list_frees_junk_witness :
  decode_addrlist_mem (fun _ => true) (replicate 48 0) 1 20 = None.
Proof. apply (malformed_list_frees_junk (replicate 48 0) 1 20 (- RPC_EOVERLONG)). by vm_compute. Defined.
