(* ===== verification/RpcHostentMem.v ===== *)
(** * Memory of a decoded host entry ([services/rpc/rpc_helper.c])

    [decode_hostent] puts the structure, two arrays of pointers and the text into one block
    from [malloc].  This file follows the bytes and the pointers of that block; the
    marshalling file has the checks and what the entry holds. *)

From S2P Require Import Prelude RpcHelper.

(** The fields of [struct hostent] on a 64 bit machine. *)
Definition sizeof_hostent : Z := 32.
Definition off_name : Z := 0.
Definition off_aliases : Z := 8.
Definition off_addrtype : Z := 16.
Definition off_length : Z := 20.
Definition off_addr_list : Z := 24.

Abbreviation zlen l := (Z.of_nat (length l)).

(** A store into the block; [None]: outside of it. *)
Definition store (blk : list Z) (off : Z) (v : list Z) : option (list Z) :=
  if (0 <=? off) && (off + zlen v <=? zlen blk) then Some (memwrite (Z.to_nat off) v blk) else None.
Definition store_ptr (blk : list Z) (off p : Z) : option (list Z) := store blk off (le_bytes 8 p).

(** The text at an offset; [None]: it starts or ends outside of the block. *)
Definition text_in (blk : list Z) (off : Z) : option (list Z) :=
  if 0 <=? off then cstr (drop (Z.to_nat off) blk) else None.

(** The loop over the aliases: [n] are left, the next is number [i].  A pointer into the
    block is not NULL.  [dst_buf] is behind the structure. *)
Fixpoint store_aliases (base : Z) (n : nat) (i dst_idx : Z) (blk : list Z) : option (list Z * Z) :=
  match n with
  | O => Some (blk, dst_idx)
  | S n =>
      blk ← store_ptr blk (sizeof_hostent + 8 * i) (base + sizeof_hostent + dst_idx);
      s ← text_in blk (sizeof_hostent + dst_idx);
      store_aliases base n (i + 1) (dst_idx + (zlen s + 1)) blk
  end.

(** The loop over the addresses, whose pointers are at [addr]. *)
Fixpoint store_addrs (base addr slen : Z) (n : nat) (i dst_idx : Z) (blk : list Z) : option (list Z) :=
  match n with
  | O => Some blk
  | S n =>
      blk ← store_ptr blk (addr + 8 * i) (base + sizeof_hostent + dst_idx);
      store_addrs base addr slen n (i + 1) (dst_idx + slen) blk
  end.

(** The block after the checks; [junk] is what it held. *)
Definition fill_block (base : Z) (junk : nat -> Z) (ih : ihostent) (src : list Z) (buflen : Z) : option (list Z) :=
  let dst_idx := 8 * (ih_aliaslen ih + ih_addrlen ih + 2) in
  let tlen := i32 (buflen + dst_idx - Z.of_nat sizeof_ihostent + sizeof_hostent) in
  let blk := junk <$> seq 0 (Z.to_nat tlen) in
  blk ← store blk (sizeof_hostent + dst_idx) (memread sizeof_ihostent (Z.to_nat buflen - sizeof_ihostent) src);
  blk ← store blk off_length (le_bytes 4 (ih_length ih));
  blk ← store blk off_addrtype (le_bytes 4 (ih_addrtype ih));
  let none := h_name_idx ih =? h_aliases_idx ih in
  blk ← store_ptr blk off_name (if none then 0 else base + sizeof_hostent + dst_idx);
  let dst_idx := if none then dst_idx else dst_idx + (h_aliases_idx ih - h_name_idx ih) in
  blk ← store_ptr blk off_aliases (base + sizeof_hostent);
  '(blk, dst_idx) ← store_aliases base (Z.to_nat (ih_aliaslen ih)) 0 dst_idx blk;
  blk ← store_ptr blk (sizeof_hostent + 8 * Z.max 0 (ih_aliaslen ih)) 0;
  let addr := sizeof_hostent + 8 * (ih_aliaslen ih + 1) in
  blk ← store_ptr blk off_addr_list (base + addr);
  blk ← store_addrs base addr (ih_length ih) (Z.to_nat (ih_addrlen ih)) 0 dst_idx blk;
  store_ptr blk (addr + 8 * Z.max 0 (ih_addrlen ih)) 0.

(** [base]: the block that [malloc] returns, 0 for none. *)
Definition decode_hostent_mem (base : Z) (junk : nat -> Z) (src_buf : option (list Z)) (buflen : Z)
    : decoded (list Z) :=
  match src_buf with
  | None => DecErr (- RPC_EINVAL)
  | Some src =>
      if u64 buflen <? Z.of_nat sizeof_ihostent then DecErr (- RPC_EINVAL) else
      if (length src <? Z.to_nat buflen)%nat then DecOOB else
      let ih := ihostent_of_bytes src in
      if (h_aliases_idx ih <? h_name_idx ih) || (h_addr_list_idx ih <? h_aliases_idx ih)
      then DecErr (- RPC_ECORRUPTED) else
      if base =? 0 then DecErr (- RPC_ENOMEM) else
      match fill_block base junk ih src buflen with
      | Some blk => DecOk blk
      | None => DecOOB
      end
  end.

(** ** Reading the entry through its pointers *)

Definition load (n : nat) (blk : list Z) (off : Z) : option Z :=
  if (0 <=? off) && (off + Z.of_nat n <=? zlen blk) then Some (le_val (memread (Z.to_nat off) n blk)) else None.
(** A NULL-terminated array of at most [fuel] pointers. *)
Fixpoint load_ptrs (fuel : nat) (blk : list Z) (off : Z) : option (list Z) :=
  match fuel with
  | O => None
  | S fuel =>
      p ← load 8 blk off;
      if p =? 0 then Some [] else cons p <$> load_ptrs fuel blk (off + 8)
  end.
Definition bytes_in (blk : list Z) (n : nat) (off : Z) : option (list Z) :=
  if (0 <=? off) && (off + Z.of_nat n <=? zlen blk) then Some (memread (Z.to_nat off) n blk) else None.

Definition read_hostent (base : Z) (blk : list Z) : option hostent :=
  name_p ← load 8 blk off_name;
  name ← if name_p =? 0 then Some None else Some <$> text_in blk (name_p - base);
  aliases_p ← load 8 blk off_aliases;
  aliases ← load_ptrs (length blk) blk (aliases_p - base) ≫= mapM (fun p => text_in blk (p - base));
  addrtype ← load 4 blk off_addrtype;
  len ← load 4 blk off_length;
  addrs_p ← load 8 blk off_addr_list;
  addrs ← load_ptrs (length blk) blk (addrs_p - base) ≫=
    mapM (fun p => bytes_in blk (Z.to_nat (i32 len)) (p - base));
  Some (Hostent name (Some aliases) (i32 addrtype) (i32 len) (Some addrs)).

(** ** The block *)

Definition slots (ptrs : list Z) : list Z := concat (le_bytes 8 <$> ptrs).
Fixpoint alias_ptrs (p : Z) (ss : list (list Z)) : list Z :=
  match ss with [] => [] | s :: ss => p :: alias_ptrs (p + (zlen s + 1)) ss end.
Fixpoint addr_ptrs (p len : Z) (n : nat) : list Z :=
  match n with O => [] | S n => p :: addr_ptrs (p + len) len n end.

Lemma length_slots ptrs : length (slots ptrs) = (8 * length ptrs)%nat.
Proof.
  unfold slots. induction ptrs as [|p ptrs IH]; [done|]. rewrite fmap_cons. cbn [concat length].
  rewrite length_app, IH, length_le_bytes. lia.
Qed.
Lemma slots_app p1 p2 : slots (p1 ++ p2) = slots p1 ++ slots p2.
Proof. unfold slots. by rewrite fmap_app, concat_app. Qed.
Lemma slots_cons p ptrs : slots (p :: ptrs) = le_bytes 8 p ++ slots ptrs.
Proof. done. Qed.
Lemma length_alias_ptrs p ss : length (alias_ptrs p ss) = length ss.
Proof. revert p. induction ss as [|s ss IH]; intros p; cbn; [done|by rewrite IH]. Qed.
Lemma length_addr_ptrs p len n : length (addr_ptrs p len n) = n.
Proof. revert p. induction n as [|n IH]; intros p; cbn; [done|by rewrite IH]. Qed.

Lemma cut (n : nat) (l : list Z) : (n <= length l)%nat -> exists l1 l2, l = l1 ++ l2 /\ length l1 = n.
Proof. intros H. exists (take n l), (drop n l). rewrite take_drop, length_take. split; [done|lia]. Qed.

Lemma cstr_inv l s : cstr l = Some s -> exists t, l = s ++ 0 :: t.
Proof.
  revert s. induction l as [|b l IH]; intros s; cbn; [done|]. destruct (Z.eqb_spec b 0) as [->|].
  - intros [= <-]. by exists l.
  - intros (s' & Hs & ->)%fmap_Some. destruct (IH s' Hs) as [t ->]. by exists t.
Qed.

Lemma store_mid pre mid post v off :
  off = zlen pre -> length mid = length v -> store (pre ++ mid ++ post) off v = Some (pre ++ v ++ post).
Proof.
  intros -> Hl. unfold store. rewrite (proj2 (Z.leb_le _ _)), (proj2 (Z.leb_le _ _)) by (rewrite ?length_app; lia).
  cbn [andb]. by rewrite Nat2Z.id, memwrite_app.
Qed.

Lemma text_at_mid pre post off : off = zlen pre -> text_in (pre ++ post) off = cstr post.
Proof. intros ->. unfold text_in. rewrite (proj2 (Z.leb_le _ _)) by lia. by rewrite Nat2Z.id, drop_app_length. Qed.

Lemma bytes_at_mid pre post n off :
  off = zlen pre -> (n <= length post)%nat -> bytes_in (pre ++ post) n off = Some (take n post).
Proof.
  intros -> Hl. unfold bytes_in. rewrite (proj2 (Z.leb_le _ _)), (proj2 (Z.leb_le _ _)) by (rewrite ?length_app; lia).
  cbn [andb]. unfold memread. by rewrite Nat2Z.id, drop_app_length.
Qed.

Lemma decode_strings_S n dat ss rest :
  decode_strings (S n) dat = Some (ss, rest) ->
  exists s t ss', dat = (s ++ [0]) ++ t /\ cstr dat = Some s /\ ss = s :: ss' /\ decode_strings n t = Some (ss', rest).
Proof.
  cbn. intros (s & Hs & H)%bind_Some. apply bind_Some in H as ([ss' rest'] & Hd & [= <- <-]).
  destruct (cstr_inv _ _ Hs) as [t Et]. exists s, t, ss'. split_and!; [by rewrite <- app_assoc|done|done|].
  rewrite Et in Hd. change (s ++ 0 :: t) with (s ++ [0] ++ t) in Hd. rewrite app_assoc in Hd.
  by rewrite drop_app_length' in Hd by (rewrite length_app; cbn; lia).
Qed.

Lemma decode_strings_length n dat ss rest : decode_strings n dat = Some (ss, rest) -> length ss = n.
Proof.
  revert dat ss. induction n as [|n IH]; intros dat ss; [by intros [= <- _]|].
  intros (s & t & ss' & _ & _ & -> & H)%decode_strings_S. cbn. f_equal. by eapply IH.
Qed.

Lemma store_aliases_spec base n dat ss rest pre mid post i dst_idx :
  decode_strings n dat = Some (ss, rest) -> length mid = (8 * n)%nat -> zlen pre = sizeof_hostent + 8 * i ->
  sizeof_hostent + dst_idx = zlen (pre ++ mid ++ post) ->
  store_aliases base n i dst_idx (pre ++ mid ++ post ++ dat) =
    Some (pre ++ slots (alias_ptrs (base + sizeof_hostent + dst_idx) ss) ++ post ++ dat,
          dst_idx + (zlen dat - zlen rest)).
Proof.
  revert dat ss pre mid post i dst_idx. induction n as [|n IH]; intros dat ss pre mid post i dst_idx Hd Hm Hp Hi.
  - injection Hd as <- <-. destruct mid; [|done]. cbn. do 2 f_equal. lia.
  - destruct (decode_strings_S _ _ _ _ Hd) as (s & t & ss' & Et & Hs & -> & Ht).
    destruct (cut 8 mid) as (m1 & m2 & -> & L1); [lia|]. cbn [store_aliases alias_ptrs].
    rewrite !length_app in *. unfold store_ptr. rewrite <- app_assoc, store_mid by (by rewrite ?length_le_bytes).
    cbn [mbind option_bind]. set (p := le_bytes 8 _). assert (length p = 8%nat) as Lp by apply length_le_bytes.
    replace (pre ++ p ++ m2 ++ post ++ dat) with ((pre ++ p ++ m2 ++ post) ++ dat) by by rewrite <- !app_assoc.
    rewrite text_at_mid, Hs by (rewrite !length_app; lia). cbn [mbind option_bind].
    rewrite Et. replace ((pre ++ p ++ m2 ++ post) ++ (s ++ [0]) ++ t)
      with ((pre ++ p) ++ m2 ++ (post ++ (s ++ [0])) ++ t) by by rewrite <- !app_assoc.
    rewrite (IH t ss'); [|done|lia|rewrite length_app; lia|rewrite !length_app; cbn; lia].
    rewrite slots_cons, <- !app_assoc. rewrite !length_app. cbn [length app].
    replace (base + sizeof_hostent + (dst_idx + (zlen s + 1))) with (base + sizeof_hostent + dst_idx + (zlen s + 1)) by lia.
    do 2 f_equal. lia.
Qed.

Lemma store_addrs_spec base addr slen n pre mid post i dst_idx :
  length mid = (8 * n)%nat -> zlen pre = addr + 8 * i ->
  store_addrs base addr slen n i dst_idx (pre ++ mid ++ post) =
    Some (pre ++ slots (addr_ptrs (base + sizeof_hostent + dst_idx) slen n) ++ post).
Proof.
  revert pre mid i dst_idx. induction n as [|n IH]; intros pre mid i dst_idx Hm Hp.
  - by destruct mid.
  - destruct (cut 8 mid) as (m1 & m2 & -> & L1); [lia|]. cbn [store_addrs addr_ptrs]. rewrite length_app in Hm.
    unfold store_ptr. rewrite <- app_assoc, store_mid by (by rewrite ?length_le_bytes). cbn [mbind option_bind].
    rewrite app_assoc, IH by (rewrite ?length_app, ?length_le_bytes; lia). rewrite slots_cons, <- !app_assoc.
    by rewrite Z.add_assoc.
Qed.

(** Stores into the part [mid] of a block that is written as a concatenation. *)
Ltac put pre mid post :=
  match goal with |- context [store ?b ?off ?v] =>
    replace b with (pre ++ mid ++ post) by (rewrite <- ?app_assoc, ?app_nil_r; reflexivity);
    rewrite (store_mid pre mid post v off) by (rewrite ?length_app, ?length_slots, ?length_alias_ptrs,
      ?length_addr_ptrs, ?length_le_bytes; cbn [length]; unfold off_name, off_aliases, off_addrtype, off_length, off_addr_list; lia);
    cbn [mbind option_bind]
  end.

(** The block that is filled: the structure, the pointers to the aliases and to the
    addresses, and the bytes of the message behind the header. *)
Definition block (base name_p : Z) (ih : ihostent) (aliases addrs : list Z) (data : list Z) : list Z :=
  le_bytes 8 name_p ++ le_bytes 8 (base + sizeof_hostent) ++ le_bytes 4 (ih_addrtype ih) ++ le_bytes 4 (ih_length ih) ++
  le_bytes 8 (base + (sizeof_hostent + 8 * (ih_aliaslen ih + 1))) ++
  slots aliases ++ le_bytes 8 0 ++ slots addrs ++ le_bytes 8 0 ++ data.

(** The parts of a block for [a] aliases and [d] addresses. *)
Lemma cut_block (a d : nat) (blk : list Z) :
  (48 + 8 * a + 8 * d <= length blk)%nat ->
  exists j1 j2 j3 j4 j5 j6 j7 j8 j9 rest,
    blk = j1 ++ j2 ++ j3 ++ j4 ++ j5 ++ j6 ++ j7 ++ j8 ++ j9 ++ rest /\
    length j1 = 8%nat /\ length j2 = 8%nat /\ length j3 = 4%nat /\ length j4 = 4%nat /\ length j5 = 8%nat /\
    length j6 = (8 * a)%nat /\ length j7 = 8%nat /\ length j8 = (8 * d)%nat /\ length j9 = 8%nat.
Proof.
  intros Hl. destruct (cut 8 blk) as (j1 & b1 & -> & L1); [lia|]. rewrite length_app in Hl.
  destruct (cut 8 b1) as (j2 & b2 & -> & L2); [lia|]. rewrite length_app in Hl.
  destruct (cut 4 b2) as (j3 & b3 & -> & L3); [lia|]. rewrite length_app in Hl.
  destruct (cut 4 b3) as (j4 & b4 & -> & L4); [lia|]. rewrite length_app in Hl.
  destruct (cut 8 b4) as (j5 & b5 & -> & L5); [lia|]. rewrite length_app in Hl.
  destruct (cut (8 * a) b5) as (j6 & b6 & -> & L6); [lia|]. rewrite length_app in Hl.
  destruct (cut 8 b6) as (j7 & b7 & -> & L7); [lia|]. rewrite length_app in Hl.
  destruct (cut (8 * d) b7) as (j8 & b8 & -> & L8); [lia|]. rewrite length_app in Hl.
  destruct (cut 8 b8) as (j9 & b9 & -> & L9); [lia|].
  by exists j1, j2, j3, j4, j5, j6, j7, j8, j9, b9.
Qed.

Lemma fill_block_spec base junk ih src buflen data aliases rest :
  let text := base + sizeof_hostent + 8 * (ih_aliaslen ih + ih_addrlen ih + 2) in
  let name_len := h_aliases_idx ih - h_name_idx ih in
  data = memread sizeof_ihostent (Z.to_nat buflen - sizeof_ihostent) src ->
  buflen = zlen data + Z.of_nat sizeof_ihostent -> 0 <= ih_aliaslen ih -> 0 <= ih_addrlen ih ->
  zlen data + 8 * (ih_aliaslen ih + ih_addrlen ih + 2) + sizeof_hostent < 2 ^ 31 ->
  0 <= name_len <= zlen data ->
  decode_strings (Z.to_nat (ih_aliaslen ih)) (drop (Z.to_nat name_len) data) = Some (aliases, rest) ->
  fill_block base junk ih src buflen =
    Some (block base (if h_name_idx ih =? h_aliases_idx ih then 0 else text) ih
      (alias_ptrs (text + name_len) aliases)
      (addr_ptrs (text + (zlen data - zlen rest)) (ih_length ih) (Z.to_nat (ih_addrlen ih))) data).
Proof.
  intros text name_len Hdata Hbl Ha Hd Ht Hn Hs. unfold fill_block. rewrite <- Hdata.
  set (idx := 8 * (ih_aliaslen ih + ih_addrlen ih + 2)) in *. rewrite wraps_small by (unfold sizeof_hostent in *; lia).
  set (blk := junk <$> _). assert (length blk = Z.to_nat (sizeof_hostent + idx + zlen data)) as Lblk
    by (unfold blk; rewrite length_fmap, length_seq; f_equal; lia). clearbody blk.
  unfold sizeof_hostent in *. set (a := Z.to_nat (ih_aliaslen ih)) in *. set (d := Z.to_nat (ih_addrlen ih)) in *.
  assert (idx = 8 * (Z.of_nat a + Z.of_nat d + 2)) as Eidx by (unfold idx, a, d; lia).
  destruct (cut_block a d blk) as (j1 & j2 & j3 & j4 & j5 & j6 & j7 & j8 & j9 & b9 & -> & L1 & L2 & L3 & L4 & L5 &
    L6 & L7 & L8 & L9); [lia|]. rewrite !length_app in Lblk.
  put (j1 ++ j2 ++ j3 ++ j4 ++ j5 ++ j6 ++ j7 ++ j8 ++ j9) b9 (@nil Z). rewrite app_nil_r.
  put (j1 ++ j2 ++ j3) j4 (j5 ++ j6 ++ j7 ++ j8 ++ j9 ++ data).
  put (j1 ++ j2) j3 (le_bytes 4 (ih_length ih) ++ j5 ++ j6 ++ j7 ++ j8 ++ j9 ++ data).
  unfold store_ptr. remember (le_bytes 4 (ih_addrtype ih)) as v3 eqn:E3. remember (le_bytes 4 (ih_length ih)) as v4 eqn:E4.
  assert (length v3 = 4%nat) as M3 by (by rewrite E3, length_le_bytes).
  assert (length v4 = 4%nat) as M4 by (by rewrite E4, length_le_bytes).
  put (@nil Z) j1 (j2 ++ v3 ++ v4 ++ j5 ++ j6 ++ j7 ++ j8 ++ j9 ++ data). cbn [app].
  remember (le_bytes 8 (if h_name_idx ih =? h_aliases_idx ih then 0 else _)) as v1 eqn:E1.
  assert (length v1 = 8%nat) as M1 by (by rewrite E1, length_le_bytes).
  put v1 j2 (v3 ++ v4 ++ j5 ++ j6 ++ j7 ++ j8 ++ j9 ++ data). remember (le_bytes 8 (base + 32)) as v2 eqn:E2.
  assert (length v2 = 8%nat) as M2 by (by rewrite E2, length_le_bytes).
  replace (if h_name_idx ih =? h_aliases_idx ih then idx else idx + (h_aliases_idx ih - h_name_idx ih))
    with (idx + name_len) by (unfold name_len; destruct (Z.eqb_spec (h_name_idx ih) (h_aliases_idx ih)); lia).
  destruct (cut (Z.to_nat name_len) data) as (name & text_bytes & Ed & Ln); [lia|].
  rewrite Ed, drop_app_length' in Hs by done. rewrite Ed, length_app in Hn.
  replace (v1 ++ v2 ++ v3 ++ v4 ++ j5 ++ j6 ++ j7 ++ j8 ++ j9 ++ data) with
    ((v1 ++ v2 ++ v3 ++ v4 ++ j5) ++ j6 ++ (j7 ++ j8 ++ j9 ++ name) ++ text_bytes) by (rewrite Ed, <- !app_assoc; done).
  rewrite (store_aliases_spec base a text_bytes aliases rest) by (done || (rewrite ?length_app; unfold sizeof_hostent; lia)).
  cbn [mbind option_bind]. set (al := alias_ptrs _ aliases).
  assert (length al = a) as La by (unfold al; rewrite length_alias_ptrs; by eapply decode_strings_length).
  put (v1 ++ v2 ++ v3 ++ v4 ++ j5 ++ slots al) j7 (j8 ++ j9 ++ name ++ text_bytes).
  put (v1 ++ v2 ++ v3 ++ v4) j5 (slots al ++ le_bytes 8 0 ++ j8 ++ j9 ++ name ++ text_bytes).
  remember (le_bytes 8 (base + (32 + 8 * (ih_aliaslen ih + 1)))) as v5 eqn:E5.
  assert (length v5 = 8%nat) as M5 by (by rewrite E5, length_le_bytes).
  replace ((v1 ++ v2 ++ v3 ++ v4) ++ v5 ++ slots al ++ le_bytes 8 0 ++ j8 ++ j9 ++ name ++ text_bytes) with
    ((v1 ++ v2 ++ v3 ++ v4 ++ v5 ++ slots al ++ le_bytes 8 0) ++ j8 ++ (j9 ++ name ++ text_bytes))
    by (rewrite <- !app_assoc; done).
  rewrite store_addrs_spec by (rewrite ?length_app, ?length_slots, ?length_le_bytes; lia). cbn [mbind option_bind].
  set (ad := addr_ptrs _ _ _). assert (length ad = d) as Lad by apply length_addr_ptrs.
  put (v1 ++ v2 ++ v3 ++ v4 ++ v5 ++ slots al ++ le_bytes 8 0 ++ slots ad) j9 (name ++ text_bytes).
  unfold block. rewrite <- !app_assoc. unfold al, ad, text, sizeof_hostent. rewrite Ed, length_app.
  rewrite (Z.add_assoc (base + 32) idx name_len).
  replace (base + 32 + (idx + name_len + (zlen text_bytes - zlen rest)))
    with (base + 32 + idx + (Z.of_nat (length name + length text_bytes) - zlen rest)) by lia.
  by subst v1 v2 v3 v4 v5.
Qed.

(** ** What the pointers lead to *)

Lemma le_val_bytes8 z : le_val (le_bytes 8 z) = u64 z.
Proof. by rewrite le_val_bytes. Qed.

Lemma load_mid n pre v post off : off = zlen pre -> length v = n -> load n (pre ++ v ++ post) off = Some (le_val v).
Proof.
  intros -> <-. unfold load. rewrite (proj2 (Z.leb_le _ _)), (proj2 (Z.leb_le _ _)) by (rewrite ?length_app; lia).
  cbn [andb]. by rewrite Nat2Z.id, memread_app_at.
Qed.

Lemma load_ptrs_spec fuel pre ptrs post off :
  off = zlen pre -> Forall (fun p => 0 < p < 2 ^ 64) ptrs -> (length ptrs < fuel)%nat ->
  load_ptrs fuel (pre ++ slots ptrs ++ le_bytes 8 0 ++ post) off = Some ptrs.
Proof.
  intros Ho Hp. revert fuel pre off Ho. induction Hp as [|p ptrs Hp _ IH]; intros fuel pre off Ho Hf;
    (destruct fuel as [|fuel]; [cbn in Hf; lia|]); cbn [load_ptrs].
  - change (slots [] ++ le_bytes 8 0 ++ post) with (le_bytes 8 0 ++ post).
    by rewrite load_mid by (done || apply length_le_bytes).
  - rewrite slots_cons, <- app_assoc, load_mid by (done || apply length_le_bytes). cbn [mbind option_bind].
    rewrite le_val_bytes8, wrapu_small by lia. rewrite (proj2 (Z.eqb_neq _ _)) by lia.
    rewrite app_assoc, IH; [done| |cbn in Hf; lia]. rewrite length_app, length_le_bytes. lia.
Qed.

Lemma alias_ptrs_texts base n dat ss rest pre p :
  decode_strings n dat = Some (ss, rest) -> p = base + zlen pre ->
  mapM (fun q => text_in (pre ++ dat) (q - base)) (alias_ptrs p ss) = Some ss /\
  Forall (fun q => p <= q < p + zlen dat) (alias_ptrs p ss).
Proof.
  revert dat ss pre p. induction n as [|n IH]; intros dat ss pre p Hd ->; [by injection Hd as <- <-|].
  destruct (decode_strings_S _ _ _ _ Hd) as (s & t & ss' & Et & Hs & -> & Ht). cbn [alias_ptrs].
  destruct (IH t ss' (pre ++ (s ++ [0])) (base + zlen pre + (zlen s + 1)) Ht) as [Hm Hr].
  { rewrite !length_app. cbn. lia. }
  rewrite <- app_assoc, <- Et in Hm. split.
  - cbn. rewrite text_at_mid, Hs by lia. cbn. by rewrite Hm.
  - rewrite Et, !length_app. cbn [length]. constructor; [lia|]. eapply Forall_impl; [exact Hr|]. cbn. lia.
Qed.

Lemma addr_ptrs_bytes base n len dat addrs pre p :
  decode_addrs n len dat = Some addrs -> p = base + zlen pre ->
  mapM (fun q => bytes_in (pre ++ dat) len (q - base)) (addr_ptrs p (Z.of_nat len) n) = Some addrs /\
  Forall (fun q => p <= q <= p + zlen dat) (addr_ptrs p (Z.of_nat len) n).
Proof.
  revert dat addrs pre p. induction n as [|n IH]; intros dat addrs pre p Hd ->; cbn in Hd; [by injection Hd as <-|].
  case_match eqn:Hl; [done|]. apply Nat.ltb_ge in Hl. apply fmap_Some in Hd as (addrs' & Hd & ->).
  destruct (IH (drop len dat) addrs' (pre ++ take len dat) (base + zlen pre + Z.of_nat len) Hd) as [Hm Hr].
  { rewrite length_app, length_take. lia. }
  rewrite <- app_assoc, take_drop in Hm. cbn [addr_ptrs]. split.
  - cbn -[bytes_in]. rewrite bytes_at_mid by lia. cbn -[bytes_in]. by rewrite Hm.
  - constructor; [lia|]. rewrite length_drop in Hr. eapply Forall_impl; [exact Hr|]. cbn. lia.
Qed.

Lemma length_block base name_p ih aliases addrs data :
  zlen (block base name_p ih aliases addrs data) =
    sizeof_hostent + 8 * (Z.of_nat (length aliases) + Z.of_nat (length addrs) + 2) + zlen data.
Proof. unfold block. rewrite !length_app, !length_slots, !length_le_bytes. unfold sizeof_hostent. lia. Qed.

(** The fields of the structure. *)
Lemma block_fields base name_p ih aliases addrs data :
  ihostent_ok ih -> 0 <= name_p < 2 ^ 64 -> 0 < base ->
  base + (sizeof_hostent + 8 * (ih_aliaslen ih + 1)) < 2 ^ 64 ->
  let blk := block base name_p ih aliases addrs data in
  load 8 blk off_name = Some name_p /\ load 8 blk off_aliases = Some (base + sizeof_hostent) /\
  i32 <$> load 4 blk off_addrtype = Some (ih_addrtype ih) /\ i32 <$> load 4 blk off_length = Some (ih_length ih) /\
  load 8 blk off_addr_list = Some (base + (sizeof_hostent + 8 * (ih_aliaslen ih + 1))).
Proof.
  intros Hih Hn Hb He blk. unfold blk, block. destruct Hih as [_ _ Ha _ Ht Hl _]. unfold sizeof_hostent in *.
  set (v1 := le_bytes 8 name_p). set (v2 := le_bytes 8 (base + 32)). set (v3 := le_bytes 4 (ih_addrtype ih)).
  set (v4 := le_bytes 4 (ih_length ih)). set (v5 := le_bytes 8 (base + (32 + _))). set (rest := slots _ ++ _).
  split_and!.
  - etransitivity; [exact (load_mid 8 [] v1 _ off_name eq_refl eq_refl)|]. unfold v1.
    by rewrite le_val_bytes8, wrapu_small.
  - rewrite (load_mid 8 v1 v2) by done. unfold v2. rewrite le_val_bytes8, wrapu_small by lia. done.
  - rewrite (app_assoc v1 v2), (load_mid 4 (v1 ++ v2) v3) by done. cbn [fmap option_fmap option_map]. unfold v3.
    rewrite le_val_bytes4, wraps_wrapu, wraps_small by lia. done.
  - rewrite (app_assoc v2 v3), (app_assoc v1 (v2 ++ v3)), (load_mid 4 (v1 ++ v2 ++ v3) v4) by done.
    cbn [fmap option_fmap option_map]. unfold v4. rewrite le_val_bytes4, wraps_wrapu, wraps_small by lia. done.
  - rewrite (app_assoc v3 v4), (app_assoc v2 (v3 ++ v4)), (app_assoc v1 (v2 ++ v3 ++ v4)),
      (load_mid 8 (v1 ++ v2 ++ v3 ++ v4) v5) by done. unfold v5. rewrite le_val_bytes8, wrapu_small by lia. done.
Qed.

(** The structure, and what comes before the text. *)
Definition header (base name_p : Z) (ih : ihostent) : list Z :=
  le_bytes 8 name_p ++ le_bytes 8 (base + sizeof_hostent) ++ le_bytes 4 (ih_addrtype ih) ++ le_bytes 4 (ih_length ih) ++
  le_bytes 8 (base + (sizeof_hostent + 8 * (ih_aliaslen ih + 1))).
Definition before_text (base name_p : Z) (ih : ihostent) (aliases addrs : list Z) : list Z :=
  header base name_p ih ++ slots aliases ++ le_bytes 8 0 ++ slots addrs ++ le_bytes 8 0.

Lemma block_text base name_p ih aliases addrs data :
  block base name_p ih aliases addrs data = before_text base name_p ih aliases addrs ++ data.
Proof. unfold block, before_text, header. by rewrite <- !app_assoc. Qed.

Lemma length_before_text base name_p ih aliases addrs :
  zlen (before_text base name_p ih aliases addrs) =
    sizeof_hostent + 8 * (Z.of_nat (length aliases) + Z.of_nat (length addrs) + 2).
Proof.
  pose proof (length_block base name_p ih aliases addrs []) as H. rewrite block_text, app_nil_r in H.
  change (zlen []) with 0 in H. lia.
Qed.

(** Both arrays. *)
Lemma block_arrays base name_p ih aliases addrs data :
  Forall (fun p => 0 < p < 2 ^ 64) aliases -> Forall (fun p => 0 < p < 2 ^ 64) addrs ->
  ih_aliaslen ih = Z.of_nat (length aliases) ->
  let blk := block base name_p ih aliases addrs data in
  load_ptrs (length blk) blk sizeof_hostent = Some aliases /\
  load_ptrs (length blk) blk (sizeof_hostent + 8 * (ih_aliaslen ih + 1)) = Some addrs.
Proof.
  intros Hal Had Hn blk. pose proof (length_block base name_p ih aliases addrs data) as Lb. fold blk in Lb.
  unfold sizeof_hostent in *. generalize dependent (length blk). intros fuel Lb.
  assert (zlen (header base name_p ih) = 32) as Lh by done. unfold blk. rewrite block_text. unfold before_text.
  split.
  - rewrite <- !app_assoc. apply load_ptrs_spec; [done|done|lia].
  - replace ((header base name_p ih ++ slots aliases ++ le_bytes 8 0 ++ slots addrs ++ le_bytes 8 0) ++ data) with
      ((header base name_p ih ++ slots aliases ++ le_bytes 8 0) ++ slots addrs ++ le_bytes 8 0 ++ data)
      by (by rewrite <- !app_assoc).
    apply load_ptrs_spec; [|done|lia]. rewrite !length_app, length_slots, length_le_bytes. lia.
Qed.

(** The entry that the block holds. *)
Lemma read_block base ih data name aliases addrs rest :
  let text := base + sizeof_hostent + 8 * (ih_aliaslen ih + ih_addrlen ih + 2) in
  let name_len := h_aliases_idx ih - h_name_idx ih in
  let none := h_name_idx ih =? h_aliases_idx ih in
  let al := alias_ptrs (text + name_len) aliases in
  let ad := addr_ptrs (text + (zlen data - zlen rest)) (ih_length ih) (Z.to_nat (ih_addrlen ih)) in
  ihostent_ok ih -> 0 <= ih_length ih -> 0 < base -> text + zlen data < 2 ^ 64 -> 0 <= name_len <= zlen data ->
  (if none then name = None else exists s, name = Some s /\ cstr data = Some s) ->
  decode_strings (Z.to_nat (ih_aliaslen ih)) (drop (Z.to_nat name_len) data) = Some (aliases, rest) ->
  decode_addrs (Z.to_nat (ih_addrlen ih)) (Z.to_nat (ih_length ih)) rest = Some addrs ->
  (exists used, data = used ++ rest) ->
  read_hostent base (block base (if none then 0 else text) ih al ad data) =
    Some (Hostent name (Some aliases) (ih_addrtype ih) (ih_length ih) (Some addrs)).
Proof.
  intros text name_len none al ad Hih Hl Hb Ht Hn Hname Hs Ha [used Eu].
  pose proof Hih as [_ _ Hna Hnd _ _ _]. pose proof (decode_strings_length _ _ _ _ Hs) as Las.
  set (blk := block _ _ _ _ _ _). set (name_p := if none then 0 else text) in *.
  assert (blk = before_text base name_p ih al ad ++ data) as Eblk by apply block_text.
  assert (base + zlen (before_text base name_p ih al ad) = text) as Lt.
  { rewrite length_before_text. unfold al, ad. rewrite length_alias_ptrs, length_addr_ptrs. unfold text. lia. }
  destruct (cut (Z.to_nat name_len) data) as (nm & txt & Ed & Ln); [lia|].
  rewrite Ed, drop_app_length' in Hs by done.
  destruct (alias_ptrs_texts base _ txt aliases rest (before_text base name_p ih al ad ++ nm) (text + name_len) Hs)
    as [Hal Hralias]; [rewrite length_app; lia|].
  destruct (addr_ptrs_bytes base _ _ rest addrs (before_text base name_p ih al ad ++ used)
    (text + (zlen data - zlen rest)) Ha) as [Had Hraddr]; [rewrite Eu, !length_app; lia|].
  rewrite <- !app_assoc in *. rewrite <- Ed in Hal. rewrite <- Eu in Had. rewrite <- Eblk in Hal, Had.
  rewrite Z2Nat.id in Had, Hraddr by done. fold al in Hal, Hralias. fold ad in Had, Hraddr.
  assert (zlen data = zlen nm + zlen txt /\ zlen data = zlen used + zlen rest) as [Ld1 Ld2]
    by (split; [rewrite Ed|rewrite Eu]; rewrite length_app; lia).
  assert (base + sizeof_hostent < text) as Htext by (unfold text; lia). unfold sizeof_hostent in *.
  assert (0 <= name_p < 2 ^ 64 /\ (name_p =? 0) = none) as [Hnp Enone].
  { unfold name_p. destruct none; [done|]. split; [lia|]. apply Z.eqb_neq. lia. }
  destruct (block_fields base name_p ih al ad data Hih Hnp Hb) as (F1 & F2 & F3 & F4 & F5).
  { unfold text, sizeof_hostent in *. lia. }
  destruct (block_arrays base name_p ih al ad data) as [A1 A2].
  { eapply Forall_impl; [exact Hralias|]. cbn. lia. }
  { eapply Forall_impl; [exact Hraddr|]. cbn. lia. }
  { unfold al. rewrite length_alias_ptrs. lia. }
  fold blk in F1, F2, F3, F4, F5, A1, A2. apply fmap_Some in F3 as (t & F3 & ->), F4 as (n & F4 & En).
  unfold read_hostent, sizeof_hostent in *. rewrite F1, F2, F3, F4, F5. cbn [mbind option_bind]. rewrite Enone.
  assert ((if none then Some None else Some <$> text_in blk (name_p - base)) = Some name) as ->.
  { unfold name_p. destruct none; [by subst|]. destruct Hname as (s & -> & Hcs).
    rewrite Eblk, text_at_mid, Hcs by lia. done. }
  cbn [mbind option_bind]. rewrite !Z.add_simpl_l, A1, A2. cbn [mbind option_bind]. rewrite Hal, <- En, Had. done.
Qed.

Lemma decode_strings_rest n dat ss rest : decode_strings n dat = Some (ss, rest) -> exists used, dat = used ++ rest.
Proof.
  revert dat ss. induction n as [|n IH]; intros dat ss; [intros [= <- <-]; by exists []|].
  intros (s & t & ss' & -> & _ & _ & H)%decode_strings_S. destruct (IH t ss' H) as [used ->].
  exists ((s ++ [0]) ++ used). by rewrite <- !app_assoc.
Qed.

(** ** Properties *)

Definition block_size (ht : hostent) : Z :=
  Z.of_nat (hostent_size ht) - Z.of_nat sizeof_ihostent + sizeof_hostent +
  8 * (Z.of_nat (length (default [] (h_aliases ht))) + Z.of_nat (length (default [] (h_addr_list ht))) + 2).

Lemma name_in_text ht tail i :
  hostent_ok ht ->
  if i =? i + zlen (name_bytes ht) then h_name ht = None
  else exists s, h_name ht = Some s /\ cstr (name_bytes ht ++ tail) = Some s.
Proof.
  intros H. pose proof (ho_name _ H) as Hname. unfold name_bytes. destruct (h_name ht) as [s|].
  - rewrite (proj2 (Z.eqb_neq _ _)) by (rewrite length_app; cbn [length]; lia).
    exists s. split; [done|]. apply cstr_app_nul. by apply Hname.
  - by rewrite (proj2 (Z.eqb_eq _ _)) by (cbn [length]; lia).
Qed.

Lemma header_indices ht :
  let ih := hostent_header ht in
  h_name_idx ih = Z.of_nat sizeof_ihostent /\ h_aliases_idx ih = h_name_idx ih + zlen (name_bytes ht) /\
  h_addr_list_idx ih = h_aliases_idx ih + zlen (alias_bytes ht).
Proof. unfold hostent_header. cbn [h_aliases_idx h_name_idx h_addr_list_idx]. lia. Qed.

Lemma decode_hostent_mem_bytes base junk ht rest :
  hostent_ok ht -> block_size ht < 2 ^ 31 -> 0 < base -> base + block_size ht < 2 ^ 64 ->
  exists blk,
    decode_hostent_mem base junk (Some (ihostent_bytes (hostent_header ht) ++ name_bytes ht ++ alias_bytes ht ++
      addr_bytes ht ++ rest)) (Z.of_nat (hostent_size ht)) = DecOk blk /\
    zlen blk = block_size ht /\ read_hostent base blk = Some ht.
Proof.
  intros H Hs Hb He. pose proof Hs as Hs'. unfold block_size, sizeof_hostent, sizeof_ihostent in Hs'.
  assert (Z.of_nat (hostent_size ht) < 2 ^ 31) as Hsz by lia.
  pose proof (hostent_header_ok ht H Hsz) as Hh. unfold decode_hostent_mem.
  rewrite wrapu_small by lia. rewrite (proj2 (Z.ltb_ge _ _)) by (unfold hostent_size; lia).
  rewrite Nat2Z.id, (proj2 (Nat.ltb_ge _ _))
    by (rewrite !length_app, length_ihostent_bytes; unfold hostent_size; lia).
  rewrite ihostent_roundtrip by done. set (ih := hostent_header ht) in *.
  destruct (header_indices ht) as (I1 & I2 & I3). fold ih in I1, I2, I3.
  rewrite !(proj2 (Z.ltb_ge _ _)), (proj2 (Z.eqb_neq _ _)) by lia. cbn [orb].
  destruct (ho_aliases _ H) as (al & Eal & Hnul & Hal). destruct (ho_addrs _ H) as (ad & Ead & Hadl & Had).
  assert (ih_aliaslen ih = zlen al /\ ih_addrlen ih = zlen ad) as [J1 J2]
    by (unfold ih, hostent_header; cbn [ih_aliaslen ih_addrlen]; by rewrite Eal, Ead).
  unfold block_size in *. rewrite Eal, Ead in *. cbn [default id] in *. unfold hostent_size in *.
  set (data := name_bytes ht ++ alias_bytes ht ++ addr_bytes ht).
  assert (zlen data = zlen (name_bytes ht) + zlen (alias_bytes ht) + zlen (addr_bytes ht)) as Ld
    by (unfold data; rewrite !length_app; lia).
  assert (decode_strings (Z.to_nat (ih_aliaslen ih)) (drop (Z.to_nat (h_aliases_idx ih - h_name_idx ih)) data) =
    Some (al, addr_bytes ht)) as Hdec.
  { rewrite J1, Nat2Z.id. unfold data. rewrite drop_app_length' by lia.
    unfold alias_bytes. rewrite Eal. by apply decode_strings_spec. }
  rewrite (fill_block_spec _ _ _ _ _ data al (addr_bytes ht)); try (unfold sizeof_hostent in *; lia); [|..|done].
  - eexists. split; [done|]. split.
    + rewrite length_block, length_alias_ptrs, length_addr_ptrs. unfold sizeof_hostent, sizeof_ihostent in *. lia.
    + rewrite (read_block base ih data (h_name ht) al ad (addr_bytes ht)); [| |apply (ho_length _ H)|done|..|done| |].
      * destruct ht; cbn in *. by subst.
      * done.
      * unfold sizeof_hostent, sizeof_ihostent in *. lia.
      * lia.
      * rewrite I2. by apply name_in_text.
      * rewrite J2, Nat2Z.id. unfold addr_bytes. rewrite Ead. by apply decode_addrs_spec.
      * unfold data. exists (name_bytes ht ++ alias_bytes ht). by rewrite <- app_assoc.
  - replace (name_bytes ht ++ alias_bytes ht ++ addr_bytes ht ++ rest) with (data ++ rest)
      by (unfold data; by rewrite <- !app_assoc).
    rewrite Nat2Z.id. symmetry. etransitivity; [|apply (memread_app_at (ihostent_bytes ih) data rest); reflexivity].
    rewrite length_ihostent_bytes. f_equal. lia.
Qed.

(** C15: A host entry survives the wire and the memory it is decoded into: the bytes that
    [encode_hostent] makes of an entry are decoded into one block of the size that was
    asked from [malloc], whatever the block held; no store and no text leaves the block,
    and who follows the pointers of the structure, through the two NULL-terminated arrays,
    reads the same name, aliases, type and addresses. *)
Theorem hostent_in_memory (ht : hostent) (buf : list Z) (buflen base : Z) (junk : nat -> Z) :
  hostent_ok ht -> Z.of_nat (hostent_size ht) < buflen -> (hostent_size ht <= length buf)%nat ->
  block_size ht < 2 ^ 31 -> 0 < base -> base + block_size ht < 2 ^ 64 ->
  exists buf' blk,
    encode_hostent (Some ht) (Some buf) buflen = (Z.of_nat (hostent_size ht), Some buf') /\
    decode_hostent_mem base junk (Some buf') (Z.of_nat (hostent_size ht)) = DecOk blk /\
    zlen blk = block_size ht /\ read_hostent base blk = Some ht.
Proof.
  intros H Hb Hl Hs H0 H1. rewrite encode_hostent_bytes by done.
  destruct (decode_hostent_mem_bytes base junk ht (drop (hostent_size ht) buf) H Hs H0 H1) as (blk & Hd & Hz & Hr).
  eexists _, blk. by split_and!.
Qed.

Lemma hostent_in_memory_witness :
  exists buf' blk,
    encode_hostent (Some ht_example) (Some (replicate 432 0)) 432 = (Z.of_nat (hostent_size ht_example), Some buf') /\
    decode_hostent_mem 0x55550000 (fun _ => 165) (Some buf') (Z.of_nat (hostent_size ht_example)) = DecOk blk /\
    zlen blk = block_size ht_example /\ read_hostent 0x55550000 blk = Some ht_example.
Proof.
  apply (hostent_in_memory ht_example (replicate 432 0) 432 0x55550000 (fun _ => 165)); try done.
  - apply ht_example_ok.
  - vm_compute. lia.
Defined.

(** ** A corrupted message *)

(** The numbers of aliases and addresses are not checked: a negative one puts the array of
    addresses in front of the block (lines 158-160 and 188-193). *)
Theorem negative_count_leaves_block :
  let msg := ihostent_bytes (Ihostent 24 24 (-6) 4 2 0 24) in
  decode_hostent_mem 0x55550000 (fun _ => 0) (Some msg) 24 = DecOOB /\
  ih_aliaslen (ihostent_of_bytes msg) = -6.
Proof. split; by vm_compute. Qed.
