(* ===== verification/McsKm.v ===== *)
(** * The kernel module ([mcs_km/mcs_km.c])

    The character device [/dev/mcs]: its ioctls, [mmap] check, poll handshake
    with the client OS, and the module's set-up and tear-down.  Kernel services
    are external calls ([kcall]); their answer is the C return value.  A pointer
    result is 0 for NULL and negative for an [ERR_PTR]. *)

From S2P Require Import Prelude.

(** ** Constants *)

Definition CPU_ON_FUNCID : Z := 0xC4000003.
Definition AFFINITY_INFO_FUNCID : Z := 0xC4000004.
Definition MAGIC_NUMBER : Z := 65.

(** [_IOC(dir, type, nr, size)] of [asm-generic/ioctl.h]. *)
Definition ioc (dir type nr size : Z) : Z :=
  Z.lor (Z.lor (Z.shiftl dir 30) (Z.shiftl size 16)) (Z.lor (Z.shiftl type 8) nr).
Definition ioc_type (cmd : Z) : Z := Z.land (Z.shiftr cmd 8) 255.
Definition ioc_nr (cmd : Z) : Z := Z.land cmd 255.

Definition IOC_SENDIPI : Z := ioc 1 MAGIC_NUMBER 0 4.
Definition IOC_CPUON : Z := ioc 1 MAGIC_NUMBER 1 4.
Definition IOC_AFFINITY_INFO : Z := ioc 1 MAGIC_NUMBER 2 4.
Definition IOC_QUERY_MEM : Z := ioc 1 MAGIC_NUMBER 3 4.
(** [sizeof(struct core_msg_mem_info)] is 40. *)
Definition IOC_GET_COPY_MSG_MEM : Z := ioc 3 MAGIC_NUMBER 4 40.
Definition IOC_MAXNR : Z := 4.
Definition RPROC_MEM_MAX : Z := 4.
Definition INSTANCE_SIZE : Z := 0x2400000.
Definition OPENAMP_SHM_SIZE : Z := 0x1000000.
Definition OPENAMP_SHM_COPY_SIZE : Z := 0x100000.
Definition PAGE_SHIFT : Z := 12.
Definition INVALID_HWID : Z := 2 ^ 64 - 1.
(** [POLLIN | POLLRDNORM] *)
Definition POLLIN_RDNORM : Z := 0x41.

Record cpu_info := CpuInfo { ci_cpu : Z; ci_boot_addr : Z }.

Record core_msg_mem_info := CoreMsgMemInfo {
  cm_instance_id : Z;
  cm_phy_addr : Z;
  cm_vir_addr : Z;
  cm_size : Z;
  cm_align_size : Z;
}.

Record mcs_rproc_mem := RprocMem { phy_addr : Z; mem_size : Z }.

(** ** External calls *)

Inductive kcall :=
| CopyFromUser
| CopyToUserMem (m : mcs_rproc_mem)
| CopyToUserMsg (m : core_msg_mem_info)
| IpiSendMask (cpu : Z)
| SmcccCall (hvc : bool) (fid a0 a1 a2 : Z)
| CpuLogicalMap (cpu : Z)
| RemapPfnRange (pgoff size : Z)
| Capable
| OfFindMatchingNode
| OfDeviceIsAvailable
| OfPropertyReadMethod
| OfNodePut
| RegisterKprobe
| UnregisterKprobe
| OfFindCompatibleNode
| OfCountPhandle
| OfParsePhandle (i : Z)
| OfAddressToResource (i : Z)
| RequestMemRegion (start size : Z)
| ReleaseMemRegion (start size : Z)
| IrqActionInstalled
| AllocPercpu
| FreePercpu
| RequestPercpuIrq
| FreePercpuIrq
| EnableIpiOnEachCpu
| DisableIpiOnEachCpu
| RegisterChrdev
| UnregisterChrdev (major : Z)
| ClassCreate
| ClassDestroy
| DeviceCreate (major : Z)
| DeviceDestroy (major : Z).

Abbreviation kio := (io kcall Z).

(** ** The module's variables *)

Record mcs_state := McsState {
  invoke_hvc : bool;
  cpu_logical_map_fn : bool;   (* whether the symbol was found *)
  mem : list mcs_rproc_mem;    (* RPROC_MEM_MAX entries *)
  irq_ack : Z;
  rmem_base : Z;
  rmem_size : Z;
  mcs_major : Z;
}.

Definition mem_entry (m : list mcs_rproc_mem) (i : Z) : mcs_rproc_mem :=
  nth (Z.to_nat i) m (RprocMem 0 0).

Section mcs_km.
(** The kernel configuration. *)
Context (NR_CPUS : Z).
Implicit Type st : mcs_state.

Definition invoke_psci_fn st (function_id arg0 arg1 arg2 : Z) : kio Z :=
  a0 <- call (SmcccCall (invoke_hvc st) function_id arg0 arg1 arg2);; Ret (u64 a0).

Definition get_cpu_mpidr st (cpu : Z) : kio Z :=
  if NR_CPUS <=? cpu then Ret INVALID_HWID
  else if cpu_logical_map_fn st then m <- call (CpuLogicalMap cpu);; Ret (u64 m)
  else Ret INVALID_HWID.

(** [handle_clientos_ipi]: [wake_up_interruptible] makes pollers call
    [mcs_poll] again. *)
Definition handle_clientos_ipi st : mcs_state :=
  McsState (invoke_hvc st) (cpu_logical_map_fn st) (mem st) 1 (rmem_base st) (rmem_size st)
    (mcs_major st).

Definition mcs_poll st : mcs_state * Z :=
  if irq_ack st =? 1
  then (McsState (invoke_hvc st) (cpu_logical_map_fn st) (mem st) 0 (rmem_base st) (rmem_size st)
          (mcs_major st), POLLIN_RDNORM)
  else (st, 0).

(** The request for the copy buffer of an instance (lines 295-306). *)
Definition get_copy_msg_mem st (req : core_msg_mem_info) : kio Z :=
  if RPROC_MEM_MAX <? cm_instance_id req then Ret (- EINVAL)
  else
    let base := phy_addr (mem_entry (mem st) 0) in
    let addr := u64 (base + u32 (cm_instance_id req * INSTANCE_SIZE) + OPENAMP_SHM_SIZE -
                     OPENAMP_SHM_COPY_SIZE * 3) in
    if u64 (base + mem_size (mem_entry (mem st) 0)) <? addr then Ret (- EINVAL)
    else
      let resp := CoreMsgMemInfo (cm_instance_id req) addr (cm_vir_addr req)
                    (OPENAMP_SHM_COPY_SIZE * 2) (cm_align_size req) in
      r <- call (CopyToUserMsg resp);;
      Ret (if r =? 0 then 0 else - EFAULT).

(** [info] and [msg] are what the user memory at [arg] holds.  The results of
    [copy_from_user] and of a PSCI call are kept in an [int]. *)
Definition mcs_ioctl st (cmd : Z) (info : cpu_info) (msg : core_msg_mem_info) : kio Z :=
  if negb (ioc_type cmd =? MAGIC_NUMBER) then Ret (- EINVAL)
  else if IOC_MAXNR <? ioc_nr cmd then Ret (- EINVAL)
  else
    ret <- (if cmd =? IOC_GET_COPY_MSG_MEM then call CopyFromUser
            else if cmd =? IOC_QUERY_MEM then Ret 0
            else call CopyFromUser);;
    if negb (i32 ret =? 0) then Ret (- EFAULT)
    else if cmd =? IOC_SENDIPI then
      _ <- call (IpiSendMask (ci_cpu info));; Ret 0
    else if cmd =? IOC_CPUON then
      mpidr <- get_cpu_mpidr st (ci_cpu info);;
      if mpidr =? INVALID_HWID then Ret (- EINVAL)
      else
        ret <- invoke_psci_fn st CPU_ON_FUNCID mpidr (ci_boot_addr info) 0;;
        Ret (if i32 ret =? 0 then 0 else - EINVAL)
    else if cmd =? IOC_AFFINITY_INFO then
      mpidr <- get_cpu_mpidr st (ci_cpu info);;
      if mpidr =? INVALID_HWID then Ret (- EINVAL)
      else
        ret <- invoke_psci_fn st AFFINITY_INFO_FUNCID mpidr 0 0;;
        Ret (if i32 ret =? 1 then 0 else - EFAULT)
    else if cmd =? IOC_QUERY_MEM then
      r <- call (CopyToUserMem (mem_entry (mem st) 0));;
      Ret (if r =? 0 then 0 else - EFAULT)
    else if cmd =? IOC_GET_COPY_MSG_MEM then get_copy_msg_mem st msg
    else Ret (- EINVAL).

(** The search of [mcs_mmap] over the reserved regions (lines 344-349). *)
Fixpoint mmap_found (regions : list mcs_rproc_mem) (offset size : Z) : bool :=
  match regions with
  | [] => false
  | r :: regions =>
      if phy_addr r =? 0 then false
      else if (phy_addr r <=? offset) && (size <=? mem_size r) then true
      else mmap_found regions offset size
  end.

Definition mcs_mmap st (vm_start vm_end vm_pgoff : Z) : kio Z :=
  let size := u64 (vm_end - vm_start) in
  let offset := u64 (Z.shiftl vm_pgoff PAGE_SHIFT) in
  if negb (Z.shiftr offset PAGE_SHIFT =? vm_pgoff) then Ret (- EINVAL)
  else if u64 (offset + size - 1) <? offset then Ret (- EINVAL)
  else if negb (mmap_found (mem st) offset size) then Ret (- EINVAL)
  else
    r <- call (RemapPfnRange vm_pgoff size);;
    Ret (if r <? 0 then - EAGAIN else 0).

Definition mcs_open : kio Z :=
  r <- call Capable;; Ret (if r =? 0 then - EPERM else 0).

(** ** Set-up and tear-down *)

Definition with_hvc st (b : bool) : mcs_state :=
  McsState b (cpu_logical_map_fn st) (mem st) (irq_ack st) (rmem_base st) (rmem_size st)
    (mcs_major st).
Definition with_mem st (m : list mcs_rproc_mem) : mcs_state :=
  McsState (invoke_hvc st) (cpu_logical_map_fn st) m (irq_ack st) (rmem_base st) (rmem_size st)
    (mcs_major st).
Definition with_map st (b : bool) : mcs_state :=
  McsState (invoke_hvc st) b (mem st) (irq_ack st) (rmem_base st) (rmem_size st) (mcs_major st).
Definition with_major st (m : Z) : mcs_state :=
  McsState (invoke_hvc st) (cpu_logical_map_fn st) (mem st) (irq_ack st) (rmem_base st)
    (rmem_size st) m.

(** [method] is the "method" property of the device tree node. *)
Definition get_psci_method (acpi_disabled : bool) (method : string) st : kio (Z * mcs_state) :=
  if negb acpi_disabled then Ret (0, with_hvc st false)
  else
    np <- call OfFindMatchingNode;;
    avail <- (if np =? 0 then Ret 0 else call OfDeviceIsAvailable);;
    if avail =? 0 then Ret (- ENODEV, st)
    else
      r <- call OfPropertyReadMethod;;
      if negb (r =? 0) then _ <- call OfNodePut;; Ret (- ENXIO, st)
      else
        _ <- call OfNodePut;;
        if strcmp0 "hvc" method then Ret (0, with_hvc st true)
        else if strcmp0 "smc" method then Ret (0, with_hvc st false)
        else Ret (- EINVAL, st).

Definition get_cpu_logical_map st : kio (Z * mcs_state) :=
  r <- call RegisterKprobe;;
  if r <? 0 then Ret (r, st)
  else _ <- call UnregisterKprobe;; Ret (0, with_map st true).

(** The loop over the "memory-region" phandles (lines 453-475); [dt i] is the
    resource of region [i]; [todo] iterations remain. *)
Fixpoint reserve_regions (dt : Z -> mcs_rproc_mem) (todo : nat) (i n : Z) st
    : kio (Z * mcs_state) :=
  match todo with
  | O => Ret (0, st)
  | S todo =>
      _ <- call (OfParsePhandle i);;
      ret <- call (OfAddressToResource i);;
      if negb (ret =? 0) then Ret (ret, st)
      else if RPROC_MEM_MAX <=? n then Ret (0, st)
      else
        let res := dt i in
        ok <- call (RequestMemRegion (phy_addr res) (mem_size res));;
        if ok =? 0 then Ret (- EINVAL, st)
        else reserve_regions dt todo (i + 1) (n + 1)
               (with_mem st (<[Z.to_nat n := res]> (mem st)))
  end.

Definition init_reserved_mem (dt : Z -> mcs_rproc_mem) st : kio (Z * mcs_state) :=
  if negb (rmem_base st =? 0) && negb (rmem_size st =? 0) then
    Ret (0, with_mem st (<[0%nat := RprocMem (rmem_base st) (rmem_size st)]> (mem st)))
  else
    np <- call OfFindCompatibleNode;;
    if np =? 0 then Ret (- ENODEV, st)
    else
      count <- call OfCountPhandle;;
      if count <=? 0 then Ret (- ENODEV, st)
      else reserve_regions dt (Z.to_nat count) 0 0 st.

(** The loop of [release_reserved_mem] stops at the first empty entry. *)
Fixpoint release_regions (regions : list mcs_rproc_mem) : kio unit :=
  match regions with
  | [] => Ret tt
  | r :: regions =>
      if phy_addr r =? 0 then Ret tt
      else _ <- call (ReleaseMemRegion (phy_addr r) (mem_size r));; release_regions regions
  end.

Definition release_reserved_mem st : kio unit :=
  if negb (rmem_base st =? 0) && negb (rmem_size st =? 0) then Ret tt
  else release_regions (mem st).

Definition init_mcs_ipi : kio Z :=
  busy <- call IrqActionInstalled;;
  if negb (busy =? 0) then Ret (- EBUSY)
  else
    evt <- call AllocPercpu;;
    if evt =? 0 then Ret (- ENOMEM)
    else
      err <- call RequestPercpuIrq;;
      if negb (err =? 0) then _ <- call FreePercpu;; Ret err
      else _ <- call EnableIpiOnEachCpu;; Ret 0.

Definition remove_mcs_ipi : kio unit :=
  _ <- call DisableIpiOnEachCpu;;
  _ <- call FreePercpuIrq;;
  _ <- call FreePercpu;;
  Ret tt.

Definition register_mcs_dev st : kio (Z * mcs_state) :=
  major <- call RegisterChrdev;;
  let st := with_major st major in
  if major <? 0 then Ret (major, st)
  else
    class <- call ClassCreate;;
    if class <? 0 then _ <- call (UnregisterChrdev major);; Ret (class, st)
    else
      dev <- call (DeviceCreate major);;
      if dev <? 0 then
        _ <- call ClassDestroy;; _ <- call (UnregisterChrdev major);; Ret (dev, st)
      else Ret (0, st).

Definition unregister_mcs_dev st : kio unit :=
  _ <- call (DeviceDestroy (mcs_major st));;
  _ <- call ClassDestroy;;
  _ <- call (UnregisterChrdev (mcs_major st));;
  Ret tt.

Definition mcs_dev_init (acpi_disabled : bool) (method : string) (dt : Z -> mcs_rproc_mem) st
    : kio (Z * mcs_state) :=
  r1 <- get_psci_method acpi_disabled method st;;
  let '(ret, st) := r1 in
  if negb (ret =? 0) then Ret (ret, st)
  else
    r2 <- get_cpu_logical_map st;;
    let '(ret, st) := r2 in
    if negb (ret =? 0) then Ret (ret, st)
    else
      r3 <- init_reserved_mem dt st;;
      let '(ret, st) := r3 in
      if negb (ret =? 0) then Ret (ret, st)
      else
        ret <- init_mcs_ipi;;
        if negb (ret =? 0) then _ <- release_reserved_mem st;; Ret (ret, st)
        else
          r5 <- register_mcs_dev st;;
          let '(ret, st) := r5 in
          if negb (ret =? 0) then
            _ <- remove_mcs_ipi;; _ <- release_reserved_mem st;; Ret (ret, st)
          else Ret (ret, st).

Definition mcs_dev_exit st : kio unit :=
  _ <- remove_mcs_ipi;;
  _ <- unregister_mcs_dev st;;
  release_reserved_mem st.
End mcs_km.

(** ** Commands *)

(** The three calls of a successful boot: the request is read, the MPIDR of the
    core is known, and the firmware answers SUCCESS. *)
Definition boots (hvc : bool) (cpu boot : Z) (h : history kcall Z) : Prop :=
  exists r m a, h = [(CopyFromUser, r); (CpuLogicalMap cpu, m);
                     (SmcccCall hvc CPU_ON_FUNCID (u64 m) boot 0, a)] /\
    i32 r = 0 /\ u64 m <> INVALID_HWID /\ i32 (u64 a) = 0.

(** Executes a program until it has returned, one test at a time. *)
Ltac run_io :=
  unfold result, trace, call in *; cbn [bind exec fst snd app] in *;
  repeat (case_match; cbn [bind exec fst snd app] in *).

(** A core is booted only through IOC_CPUON: a PSCI call with the CPU_ON
    function is made by no other command; IOC_CPUON returns 0 exactly when the
    request could be read, the core number is below NR_CPUS, its MPIDR is known
    and the firmware answered SUCCESS; and a command of another device type or
    number returns -EINVAL without any call. *)
Theorem mcs_ioctl_cpu_on (NR : Z) (o : oracle kcall Z) (st : mcs_state) (cmd : Z) (info : cpu_info)
    (msg : core_msg_mem_info) :
  let p := mcs_ioctl NR st cmd info msg in
  (forall hvc m b z a, (SmcccCall hvc CPU_ON_FUNCID m b z, a) ∈ trace o p -> cmd = IOC_CPUON) /\
  (cmd = IOC_CPUON ->
     result o p = 0 <->
     ci_cpu info < NR /\ cpu_logical_map_fn st = true /\
     boots (invoke_hvc st) (ci_cpu info) (ci_boot_addr info) (trace o p)) /\
  (ioc_type cmd <> MAGIC_NUMBER \/ IOC_MAXNR < ioc_nr cmd ->
     result o p = - EINVAL /\ trace o p = []).
Proof.
  cbn zeta. split_and!.
  - intros hvc m b z a. unfold mcs_ioctl, get_copy_msg_mem, get_cpu_mpidr, invoke_psci_fn.
    run_io; bool_to_Prop; set_unfold; naive_solver.
  - intros ->. unfold mcs_ioctl, boots, get_cpu_mpidr, invoke_psci_fn. cbn -[wraps wrapu].
    run_io; bool_to_Prop; split; intros Hr; try done; destruct_and?; try lia;
      try naive_solver.
  - intros H. unfold mcs_ioctl. run_io; bool_to_Prop; naive_solver lia.
Qed.

Definition cpu_on_oracle : oracle kcall Z := fun _ c =>
  match c with CpuLogicalMap cpu => cpu | _ => 0 end.
Definition sample_state : mcs_state :=
  McsState true true [RprocMem 0x70000000 0x10000000; RprocMem 0 0; RprocMem 0 0; RprocMem 0 0]
    0 0 0 240.

Lemma mcs_ioctl_cpu_on_witness :
  result cpu_on_oracle
    (mcs_ioctl 4 sample_state IOC_CPUON (CpuInfo 3 0x7a000000) (CoreMsgMemInfo 0 0 0 0 0)) = 0.
Proof.
  apply (mcs_ioctl_cpu_on 4 cpu_on_oracle sample_state IOC_CPUON); [done|].
  split_and!; [done|done|]. exists 0, 3, 0. by vm_compute.
Defined.

(** ** Memory windows *)

(** Offset of the copy buffer of an instance in the reserved memory: 2 MiB that
    end 1 MiB before the end of the instance's 16 MiB of shared memory. *)
Definition copy_offset (id : Z) : Z := id * INSTANCE_SIZE + (OPENAMP_SHM_SIZE - 3 * OPENAMP_SHM_COPY_SIZE).

Lemma copy_offset_mono i j : i <= j -> copy_offset i <= copy_offset j.
Proof. unfold copy_offset, INSTANCE_SIZE. lia. Qed.

Lemma copy_addr_small base id :
  0 <= id <= RPROC_MEM_MAX -> 0 <= base -> base + copy_offset 4 < 2 ^ 64 ->
  u64 (base + u32 (id * INSTANCE_SIZE) + OPENAMP_SHM_SIZE - OPENAMP_SHM_COPY_SIZE * 3) =
  base + copy_offset id.
Proof.
  unfold RPROC_MEM_MAX, copy_offset, INSTANCE_SIZE, OPENAMP_SHM_SIZE, OPENAMP_SHM_COPY_SIZE.
  intros. rewrite (wrapu_small 32) by lia. rewrite wrapu_small; lia.
Qed.

Lemma get_copy_msg_mem_granted st req :
  let base := phy_addr (mem_entry (mem st) 0) in
  let size := mem_size (mem_entry (mem st) 0) in
  let id := cm_instance_id req in
  0 <= id <= RPROC_MEM_MAX -> 0 <= base -> 0 <= size -> base + size < 2 ^ 64 ->
  base + copy_offset 4 < 2 ^ 64 -> copy_offset id <= size ->
  get_copy_msg_mem st req =
    (r <- call (CopyToUserMsg (CoreMsgMemInfo id (base + copy_offset id) (cm_vir_addr req) 0x200000
                                 (cm_align_size req)));;
     Ret (if r =? 0 then 0 else - EFAULT)).
Proof.
  cbn zeta. intros. unfold get_copy_msg_mem.
  rewrite (proj2 (Z.ltb_ge _ _)) by lia.
  rewrite copy_addr_small, (wrapu_small 64) by lia.
  rewrite (proj2 (Z.ltb_ge _ _)) by lia. done.
Qed.

(** IOC_GET_COPY_MSG_MEM answers for instances 0 to RPROC_MEM_MAX whose copy
    buffer starts inside (or at the end of) the first reserved region, and for no
    other; the address it reports is that of the instance's own buffer, so the
    buffers of two instances do not overlap; and the 2 MiB lie in the region
    whenever the region has room for them.  Nothing else of the request is
    changed. *)
Theorem get_copy_msg_mem_spec (o : oracle kcall Z) (st : mcs_state) (req : core_msg_mem_info) :
  let base := phy_addr (mem_entry (mem st) 0) in
  let size := mem_size (mem_entry (mem st) 0) in
  let id := cm_instance_id req in
  let resp := CoreMsgMemInfo id (base + copy_offset id) (cm_vir_addr req) 0x200000 (cm_align_size req) in
  0 <= id < 2 ^ 32 -> 0 <= base -> 0 <= size -> base + size < 2 ^ 64 -> base + copy_offset 4 < 2 ^ 64 ->
  (if bool_decide (id <= RPROC_MEM_MAX /\ copy_offset id <= size)
   then trace o (get_copy_msg_mem st req) = [(CopyToUserMsg resp, o [] (CopyToUserMsg resp))] /\
        result o (get_copy_msg_mem st req) = if o [] (CopyToUserMsg resp) =? 0 then 0 else - EFAULT
   else trace o (get_copy_msg_mem st req) = [] /\ result o (get_copy_msg_mem st req) = - EINVAL) /\
  (copy_offset id + 0x200000 <= size -> base <= cm_phy_addr resp /\ cm_phy_addr resp + cm_size resp <= base + size) /\
  (forall id', 0 <= id' -> id' <> id ->
     copy_offset id' + 0x200000 <= copy_offset id \/ copy_offset id + 0x200000 <= copy_offset id').
Proof.
  cbn zeta. intros Hid Hb Hs Hbs H4.
  pose proof (copy_offset_mono (cm_instance_id req) 4).
  split_and!.
  - case_bool_decide as E.
    + rewrite get_copy_msg_mem_granted by naive_solver lia. by run_io.
    + unfold get_copy_msg_mem. rewrite (wrapu_small 64 (_ + mem_size _)) by lia.
      destruct (Z.ltb_spec RPROC_MEM_MAX (cm_instance_id req)); [done|].
      rewrite copy_addr_small by naive_solver lia. run_io; bool_to_Prop; naive_solver lia.
  - cbn. unfold copy_offset, INSTANCE_SIZE, OPENAMP_SHM_SIZE, OPENAMP_SHM_COPY_SIZE. lia.
  - intros id' Hid' Hne. unfold copy_offset, INSTANCE_SIZE, OPENAMP_SHM_SIZE, OPENAMP_SHM_COPY_SIZE. lia.
Qed.

(** The check of line 300 compares the start of the buffer only: with 13 MiB of
    reserved memory instance 0 is given 2 MiB of which none is reserved. *)
Theorem get_copy_msg_mem_overrun :
  exists st resp,
    mem_entry (mem st) 0 = RprocMem 0x70000000 0xd00000 /\
    trace cpu_on_oracle (get_copy_msg_mem st (CoreMsgMemInfo 0 0 0 0 0)) = [(CopyToUserMsg resp, 0)] /\
    result cpu_on_oracle (get_copy_msg_mem st (CoreMsgMemInfo 0 0 0 0 0)) = 0 /\
    cm_phy_addr resp = 0x70000000 + 0xd00000 /\ cm_size resp = 0x200000.
Proof.
  exists (McsState true true [RprocMem 0x70000000 0xd00000] 0 0 0 240).
  by eexists.
Qed.

Lemma get_copy_msg_mem_spec_witness :
  exists resp, trace cpu_on_oracle (get_copy_msg_mem sample_state (CoreMsgMemInfo 1 0 0 0 0)) =
      [(CopyToUserMsg resp, 0)] /\ cm_phy_addr resp = 0x70000000 + 0x2400000 + 0xd00000.
Proof.
  destruct (get_copy_msg_mem_spec cpu_on_oracle sample_state (CoreMsgMemInfo 1 0 0 0 0)) as [H _];
    [by vm_compute..|].
  rewrite bool_decide_true in H by (by vm_compute).
  destruct H as [H _]. eexists. split; [exact H|]. reflexivity.
Defined.

Lemma mmap_found_spec regions offset size :
  mmap_found regions offset size = true <->
  exists i r, regions !! i = Some r /\ phy_addr r <= offset /\ size <= mem_size r /\
    Forall (fun r => phy_addr r <> 0) (take (S i) regions).
Proof.
  induction regions as [|r regions IH]; cbn.
  - split; [done|]. by intros (i & r & ? & _).
  - destruct (Z.eqb_spec (phy_addr r) 0) as [E|E].
    { split; [done|]. intros (i & r' & _ & _ & _ & Hall). cbn in Hall.
      by apply Forall_cons in Hall as [? _]. }
    destruct (_ && _)%bool eqn:Hb; bool_to_Prop.
    + split; [|done]. intros _. exists 0%nat, r. cbn. rewrite take_0. auto using Forall.
    + rewrite IH. split.
      * intros (i & r' & ? & ? & ? & ?). exists (S i), r'. cbn in *. auto using Forall.
      * intros ([|i] & r' & Hl & Ho & Hs & Hall); cbn in *; simplify_eq.
        -- apply andb_false_iff in Hb as [Hb|Hb]; bool_to_Prop; lia.
        -- apply Forall_cons in Hall as [_ ?]. by exists i, r'.
Qed.

(** C24: mcs_mmap reaches remap_pfn_range exactly when the page offset denotes a
    physical address of 64 bits, the range does not wrap around the address
    space, and some reserved region in use starts at or below the offset and is
    at least as large as the mapping; every other request returns -EINVAL
    without a call, and a failed remapping returns -EAGAIN. *)
Theorem mcs_mmap_spec (o : oracle kcall Z) (st : mcs_state) (vm_start vm_end vm_pgoff : Z) :
  0 <= vm_pgoff < 2 ^ 64 -> 0 <= vm_start < vm_end -> vm_end < 2 ^ 64 ->
  let offset := vm_pgoff * 4096 in
  let size := vm_end - vm_start in
  let granted := exists i r, mem st !! i = Some r /\ phy_addr r <= offset /\ size <= mem_size r /\
                   Forall (fun r => phy_addr r <> 0) (take (S i) (mem st)) in
  let answer := o [] (RemapPfnRange vm_pgoff size) in
  let p := mcs_mmap st vm_start vm_end vm_pgoff in
  (offset + size <= 2 ^ 64 /\ granted /\
     trace o p = [(RemapPfnRange vm_pgoff size, answer)] /\
     result o p = if answer <? 0 then - EAGAIN else 0) \/
  (~ (offset + size <= 2 ^ 64 /\ granted) /\ trace o p = [] /\ result o p = - EINVAL).
Proof.
  intros Hp Hv He. cbn zeta. unfold mcs_mmap.
  rewrite (wrapu_small 64 (vm_end - vm_start)) by lia.
  assert (Z.shiftl vm_pgoff PAGE_SHIFT = vm_pgoff * 4096) as -> by (by rewrite Z.shiftl_mul_pow2).
  destruct (decide (vm_pgoff * 4096 < 2 ^ 64)) as [Hlt|Hge].
  - rewrite (wrapu_small 64 (vm_pgoff * 4096)) by lia.
    rewrite Z.shiftr_div_pow2, Z.div_mul, Z.eqb_refl by done. cbn [negb].
    destruct (decide (vm_pgoff * 4096 + (vm_end - vm_start) <= 2 ^ 64)).
    + rewrite (wrapu_small 64 (_ - 1)) by lia. rewrite (proj2 (Z.ltb_ge _ _)) by lia.
      destruct (mmap_found _ _ _) eqn:Hf; cbn [negb].
      * left. apply mmap_found_spec in Hf. by run_io.
      * right. split; [|done]. rewrite <- mmap_found_spec, Hf. naive_solver.
    + right. split; [naive_solver|].
      rewrite (proj2 (Z.ltb_lt _ _)); [done|]. unfold wrapu.
      rewrite <- (Z_mod_plus_full _ (-1) (2 ^ 64)), Z.mod_small; lia.
  - right. split; [lia|].
    rewrite (proj2 (Z.eqb_neq _ _)); [done|].
    rewrite Z.shiftr_div_pow2 by done. intros E.
    pose proof (wrapu_range 64 (vm_pgoff * 4096)).
    assert (u64 (vm_pgoff * 4096) / 2 ^ PAGE_SHIFT < 2 ^ 52); [|lia].
    apply Z.div_lt_upper_bound; unfold PAGE_SHIFT; lia.
Qed.

Lemma mcs_mmap_spec_witness :
  trace cpu_on_oracle (mcs_mmap sample_state 0x1000 0x3000 0x70001) = [(RemapPfnRange 0x70001 0x2000, 0)].
Proof.
  destruct (mcs_mmap_spec cpu_on_oracle sample_state 0x1000 0x3000 0x70001) as [(_ & _ & -> & _)|(_ & H & _)];
    [lia|lia|lia|done|]. by vm_compute in H.
Defined.

(** The test of line 345 does not relate the end of the mapping to the end of
    the region: the page after a one-page region can be mapped. *)
Theorem mcs_mmap_past_region :
  exists st r, mem st = [r; RprocMem 0 0; RprocMem 0 0; RprocMem 0 0] /\
    trace cpu_on_oracle (mcs_mmap st 0x1000 0x2000 0x70001) = [(RemapPfnRange 0x70001 0x1000, 0)] /\
    result cpu_on_oracle (mcs_mmap st 0x1000 0x2000 0x70001) = 0 /\
    phy_addr r + mem_size r <= 0x70001 * 4096.
Proof.
  exists (McsState true true [RprocMem 0x70000000 0x1000; RprocMem 0 0; RprocMem 0 0; RprocMem 0 0] 0 0 0 240).
  by eexists.
Qed.

(** ** Notification of the poller *)

Inductive poll_event := EvIpi | EvPoll.
Definition poll_step (st : mcs_state) (e : poll_event) : mcs_state :=
  match e with EvIpi => handle_clientos_ipi st | EvPoll => (mcs_poll st).1 end.

Lemma poll_step_ack st e :
  e = EvPoll \/ irq_ack st <> 1 -> irq_ack (poll_step st e) = 1 <-> e = EvIpi.
Proof. destruct e; cbn; [naive_solver|]. unfold mcs_poll. case_match; bool_to_Prop; naive_solver. Qed.

(** No notification of the client OS is lost and none is reported twice:
    after any sequence of interrupts and polls that ends with a poll followed by
    [k] interrupts, the next poll reports POLLIN exactly when [k] is not 0, and a
    further poll reports nothing. *)
Theorem mcs_poll_handshake (st : mcs_state) (evs : list poll_event) (k : nat) :
  let st' := foldl poll_step st (evs ++ EvPoll :: replicate k EvIpi) in
  (mcs_poll st').2 = (if decide (k = 0%nat) then 0 else POLLIN_RDNORM) /\
  (mcs_poll (mcs_poll st').1).2 = 0.
Proof.
  cbn zeta. rewrite foldl_app. generalize (foldl poll_step st evs) as s. clear. intros s. cbn [foldl].
  assert (irq_ack (poll_step s EvPoll) <> 1) as H0 by (rewrite poll_step_ack; naive_solver).
  revert H0. generalize (poll_step s EvPoll) as s'. clear. intros s Hs.
  destruct k as [|k].
  - cbn. unfold mcs_poll. by rewrite !(proj2 (Z.eqb_neq _ _)).
  - replace (S k) with (k + 1)%nat by lia.
    rewrite replicate_add, foldl_app. cbn. by rewrite decide_False by lia.
Qed.

(** ** Resources

    The ledger of a trace: the memory regions and the other resources held, or
    [None] once something is released that is not held. *)

Inductive kres := KPercpu | KIrq | KIrqEnabled | KChrdev (major : Z) | KClass | KDevice (major : Z) | KProbe.
#[global] Instance kres_eq_dec : EqDecision kres.
Proof. solve_decision. Defined.
#[global] Instance mcs_rproc_mem_eq_dec : EqDecision mcs_rproc_mem.
Proof. solve_decision. Defined.

Definition held := option (list mcs_rproc_mem * list kres).
Definition acquire (ok : bool) (x : kres) (s : held) : held :=
  if ok then (fun '(m, l) => (m, x :: l)) <$> s else s.
Definition release (x : kres) (s : held) : held :=
  '(m, l) ← s; pair m <$> remove1 x l.

Definition kledger (s : held) (c : kcall) (a : Z) : held :=
  match c with
  | RequestMemRegion b n =>
      if a =? 0 then s else (fun '(m, l) => (m ++ [RprocMem b n], l)) <$> s
  | ReleaseMemRegion b n => '(m, l) ← s; m ← remove1 (RprocMem b n) m; Some (m, l)
  | RegisterKprobe => acquire (0 <=? a) KProbe s
  | UnregisterKprobe => release KProbe s
  | AllocPercpu => acquire (negb (a =? 0)) KPercpu s
  | FreePercpu => release KPercpu s
  | RequestPercpuIrq => acquire (a =? 0) KIrq s
  | FreePercpuIrq => release KIrq s
  | EnableIpiOnEachCpu => acquire true KIrqEnabled s
  | DisableIpiOnEachCpu => release KIrqEnabled s
  | RegisterChrdev => acquire (0 <=? a) (KChrdev a) s
  | UnregisterChrdev m => release (KChrdev m) s
  | ClassCreate => acquire (0 <=? a) KClass s
  | ClassDestroy => release KClass s
  | DeviceCreate m => acquire (0 <=? a) (KDevice m) s
  | DeviceDestroy m => release (KDevice m) s
  | _ => s
  end.

(** The regions of the device tree that are held are those recorded in [mem]; a
    region given by module parameters is not held. *)
Definition regions_ok (st : mcs_state) (m : list mcs_rproc_mem) : Prop :=
  if negb (rmem_base st =? 0) && negb (rmem_size st =? 0) then m = []
  else exists k, mem st = m ++ replicate k (RprocMem 0 0) /\ Forall (fun r => phy_addr r <> 0) m.

Abbreviation kwp := (wp kledger).

Lemma release_regions_wp m k l (Q : unit -> held -> Prop) :
  Forall (fun r => phy_addr r <> 0) m -> Q tt (Some ([], l)) ->
  kwp (release_regions (m ++ replicate k (RprocMem 0 0))) Q (Some (m, l)).
Proof.
  intros Hm HQ. induction Hm as [|r m Hr _ IH].
  - by destruct k.
  - cbn [app release_regions]. rewrite (proj2 (Z.eqb_neq _ _)) by done.
    intros a. cbn [kledger mbind option_bind]. destruct r as [b n]. rewrite remove1_head. apply IH.
Qed.

Lemma release_reserved_mem_wp st m l (Q : unit -> held -> Prop) :
  regions_ok st m -> Q tt (Some ([], l)) -> kwp (release_reserved_mem st) Q (Some (m, l)).
Proof.
  unfold regions_ok, release_reserved_mem. case_match; [by intros ->|].
  intros (k & -> & ?) ?. by apply release_regions_wp.
Qed.

(** The loop over the device tree: every region it holds is recorded in [mem],
    in the order of the entries, also when it stops half way. *)
Lemma reserve_regions_wp dt todo i st m k (Q : Z * mcs_state -> held -> Prop) :
  (forall j, phy_addr (dt j) <> 0) -> mem st = m ++ replicate k (RprocMem 0 0) ->
  Z.of_nat (length m + k) = RPROC_MEM_MAX -> Forall (fun r => phy_addr r <> 0) m ->
  (forall ret m' k', Forall (fun r => phy_addr r <> 0) m' ->
     Q (ret, with_mem st (m' ++ replicate k' (RprocMem 0 0))) (Some (m', []))) ->
  kwp (reserve_regions dt todo i (Z.of_nat (length m)) st) Q (Some (m, [])).
Proof.
  intros Hdt. revert i st m k. induction todo as [|todo IH]; intros i st m k Hmem Hlen Hm HQ.
  { cbn [reserve_regions wp]. specialize (HQ 0 m k Hm). rewrite <- Hmem in HQ. by destruct st. }
  assert (forall ret, Q (ret, st) (Some (m, []))) as Hstop.
  { intros ret. specialize (HQ ret m k Hm). rewrite <- Hmem in HQ. by destruct st. }
  cbn [reserve_regions bind call wp]. intros a1 a2. cbn [kledger].
  case_match; [apply Hstop|]. case_match; [apply Hstop|].
  cbn [bind call wp]. intros a3. cbn [kledger]. case_match; [apply Hstop|]. bool_to_Prop.
  destruct k as [|k]; [unfold RPROC_MEM_MAX in *; lia|].
  cbn [fmap option_map option_fmap].
  replace (Z.of_nat (length m) + 1) with (Z.of_nat (length (m ++ [dt i])))
    by (rewrite length_app; cbn; lia).
  replace (RprocMem (phy_addr (dt i)) (mem_size (dt i))) with (dt i) by (by destruct (dt i)).
  rewrite Nat2Z.id. apply (IH _ _ (m ++ [dt i]) k).
  - cbn [mem with_mem]. rewrite Hmem. rewrite insert_app_r_alt by lia.
    rewrite Nat.sub_diag. cbn. by rewrite <- app_assoc.
  - rewrite length_app. cbn. lia.
  - apply Forall_app. auto using Forall.
  - intros. by apply HQ.
Qed.

Lemma init_reserved_mem_wp dt st (Q : Z * mcs_state -> held -> Prop) :
  (forall j, phy_addr (dt j) <> 0) -> mem st = replicate 4 (RprocMem 0 0) ->
  (forall ret st' m, regions_ok st' m -> rmem_base st' = rmem_base st -> rmem_size st' = rmem_size st ->
     Q (ret, st') (Some (m, []))) ->
  kwp (init_reserved_mem dt st) Q (Some ([], [])).
Proof.
  intros Hdt Hmem HQ. unfold init_reserved_mem.
  destruct (negb (rmem_base st =? 0) && negb (rmem_size st =? 0))%bool eqn:E.
  { apply HQ; [|done..]. unfold regions_ok. cbn [rmem_base rmem_size with_mem]. by rewrite E. }
  assert (forall ret, Q (ret, st) (Some ([], []))) as Hstop.
  { intros ret. apply HQ; [|done..]. unfold regions_ok. rewrite E. by exists 4%nat. }
  cbn [bind call wp]. intros np. case_match; [apply Hstop|].
  cbn [bind call wp]. intros count. case_match; [apply Hstop|].
  apply (reserve_regions_wp dt _ _ st [] 4); [done|done|done|by constructor|].
  intros ret m' k' Hm'. apply HQ; [|done..]. unfold regions_ok.
  cbn [rmem_base rmem_size mem with_mem]. rewrite E. by exists k'.
Qed.

Definition ipi_held : list kres := [KIrqEnabled; KIrq; KPercpu].

Lemma init_mcs_ipi_wp m (Q : Z -> held -> Prop) :
  Q 0 (Some (m, ipi_held)) -> (forall err, err <> 0 -> Q err (Some (m, []))) ->
  kwp init_mcs_ipi Q (Some (m, [])).
Proof.
  intros H0 Herr. unfold init_mcs_ipi. cbn [bind call wp]. intros busy.
  case_match; [by apply Herr|]. cbn [bind call wp kledger]. intros evt.
  destruct (evt =? 0); [by apply Herr|]. cbn [bind call wp]. intros err.
  cbn [kledger]. case_match; bool_to_Prop.
  - rewrite (proj2 (Z.eqb_neq _ _)) by done. intros a. by apply Herr.
  - subst. intros a. apply H0.
Qed.

Lemma remove_mcs_ipi_wp m dev (Q : unit -> held -> Prop) :
  Forall (.∉ ipi_held) dev -> Q tt (Some (m, dev)) -> kwp remove_mcs_ipi Q (Some (m, dev ++ ipi_held)).
Proof.
  rewrite Forall_forall. intros Hdev HQ. cbn. intros _ _ _.
  assert ((KIrqEnabled ∉ dev) /\ (KIrq ∉ dev) /\ (KPercpu ∉ dev)) as (H1 & H2 & H3).
  { split_and!; intros H; apply (Hdev _ H); unfold ipi_held; set_solver. }
  unfold ipi_held, release. cbn [mbind option_bind].
  rewrite remove1_app_r, remove1_head by done. cbn [fmap option_map option_fmap mbind option_bind].
  rewrite remove1_app_r, remove1_head by done. cbn [fmap option_map option_fmap mbind option_bind].
  rewrite remove1_app_r, remove1_head by done. cbn [fmap option_map option_fmap mbind option_bind].
  by rewrite app_nil_r.
Qed.

Definition dev_held (major : Z) : list kres := [KDevice major; KClass; KChrdev major].

Lemma register_mcs_dev_wp st m l (Q : Z * mcs_state -> held -> Prop) :
  (forall major, Q (0, with_major st major) (Some (m, dev_held major ++ l))) ->
  (forall ret major, ret <> 0 -> Q (ret, with_major st major) (Some (m, l))) ->
  kwp (register_mcs_dev st) Q (Some (m, l)).
Proof.
  intros H0 Herr. unfold register_mcs_dev. cbn [bind call wp kledger]. intros major.
  destruct (Z.ltb_spec major 0).
  { rewrite (proj2 (Z.leb_gt _ _)) by done. apply Herr. lia. }
  rewrite (proj2 (Z.leb_le _ _)) by done. cbn [bind call wp kledger]. intros cls.
  destruct (Z.ltb_spec cls 0).
  { rewrite (proj2 (Z.leb_gt 0 cls)) by done. intros a. cbn. rewrite decide_True by done.
    apply Herr. lia. }
  rewrite (proj2 (Z.leb_le 0 cls)) by done. cbn [bind call wp kledger]. intros dev.
  destruct (Z.ltb_spec dev 0).
  { rewrite (proj2 (Z.leb_gt 0 dev)) by done. intros a a'. cbn.
    rewrite !decide_True by done. cbn. rewrite decide_True by done. apply Herr. lia. }
  rewrite (proj2 (Z.leb_le 0 dev)) by done. apply H0.
Qed.

Lemma unregister_mcs_dev_wp st m (Q : unit -> held -> Prop) :
  Q tt (Some (m, [])) -> kwp (unregister_mcs_dev st) Q (Some (m, dev_held (mcs_major st))).
Proof.
  intros HQ. cbn. intros _ _ _. do 2 (rewrite decide_True by done; cbn). rewrite decide_True by done. exact HQ.
Qed.

(** Neither the PSCI method nor the kprobe keeps a resource. *)
Lemma get_psci_method_wp acpi method st (Q : Z * mcs_state -> held -> Prop) s :
  (forall ret b, Q (ret, with_hvc st b) s) -> kwp (get_psci_method acpi method st) Q s.
Proof.
  intros HQ. assert (forall ret, Q (ret, st) s) as HQ'.
  { intros ret. specialize (HQ ret (invoke_hvc st)). by destruct st. }
  unfold get_psci_method. destruct acpi; cbn [negb]; [|apply HQ].
  cbn [bind call wp]. intros np. destruct (np =? 0); cbn [bind call wp]; [by apply HQ'|].
  intros avail. destruct (avail =? 0); [by apply HQ'|]. cbn [bind call wp]. intros r.
  destruct (negb _); cbn [bind call wp]; intros a; [by apply HQ'|].
  destruct (strcmp0 "hvc" method); [apply HQ|].
  destruct (strcmp0 "smc" method); [apply HQ|apply HQ'].
Qed.

Lemma get_cpu_logical_map_wp st m l (Q : Z * mcs_state -> held -> Prop) :
  (forall ret b, Q (ret, with_map st b) (Some (m, l))) ->
  kwp (get_cpu_logical_map st) Q (Some (m, l)).
Proof.
  intros HQ. unfold get_cpu_logical_map. cbn [bind call wp kledger]. intros r.
  destruct (Z.ltb_spec r 0).
  - rewrite (proj2 (Z.leb_gt _ _)) by done. specialize (HQ r (cpu_logical_map_fn st)). by destruct st.
  - rewrite (proj2 (Z.leb_le _ _)) by done. intros a. cbn. apply HQ.
Qed.

(** What the set-up leaves: everything, or at most regions of the device tree. *)
Definition init_post (r : Z * mcs_state) (s : held) : Prop :=
  exists m, (m = [] \/ regions_ok r.2 m) /\
    if r.1 =? 0 then regions_ok r.2 m /\ s = Some (m, dev_held (mcs_major r.2) ++ ipi_held)
    else s = Some (m, []).

Lemma mcs_dev_init_wp acpi method dt st :
  (forall j, phy_addr (dt j) <> 0) -> mem st = replicate 4 (RprocMem 0 0) ->
  kwp (mcs_dev_init acpi method dt st)
    (fun r s => init_post r s /\ rmem_base r.2 = rmem_base st /\ rmem_size r.2 = rmem_size st)
    (Some ([], [])).
Proof.
  intros Hdt Hmem. unfold mcs_dev_init.
  assert (forall ret st', ret <> 0 -> init_post (ret, st') (Some ([], []))) as Hnone.
  { intros ret st' Hr. exists []. cbn. rewrite (proj2 (Z.eqb_neq _ _)) by done. auto. }
  apply wp_bind, get_psci_method_wp. intros ret1 b1. case_match; bool_to_Prop; [by split; [apply Hnone|]|].
  apply wp_bind, get_cpu_logical_map_wp. intros ret2 b2. case_match; bool_to_Prop; [by split; [apply Hnone|]|].
  apply wp_bind, init_reserved_mem_wp; [done|done|]. intros ret3 st3 m Hm Hb Hs.
  case_match; bool_to_Prop.
  { split; [|done]. exists m. cbn. rewrite (proj2 (Z.eqb_neq _ _)) by done. auto. }
  apply wp_bind, init_mcs_ipi_wp.
  - apply wp_bind, register_mcs_dev_wp.
    + intros major. split; [|done]. exists m. cbn. auto.
    + intros ret major Hr. rewrite (proj2 (Z.eqb_neq _ _)) by done. cbn [negb].
      apply wp_bind, (remove_mcs_ipi_wp m []); [by constructor|].
      apply wp_bind, (release_reserved_mem_wp _ m); [done|]. split; [by apply Hnone|done].
  - intros err Hr. rewrite (proj2 (Z.eqb_neq _ _)) by done. cbn [negb].
    apply wp_bind, release_reserved_mem_wp; [done|]. split; [by apply Hnone|done].
Qed.

Lemma mcs_dev_exit_wp st m :
  regions_ok st m ->
  kwp (mcs_dev_exit st) (fun _ s => s = Some ([], [])) (Some (m, dev_held (mcs_major st) ++ ipi_held)).
Proof.
  intros Hm. unfold mcs_dev_exit.
  apply wp_bind, remove_mcs_ipi_wp.
  { unfold dev_held, ipi_held. repeat constructor; set_solver. }
  apply wp_bind, unregister_mcs_dev_wp, release_reserved_mem_wp; done.
Qed.

(** C25: Whatever the kernel answers, if no region of the device tree has the physical
    address 0, a module that was loaded successfully and is then removed has given back every memory region, interrupt, per-cpu
    variable, kprobe and device it took, releasing only what it held; and a
    failed load leaves nothing behind but, when the regions come from the device
    tree, regions already requested (which it has recorded in [mem]). *)
Theorem mcs_dev_init_exit_balanced (o : oracle kcall Z) (acpi_disabled : bool) (method : string)
    (dt : Z -> mcs_rproc_mem) (st : mcs_state) :
  mem st = replicate 4 (RprocMem 0 0) -> (forall i, phy_addr (dt i) <> 0) ->
  let '((ret, st'), h) := exec o (mcs_dev_init acpi_disabled method dt st) [] in
  let live := observe kledger (Some ([], [])) in
  (ret = 0 -> live (exec o (mcs_dev_exit st') h).2 = Some ([], [])) /\
  (ret <> 0 -> exists m, live h = Some (m, []) /\ (m = [] \/ regions_ok st' m) /\
     (rmem_base st <> 0 -> rmem_size st <> 0 -> m = [])).
Proof.
  intros Hmem Hdt.
  pose proof (wp_sound kledger o _ _ (Some ([], [])) [] (mcs_dev_init_wp acpi_disabled method dt st Hdt Hmem)) as H.
  destruct (exec o (mcs_dev_init acpi_disabled method dt st) []) as [[ret st'] h]. cbn [fst snd] in H. cbn zeta.
  destruct H as ((m & Hor & H) & Hb & Hs). cbn [fst snd] in *. split.
  - intros ->. destruct H as [Hok H].
    apply (wp_sound kledger o (mcs_dev_exit st') (fun _ s => s = Some ([], []))).
    rewrite H. by apply mcs_dev_exit_wp.
  - intros Hr. rewrite (proj2 (Z.eqb_neq _ _)) in H by done. exists m. split_and!; [done|done|].
    intros Hb0 Hs0. destruct Hor as [|Hor]; [done|]. unfold regions_ok in Hor.
    rewrite Hb, Hs, !(proj2 (Z.eqb_neq _ _)) in Hor by done. done.
Qed.

Definition load_oracle : oracle kcall Z := fun _ c =>
  match c with
  | OfFindMatchingNode | OfDeviceIsAvailable | OfFindCompatibleNode => 1
  | OfCountPhandle => 6
  | RequestMemRegion b _ => if b =? 0x40000000 then 0 else 1
  | AllocPercpu => 1
  | RegisterChrdev => 240
  | _ => 0
  end.
Definition unloaded : mcs_state := McsState true false (replicate 4 (RprocMem 0 0)) 0 0 0 0.
Definition sample_dt (i : Z) : mcs_rproc_mem := RprocMem (0x70000000 + Z.abs i * 0x1000) 0x1000.

(** A region at address 0 is requested but, because the release loop takes the address
    0 for the end of the array, neither it nor the regions behind it are released. *)
Theorem region_at_zero_stays :
  let dt i := RprocMem (i * 0x100000) 0x1000 in
  let '((ret, st'), h) := exec load_oracle (mcs_dev_init true "hvc" dt unloaded) [] in
  ret = 0 /\ observe kledger (Some ([], [])) (exec load_oracle (mcs_dev_exit st') h).2 =
    Some ([RprocMem 0 0x1000; RprocMem 0x100000 0x1000; RprocMem 0x200000 0x1000; RprocMem 0x300000 0x1000], []).
Proof. by vm_compute. Qed.

Lemma mcs_dev_init_exit_balanced_witness :
  let '((ret, st'), h) := exec load_oracle (mcs_dev_init true "hvc" sample_dt unloaded) [] in
  ret = 0 /\ observe kledger (Some ([], [])) (exec load_oracle (mcs_dev_exit st') h).2 = Some ([], []).
Proof.
  pose proof (mcs_dev_init_exit_balanced load_oracle true "hvc" sample_dt unloaded eq_refl
                ltac:(cbn; lia)) as H.
  destruct (exec load_oracle _ []) as [[ret st'] h] eqn:E.
  assert (ret = 0) by (vm_compute in E; congruence).
  split; [done|]. by apply H.
Defined.

(** The early return of line 469 leaks: the first region stays requested after
    the load has failed on the second. *)
Theorem init_reserved_mem_leaks :
  let dt i := if i =? 1 then RprocMem 0x40000000 0x1000 else RprocMem 0x70000000 0x1000 in
  let '((ret, _), h) := exec load_oracle (mcs_dev_init true "hvc" dt unloaded) [] in
  ret = - EINVAL /\ observe kledger (Some ([], [])) h = Some ([RprocMem 0x70000000 0x1000], []).
Proof. by vm_compute. Qed.
