(* ===== verification/Services.v ===== *)
(** * Service registry and endpoint table
    ([library/rpmsg_device/rpmsg_service.c], [library/remoteproc/mica_rsc_table.c])

    The services of a client, the remote endpoints that wait for a service, and
    the table of bound endpoints in the resource table, from which pending
    endpoints are restored after a restart of the host.

    The callbacks of a service act on a device state of type [D], which is left
    abstract; [ept_of] is the part of it this code reads, the list
    [rdev->endpoints] of the rpmsg device. *)

From S2P Require Import Prelude.

Definition RPMSG_NAME_SIZE : nat := 32.
Definition RPMSG_ADDR_ANY : Z := 2 ^ 32 - 1.
Definition MAX_NUM_OF_EPTS : nat := 64.
Definition RSC_VENDOR_EPT_TABLE : Z := 128.

(** [struct rpmsg_endpoint]: what this code reads of it. *)
Record rpmsg_endpoint := Endpoint { ep_name : string; ep_addr : Z; ep_dest : Z }.
Record remote_ept := RemoteEpt { re_name : string; re_addr : Z; re_dest : Z }.
Record ept_info := EptInfo { ei_name : string; ei_addr : Z; ei_dest : Z }.
Record fw_rsc_ept := RscEpt { rs_type : Z; rs_num : Z; rs_endpoints : list ept_info }.

#[global] Instance remote_ept_eq_dec : EqDecision remote_ept.
Proof. solve_decision. Defined.

(** ** The endpoint table *)

Definition empty_ept : ept_info := EptInfo "" 0 0.

(** [malloc] succeeds iff [ok]. *)
Definition register_remote_ept (ok : bool) (pending : list remote_ept) (name : string) (addr dest : Z)
    : list remote_ept :=
  if ok then pending ++ [RemoteEpt (strlcpy name RPMSG_NAME_SIZE) addr dest] else pending.

(** The loop of [handle_mica_rsc] (lines 28-32), [todo] entries from index [i];
    [ok i]: there is memory for the entry [i]; [None] is a read outside the table. *)
Fixpoint restore_epts (ok : nat -> bool) (t : fw_rsc_ept) (i todo : nat) (pending : list remote_ept)
    : option (list remote_ept) :=
  match todo with
  | O => Some pending
  | S todo =>
      match rs_endpoints t !! i with
      | None => None
      | Some e =>
          restore_epts ok t (S i) todo
            (if ei_addr e =? 0 then pending
             else register_remote_ept (ok i) pending (ei_name e) (ei_addr e) (ei_dest e))
      end
  end.

Definition handle_mica_rsc (ok : nat -> bool) (t : fw_rsc_ept) (pending : list remote_ept)
    : option (Z * list remote_ept) :=
  if rs_type t =? RSC_VENDOR_EPT_TABLE
  then pair 0 <$> restore_epts ok t 0 (Z.to_nat (rs_num t)) pending
  else Some (0, pending).

Definition bound (e : rpmsg_endpoint) : bool :=
  negb ((ep_addr e =? RPMSG_ADDR_ANY) || (ep_dest e =? RPMSG_ADDR_ANY)).

(** The loop of [rsc_update_ept_table] (lines 60-80). *)
Fixpoint fill_epts (eps : list rpmsg_endpoint) (t : fw_rsc_ept) : Z * fw_rsc_ept :=
  match eps with
  | [] => (0, t)
  | e :: eps =>
      if negb (bound e) then fill_epts eps t
      else if Z.of_nat MAX_NUM_OF_EPTS <=? rs_num t then (- ENOSPC, t)
      else fill_epts eps
             (RscEpt (rs_type t) (u32 (rs_num t + 1))
                (<[Z.to_nat (rs_num t) :=
                     EptInfo (strlcpy (ep_name e) RPMSG_NAME_SIZE) (ep_dest e) (ep_addr e)]>
                   (rs_endpoints t)))
  end.

(** [None]: [find_rsc] finds no endpoint table. *)
Definition rsc_update_ept_table (table : option fw_rsc_ept) (eps : list rpmsg_endpoint)
    : Z * option fw_rsc_ept :=
  match table with
  | None => (0, None)
  | Some _ =>
      let '(ret, t) := fill_epts eps (RscEpt RSC_VENDOR_EPT_TABLE 0 (replicate MAX_NUM_OF_EPTS empty_ept)) in
      (ret, Some t)
  end.

(** ** The registry *)

Section registry.
Context {D : Type} (ept_of : D -> list rpmsg_endpoint).

Record mica_service := Service {
  sv_name : string;
  sv_init : option (D -> D);
  sv_remove : option (D -> D);
  sv_ns_match : option (string -> Z -> Z -> bool);
  sv_ns_bind_cb : option (string -> Z -> Z -> D -> D);
  sv_get_match_device : option (D -> nat -> string);
}.

Record client := Client {
  cl_running : bool;             (* rproc.state == RPROC_RUNNING *)
  cl_dev : D;
  cl_table : option fw_rsc_ept;
  cl_services : list mica_service;
}.

Definition with_dev (c : client) (d : D) : client :=
  Client (cl_running c) d (cl_table c) (cl_services c).
Definition with_table (c : client) (t : option fw_rsc_ept) : client :=
  Client (cl_running c) (cl_dev c) t (cl_services c).
Definition with_services (c : client) (l : list mica_service) : client :=
  Client (cl_running c) (cl_dev c) (cl_table c) l.
Definition apply_cb (f : option (D -> D)) (c : client) : client :=
  match f with Some f => with_dev c (f (cl_dev c)) | None => c end.

(** A call of [rpmsg_ns_bind_cb] and the update of the endpoint table after it. *)
Definition bind_service (c : client) (bind : string -> Z -> Z -> D -> D) (name : string) (addr dest : Z)
    : client :=
  let c := with_dev c (bind name addr dest (cl_dev c)) in
  with_table c (rsc_update_ept_table (cl_table c) (ept_of (cl_dev c))).2.

(** Each endpoint that was bound, with the name of the service it was bound to. *)
Definition bind_log := list (string * remote_ept).

(** The walk of [mica_register_service] over the pending endpoints (lines 70-84):
    a matching endpoint is bound and unlinked. *)
Fixpoint bind_pending (svc : mica_service) (m : string -> Z -> Z -> bool) (b : string -> Z -> Z -> D -> D)
    (pending : list remote_ept) (c : client) : client * list remote_ept * bind_log :=
  match pending with
  | [] => (c, [], [])
  | r :: pending =>
      if m (re_name r) (re_addr r) (re_dest r) then
        let '(c, rest, log) :=
          bind_pending svc m b pending (bind_service c b (re_name r) (re_addr r) (re_dest r)) in
        (c, rest, (sv_name svc, r) :: log)
      else
        let '(c, rest, log) := bind_pending svc m b pending c in (c, r :: rest, log)
  end.

Definition mica_register_service (ok : bool) (c : client) (pending : list remote_ept) (svc : mica_service)
    : Z * client * list remote_ept * bind_log :=
  if negb (cl_running c) then (- EPERM, c, pending, [])
  else if negb ok then (- ENOMEM, c, pending, [])
  else
    let c := apply_cb (sv_init svc) c in
    match sv_ns_match svc with
    | None => (0, with_services c (cl_services c ++ [svc]), pending, [])
    | Some m =>
        match sv_ns_bind_cb svc with
        | None => (- EINVAL, apply_cb (sv_remove svc) c, pending, [])
        | Some b =>
            let '(c, pending, log) := bind_pending svc m b pending c in
            (0, with_services c (cl_services c ++ [svc]), pending, log)
        end
    end.

Fixpoint remove_services (l : list mica_service) (c : client) : client :=
  match l with
  | [] => with_services c []
  | svc :: l => remove_services l (apply_cb (sv_remove svc) (with_services c l))
  end.
Definition mica_unregister_all_services (c : client) : client := remove_services (cl_services c) c.

(** The search of [mica_ns_bind_cb] (lines 125-144): [inl None] when no service
    matches, [inl (Some (svc, bind))] for the first match, [inr tt] when a
    service with a match but no bind operation ends the search. *)
Fixpoint ns_search (l : list mica_service) (name : string) (dest : Z)
    : option (mica_service * (string -> Z -> Z -> D -> D)) + unit :=
  match l with
  | [] => inl None
  | svc :: l =>
      match sv_ns_match svc with
      | None => ns_search l name dest
      | Some m =>
          match sv_ns_bind_cb svc with
          | None => inr tt
          | Some b => if m name dest RPMSG_ADDR_ANY then inl (Some (svc, b)) else ns_search l name dest
          end
      end
  end.

Definition mica_ns_bind_cb (ok : bool) (c : client) (pending : list remote_ept) (name : string) (dest : Z)
    : client * list remote_ept * bind_log :=
  match ns_search (cl_services c) name dest with
  | inr _ => (c, pending, [])
  | inl (Some (svc, b)) =>
      (bind_service c b name dest RPMSG_ADDR_ANY, pending,
       [(sv_name svc, RemoteEpt name dest RPMSG_ADDR_ANY)])
  | inl None =>
      (c, if ok then pending ++ [RemoteEpt (strlcpy name RPMSG_NAME_SIZE) dest RPMSG_ADDR_ANY] else pending,
       [])
  end.

(** [snprintf(str + strlen(str), size - strlen(str), ...)] keeps what fits before
    the terminating NUL. *)
Definition snprintf_at (str : string) (size : nat) (s : string) : string :=
  str +:+ strprefix (size - String.length str - 1) s.

Fixpoint print_services (d : D) (l : list mica_service) (str : string) (size : nat) : string :=
  match l with
  | [] => str
  | svc :: l =>
      print_services d l
        (match sv_get_match_device svc with
         | Some f => str +:+ f d (size - String.length str)%nat
         | None => snprintf_at str size (sv_name svc +:+ " ")
         end) size
  end.
Definition print_device_of_service (c : client) (str : string) (size : nat) : string :=
  print_services (cl_dev c) (cl_services c) str size.
End registry.
Arguments mica_service : clear implicits.
Arguments client : clear implicits.

(** ** The endpoint table survives a restart *)

(** The entry of a local endpoint: the table holds the remote side's view. *)
Definition info_of (e : rpmsg_endpoint) : ept_info :=
  EptInfo (strlcpy (ep_name e) RPMSG_NAME_SIZE) (ep_dest e) (ep_addr e).
Definition peer_of (e : rpmsg_endpoint) : remote_ept :=
  RemoteEpt (strlcpy (ep_name e) RPMSG_NAME_SIZE) (ep_dest e) (ep_addr e).

(** A table whose first entries are [l]. *)
Definition table_of (l : list ept_info) : fw_rsc_ept :=
  RscEpt RSC_VENDOR_EPT_TABLE (Z.of_nat (length l)) (l ++ replicate (MAX_NUM_OF_EPTS - length l) empty_ept).

Lemma fill_epts_spec eps l :
  (length l <= MAX_NUM_OF_EPTS)%nat ->
  fill_epts eps (table_of l) =
    (if decide (length l + length (filter bound eps) <= MAX_NUM_OF_EPTS)%nat then 0 else - ENOSPC,
     table_of (take MAX_NUM_OF_EPTS (l ++ map info_of (filter bound eps)))).
Proof.
  revert l. induction eps as [|e eps IH]; intros l Hl.
  - cbn [fill_epts]. rewrite filter_nil, Nat.add_0_r, app_nil_r, take_ge by done. by rewrite decide_True.
  - cbn [fill_epts]. destruct (bound e) eqn:Hb; cbn [negb].
    + rewrite filter_cons_True by (by rewrite Hb). cbn [rs_num table_of length map].
      destruct (Z.leb_spec (Z.of_nat MAX_NUM_OF_EPTS) (Z.of_nat (length l))).
      * rewrite decide_False by lia. by rewrite take_app_le, take_ge by lia.
      * rewrite wrapu_small by (unfold MAX_NUM_OF_EPTS in *; lia).
        transitivity (fill_epts eps (table_of (l ++ [info_of e]))).
        -- f_equal. unfold table_of. rewrite length_app. cbn [rs_type rs_endpoints length]. f_equal; [lia|].
           rewrite Nat2Z.id, insert_app_r_alt, Nat.sub_diag by lia. rewrite <- app_assoc. f_equal.
           by replace (MAX_NUM_OF_EPTS - length l)%nat with (S (MAX_NUM_OF_EPTS - (length l + 1))) by lia.
        -- rewrite IH by (rewrite length_app; cbn [length]; lia).
           rewrite length_app, <- app_assoc. cbn [length app]. f_equal. apply decide_ext. lia.
    + rewrite filter_cons_False by (rewrite Hb; intros []). by apply IH.
Qed.

(** The pending endpoint made of an entry. *)
Definition pending_of (e : ept_info) : remote_ept :=
  RemoteEpt (strlcpy (ei_name e) RPMSG_NAME_SIZE) (ei_addr e) (ei_dest e).

Lemma restore_epts_spec ok t l1 l2 l3 pending :
  rs_endpoints t = l1 ++ l2 ++ l3 ->
  exists restored,
    restore_epts ok t (length l1) (length l2) pending = Some (pending ++ restored) /\
    restored `sublist_of` map pending_of (filter (fun e => ei_addr e <> 0) l2) /\
    ((forall i, ok i = true) -> restored = map pending_of (filter (fun e => ei_addr e <> 0) l2)).
Proof.
  revert l1 pending. induction l2 as [|e l2 IH]; intros l1 pending Ht; cbn [length restore_epts].
  - exists []. by rewrite app_nil_r.
  - rewrite Ht, lookup_app_r, Nat.sub_diag by lia. cbn [app lookup list_lookup].
    specialize (IH (l1 ++ [e])). rewrite length_app, Nat.add_1_r in IH.
    rewrite <- app_assoc in IH. cbn [app] in IH.
    rewrite filter_cons. destruct (Z.eqb_spec (ei_addr e) 0).
    + rewrite decide_False by (by intros ?). by apply IH.
    + rewrite decide_True by done. cbn [map]. unfold register_remote_ept. fold (pending_of e).
      destruct (ok (length l1)) eqn:Eok.
      * destruct (IH (pending ++ [pending_of e]) Ht) as (rs & -> & Hsub & Hall).
        exists (pending_of e :: rs). split; [by rewrite <- app_assoc|].
        split; [by apply sublist_skip|]. intros Hok. by rewrite Hall.
      * destruct (IH pending Ht) as (rs & -> & Hsub & Hall). exists rs. split; [done|].
        split; [by apply sublist_cons|]. intros Hok. by rewrite Hok in Eok.
Qed.

Lemma handle_table_of ok l pending :
  (length l <= MAX_NUM_OF_EPTS)%nat ->
  exists restored,
    handle_mica_rsc ok (table_of l) pending = Some (0, pending ++ restored) /\
    restored `sublist_of` map pending_of (filter (fun e => ei_addr e <> 0) l) /\
    ((forall i, ok i = true) -> restored = map pending_of (filter (fun e => ei_addr e <> 0) l)).
Proof.
  intros. unfold handle_mica_rsc. cbn [table_of rs_type rs_num]. rewrite Z.eqb_refl, Nat2Z.id.
  destruct (restore_epts_spec ok (table_of l) [] l (replicate (MAX_NUM_OF_EPTS - length l) empty_ept) pending)
    as (rs & E & Hrs); [done|]. exists rs. split; [|exact Hrs]. change 0%nat with (length (@nil ept_info)). by rewrite E.
Qed.

Lemma peers_of_infos l :
  map pending_of (filter (fun e => ei_addr e <> 0) (map info_of l)) =
  map peer_of (filter (fun e => ep_dest e <> 0) l).
Proof.
  induction l as [|e l IH]; [done|]. cbn [map]. rewrite !filter_cons. cbn [info_of ei_addr].
  case_decide; cbn [map]; [|done]. rewrite IH. f_equal.
  unfold pending_of, info_of, peer_of. cbn [ei_name ei_addr ei_dest]. by rewrite strlcpy_idem.
Qed.

(** C31: The endpoint table survives a restart of the host: reading back the
    table that rsc_update_ept_table wrote queues, in order, one pending remote
    endpoint per recorded local endpoint whose remote address is not 0 (an entry
    with the address 0 counts as empty), with local and remote address exchanged
    and the name cut to 31 characters, if there is memory for all of them, and a
    subsequence of these otherwise; recorded are the first 64 bound endpoints,
    and the update reports -ENOSPC exactly when there are more. *)
Theorem ept_table_roundtrip (t : fw_rsc_ept) (eps : list rpmsg_endpoint) (ok : nat -> bool) (pending : list remote_ept) :
  let peers := map peer_of (filter (fun e => ep_dest e <> 0) (take 64 (filter bound eps))) in
  exists t' restored,
    rsc_update_ept_table (Some t) eps =
      (if decide (length (filter bound eps) <= 64)%nat then 0 else - ENOSPC, Some t') /\
    handle_mica_rsc ok t' pending = Some (0, pending ++ restored) /\
    restored `sublist_of` peers /\ ((forall i, ok i = true) -> restored = peers).
Proof.
  unfold rsc_update_ept_table.
  change (RscEpt RSC_VENDOR_EPT_TABLE 0 (replicate MAX_NUM_OF_EPTS empty_ept)) with (table_of []).
  rewrite (fill_epts_spec eps []) by (cbn; lia). cbn [app].
  rewrite <- peers_of_infos, <- (firstn_map info_of).
  destruct (handle_table_of ok (take MAX_NUM_OF_EPTS (map info_of (filter bound eps))) pending)
    as (rs & E & Hrs); [rewrite length_take; lia|].
  eexists _, rs. split; [done|]. split; [exact E|exact Hrs].
Qed.

(** Restoring endpoints reads outside the table exactly when the endpoint
    count stored in it exceeds the 64 entries it has; the count is not checked. *)
Theorem handle_mica_rsc_bounds (ok : nat -> bool) (t : fw_rsc_ept) (pending : list remote_ept) :
  length (rs_endpoints t) = MAX_NUM_OF_EPTS -> 0 <= rs_num t < 2 ^ 32 ->
  handle_mica_rsc ok t pending = None <-> rs_type t = RSC_VENDOR_EPT_TABLE /\ 64 < rs_num t.
Proof.
  intros Hlen Hn. unfold handle_mica_rsc.
  assert (forall l1 l2 todo pending, rs_endpoints t = l1 ++ l2 ->
            restore_epts ok t (length l1) todo pending = None <-> (length l2 < todo)%nat) as Hr.
  { intros l1 l2. revert l1. induction l2 as [|e l2 IH]; intros l1 todo p Ht.
    - destruct todo; cbn [restore_epts length]; [split; [done|lia]|].
      rewrite lookup_ge_None_2 by (rewrite Ht, app_nil_r; lia). split; [lia|done].
    - destruct todo as [|todo]; cbn [restore_epts length]; [split; [done|lia]|].
      rewrite Ht, lookup_app_r, Nat.sub_diag by lia. cbn [lookup list_lookup].
      specialize (IH (l1 ++ [e])). rewrite length_app, Nat.add_1_r in IH.
      rewrite IH; [lia|]. by rewrite Ht, <- app_assoc. }
  destruct (Z.eqb_spec (rs_type t) RSC_VENDOR_EPT_TABLE).
  - specialize (Hr [] (rs_endpoints t) (Z.to_nat (rs_num t)) pending eq_refl). cbn [length] in Hr.
    rewrite fmap_None, Hr, Hlen. unfold MAX_NUM_OF_EPTS. naive_solver lia.
  - naive_solver.
Qed.

Lemma handle_mica_rsc_bounds_witness :
  handle_mica_rsc (fun _ => true) (RscEpt RSC_VENDOR_EPT_TABLE 65 (replicate 64 (EptInfo "rpmsg-tty" 1024 1025))) [] = None.
Proof. apply handle_mica_rsc_bounds; by vm_compute. Defined.

(** ** Announced endpoints are bound exactly once *)

Section registry_props.
Context {D : Type} (ept_of : D -> list rpmsg_endpoint).
Implicit Types (c : client D) (svc : mica_service D) (pending : list remote_ept).

(** What happens to a running client's registry; [ok]: there is memory for the service
    or the pending endpoint.  Other clients use the same list of pending endpoints. *)
Inductive reg_event :=
| EvRegister (ok : bool) (svc : mica_service D)
| EvAnnounce (ok : bool) (name : string) (dest : Z)
| EvUnregisterAll
| EvOtherRegister (other : client D) (ok : bool) (svc : mica_service D)
| EvOtherAnnounce (other : client D) (ok : bool) (name : string) (dest : Z).

(** [rg_lost]: announced while there was neither a service nor memory for them. *)
Record reg_state := RegState {
  rg_client : client D;
  rg_pending : list remote_ept;
  rg_log : bind_log;
  rg_lost : list remote_ept;
}.

Definition dropped_ept (ok : bool) c (name : string) (dest : Z) : list remote_ept :=
  match ns_search (cl_services c) name dest with
  | inl None => if ok then [] else [RemoteEpt name dest RPMSG_ADDR_ANY]
  | _ => []
  end.

Definition reg_step (s : reg_state) (e : reg_event) : reg_state :=
  match e with
  | EvRegister ok svc =>
      let '(_, c, pending, log) := mica_register_service ept_of ok (rg_client s) (rg_pending s) svc in
      RegState c pending (rg_log s ++ log) (rg_lost s)
  | EvAnnounce ok name dest =>
      let '(c, pending, log) := mica_ns_bind_cb ept_of ok (rg_client s) (rg_pending s) name dest in
      RegState c pending (rg_log s ++ log) (rg_lost s ++ dropped_ept ok (rg_client s) name dest)
  | EvUnregisterAll =>
      RegState (mica_unregister_all_services (rg_client s)) (rg_pending s) (rg_log s) (rg_lost s)
  | EvOtherRegister other ok svc =>
      RegState (rg_client s) (mica_register_service ept_of ok other (rg_pending s) svc).1.2 (rg_log s) (rg_lost s)
  | EvOtherAnnounce other ok name dest =>
      RegState (rg_client s) (mica_ns_bind_cb ept_of ok other (rg_pending s) name dest).1.2 (rg_log s) (rg_lost s)
  end.

Definition announced (e : reg_event) : list remote_ept :=
  match e with EvAnnounce _ name dest => [RemoteEpt name dest RPMSG_ADDR_ANY] | _ => [] end.
(** The client is the only one, and its endpoints' names fit. *)
Definition alone (e : reg_event) : Prop :=
  match e with
  | EvAnnounce _ name _ => (String.length name < RPMSG_NAME_SIZE)%nat
  | EvOtherRegister _ _ _ | EvOtherAnnounce _ _ _ _ => False
  | _ => True
  end.

Definition accepts svc (r : remote_ept) : Prop :=
  exists m, sv_ns_match svc = Some m /\ m (re_name r) (re_addr r) (re_dest r) = true.
Definition bindable svc : Prop := sv_ns_match svc <> None -> sv_ns_bind_cb svc <> None.

Record reg_inv (evs : list reg_event) (p0 : list remote_ept) (s : reg_state) : Prop := {
  ri_bindable : Forall bindable (cl_services (rg_client s));
  ri_services : forall svc, svc ∈ cl_services (rg_client s) -> EvRegister true svc ∈ evs;
  ri_waiting : forall svc r, svc ∈ cl_services (rg_client s) -> r ∈ rg_pending s -> ~ accepts svc r;
  ri_once : p0 ++ (evs ≫= announced) ≡ₚ rg_pending s ++ (rg_log s).*2 ++ rg_lost s;
  ri_bound : forall n r, (n, r) ∈ rg_log s -> exists svc, EvRegister true svc ∈ evs /\ sv_name svc = n /\ accepts svc r;
  ri_lost : forall r, r ∈ rg_lost s -> exists n d, EvAnnounce false n d ∈ evs /\ r = RemoteEpt n d RPMSG_ADDR_ANY;
}.

Lemma apply_cb_services f c : cl_services (apply_cb f c) = cl_services c.
Proof. by destruct f. Qed.

Lemma bind_pending_spec svc m b pending c :
  let '(c', rest, log) := bind_pending ept_of svc m b pending c in
  cl_services c' = cl_services c /\
  rest = filter (fun r => m (re_name r) (re_addr r) (re_dest r) = false) pending /\
  log = pair (sv_name svc) <$> filter (fun r => m (re_name r) (re_addr r) (re_dest r) = true) pending.
Proof.
  revert c. induction pending as [|r pending IH]; intros c; cbn [bind_pending]; [done|].
  rewrite !filter_cons. destruct (m _ _ _) eqn:E.
  - specialize (IH (bind_service ept_of c b (re_name r) (re_addr r) (re_dest r))).
    destruct (bind_pending _ _ _ _ _ _) as [[c' rest] log]. destruct IH as (Hs & -> & ->). done.
  - specialize (IH c). destruct (bind_pending _ _ _ _ _ _) as [[c' rest] log].
    destruct IH as (? & -> & ->). done.
Qed.

Lemma filter_bool_perm {A} (f : A -> bool) l :
  l ≡ₚ filter (fun x => f x = false) l ++ filter (fun x => f x = true) l.
Proof.
  induction l as [|x l IH]; [done|]. destruct (f x) eqn:E.
  - rewrite filter_cons_False, filter_cons_True by (done || by rewrite E).
    rewrite <- Permutation_middle. by f_equiv.
  - rewrite filter_cons_True, filter_cons_False by (done || by rewrite E).
    cbn [app]. by f_equiv.
Qed.

Lemma ns_search_bindable l name dest :
  Forall bindable l ->
  match ns_search l name dest with
  | inl (Some (svc, b)) => svc ∈ l /\ accepts svc (RemoteEpt name dest RPMSG_ADDR_ANY)
  | inl None => forall svc, svc ∈ l -> ~ accepts svc (RemoteEpt name dest RPMSG_ADDR_ANY)
  | inr _ => False
  end.
Proof.
  induction 1 as [|svc l Hb _ IH]; cbn [ns_search]; [set_solver|].
  destruct (sv_ns_match svc) as [m|] eqn:Hm.
  - destruct (sv_ns_bind_cb svc) as [b|] eqn:Hbind; [|by apply Hb; rewrite ?Hm].
    destruct (m _ _ _) eqn:E.
    + split; [set_solver|]. by exists m.
    + destruct (ns_search l name dest) as [[[svc' b']|]|]; [set_solver| |done].
      intros svc' [->|?]%elem_of_cons (m' & Hm' & HE); [|by apply (IH svc'); eauto; exists m'].
      cbn in HE. congruence.
  - destruct (ns_search l name dest) as [[[svc' b']|]|]; [set_solver| |done].
    intros svc' [->|?]%elem_of_cons (m' & Hm' & HE); [congruence|]. apply (IH svc'); [done|by exists m'].
Qed.

Lemma bind_service_services c b name addr dest :
  cl_services (bind_service ept_of c b name addr dest) = cl_services c.
Proof. done. Qed.

Lemma remove_services_services l c : cl_services (remove_services l c) = [].
Proof. revert c. induction l as [|svc l IH]; intros c; cbn [remove_services]; [done|apply IH]. Qed.

Lemma announced_snoc (evs : list reg_event) e :
  (evs ++ [e]) ≫= announced = (evs ≫= announced) ++ announced e.
Proof. rewrite bind_app. cbn. by rewrite app_nil_r. Qed.

(** More events and the same registry. *)
Lemma reg_inv_weaken evs p0 s e :
  reg_inv evs p0 s -> announced e = [] -> reg_inv (evs ++ [e]) p0 s.
Proof.
  intros [H1 H2 H3 H4 H5 H6] He. split; try done.
  - intros svc Hs. apply elem_of_app. eauto.
  - by rewrite announced_snoc, He, app_nil_r.
  - intros n r Hr. destruct (H5 n r Hr) as (svc & ? & ?). exists svc. split; [apply elem_of_app; eauto|done].
  - intros r Hr. destruct (H6 r Hr) as (n & d & ? & ?). exists n, d. split; [apply elem_of_app; eauto|done].
Qed.

Lemma reg_inv_register evs p0 s ok svc :
  reg_inv evs p0 s -> reg_inv (evs ++ [EvRegister ok svc]) p0 (reg_step s (EvRegister ok svc)).
Proof.
  intros Hinv. destruct s as [c pending log lost]. cbn [reg_step rg_client rg_pending rg_log rg_lost].
  unfold mica_register_service.
  apply (reg_inv_weaken _ _ _ (EvRegister ok svc)) in Hinv; [|done]. destruct Hinv as [H1 H2 H3 H4 H5 H6].
  cbn [rg_client rg_pending rg_log rg_lost] in *.
  destruct (cl_running c); cbn [negb]; [|by split; rewrite ?app_nil_r].
  destruct ok; cbn [negb]; [|by split; rewrite ?app_nil_r].
  assert (EvRegister true svc ∈ evs ++ [EvRegister true svc]) as Hev by set_solver.
  destruct (sv_ns_match svc) as [m|] eqn:Hm; [|].
  2:{ split; cbn [rg_client rg_pending rg_log rg_lost cl_services with_services];
        rewrite ?app_nil_r, ?apply_cb_services; try done.
      - apply Forall_app. split; [done|]. constructor; [|done]. by intros ?.
      - set_solver.
      - intros svc' r [Hs| ->%list_elem_of_singleton]%elem_of_app Hr; [eauto|].
        intros (m & ? & _). congruence. }
  destruct (sv_ns_bind_cb svc) as [b|] eqn:Hb.
  2:{ split; cbn [rg_client rg_pending rg_log rg_lost]; rewrite ?app_nil_r, ?apply_cb_services; done. }
  pose proof (bind_pending_spec svc m b pending (apply_cb (sv_init svc) c)) as Hp.
  destruct (bind_pending _ _ _ _ _ _) as [[c' rest] log']. destruct Hp as (Hs & -> & ->).
  rewrite apply_cb_services in Hs.
  split; cbn [rg_client rg_pending rg_log rg_lost cl_services with_services]; rewrite ?Hs; try done.
  - apply Forall_app. split; [done|]. constructor; [|done]. intros _. congruence.
  - set_solver.
  - intros svc' r [Hs'| ->%list_elem_of_singleton]%elem_of_app [HE Hr]%list_elem_of_filter; [eauto|].
    intros (m' & ? & ?). congruence.
  - rewrite fmap_app, <- list_fmap_compose, list_fmap_id.
    rewrite (Permutation_app_comm (log.*2)), <- app_assoc, (app_assoc (filter _ pending)).
    rewrite H4. f_equiv. apply (filter_bool_perm (fun r => m (re_name r) (re_addr r) (re_dest r))).
  - intros n r [Hr|Hr]%elem_of_app; [eauto|].
    apply list_elem_of_fmap in Hr as (r' & [= -> ->] & [HE Hr]%list_elem_of_filter).
    exists svc. split_and!; [done|done|]. by exists m.
Qed.

Lemma reg_inv_announce evs p0 s ok name dest :
  (String.length name < RPMSG_NAME_SIZE)%nat ->
  reg_inv evs p0 s -> reg_inv (evs ++ [EvAnnounce ok name dest]) p0 (reg_step s (EvAnnounce ok name dest)).
Proof.
  intros Hn [H1 H2 H3 H4 H5 H6]. destruct s as [c pending log lost].
  cbn [reg_step rg_client rg_pending rg_log rg_lost] in *. unfold mica_ns_bind_cb, dropped_ept.
  pose proof (ns_search_bindable (cl_services c) name dest H1) as Hns. rewrite strlcpy_short by done.
  set (e := EvAnnounce ok name dest). set (r0 := RemoteEpt name dest RPMSG_ADDR_ANY) in *.
  assert (forall x, x ∈ evs -> x ∈ evs ++ [e]) as Hev by set_solver.
  assert (forall n r, (n, r) ∈ log -> exists svc, EvRegister true svc ∈ evs ++ [e] /\ sv_name svc = n /\ accepts svc r)
    as Hlog by (intros n r Hr; destruct (H5 n r Hr) as (? & ? & ?); eauto).
  assert (forall r, r ∈ lost -> exists n d, EvAnnounce false n d ∈ evs ++ [e] /\ r = RemoteEpt n d RPMSG_ADDR_ANY)
    as Hlost by (intros r Hr; destruct (H6 r Hr) as (? & ? & ? & ?); eauto).
  destruct (ns_search _ _ _) as [[[svc b]|]|]; [| |done].
  - destruct Hns as [Hin Hacc].
    split; cbn [rg_client rg_pending rg_log rg_lost]; rewrite ?app_nil_r; try done; auto.
    + rewrite announced_snoc, app_assoc, H4, fmap_app. cbn [announced e fmap list_fmap snd].
      rewrite <- !app_assoc. do 2 f_equiv. apply Permutation_app_comm.
    + intros n r [Hr|Hr]%elem_of_app; [auto|]. apply list_elem_of_singleton in Hr as [= -> ->]. exists svc. auto.
  - destruct ok; split; cbn [rg_client rg_pending rg_log rg_lost]; rewrite ?app_nil_r; try done; auto.
    + intros svc' r Hs [Hr| ->%list_elem_of_singleton]%elem_of_app; eauto.
    + rewrite announced_snoc, app_assoc, H4. cbn [announced e].
      rewrite <- !app_assoc. f_equiv. by rewrite (Permutation_app_comm [r0]), app_assoc.
    + rewrite announced_snoc, app_assoc, H4. cbn [announced e]. by rewrite <- !app_assoc.
    + intros r [Hr| ->%list_elem_of_singleton]%elem_of_app; [auto|]. exists name, dest. set_solver.
Qed.

Lemma reg_inv_unregister evs p0 s :
  reg_inv evs p0 s -> reg_inv (evs ++ [EvUnregisterAll]) p0 (reg_step s EvUnregisterAll).
Proof.
  intros Hinv. apply (reg_inv_weaken _ _ _ EvUnregisterAll) in Hinv; [|done].
  destruct Hinv as [H1 H2 H3 H4 H5 H6].
  split; cbn [reg_step rg_client rg_pending rg_log rg_lost]; unfold mica_unregister_all_services;
    rewrite ?remove_services_services; try done; try set_solver.
Qed.

Lemma reg_inv_run evs p0 c :
  cl_services c = [] -> Forall alone evs -> reg_inv evs p0 (foldl reg_step (RegState c p0 [] []) evs).
Proof.
  intros Hc. induction evs as [|e evs IH] using rev_ind; intros Hall.
  - split; cbn [foldl rg_client rg_pending rg_log rg_lost]; rewrite ?Hc; cbn; rewrite ?app_nil_r; try done; set_solver.
  - apply Forall_app in Hall as [Hall He]. apply Forall_cons in He as [He _].
    rewrite foldl_app. cbn [foldl]. specialize (IH Hall).
    destruct e; [by apply reg_inv_register|by apply reg_inv_announce|by apply reg_inv_unregister|done..].
Qed.
End registry_props.
Arguments reg_event : clear implicits.
Arguments reg_state : clear implicits.

(** Over every sequence of registrations, name service announcements and
    removals of all services of the only client, starting with restored endpoints
    [p0] and no service: each endpoint that was restored or announced is still
    pending, was bound exactly once, to a registered service that accepts it, or was
    announced when there was no memory to keep it; and no pending endpoint is accepted
    by a service that is registered. *)
Theorem endpoints_bound_once {D} (ept_of : D -> list rpmsg_endpoint) (c : client D)
    (p0 : list remote_ept) (evs : list (reg_event D)) :
  cl_services c = [] -> Forall alone evs ->
  let s := foldl (reg_step ept_of) (RegState c p0 [] []) evs in
  p0 ++ (evs ≫= announced) ≡ₚ rg_pending s ++ (rg_log s).*2 ++ rg_lost s /\
  (forall n r, (n, r) ∈ rg_log s -> exists svc, EvRegister true svc ∈ evs /\ sv_name svc = n /\ accepts svc r) /\
  (forall svc r, svc ∈ cl_services (rg_client s) -> r ∈ rg_pending s -> ~ accepts svc r).
Proof.
  intros Hc Hall. destruct (reg_inv_run ept_of evs p0 c Hc Hall) as [_ _ H3 H4 H5 _]. done.
Qed.

Definition tty_service : mica_service nat :=
  Service "rpmsg-tty" (Some S) (Some Nat.pred) (Some (fun n _ _ => strcmp0 n "rpmsg-tty"))
    (Some (fun _ _ _ d => d)) None.

Lemma endpoints_bound_once_witness :
  let evs := [EvAnnounce true "rpmsg-tty" 1024; EvAnnounce true "rpmsg-umt" 1025; EvAnnounce false "other" 1;
              EvRegister true tty_service; EvAnnounce true "rpmsg-tty" 1026] in
  let s := foldl (reg_step (fun _ => [])) (RegState (Client true 0%nat None []) [] [] []) evs in
  (evs ≫= announced) ≡ₚ rg_pending s ++ (rg_log s).*2 ++ rg_lost s /\
  rg_log s = [("rpmsg-tty", RemoteEpt "rpmsg-tty" 1024 RPMSG_ADDR_ANY);
              ("rpmsg-tty", RemoteEpt "rpmsg-tty" 1026 RPMSG_ADDR_ANY)].
Proof.
  intros evs s.
  destruct (endpoints_bound_once (fun _ : nat => []) (Client true 0%nat None []) [] evs) as [H _];
    [done| |].
  { repeat apply Forall_cons_2; try apply Forall_nil_2; vm_compute; done || lia. }
  split; [exact H|by vm_compute].
Defined.

(** The list of pending endpoints is shared by all clients: an endpoint announced
    by one client is bound, with that client's addresses, by a registration of
    another. *)
Theorem pending_endpoint_crosses_clients :
  let client_a := Client true 0%nat None [] in
  let client_b := Client true 1%nat None [] in
  let '(_, pending, _) := mica_ns_bind_cb (fun _ => []) true client_a [] "rpmsg-tty" 1024 in
  (mica_register_service (fun _ => []) true client_b pending tty_service).2 =
    [("rpmsg-tty", RemoteEpt "rpmsg-tty" 1024 RPMSG_ADDR_ANY)].
Proof. done. Qed.

(** ** The status line *)

(** The device names of the services never overrun the status buffer: if
    every get_match_device callback leaves room for the terminating NUL in the
    space it is given, the text stays shorter than the buffer, and what was in
    the buffer before stays at its start. *)
Theorem print_device_of_service_bounded {D} (c : client D) (str : string) (size : nat) :
  (forall svc f d n, svc ∈ cl_services c -> sv_get_match_device svc = Some f -> (0 < n)%nat ->
     (String.length (f d n) < n)%nat) ->
  (String.length str < size)%nat ->
  (String.length (print_device_of_service c str size) < size)%nat /\
  exists added, print_device_of_service c str size = str +:+ added.
Proof.
  unfold print_device_of_service. generalize (cl_services c) as l. generalize (cl_dev c) as d. clear c.
  intros d l. revert str. induction l as [|svc l IH]; intros str Hcb Hlen; cbn [print_services].
  - split; [done|]. exists "". by rewrite string_app_nil_r.
  - assert (forall added, (String.length added < size - String.length str)%nat ->
      (String.length (print_services d l (str +:+ added) size) < size)%nat /\
      exists more, print_services d l (str +:+ added) size = str +:+ more) as Hgo.
    { intros added Ha. destruct (IH (str +:+ added)) as [Hl [more Hm]].
      - intros svc' f d' n Hin. apply (Hcb svc' f d' n). set_solver.
      - rewrite string_length_app. lia.
      - split; [done|]. exists (added +:+ more). by rewrite Hm, string_app_assoc. }
    destruct (sv_get_match_device svc) as [f|] eqn:Hf.
    + apply Hgo. apply (Hcb svc f); [set_solver|done|lia].
    + apply Hgo. pose proof (length_strprefix (size - String.length str - 1) (sv_name svc +:+ " ")). lia.
Qed.

Lemma print_device_of_service_bounded_witness :
  (String.length (print_device_of_service (Client true 0%nat None [tty_service; tty_service]) "st: " 20) < 20)%nat.
Proof.
  apply print_device_of_service_bounded.
  - intros svc f d n Hin Hf. cbn in Hin. set_unfold. destruct_or?; simplify_eq; done.
  - vm_compute. lia.
Defined.
