(* ===== verification/RpcModel.v ===== *)
(** * RPC message formats ([mica/micad/services/rpc/rpc_internal_model.h])

    The function identifiers and the request and response structures exchanged
    with the client OS, as field lists from which the offsets and sizes of the
    LP64 ABI (arm64) are computed.  The base structure [rpc_resp_base_t] of a
    response is inlined as its fields [trace_id] and [errnum]; the [_outp_t]
    structures belong to the client's side. *)

From S2P Require Import Prelude.

(** ** C structures *)

Inductive ctype :=
| Char
| Short
| Int
| UInt
| Long
| ULong
| Bytes (size align : nat).   (* an array or a structure that is only copied *)

Definition csize (t : ctype) : nat :=
  match t with
  | Char => 1 | Short => 2 | Int | UInt => 4 | Long | ULong => 8
  | Bytes n _ => n
  end.
Definition calign (t : ctype) : nat :=
  match t with Bytes _ a => a | t => csize t end.

Definition cstruct := list (string * ctype).

Definition round_up (n a : nat) : nat := (n + a - 1) / a * a.

(** Offset and type of a field, from offset [off]. *)
Fixpoint field_from (off : nat) (s : cstruct) (f : string) : nat * ctype :=
  match s with
  | [] => (off, Bytes 0 1)
  | (g, t) :: s =>
      let off := round_up off (calign t) in
      if String.eqb f g then (off, t) else field_from (off + csize t) s f
  end.
Definition foff (s : cstruct) (f : string) : nat := (field_from 0 s f).1.
Definition ftype (s : cstruct) (f : string) : ctype := (field_from 0 s f).2.
Definition fsize (s : cstruct) (f : string) : nat := csize (ftype s f).

Fixpoint end_from (off : nat) (s : cstruct) : nat :=
  match s with
  | [] => off
  | (_, t) :: s => end_from (round_up off (calign t) + csize t) s
  end.
Definition sizeof (s : cstruct) : nat :=
  round_up (end_from 0 s) (foldr (fun ft a => Nat.max (calign ft.2) a) 1%nat s).

(** Reading and writing an integer field. *)
Definition get (m : list Z) (s : cstruct) (f : string) : Z :=
  let v := le_val (memread (foff s f) (fsize s f) m) in
  match ftype s f with
  | Int => i32 v
  | Long => i64 v
  | Short => i16 v
  | _ => v
  end.
Definition put (m : list Z) (s : cstruct) (f : string) (v : Z) : list Z :=
  memwrite (foff s f) (le_bytes (fsize s f) v) m.

(** The bytes of an array field; the memory from its start on; a copy into it. *)
Definition bytes (m : list Z) (s : cstruct) (f : string) : list Z := memread (foff s f) (fsize s f) m.
Definition from (m : list Z) (s : cstruct) (f : string) : list Z := drop (foff s f) m.
Definition put_bytes (m : list Z) (s : cstruct) (f : string) (b : list Z) : list Z :=
  memwrite (foff s f) b m.

(** ** Sizes and function identifiers *)

Definition MAX_SBUF_LEN : nat := 432.
Definition MAX_CBUF_LEN : nat := 416.
Definition MAX_SADDR_SIZE : nat := 8.
Definition MAX_STRING_LEN : nat := MAX_SBUF_LEN.
Definition MAX_FILE_NAME_LEN : nat := 128.
Definition MAX_POLL_FDS : nat := 32.
Definition MAX_PATH_LEN : nat := 1024.
Definition MAX_IFNAMEINDEX_LEN : nat := 40.
Definition MAX_IFNAMEINDEX_SIZE : nat := 40.
Definition MAX_IOV_LEN : nat := 60.
Definition MAX_IOV_SIZE : nat := 30.
Definition MAX_FILE_MODE_LEN : nat := 6.
Definition PROXY_MAX_BUF_LEN : nat := 2024.

Definition OPEN_ID : Z := 1.
Definition CLOSE_ID : Z := 2.
Definition WRITE_ID : Z := 3.
Definition READ_ID : Z := 4.
Definition LSEEK_ID : Z := 5.
Definition FCNTL_ID : Z := 6.
Definition IOCTL_ID : Z := 7.
Definition UNLINK_ID : Z := 8.
Definition GETDENTS64_ID : Z := 9.
Definition FOPEN_ID : Z := 10.
Definition FCLOSE_ID : Z := 11.
Definition FREAD_ID : Z := 12.
Definition FWRITE_ID : Z := 13.
Definition FREOPEN_ID : Z := 14.
Definition FPUTS_ID : Z := 15.
Definition FGETS_ID : Z := 16.
Definition FEOF_ID : Z := 17.
Definition FPRINTF_ID : Z := 18.
Definition GETC_ID : Z := 19.
Definition FERROR_ID : Z := 20.
Definition GETC_UNLOCK_ID : Z := 21.
Definition PCLOSE_ID : Z := 22.
Definition TMPFILE_ID : Z := 23.
Definition CLEARERR_ID : Z := 24.
Definition POPEN_ID : Z := 25.
Definition UNGETC_ID : Z := 26.
Definition FSEEKO_ID : Z := 27.
Definition FTELLO_ID : Z := 28.
Definition RENAME_ID : Z := 29.
Definition REMOVE_ID : Z := 30.
Definition MKSTMP_ID : Z := 31.
Definition FSEEK_ID : Z := 32.
Definition FTELL_ID : Z := 33.
Definition FFLUSH_ID : Z := 34.
Definition GETWC_ID : Z := 35.
Definition PUTWC_ID : Z := 36.
Definition PUTC_ID : Z := 37.
Definition UNGETWC_ID : Z := 38.
Definition STAT_ID : Z := 39.
Definition GETCWD_ID : Z := 40.
Definition LSTAT_ID : Z := 41.
Definition FSTAT_ID : Z := 42.
Definition NCPYWRITE_ID : Z := 43.
Definition NCPYREAD_ID : Z := 44.
Definition FDOPEN_ID : Z := 45.
Definition FILENO_ID : Z := 46.
Definition SETVBUF_ID : Z := 46.
Definition READLINK_ID : Z := 47.
Definition SYSTEM_ID : Z := 48.
Definition ACCESS_ID : Z := 49.
Definition PIPE_ID : Z := 50.
Definition DUP2_ID : Z := 51.
Definition MKFIFO_ID : Z := 52.
Definition CHMOD_ID : Z := 53.
Definition CHDIR_ID : Z := 54.
Definition MKDIR_ID : Z := 55.
Definition RMDIR_ID : Z := 56.
Definition FSCANFX_ID : Z := 57.
Definition FREEADDRINFO_ID : Z := 100.
Definition GETADDRINFO_ID : Z := 101.
Definition GETHOSTBYADDR_ID : Z := 102.
Definition GETHOSTBYNAME_ID : Z := 103.
Definition POLL_ID : Z := 104.
Definition GETPEERNAME_ID : Z := 105.
Definition GETHOSTNAME_ID : Z := 106.
Definition GETSOCKNAME_ID : Z := 107.
Definition GETSOCKOPT_ID : Z := 108.
Definition SELECT_ID : Z := 109.
Definition ACCEPT_ID : Z := 110.
Definition BIND_ID : Z := 111.
Definition CONNECT_ID : Z := 112.
Definition LISTEN_ID : Z := 113.
Definition RECV_ID : Z := 114.
Definition RECVFROM_ID : Z := 115.
Definition SEND_ID : Z := 116.
Definition SENDTO_ID : Z := 117.
Definition SETSOCKOPT_ID : Z := 118.
Definition SHUTDOWN_ID : Z := 119.
Definition SOCKET_ID : Z := 120.
Definition IFNAMEINDEX_ID : Z := 121.
Definition PUTCHAR_ID : Z := 122.
Definition GAISTRERROR_ID : Z := 123.
Definition ACCEPT4_ID : Z := 124.
Definition WRITEV_ID : Z := 125.
Definition PRINTF_ID : Z := 300.

(** ** Requests and responses *)

Definition rpc_common_resp_t : cstruct :=
  [("trace_id", UInt); ("errnum", Int); ("ret", Int)].
Definition rpc_fcommon_req_t : cstruct :=
  [("func_id", ULong); ("trace_id", UInt); ("fhandle", ULong)].
Definition rpc_fcommon_resp_t : cstruct :=
  [("trace_id", UInt); ("errnum", Int); ("fhandle", ULong)].
Definition rpc_csret_resp_t : cstruct :=
  [("trace_id", UInt); ("errnum", Int); ("ret", Long)].
Definition rpc_open_req_t : cstruct :=
  [("func_id", ULong); ("trace_id", UInt); ("flags", Int); ("mode", UInt);
   ("buf", Bytes MAX_FILE_NAME_LEN 1)].
Definition rpc_open_resp_t : cstruct := rpc_common_resp_t.
Definition rpc_read_req_t : cstruct :=
  [("func_id", ULong); ("trace_id", UInt); ("fd", Int); ("count", UInt)].
Definition rpc_read_resp_t : cstruct :=
  [("trace_id", UInt); ("errnum", Int); ("ret", Long); ("buf", Bytes MAX_STRING_LEN 1)].
Definition rpc_write_req_t : cstruct :=
  [("func_id", ULong); ("trace_id", UInt); ("fd", Int); ("count", UInt);
   ("buf", Bytes MAX_STRING_LEN 1)].
Definition rpc_write_resp_t : cstruct := rpc_csret_resp_t.
Definition rpc_close_req_t : cstruct :=
  [("func_id", ULong); ("trace_id", UInt); ("fd", Int)].
Definition rpc_close_resp_t : cstruct := rpc_common_resp_t.
Definition rpc_ioctl_req_t : cstruct :=
  [("func_id", ULong); ("trace_id", UInt); ("fd", Int); ("request", ULong); ("len", ULong);
   ("buf", Bytes MAX_STRING_LEN 1)].
Definition rpc_ioctl_resp_t : cstruct :=
  [("trace_id", UInt); ("errnum", Int); ("ret", Int); ("len", ULong);
   ("buf", Bytes MAX_STRING_LEN 1)].
Definition rpc_lseek_req_t : cstruct :=
  [("func_id", ULong); ("trace_id", UInt); ("fd", Int); ("offset", Long); ("whence", Int)].
Definition rpc_lseek_resp_t : cstruct :=
  [("trace_id", UInt); ("errnum", Int); ("ret", Long)].
Definition rpc_fcntl_req_t : cstruct :=
  [("func_id", ULong); ("trace_id", UInt); ("fd", Int); ("cmd", Int); ("arg", ULong)].
Definition rpc_fcntl_resp_t : cstruct := rpc_common_resp_t.
Definition rpc_unlink_req_t : cstruct :=
  [("func_id", ULong); ("trace_id", UInt); ("buf", Bytes MAX_FILE_NAME_LEN 1)].
Definition rpc_unlink_resp_t : cstruct := rpc_common_resp_t.
Definition rpc_gethostbyaddr_req_t : cstruct :=
  [("func_id", ULong); ("trace_id", UInt); ("len", UInt); ("type", Int);
   ("buf", Bytes MAX_SBUF_LEN 1)].
Definition rpc_gethostbyaddr_resp_t : cstruct :=
  [("trace_id", UInt); ("errnum", Int); ("h_errnum", Int); ("len", Int);
   ("buf", Bytes MAX_SBUF_LEN 1)].
Definition rpc_gethostbyname_req_t : cstruct :=
  [("func_id", ULong); ("trace_id", UInt); ("buf", Bytes MAX_SBUF_LEN 1)].
Definition rpc_gethostbyname_resp_t : cstruct := rpc_gethostbyaddr_resp_t.
Definition rpc_getaddrinfo_req_t : cstruct :=
  [("func_id", ULong); ("trace_id", UInt); ("hints_cnt", Int); ("hints", Int);
   ("node", Int); ("service", Int); ("buflen", Int); ("buf", Bytes MAX_SBUF_LEN 1)].
Definition rpc_getaddrinfo_resp_t : cstruct :=
  [("trace_id", UInt); ("errnum", Int); ("h_errnum", Int); ("ret", Int); ("cnt", Int);
   ("buflen", Int); ("buf", Bytes MAX_SBUF_LEN 1)].
Definition rpc_getpeername_req_t : cstruct :=
  [("func_id", ULong); ("trace_id", UInt); ("sockfd", Int); ("addrlen", UInt);
   ("addr_buf", Bytes MAX_SBUF_LEN 1)].
Definition rpc_getpeername_resp_t : cstruct :=
  [("trace_id", UInt); ("errnum", Int); ("ret", Int); ("addrlen", UInt);
   ("addr_buf", Bytes MAX_SBUF_LEN 1)].
Definition rpc_getsockname_req_t : cstruct := rpc_getpeername_req_t.
Definition rpc_getsockname_resp_t : cstruct := rpc_getpeername_resp_t.
Definition rpc_accept_req_t : cstruct :=
  [("func_id", ULong); ("trace_id", UInt); ("sockfd", Int); ("addrlen", UInt);
   ("addr_buf", Bytes MAX_SBUF_LEN 1)].
Definition rpc_accept_resp_t : cstruct :=
  [("trace_id", UInt); ("errnum", Int); ("ret", Int); ("addrlen", UInt);
   ("buf", Bytes MAX_SBUF_LEN 1)].
Definition rpc_bind_req_t : cstruct :=
  [("func_id", ULong); ("trace_id", UInt); ("sockfd", Int); ("addrlen", UInt);
   ("addr_buf", Bytes MAX_SBUF_LEN 1)].
Definition rpc_bind_resp_t : cstruct := rpc_common_resp_t.
Definition rpc_connect_req_t : cstruct := rpc_bind_req_t.
Definition rpc_connect_resp_t : cstruct := rpc_common_resp_t.
Definition rpc_listen_req_t : cstruct :=
  [("func_id", ULong); ("trace_id", UInt); ("sockfd", Int); ("backlog", Int)].
Definition rpc_listen_resp_t : cstruct := rpc_common_resp_t.
Definition rpc_recv_req_t : cstruct :=
  [("func_id", ULong); ("trace_id", UInt); ("fd", Int); ("flags", Int); ("len", ULong)].
Definition rpc_recv_resp_t : cstruct :=
  [("trace_id", UInt); ("errnum", Int); ("ret", Long); ("buf", Bytes MAX_SBUF_LEN 1)].
Definition rpc_recvfrom_req_t : cstruct :=
  [("func_id", ULong); ("trace_id", UInt); ("fd", Int); ("flags", Int); ("addrlen", UInt);
   ("len", ULong); ("buf", Bytes MAX_SBUF_LEN 1)].
Definition rpc_recvfrom_resp_t : cstruct :=
  [("trace_id", UInt); ("errnum", Int); ("addrlen", UInt); ("ret", Long);
   ("addr", Bytes (16 * MAX_SADDR_SIZE) 2);
   ("buf", Bytes (MAX_SBUF_LEN - MAX_SADDR_SIZE * 16) 1)].
Definition rpc_send_req_t : cstruct :=
  [("func_id", ULong); ("trace_id", UInt); ("fd", Int); ("len", ULong); ("flags", Int);
   ("buf", Bytes MAX_SBUF_LEN 1)].
Definition rpc_send_resp_t : cstruct := rpc_csret_resp_t.
Definition rpc_sendto_req_t : cstruct :=
  [("func_id", ULong); ("trace_id", UInt); ("fd", Int); ("len", ULong); ("flags", Int);
   ("addrlen", UInt); ("buf", Bytes MAX_SBUF_LEN 1)].
Definition rpc_sendto_resp_t : cstruct := rpc_csret_resp_t.
Definition rpc_setsockopt_req_t : cstruct :=
  [("func_id", ULong); ("trace_id", UInt); ("fd", Int); ("level", Int); ("optname", Int);
   ("optlen", UInt); ("optval", Bytes MAX_STRING_LEN 1)].
Definition rpc_setsockopt_resp_t : cstruct := rpc_common_resp_t.
Definition rpc_shutdown_req_t : cstruct :=
  [("func_id", ULong); ("trace_id", UInt); ("fd", Int); ("how", Int)].
Definition rpc_shutdown_resp_t : cstruct := rpc_common_resp_t.
Definition rpc_socket_req_t : cstruct :=
  [("func_id", ULong); ("trace_id", UInt); ("domain", Int); ("type", Int);
   ("protocol", Int)].
Definition rpc_socket_resp_t : cstruct := rpc_common_resp_t.
Definition rpc_poll_req_t : cstruct :=
  [("func_id", ULong); ("trace_id", UInt); ("timeout", Int);
   ("fds", Bytes (8 * MAX_POLL_FDS) 4); ("nfds", ULong)].
Definition rpc_poll_resp_t : cstruct :=
  [("trace_id", UInt); ("errnum", Int); ("ret", Int); ("fds", Bytes (8 * MAX_POLL_FDS) 4)].
Definition rpc_select_req_t : cstruct :=
  [("func_id", ULong); ("trace_id", UInt); ("nfds", Int); ("readfds", Bytes 128 8);
   ("writefds", Bytes 128 8); ("exceptfds", Bytes 128 8); ("timeout", Bytes 16 8);
   ("is_readfds_not_null", Char); ("is_writefds_not_null", Char);
   ("is_exceptfds_not_null", Char); ("is_timeout_not_null", Char)].
Definition rpc_select_resp_t : cstruct :=
  [("trace_id", UInt); ("errnum", Int); ("readfds", Bytes 128 8); ("writefds", Bytes 128 8);
   ("exceptfds", Bytes 128 8); ("timeout", Bytes 16 8); ("ret", Int)].
Definition rpc_gethostname_req_t : cstruct :=
  [("func_id", ULong); ("trace_id", UInt); ("len", ULong)].
Definition rpc_gethostname_resp_t : cstruct :=
  [("trace_id", UInt); ("errnum", Int); ("ret", Int); ("len", Int);
   ("name", Bytes MAX_STRING_LEN 1)].
Definition rpc_getsockopt_req_t : cstruct :=
  [("func_id", ULong); ("trace_id", UInt); ("sockfd", Int); ("optlen", UInt);
   ("level", Int); ("optname", Int)].
Definition rpc_getsockopt_resp_t : cstruct :=
  [("trace_id", UInt); ("errnum", Int); ("ret", Int); ("optlen", UInt);
   ("optval", Bytes MAX_STRING_LEN 1)].
Definition rpc_printf_req_t : cstruct :=
  [("func_id", ULong); ("len", Int); ("buf", Bytes MAX_STRING_LEN 1)].
Definition rpc_getdents64_req_t : cstruct :=
  [("func_id", ULong); ("trace_id", UInt); ("count", Int); ("pos", Long); ("fd", Int)].
Definition rpc_getdents64_resp_t : cstruct :=
  [("trace_id", UInt); ("errnum", Int); ("pos", Long); ("ret", Int);
   ("buf", Bytes MAX_STRING_LEN 1)].
Definition rpc_fopen_req_t : cstruct :=
  [("func_id", ULong); ("trace_id", UInt); ("filename", Bytes MAX_FILE_NAME_LEN 1);
   ("mode", Bytes MAX_FILE_MODE_LEN 1)].
Definition rpc_fclose_req_t : cstruct := rpc_fcommon_req_t.
Definition rpc_fread_req_t : cstruct :=
  [("func_id", ULong); ("trace_id", UInt); ("size", ULong); ("count", ULong);
   ("fhandle", ULong)].
Definition rpc_fread_resp_t : cstruct :=
  [("trace_id", UInt); ("errnum", Int); ("ret", ULong); ("buf", Bytes MAX_STRING_LEN 1)].
Definition rpc_fwrite_req_t : cstruct :=
  [("func_id", ULong); ("trace_id", UInt); ("size", ULong); ("count", ULong);
   ("fhandle", ULong); ("buf", Bytes MAX_STRING_LEN 1)].
Definition rpc_fwrite_resp_t : cstruct :=
  [("trace_id", UInt); ("errnum", Int); ("ret", ULong)].
Definition rpc_freopen_req_t : cstruct :=
  [("func_id", ULong); ("trace_id", UInt); ("filename", Bytes MAX_FILE_NAME_LEN 1);
   ("mode", Bytes MAX_FILE_MODE_LEN 1); ("fhandle", ULong)].
Definition rpc_fputs_req_t : cstruct :=
  [("func_id", ULong); ("trace_id", UInt); ("fhandle", ULong);
   ("str", Bytes MAX_STRING_LEN 1)].
Definition rpc_fgets_req_t : cstruct :=
  [("func_id", ULong); ("trace_id", UInt); ("fhandle", ULong); ("size", Int)].
Definition rpc_fgets_resp_t : cstruct :=
  [("trace_id", UInt); ("errnum", Int); ("isEof", Int); ("str", Bytes MAX_STRING_LEN 1)].
Definition rpc_fflush_req_t : cstruct := rpc_fcommon_req_t.
Definition rpc_fflush_resp_t : cstruct := rpc_common_resp_t.
Definition rpc_feof_req_t : cstruct := rpc_fcommon_req_t.
Definition rpc_fprintf_req_t : cstruct :=
  [("func_id", ULong); ("fhandle", ULong); ("len", Int); ("buf", Bytes MAX_STRING_LEN 1)].
Definition rpc_getc_req_t : cstruct := rpc_fcommon_req_t.
Definition rpc_ferror_req_t : cstruct := rpc_fcommon_req_t.
Definition rpc_getc_unlocked_req_t : cstruct := rpc_fcommon_req_t.
Definition rpc_pclose_req_t : cstruct := rpc_fcommon_req_t.
Definition rpc_tmpfile_req_t : cstruct :=
  [("func_id", ULong); ("trace_id", UInt)].
Definition rpc_clearerr_req_t : cstruct :=
  [("func_id", ULong); ("fhandle", ULong)].
Definition rpc_popen_req_t : cstruct :=
  [("func_id", ULong); ("trace_id", UInt); ("cmd", Bytes MAX_FILE_NAME_LEN 1);
   ("mode", Bytes MAX_FILE_MODE_LEN 1)].
Definition rpc_ungetc_req_t : cstruct :=
  [("func_id", ULong); ("trace_id", UInt); ("c", Int); ("fhandle", ULong)].
Definition rpc_ungetc_resp_t : cstruct := rpc_common_resp_t.
Definition rpc_fseeko_req_t : cstruct :=
  [("func_id", ULong); ("trace_id", UInt); ("fhandle", ULong); ("offset", Long);
   ("whence", Int)].
Definition rpc_ftello_req_t : cstruct := rpc_fcommon_req_t.
Definition rpc_ftello_resp_t : cstruct :=
  [("trace_id", UInt); ("errnum", Int); ("ret", Long)].
Definition rpc_rename_req_t : cstruct :=
  [("func_id", ULong); ("trace_id", UInt); ("old", Bytes MAX_FILE_NAME_LEN 1);
   ("new", Bytes MAX_FILE_NAME_LEN 1)].
Definition rpc_remove_req_t : cstruct :=
  [("func_id", ULong); ("trace_id", UInt); ("path", Bytes MAX_FILE_NAME_LEN 1)].
Definition rpc_mkstemp_req_t : cstruct :=
  [("func_id", ULong); ("trace_id", UInt); ("tmp", Bytes MAX_FILE_NAME_LEN 1)].
Definition rpc_getwc_req_t : cstruct := rpc_fflush_req_t.
Definition rpc_getwc_resp_t : cstruct :=
  [("trace_id", UInt); ("errnum", Int); ("ret", UInt)].
Definition rpc_putwc_req_t : cstruct :=
  [("func_id", ULong); ("trace_id", UInt); ("wc", UInt); ("fhandle", ULong)].
Definition rpc_putwc_resp_t : cstruct := rpc_getwc_resp_t.
Definition rpc_ungetwc_req_t : cstruct :=
  [("func_id", ULong); ("trace_id", UInt); ("wc", UInt); ("fhandle", ULong)].
Definition rpc_ungetwc_resp_t : cstruct := rpc_getwc_resp_t.
Definition rpc_putc_req_t : cstruct := rpc_ungetc_req_t.
Definition rpc_putc_resp_t : cstruct := rpc_common_resp_t.
Definition rpc_stat_req_t : cstruct :=
  [("func_id", ULong); ("trace_id", UInt); ("path", Bytes MAX_PATH_LEN 1)].
Definition rpc_stat_resp_t : cstruct :=
  [("trace_id", UInt); ("errnum", Int); ("ret", Int); ("st_dev", ULong); ("st_ino", ULong);
   ("st_nlink", ULong); ("st_mode", UInt); ("st_uid", UInt); ("st_gid", UInt);
   ("st_rdev", ULong); ("st_size", Long); ("st_blksize", Long); ("st_blocks", Long);
   ("st_atime_sec", Long); ("st_atime_nsec", Long); ("st_mtime_sec", Long);
   ("st_mtime_nsec", Long); ("st_ctime_sec", Long); ("st_ctime_nsec", Long)].
Definition rpc_getcwd_req_t : cstruct :=
  [("func_id", ULong); ("trace_id", UInt); ("size", ULong)].
Definition rpc_getcwd_resp_t : cstruct :=
  [("trace_id", UInt); ("errnum", Int); ("isNull", Int); ("buf", Bytes MAX_PATH_LEN 1)].
Definition rpc_fileno_req_t : cstruct := rpc_fcommon_req_t.
Definition rpc_fileno_resp_t : cstruct := rpc_common_resp_t.
Definition rpc_fdopen_req_t : cstruct :=
  [("func_id", ULong); ("trace_id", UInt); ("fd", Int); ("mode", Bytes MAX_FILE_MODE_LEN 1)].
Definition rpc_fdopen_resp_t : cstruct := rpc_fcommon_resp_t.
Definition rpc_fstat_req_t : cstruct :=
  [("func_id", ULong); ("trace_id", UInt); ("fd", Int)].
Definition rpc_fstat_resp_t : cstruct := rpc_stat_resp_t.
Definition rpc_setvbuf_req_t : cstruct :=
  [("func_id", ULong); ("trace_id", UInt); ("fhandle", ULong)].
Definition rpc_setvbuf_resp_t : cstruct := rpc_common_resp_t.
Definition rpc_system_req_t : cstruct := rpc_unlink_req_t.
Definition rpc_system_resp_t : cstruct := rpc_common_resp_t.
Definition rpc_readlink_req_t : cstruct :=
  [("func_id", ULong); ("trace_id", UInt); ("bufsiz", ULong);
   ("pathname", Bytes MAX_STRING_LEN 1)].
Definition rpc_readlink_resp_t : cstruct :=
  [("trace_id", UInt); ("errnum", Int); ("ret", Long); ("buf", Bytes MAX_STRING_LEN 1)].
Definition rpc_access_req_t : cstruct :=
  [("func_id", ULong); ("trace_id", UInt); ("mode", Int);
   ("pathname", Bytes MAX_STRING_LEN 1)].
Definition rpc_access_resp_t : cstruct := rpc_common_resp_t.
Definition rpc_dup2_req_t : cstruct :=
  [("func_id", ULong); ("trace_id", UInt); ("oldfd", Int); ("newfd", Int)].
Definition rpc_dup2_resp_t : cstruct := rpc_common_resp_t.
Definition rpc_mkfifo_req_t : cstruct := rpc_access_req_t.
Definition rpc_mkfifo_resp_t : cstruct := rpc_common_resp_t.
Definition rpc_chmod_req_t : cstruct :=
  [("func_id", ULong); ("trace_id", UInt); ("mode", Int);
   ("pathname", Bytes MAX_STRING_LEN 1)].
Definition rpc_chmod_resp_t : cstruct := rpc_common_resp_t.
Definition rpc_chdir_req_t : cstruct := rpc_unlink_req_t.
Definition rpc_chdir_resp_t : cstruct := rpc_common_resp_t.
Definition rpc_mkdir_req_t : cstruct :=
  [("func_id", ULong); ("trace_id", UInt); ("mode", Int);
   ("pathname", Bytes MAX_STRING_LEN 1)].
Definition rpc_mkdir_resp_t : cstruct := rpc_common_resp_t.
Definition rpc_rmdir_req_t : cstruct := rpc_unlink_req_t.
Definition rpc_rmdir_resp_t : cstruct := rpc_common_resp_t.
Definition rpc_pipe_req_t : cstruct :=
  [("func_id", ULong); ("trace_id", UInt)].
Definition rpc_pipe_resp_t : cstruct :=
  [("trace_id", UInt); ("errnum", Int); ("ret", Long); ("fd", Bytes (4 * 2) 4)].
Definition rpc_fscanfx_req_t : cstruct :=
  [("func_id", ULong); ("trace_id", UInt); ("fmt", Bytes MAX_FILE_NAME_LEN 1);
   ("fhandle", ULong)].
Definition rpc_fscanfx_resp_t : cstruct :=
  [("trace_id", UInt); ("errnum", Int); ("ret", Long); ("data", ULong)].
Definition t_nameindex : cstruct :=
  [("if_index", UInt); ("if_name", Bytes MAX_IFNAMEINDEX_LEN 1)].
Definition rpc_if_nameindex_req_t : cstruct :=
  [("func_id", ULong); ("trace_id", UInt)].
Definition rpc_if_nameindex_resp_t : cstruct :=
  [("trace_id", UInt); ("errnum", Int); ("ret", Long); ("cnt", Int);
   ("if_index", Bytes (sizeof t_nameindex * MAX_IFNAMEINDEX_SIZE) 4)].
Definition rpc_putchar_req_t : cstruct :=
  [("func_id", ULong); ("trace_id", UInt); ("ch", Int)].
Definition rpc_putchar_resp_t : cstruct :=
  [("trace_id", UInt); ("errnum", Int); ("ret", Int)].
Definition rpc_gai_strerror_req_t : cstruct :=
  [("func_id", ULong); ("trace_id", UInt); ("error", Int)].
Definition rpc_gai_strerror_resp_t : cstruct :=
  [("trace_id", UInt); ("errnum", Int); ("isNull", Int); ("buf", Bytes MAX_STRING_LEN 1)].
Definition rpc_accept4_req_t : cstruct :=
  [("func_id", ULong); ("trace_id", UInt); ("sockfd", Int); ("flags", Int);
   ("addrlen", UInt); ("addr_buf", Bytes MAX_SBUF_LEN 1)].
Definition rpc_accept4_resp_t : cstruct :=
  [("trace_id", UInt); ("errnum", Int); ("ret", Int); ("addrlen", UInt);
   ("buf", Bytes MAX_SBUF_LEN 1)].
Definition rpc_iovbuf : cstruct :=
  [("len", ULong); ("iov", Bytes MAX_IOV_LEN 1)].
Definition rpc_writev_req_t : cstruct :=
  [("func_id", ULong); ("trace_id", UInt); ("fd", Int); ("iovcnt", Int);
   ("buf", Bytes (sizeof rpc_iovbuf * MAX_IOV_SIZE) 8)].
Definition rpc_writev_resp_t : cstruct :=
  [("trace_id", UInt); ("errnum", Int); ("ret", Long)].
