(* ===== verification/RpcLayout.v ===== *)
(** * Layout of the RPC messages

    The offsets that [RpcModel] computes are those of a C structure: every field is
    aligned, lies in the structure and does not overlap another one.  So a field that
    is written reads back, and no other field changes. *)

From S2P Require Import Prelude RpcModel.

(** ** Structures with distinct fields *)

Definition calign_pos (t : ctype) : bool := (0 <? calign t)%nat.
Definition wf_struct (s : cstruct) : bool :=
  bool_decide (NoDup (s.*1)) && forallb calign_pos (s.*2).

Lemma wf_struct_cons g t s :
  wf_struct ((g, t) :: s) = true -> (g ∉ s.*1) /\ (0 < calign t)%nat /\ wf_struct s = true.
Proof.
  unfold wf_struct. cbn [fmap list_fmap fst snd forallb]. intros [Hn Ha]%andb_true_iff.
  apply andb_true_iff in Ha as [Ha Hs]. apply bool_decide_eq_true, NoDup_cons in Hn as [Hg Hn].
  apply Nat.ltb_lt in Ha. split_and!; [done|done|].
  by rewrite bool_decide_eq_true_2, Hs.
Qed.

Lemma round_up_spec n a : (0 < a)%nat -> (n <= round_up n a /\ round_up n a mod a = 0)%nat.
Proof.
  intros Ha. unfold round_up. split; [|apply Nat.Div0.mod_mul].
  pose proof (Nat.div_mod_eq (n + a - 1) a). pose proof (Nat.mod_upper_bound (n + a - 1) a). nia.
Qed.

Section layout.
Implicit Types (s : cstruct) (f g : string) (off : nat).

(** Where a field of a structure that starts at [off] lies. *)
Lemma field_from_spec s f off :
  wf_struct s = true -> f ∈ s.*1 ->
  let '(o, t) := field_from off s f in
  (f, t) ∈ s /\ (off <= o)%nat /\ (o mod calign t = 0)%nat /\ (o + csize t <= end_from off s)%nat.
Proof.
  revert off. induction s as [|[g t] s IH]; intros off Hwf Hf; [set_solver|].
  apply wf_struct_cons in Hwf as (Hg & Ha & Hwf). cbn [field_from end_from].
  destruct (round_up_spec off (calign t) Ha) as [Hle Hmod].
  destruct (String.eqb_spec f g) as [->|Hne].
  - split_and!; [left|done|done|].
    clear -Hwf. generalize (round_up off (calign t) + csize t)%nat. intros o.
    revert o. induction s as [|[h u] s IH]; intros o; [done|]. cbn [end_from].
    apply wf_struct_cons in Hwf as (_ & Hu & Hwf).
    destruct (round_up_spec o (calign u) Hu) as [? _]. etransitivity; [|by apply IH]. lia.
  - assert (f ∈ s.*1) as Hf' by set_solver.
    pose proof (IH (round_up off (calign t) + csize t)%nat Hwf Hf') as H.
    destruct (field_from _ s f) as [o u]. destruct H as (Hin & Ho & Hm & He).
    split_and!; [by right|lia|done|done].
Qed.

(** Two fields do not overlap. *)
Lemma fields_disjoint s f g off :
  wf_struct s = true -> f ∈ s.*1 -> g ∈ s.*1 -> f <> g ->
  let '(o, t) := field_from off s f in
  let '(p, u) := field_from off s g in
  (o + csize t <= p \/ p + csize u <= o)%nat.
Proof.
  revert off. induction s as [|[h t] s IH]; intros off Hwf Hf Hg Hne; [set_solver|].
  pose proof (wf_struct_cons _ _ _ Hwf) as (_ & _ & Hwf'). cbn [field_from].
  destruct (String.eqb_spec f h) as [->|Hfh], (String.eqb_spec g h) as [->|Hgh]; [done|..].
  - pose proof (field_from_spec s g (round_up off (calign t) + csize t) Hwf' ltac:(set_solver)) as H.
    destruct (field_from _ s g). left. apply H.
  - pose proof (field_from_spec s f (round_up off (calign t) + csize t) Hwf' ltac:(set_solver)) as H.
    destruct (field_from _ s f). right. apply H.
  - apply IH; [done|set_solver..].
Qed.

Lemma field_in_struct s f :
  wf_struct s = true -> f ∈ s.*1 ->
  (foff s f mod calign (ftype s f) = 0 /\ foff s f + fsize s f <= sizeof s)%nat.
Proof.
  intros Hwf Hf. pose proof (field_from_spec s f 0 Hwf Hf) as H.
  unfold fsize, foff, ftype. destruct (field_from 0 s f) as [o t]. destruct H as (_ & _ & Hm & He).
  split; [done|]. etransitivity; [exact He|]. apply round_up_spec.
  clear. induction s; cbn; lia.
Qed.

Lemma fields_apart s f g :
  wf_struct s = true -> f ∈ s.*1 -> g ∈ s.*1 -> f <> g ->
  (foff s f + fsize s f <= foff s g \/ foff s g + fsize s g <= foff s f)%nat.
Proof.
  intros Hwf Hf Hg Hne. pose proof (fields_disjoint s f g 0 Hwf Hf Hg Hne) as H.
  unfold fsize, foff, ftype. by destruct (field_from 0 s f), (field_from 0 s g).
Qed.
End layout.

(** ** Fields as variables *)

(** A copy does not change what lies elsewhere. *)
Lemma memread_memwrite_apart (o n off : nat) (src l : list Z) :
  (o + n <= off \/ off + length src <= o)%nat -> (off + length src <= length l)%nat ->
  memread o n (memwrite off src l) = memread o n l.
Proof.
  intros [H|H] Hl; [by apply memread_memwrite_before|].
  apply list_eq. intros i. destruct (decide (i < n)%nat) as [Hi|Hi].
  - rewrite !lookup_memread, lookup_memwrite, decide_False by lia. done.
  - unfold memread. by rewrite !lookup_take_ge by lia.
Qed.

(** The value a field of type [t] holds after [v] was stored in it. *)
Definition cast (t : ctype) (v : Z) : Z :=
  match t with
  | Short => i16 v
  | Int => i32 v
  | Long => i64 v
  | t => wrapu (8 * Z.of_nat (csize t)) v
  end.

(** Range of the values of a field. *)
Definition in_range (t : ctype) (v : Z) : Prop :=
  match t with
  | Short | Int | Long =>
      - 2 ^ (8 * Z.of_nat (csize t) - 1) <= v < 2 ^ (8 * Z.of_nat (csize t) - 1)
  | t => 0 <= v < 2 ^ (8 * Z.of_nat (csize t))
  end.

Lemma wraps_bounds w x : 0 < w -> - 2 ^ (w - 1) <= wraps w x < 2 ^ (w - 1).
Proof.
  intros Hw. unfold wraps. pose proof (Z.mod_pos_bound (x + 2 ^ (w - 1)) (2 ^ w) ltac:(lia)).
  assert (2 ^ w = 2 * 2 ^ (w - 1)) by (rewrite <- Z.pow_succ_r by lia; f_equal; lia). lia.
Qed.

Lemma cast_in_range t v : in_range t (cast t v).
Proof. destruct t; cbn; try (by apply wraps_bounds); apply wrapu_range; lia. Qed.

Lemma cast_small t v : in_range t v -> cast t v = v.
Proof. destruct t; cbn [in_range cast]; intros; try (by apply wraps_small); by apply wrapu_small. Qed.

Lemma le_val_wrapu n z : le_val (le_bytes n z) = wrapu (8 * Z.of_nat n) z.
Proof. rewrite le_val_bytes. unfold wrapu. by rewrite Z.pow_mul_r by lia. Qed.

Lemma cast_le_val t v : cast t (le_val (le_bytes (csize t) v)) = cast t v.
Proof.
  rewrite le_val_wrapu. destruct t; cbn [cast csize]; try (by rewrite wrapu_idem by lia).
  - by rewrite (wraps_wrapu 16).
  - by rewrite (wraps_wrapu 32).
  - by rewrite (wraps_wrapu 64).
Qed.

Lemma le_val_range l : Forall (fun b => 0 <= b < 256) l -> 0 <= le_val l < 2 ^ (8 * Z.of_nat (length l)).
Proof.
  induction 1 as [|b l Hb _ IH]; cbn [le_val length]; [done|].
  replace (8 * Z.of_nat (S (length l))) with (8 + 8 * Z.of_nat (length l)) by lia.
  rewrite Z.pow_add_r by lia. change (2 ^ 8) with 256. lia.
Qed.

(** Reading a field of a byte memory is a cast of the bytes at its offset. *)
Lemma get_cast m s f :
  Forall (fun b => 0 <= b < 256) m -> (foff s f + fsize s f <= length m)%nat ->
  get m s f = cast (ftype s f) (le_val (memread (foff s f) (fsize s f) m)).
Proof.
  intros Hm Hl.
  assert (0 <= le_val (memread (foff s f) (fsize s f) m) < 2 ^ (8 * Z.of_nat (fsize s f))) as Hr.
  { pose proof (le_val_range (memread (foff s f) (fsize s f) m)) as H.
    rewrite length_memread in H by done. by apply H, Forall_take, Forall_drop. }
  unfold get, cast. unfold fsize in *. destruct (ftype s f); try done; by rewrite wrapu_small.
Qed.

Lemma get_in_range m s f :
  Forall (fun b => 0 <= b < 256) m -> (foff s f + fsize s f <= length m)%nat -> in_range (ftype s f) (get m s f).
Proof. intros. rewrite get_cast by done. apply cast_in_range. Qed.

Section fields.
Context (s : cstruct) (Hwf : wf_struct s = true).
Implicit Types (m b : list Z) (f g : string).

Lemma get_put_same m f v :
  f ∈ s.*1 -> (sizeof s <= length m)%nat -> get (put m s f v) s f = cast (ftype s f) v.
Proof.
  intros Hf Hl. destruct (field_in_struct s f Hwf Hf) as [_ Hin]. unfold get, put.
  pose proof (memread_memwrite (foff s f) (le_bytes (fsize s f) v) m) as E. rewrite length_le_bytes in E.
  rewrite E, le_val_wrapu by lia. unfold fsize, cast.
  destruct (ftype s f); try done.
  - by rewrite (wraps_wrapu 16).
  - by rewrite (wraps_wrapu 32).
  - by rewrite (wraps_wrapu 64).
Qed.

Lemma bytes_put_bytes_other m f g b :
  f ∈ s.*1 -> g ∈ s.*1 -> f <> g -> (sizeof s <= length m)%nat -> (length b <= fsize s f)%nat ->
  bytes (put_bytes m s f b) s g = bytes m s g.
Proof.
  intros Hf Hg Hne Hl Hb. destruct (field_in_struct s f Hwf Hf) as [_ Hin].
  pose proof (fields_apart s f g Hwf Hf Hg Hne). unfold bytes, put_bytes.
  apply memread_memwrite_apart; lia.
Qed.

Lemma get_put_bytes_other m f g b :
  f ∈ s.*1 -> g ∈ s.*1 -> f <> g -> (sizeof s <= length m)%nat -> (length b <= fsize s f)%nat ->
  get (put_bytes m s f b) s g = get m s g.
Proof. intros. pose proof (bytes_put_bytes_other m f g b) as E. unfold bytes in E. unfold get. by rewrite E. Qed.

Lemma get_put_other m f g v :
  f ∈ s.*1 -> g ∈ s.*1 -> f <> g -> (sizeof s <= length m)%nat -> get (put m s f v) s g = get m s g.
Proof. intros. apply get_put_bytes_other; try done. by rewrite length_le_bytes. Qed.
End fields.

(** ** The messages *)

(** The structure each handler reads its request with, by function. *)
Definition requests : list (Z * cstruct) :=
  [(OPEN_ID, rpc_open_req_t); (READ_ID, rpc_read_req_t); (WRITE_ID, rpc_write_req_t);
   (CLOSE_ID, rpc_close_req_t); (LSEEK_ID, rpc_lseek_req_t); (FCNTL_ID, rpc_fcntl_req_t);
   (IOCTL_ID, rpc_ioctl_req_t); (UNLINK_ID, rpc_unlink_req_t); (GETDENTS64_ID, rpc_getdents64_req_t);
   (GETADDRINFO_ID, rpc_getaddrinfo_req_t); (GETHOSTBYADDR_ID, rpc_gethostbyaddr_req_t);
   (GETHOSTBYNAME_ID, rpc_gethostbyname_req_t); (POLL_ID, rpc_poll_req_t);
   (GETPEERNAME_ID, rpc_getpeername_req_t); (GETHOSTNAME_ID, rpc_gethostname_req_t);
   (GETSOCKNAME_ID, rpc_getsockname_req_t); (GETSOCKOPT_ID, rpc_getsockopt_req_t);
   (SELECT_ID, rpc_select_req_t); (ACCEPT_ID, rpc_accept_req_t); (BIND_ID, rpc_bind_req_t);
   (CONNECT_ID, rpc_connect_req_t); (LISTEN_ID, rpc_listen_req_t); (RECV_ID, rpc_recv_req_t);
   (RECVFROM_ID, rpc_recvfrom_req_t); (SEND_ID, rpc_send_req_t); (SENDTO_ID, rpc_sendto_req_t);
   (SETSOCKOPT_ID, rpc_setsockopt_req_t); (SHUTDOWN_ID, rpc_shutdown_req_t); (SOCKET_ID, rpc_socket_req_t);
   (FOPEN_ID, rpc_fopen_req_t); (FCLOSE_ID, rpc_fclose_req_t); (FREAD_ID, rpc_fread_req_t);
   (FWRITE_ID, rpc_fwrite_req_t); (FREOPEN_ID, rpc_freopen_req_t); (FPUTS_ID, rpc_fputs_req_t);
   (FGETS_ID, rpc_fgets_req_t); (FEOF_ID, rpc_feof_req_t); (FPRINTF_ID, rpc_fprintf_req_t);
   (GETC_ID, rpc_getc_req_t); (FERROR_ID, rpc_ferror_req_t); (GETC_UNLOCK_ID, rpc_getc_unlocked_req_t);
   (PCLOSE_ID, rpc_pclose_req_t); (TMPFILE_ID, rpc_tmpfile_req_t); (CLEARERR_ID, rpc_clearerr_req_t);
   (POPEN_ID, rpc_popen_req_t); (UNGETC_ID, rpc_ungetc_req_t); (FSEEKO_ID, rpc_fseeko_req_t);
   (FTELLO_ID, rpc_ftello_req_t); (FSEEK_ID, rpc_fseeko_req_t); (FTELL_ID, rpc_ftello_req_t);
   (RENAME_ID, rpc_rename_req_t); (REMOVE_ID, rpc_remove_req_t); (MKSTMP_ID, rpc_mkstemp_req_t);
   (STAT_ID, rpc_stat_req_t); (LSTAT_ID, rpc_stat_req_t); (GETCWD_ID, rpc_getcwd_req_t);
   (PRINTF_ID, rpc_printf_req_t); (FFLUSH_ID, rpc_fflush_req_t); (GETWC_ID, rpc_getwc_req_t);
   (PUTWC_ID, rpc_putwc_req_t); (PUTC_ID, rpc_putc_req_t); (UNGETWC_ID, rpc_ungetwc_req_t);
   (FSTAT_ID, rpc_fstat_req_t); (FDOPEN_ID, rpc_fdopen_req_t); (FILENO_ID, rpc_fileno_req_t);
   (SETVBUF_ID, rpc_setvbuf_req_t); (SYSTEM_ID, rpc_system_req_t); (READLINK_ID, rpc_readlink_req_t);
   (ACCESS_ID, rpc_access_req_t); (DUP2_ID, rpc_dup2_req_t); (MKFIFO_ID, rpc_mkfifo_req_t);
   (CHMOD_ID, rpc_chmod_req_t); (CHDIR_ID, rpc_chdir_req_t); (MKDIR_ID, rpc_mkdir_req_t);
   (RMDIR_ID, rpc_rmdir_req_t); (PIPE_ID, rpc_pipe_req_t); (FSCANFX_ID, rpc_fscanfx_req_t);
   (IFNAMEINDEX_ID, rpc_if_nameindex_req_t); (PUTCHAR_ID, rpc_putchar_req_t);
   (GAISTRERROR_ID, rpc_gai_strerror_req_t); (ACCEPT4_ID, rpc_accept4_req_t); (WRITEV_ID, rpc_writev_req_t)].

(** The structure each handler answers with; some functions have no answer. *)
Definition responses : list (Z * cstruct) :=
  [(OPEN_ID, rpc_open_resp_t); (READ_ID, rpc_read_resp_t); (WRITE_ID, rpc_write_resp_t);
   (CLOSE_ID, rpc_close_resp_t); (LSEEK_ID, rpc_lseek_resp_t); (FCNTL_ID, rpc_fcntl_resp_t);
   (IOCTL_ID, rpc_ioctl_resp_t); (UNLINK_ID, rpc_unlink_resp_t); (GETDENTS64_ID, rpc_getdents64_resp_t);
   (GETADDRINFO_ID, rpc_getaddrinfo_resp_t); (GETHOSTBYADDR_ID, rpc_gethostbyaddr_resp_t);
   (GETHOSTBYNAME_ID, rpc_gethostbyname_resp_t); (POLL_ID, rpc_poll_resp_t);
   (GETPEERNAME_ID, rpc_getpeername_resp_t); (GETHOSTNAME_ID, rpc_gethostname_resp_t);
   (GETSOCKNAME_ID, rpc_getsockname_resp_t); (GETSOCKOPT_ID, rpc_getsockopt_resp_t);
   (SELECT_ID, rpc_select_resp_t); (ACCEPT_ID, rpc_accept_resp_t); (BIND_ID, rpc_bind_resp_t);
   (CONNECT_ID, rpc_connect_resp_t); (LISTEN_ID, rpc_listen_resp_t); (RECV_ID, rpc_recv_resp_t);
   (RECVFROM_ID, rpc_recvfrom_resp_t); (SEND_ID, rpc_send_resp_t); (SENDTO_ID, rpc_sendto_resp_t);
   (SETSOCKOPT_ID, rpc_setsockopt_resp_t); (SHUTDOWN_ID, rpc_shutdown_resp_t);
   (SOCKET_ID, rpc_socket_resp_t); (FOPEN_ID, rpc_fcommon_resp_t); (FCLOSE_ID, rpc_common_resp_t);
   (FREAD_ID, rpc_fread_resp_t); (FWRITE_ID, rpc_fwrite_resp_t); (FREOPEN_ID, rpc_fcommon_resp_t);
   (FPUTS_ID, rpc_common_resp_t); (FGETS_ID, rpc_fgets_resp_t); (FEOF_ID, rpc_common_resp_t);
   (GETC_ID, rpc_common_resp_t); (FERROR_ID, rpc_common_resp_t); (GETC_UNLOCK_ID, rpc_common_resp_t);
   (PCLOSE_ID, rpc_common_resp_t); (TMPFILE_ID, rpc_fcommon_resp_t); (POPEN_ID, rpc_fcommon_resp_t);
   (UNGETC_ID, rpc_common_resp_t); (FSEEKO_ID, rpc_common_resp_t); (FTELLO_ID, rpc_ftello_resp_t);
   (FSEEK_ID, rpc_common_resp_t); (FTELL_ID, rpc_ftello_resp_t); (RENAME_ID, rpc_common_resp_t);
   (REMOVE_ID, rpc_common_resp_t); (MKSTMP_ID, rpc_common_resp_t); (STAT_ID, rpc_stat_resp_t);
   (LSTAT_ID, rpc_stat_resp_t); (GETCWD_ID, rpc_getcwd_resp_t); (FFLUSH_ID, rpc_fflush_resp_t);
   (GETWC_ID, rpc_getwc_resp_t); (PUTWC_ID, rpc_putwc_resp_t); (PUTC_ID, rpc_putc_resp_t);
   (UNGETWC_ID, rpc_ungetwc_resp_t); (FSTAT_ID, rpc_fstat_resp_t); (FDOPEN_ID, rpc_fdopen_resp_t);
   (FILENO_ID, rpc_fileno_resp_t); (SETVBUF_ID, rpc_setvbuf_resp_t); (SYSTEM_ID, rpc_system_resp_t);
   (READLINK_ID, rpc_readlink_resp_t); (ACCESS_ID, rpc_access_resp_t); (DUP2_ID, rpc_dup2_resp_t);
   (MKFIFO_ID, rpc_mkfifo_resp_t); (CHMOD_ID, rpc_chmod_resp_t); (CHDIR_ID, rpc_chdir_resp_t);
   (MKDIR_ID, rpc_mkdir_resp_t); (RMDIR_ID, rpc_rmdir_resp_t); (PIPE_ID, rpc_pipe_resp_t);
   (FSCANFX_ID, rpc_fscanfx_resp_t); (IFNAMEINDEX_ID, rpc_if_nameindex_resp_t);
   (PUTCHAR_ID, rpc_putchar_resp_t); (GAISTRERROR_ID, rpc_gai_strerror_resp_t);
   (ACCEPT4_ID, rpc_accept4_resp_t); (WRITEV_ID, rpc_writev_resp_t)].

#[global] Instance ctype_eq_dec : EqDecision ctype.
Proof. solve_decision. Defined.

(** Field [f] is at [off] and has the type [t]. *)
Definition has_field (s : cstruct) (f : string) (off : nat) (t : ctype) : bool :=
  bool_decide (f ∈ s.*1) && bool_decide (field_from 0 s f = (off, t)).
Definition request_ok (m : Z * cstruct) : bool :=
  wf_struct m.2 && has_field m.2 "func_id" 0 ULong &&
  (has_field m.2 "trace_id" 8 UInt || bool_decide (m.1 ∉ responses.*1)) && ((sizeof m.2 <=? 2048)%nat || (m.1 =? WRITEV_ID)).
Definition response_ok (m : Z * cstruct) : bool :=
  wf_struct m.2 && has_field m.2 "trace_id" 0 UInt && has_field m.2 "errnum" 4 Int &&
  (sizeof m.2 <=? PROXY_MAX_BUF_LEN)%nat.

Lemma requests_ok : forallb request_ok requests = true.
Proof. by vm_compute. Qed.
Lemma responses_ok : forallb response_ok responses = true.
Proof. by vm_compute. Qed.

Lemma has_field_spec s f off t :
  has_field s f off t = true -> f ∈ s.*1 /\ foff s f = off /\ ftype s f = t.
Proof.
  intros [Hf E]%andb_true_iff. apply bool_decide_eq_true in Hf, E.
  unfold foff, ftype. by rewrite E.
Qed.

Lemma request_spec id s :
  (id, s) ∈ requests ->
  wf_struct s = true /\ (foff s "func_id" = 0%nat /\ ftype s "func_id" = ULong) /\
  (id ∈ responses.*1 -> foff s "trace_id" = 8%nat /\ ftype s "trace_id" = UInt) /\
  (id <> WRITEV_ID -> (sizeof s <= 2048)%nat).
Proof.
  intros Hin. pose proof requests_ok as H. rewrite forallb_forall in H.
  apply list_elem_of_In, H in Hin. unfold request_ok in Hin. cbn [fst snd] in Hin.
  apply andb_true_iff in Hin as [[[Hwf [_ Hf]%has_field_spec]%andb_true_iff Ht]%andb_true_iff Hsz].
  split_and!; [done|apply Hf|apply Hf|..].
  - intros Hid. apply orb_true_iff in Ht as [[_ Ht]%has_field_spec|Ht]; [done|].
    by apply bool_decide_eq_true in Ht.
  - intros Hid. apply orb_true_iff in Hsz as [Hsz|Hsz]; [by apply Nat.leb_le|]. by apply Z.eqb_eq in Hsz.
Qed.

Lemma response_spec id s :
  (id, s) ∈ responses ->
  wf_struct s = true /\ (("trace_id" ∈ s.*1) /\ foff s "trace_id" = 0%nat /\ ftype s "trace_id" = UInt) /\
  (("errnum" ∈ s.*1) /\ foff s "errnum" = 4%nat /\ ftype s "errnum" = Int) /\ (sizeof s <= PROXY_MAX_BUF_LEN)%nat.
Proof.
  intros Hin. pose proof responses_ok as H. rewrite forallb_forall in H.
  apply list_elem_of_In, H in Hin. unfold response_ok in Hin. cbn [fst snd] in Hin.
  apply andb_true_iff in Hin as [[[Hwf Ht%has_field_spec]%andb_true_iff He%has_field_spec]%andb_true_iff Hsz].
  by apply Nat.leb_le in Hsz.
Qed.

Lemma message_wf id s : (id, s) ∈ requests ++ responses -> wf_struct s = true.
Proof. intros [Hin|Hin]%elem_of_app; [by apply (request_spec id)|by apply (response_spec id)]. Qed.

(** ** Properties *)

(** The request and response structures of all functions are laid out as C lays them
    out: in every structure each field is aligned for its type and lies inside, two fields
    do not overlap, reading a field gives a value of its type, and storing a value in one
    field gives that value (converted to the field's type) when it is read back and leaves
    every other field alone. *)
Theorem message_fields (id : Z) (s : cstruct) (m : list Z) (f g : string) (v : Z) :
  (id, s) ∈ requests ++ responses -> f ∈ s.*1 -> g ∈ s.*1 -> (sizeof s <= length m)%nat ->
  (foff s f mod calign (ftype s f) = 0)%nat /\ (foff s f + fsize s f <= sizeof s)%nat /\
  (f <> g -> foff s f + fsize s f <= foff s g \/ foff s g + fsize s g <= foff s f)%nat /\
  get (put m s f v) s g = (if decide (f = g) then cast (ftype s f) v else get m s g) /\
  (Forall (fun b => 0 <= b < 256) m -> in_range (ftype s f) (get m s f)).
Proof.
  intros Hin Hf Hg Hl. pose proof (message_wf id s Hin) as Hwf.
  destruct (field_in_struct s f Hwf Hf) as [Ha Hi]. split_and!; [done|done|by apply fields_apart|..].
  - case_decide as E; [subst; by apply get_put_same|by apply get_put_other].
  - intros Hm. apply get_in_range; [done|lia].
Qed.

Lemma message_fields_witness :
  get (put (replicate 16 0) rpc_lseek_resp_t "ret" (-5)) rpc_lseek_resp_t "errnum" = 0 /\
  get (put (replicate 16 0) rpc_lseek_resp_t "ret" (-5)) rpc_lseek_resp_t "ret" = -5.
Proof.
  assert ((LSEEK_ID, rpc_lseek_resp_t) ∈ requests ++ responses) as Hin by (apply elem_of_app; right; repeat (apply list_elem_of_here || apply list_elem_of_further)).
  split.
  - apply (message_fields LSEEK_ID rpc_lseek_resp_t (replicate 16 0) "ret" "errnum" (-5)); [done|set_solver..|by vm_compute].
  - apply (message_fields LSEEK_ID rpc_lseek_resp_t (replicate 16 0) "ret" "ret" (-5)); [done|set_solver..|by vm_compute].
Defined.

(** ** A request that cannot arrive *)

(** A whole [rpc_writev_req_t] is longer than the receive buffer of 2048 bytes. *)
Theorem writev_request_over_buffer : (2048 < sizeof rpc_writev_req_t)%nat.
Proof. vm_compute. lia. Qed.
