(* ===== verification/RpcBackend.v ===== *)
(** * RPC request handlers ([mica/micad/services/rpc/rpc_backend.c])

    One definition per handler: it reads the request buffer, performs the library
    call on behalf of the client OS and sends the reply.  Library calls, [errno]
    and [rpmsg_send] are external calls ([rcall]); [ans] is what a library call
    returns and writes.

    A handler returns [None] when one of its own copies, or the data a library
    call returns, does not fit the array it is stored in.  [stk] is what the stack
    holds at the uninitialised response; log output is not modelled. *)

From S2P Require Import Prelude RpcHelper RpcModel.

(** ** External calls *)

(** A [FILE *]: the server's log file [fp], or a handle made by an earlier
    reply. *)
Inductive rfile := Fp | Handle (h : Z).

Inductive arg :=
| I (z : Z)                (* integer *)
| M (m : list Z)           (* pointer: the memory from there on *)
| F (f : rfile)
| H (hints : list addrinfo)
| NULL.

Inductive rcall :=
| Libc (fn : string) (args : list arg)
| GetErrno
| ClearErrno
| RpmsgSend (msg : list Z)
| Cleanup.  (* [CLEANUP(data)]: [free(data)] in the build with MULTI_WORKERS, otherwise nothing *)

Record ans := Ans {
  a_ret : Z;                       (* return value *)
  a_outs : list (list Z);          (* bytes written through its pointers *)
  a_len : Z;                       (* a value-result length *)
  a_host : option hostent;
  a_addrs : list addrinfo;
  a_names : option (list (Z * list Z));   (* [struct if_nameindex] array *)
  a_stat : option (list Z);        (* the [struct stat] fields copied by [set_stat_buff] *)
}.

Abbreviation rio := (io rcall ans).

Definition out (a : ans) (i : nat) : list Z := nth i (a_outs a) [].

(** Library calls by the C type of their result. *)
Definition libc (fn : string) (args : list arg) : rio ans := call (Libc fn args).
Definition libc_int (fn : string) (args : list arg) : rio Z := r <- libc fn args;; Ret (i32 (a_ret r)).
Definition libc_long (fn : string) (args : list arg) : rio Z := r <- libc fn args;; Ret (i64 (a_ret r)).
Definition libc_ulong (fn : string) (args : list arg) : rio Z := r <- libc fn args;; Ret (u64 (a_ret r)).
Definition libc_uint (fn : string) (args : list arg) : rio Z := r <- libc fn args;; Ret (u32 (a_ret r)).

(** [n] bytes fit the field. *)
Definition fits (s : cstruct) (f : string) (b : list Z) : bool := (length b <=? fsize s f)%nat.
Definition guard (b : bool) (k : rio (option Z)) : rio (option Z) := if b then k else Ret None.

Section backend.
Context (RPMSG_RPC_OK : Z) (stk : list Z).

Definition handler := option (list Z) -> bool -> bool -> rio (option Z).

(** [if (!req || !inst) return -EINVAL]. *)
Definition with_req (data : option (list Z)) (inst : bool) (k : list Z -> rio (option Z)) : rio (option Z) :=
  match data with
  | Some req => if inst then k req else Ret (Some (- EINVAL))
  | None => Ret (Some (- EINVAL))
  end.
(** [if (data == NULL || inst == NULL || priv == NULL) return -EINVAL]. *)
Definition with_req_priv (data : option (list Z)) (inst priv : bool) (k : list Z -> rio (option Z))
    : rio (option Z) :=
  if priv then with_req data inst k else Ret (Some (- EINVAL)).

(** [rpc_X_resp_t resp = {0}]. *)
Definition zeroed (s : cstruct) : list Z := memwrite 0 (replicate (sizeof s) 0) stk.

Definition rpc_server_send (rpc_id status : Z) (request_param : list Z) (param_size : Z) : rio Z :=
  if Z.of_nat PROXY_MAX_BUF_LEN <? param_size then Ret (- EINVAL)
  else libc_ret <- call (RpmsgSend (le_bytes 4 rpc_id ++ le_bytes 4 status ++
                                    take (Z.to_nat param_size) request_param));;
       Ret (i32 (a_ret libc_ret)).

Definition set_rsp_base (resp : list Z) (trace_id : Z) : rio (list Z) :=
  e <- call GetErrno;;
  _ <- call ClearErrno;;
  Ret (memwrite 4 (le_bytes 4 (a_ret e)) (memwrite 0 (le_bytes 4 trace_id) resp)).

(** The result of every handler: [ret > 0 ? 0 : ret]. *)
Definition send_reply (rpc_id : Z) (resp : list Z) (payload_size : Z) : rio (option Z) :=
  ret <- rpc_server_send rpc_id RPMSG_RPC_OK resp payload_size;;
  Ret (Some (if 0 <? ret then 0 else ret)).
(** The end of a handler. *)
Definition reply (rpc_id : Z) (resp : list Z) (payload_size : Z) : rio (option Z) :=
  r <- send_reply rpc_id resp payload_size;;
  _ <- call Cleanup;;
  Ret r.

(** [resp.f = v; set_rsp_base(&resp.super, req->trace_id)] and the reply with the
    whole structure. *)
Definition reply_with (rpc_id : Z) (s : cstruct) (resp : list Z) (f : string) (v trace_id : Z)
    : rio (option Z) :=
  resp <- set_rsp_base (put resp s f v) trace_id;;
  reply rpc_id resp (Z.of_nat (sizeof s)).

Definition STDFILE_BASE : Z := 1.
Definition is_pty_fd (fhandle : Z) : bool :=
  (fhandle =? 1 + STDFILE_BASE) || (fhandle =? 0 + STDFILE_BASE) || (fhandle =? 2 + STDFILE_BASE).
Definition handle2file (fhandle : Z) : rfile :=
  if (fhandle =? 1 + STDFILE_BASE) || (fhandle =? 0 + STDFILE_BASE) || (fhandle =? 2 + STDFILE_BASE)
  then Fp else Handle fhandle.

(** ** Files and descriptors *)

Definition rpmsg_handle_open : handler := fun data inst priv =>
  with_req data inst (fun req =>
    fd <- libc_int "open" [M (from req rpc_open_req_t "buf"); I (get req rpc_open_req_t "flags");
                           I (get req rpc_open_req_t "mode")];;
    reply_with OPEN_ID rpc_open_resp_t stk "ret" fd (get req rpc_open_req_t "trace_id")).

Definition rpmsg_handle_close : handler := fun data inst priv =>
  with_req data inst (fun req =>
    ret <- libc_int "close" [I (get req rpc_close_req_t "fd")];;
    reply_with CLOSE_ID rpc_close_resp_t stk "ret" ret (get req rpc_close_req_t "trace_id")).

Definition rpmsg_handle_read : handler := fun data inst priv =>
  with_req data inst (fun req =>
    let s := rpc_read_resp_t in
    let fd := get req rpc_read_req_t "fd" in
    r <- libc "read" [I fd; I (if fd =? 0 then Z.of_nat MAX_STRING_LEN else get req rpc_read_req_t "count")];;
    guard (fits s "buf" (out r 0))
      (let sret := i64 (a_ret r) in
       let resp := put (put_bytes stk s "buf" (out r 0)) s "ret" sret in
       resp <- set_rsp_base resp (get req rpc_read_req_t "trace_id");;
       let payload_size := Z.of_nat (sizeof s) - Z.of_nat (fsize s "buf") in
       let payload_size := if 0 <? sret then payload_size + sret else payload_size in
       reply READ_ID resp payload_size)).

Definition rpmsg_handle_write : handler := fun data inst priv =>
  with_req data inst (fun req =>
    sret <- libc_long "write" [I (get req rpc_write_req_t "fd"); M (from req rpc_write_req_t "buf");
                               I (get req rpc_write_req_t "count")];;
    reply_with WRITE_ID rpc_write_resp_t stk "ret" sret (get req rpc_write_req_t "trace_id")).

Definition rpmsg_handle_lseek : handler := fun data inst priv =>
  with_req data inst (fun req =>
    off <- libc_long "lseek" [I (get req rpc_lseek_req_t "fd"); I (get req rpc_lseek_req_t "offset");
                              I (get req rpc_lseek_req_t "whence")];;
    reply_with LSEEK_ID rpc_lseek_resp_t stk "ret" off (get req rpc_lseek_req_t "trace_id")).

Definition rpmsg_handle_fcntl : handler := fun data inst priv =>
  with_req data inst (fun req =>
    ret <- libc_int "fcntl" [I (get req rpc_fcntl_req_t "fd"); I (get req rpc_fcntl_req_t "cmd");
                             I (get req rpc_fcntl_req_t "arg")];;
    reply_with FCNTL_ID rpc_fcntl_resp_t stk "ret" ret (get req rpc_fcntl_req_t "trace_id")).

Definition rpmsg_handle_ioctl : handler := fun data inst priv =>
  with_req data inst (fun req =>
    let s := rpc_ioctl_resp_t in
    r <- libc "ioctl" [I (get req rpc_ioctl_req_t "fd"); I (get req rpc_ioctl_req_t "request");
                       M (from req rpc_ioctl_req_t "buf")];;
    guard (fits rpc_ioctl_req_t "buf" (out r 0))
      (let req := put_bytes req rpc_ioctl_req_t "buf" (out r 0) in
       let len := get req rpc_ioctl_req_t "len" in
       let resp := put (put stk s "ret" (i32 (a_ret r))) s "len" len in
       resp <- set_rsp_base resp (get req rpc_ioctl_req_t "trace_id");;
       let payload_size := Z.of_nat (sizeof s) - Z.of_nat (fsize rpc_ioctl_req_t "buf") in
       if 0 <? len
       then guard (len <=? Z.of_nat (fsize s "buf"))
              (reply IOCTL_ID
                 (put_bytes resp s "buf" (take (Z.to_nat len) (from req rpc_ioctl_req_t "buf")))
                 (payload_size + len))
       else reply IOCTL_ID resp payload_size)).

(** The reply carries [IOCTL_ID]. *)
Definition rpmsg_handle_unlink : handler := fun data inst priv =>
  with_req data inst (fun req =>
    ret <- libc_int "unlink" [M (from req rpc_unlink_req_t "buf")];;
    reply_with IOCTL_ID rpc_unlink_resp_t stk "ret" ret (get req rpc_unlink_req_t "trace_id")).

Definition rpmsg_handle_getdents64 : handler := fun data inst priv =>
  with_req data inst (fun req =>
    let s := rpc_getdents64_resp_t in
    let fd := get req rpc_getdents64_req_t "fd" in
    let pos := get req rpc_getdents64_req_t "pos" in
    let buflen := i32 (Z.min (u64 (get req rpc_getdents64_req_t "count")) (Z.of_nat (fsize s "buf"))) in
    let payload_size := Z.of_nat (sizeof s) - Z.of_nat (fsize s "buf") in
    off <- (if pos =? -1 then Ret 0 else libc_long "lseek" [I fd; I pos; I 0]);;
    if off <? 0 then
      let resp := put stk s "ret" (-1) in
      resp <- set_rsp_base resp (get req rpc_getdents64_req_t "trace_id");;
      p <- libc_long "lseek" [I fd; I 0; I 1];;
      reply GETDENTS64_ID (put resp s "pos" p) payload_size
    else
      r <- libc "getdents64" [I fd; I buflen];;
      guard (fits s "buf" (out r 0))
        (let ret := i32 (a_ret r) in
         let resp := put (put_bytes stk s "buf" (out r 0)) s "ret" ret in
         let payload_size := if 0 <? ret then payload_size + ret else payload_size in
         resp <- set_rsp_base resp (get req rpc_getdents64_req_t "trace_id");;
         p <- libc_long "lseek" [I fd; I 0; I 1];;
         reply GETDENTS64_ID (put resp s "pos" p) payload_size)).

(** The fields of [set_stat_buff], in its order. *)
Definition stat_fields : list string :=
  ["st_dev"; "st_ino"; "st_nlink"; "st_mode"; "st_uid"; "st_gid"; "st_rdev"; "st_size"; "st_blksize";
   "st_blocks"; "st_atime_sec"; "st_atime_nsec"; "st_mtime_sec"; "st_mtime_nsec"; "st_ctime_sec";
   "st_ctime_nsec"].
(** [statbuff] starts zeroed. *)
Definition set_stat_buff (resp : list Z) (statbuff : option (list Z)) : list Z :=
  foldl (fun resp fv => put resp rpc_stat_resp_t fv.1 fv.2) resp
    (combine stat_fields (default (replicate 16 0) statbuff)).

Definition stat_reply (rpc_id : Z) (r : ans) (trace_id : Z) : rio (option Z) :=
  let resp := set_stat_buff (put stk rpc_stat_resp_t "ret" (i32 (a_ret r))) (a_stat r) in
  resp <- set_rsp_base resp trace_id;;
  reply rpc_id resp (Z.of_nat (sizeof rpc_stat_resp_t)).

Definition rpmsg_handle_stat : handler := fun data inst priv =>
  with_req data inst (fun req =>
    r <- libc "stat" [M (from req rpc_stat_req_t "path")];;
    stat_reply STAT_ID r (get req rpc_stat_req_t "trace_id")).

Definition rpmsg_handle_lstat : handler := fun data inst priv =>
  with_req data inst (fun req =>
    r <- libc "lstat" [M (from req rpc_stat_req_t "path")];;
    stat_reply LSTAT_ID r (get req rpc_stat_req_t "trace_id")).

Definition rpmsg_handle_fstat : handler := fun data inst priv =>
  with_req data inst (fun req =>
    r <- libc "fstat" [I (get req rpc_fstat_req_t "fd")];;
    stat_reply FSTAT_ID r (get req rpc_fstat_req_t "trace_id")).

Definition rpmsg_handle_getcwd : handler := fun data inst priv =>
  with_req data inst (fun req =>
    let s := rpc_getcwd_resp_t in
    let size := get req rpc_getcwd_req_t "size" in
    if Z.of_nat (fsize s "buf") <? size then Ret (Some (- EINVAL))
    else
      r <- libc "getcwd" [I size];;
      guard (fits s "buf" (out r 0))
        (let resp := put (put_bytes stk s "buf" (out r 0)) s "isNull"
                       (if u64 (a_ret r) =? 0 then 1 else 0) in
         resp <- set_rsp_base resp (get req rpc_getcwd_req_t "trace_id");;
         reply GETCWD_ID resp (Z.of_nat (sizeof s) - Z.of_nat (fsize s "buf") + size))).

Definition rpmsg_handle_readlink : handler := fun data inst priv =>
  with_req data inst (fun req =>
    let s := rpc_readlink_resp_t in
    r <- libc "readlink" [M (from req rpc_readlink_req_t "pathname");
                          I (Z.min (Z.of_nat (fsize s "buf")) (get req rpc_readlink_req_t "bufsiz"))];;
    guard (fits s "buf" (out r 0))
      (let sret := i64 (a_ret r) in
       let resp := put (put_bytes stk s "buf" (out r 0)) s "ret" sret in
       resp <- set_rsp_base resp (get req rpc_readlink_req_t "trace_id");;
       let payload_size := Z.of_nat (sizeof s) - Z.of_nat (fsize s "buf") in
       let payload_size := if 0 <? sret then payload_size + sret else payload_size in
       reply READLINK_ID resp payload_size)).

Definition rpmsg_handle_system : handler := fun data inst priv =>
  with_req data inst (fun req =>
    ret <- libc_int "system" [M (from req rpc_system_req_t "buf")];;
    reply_with SYSTEM_ID rpc_system_resp_t stk "ret" ret (get req rpc_system_req_t "trace_id")).

Definition rpmsg_handle_access : handler := fun data inst priv =>
  with_req data inst (fun req =>
    ret <- libc_int "access" [M (from req rpc_access_req_t "pathname"); I (get req rpc_access_req_t "mode")];;
    reply_with ACCESS_ID rpc_access_resp_t stk "ret" ret (get req rpc_access_req_t "trace_id")).

Definition rpmsg_handle_dup2 : handler := fun data inst priv =>
  with_req data inst (fun req =>
    ret <- libc_int "dup2" [I (get req rpc_dup2_req_t "oldfd"); I (get req rpc_dup2_req_t "newfd")];;
    reply_with DUP2_ID rpc_dup2_resp_t stk "ret" ret (get req rpc_dup2_req_t "trace_id")).

Definition rpmsg_handle_mkfifo : handler := fun data inst priv =>
  with_req data inst (fun req =>
    ret <- libc_int "mkfifo" [M (from req rpc_mkfifo_req_t "pathname"); I (get req rpc_mkfifo_req_t "mode")];;
    reply_with MKFIFO_ID rpc_mkfifo_resp_t stk "ret" ret (get req rpc_mkfifo_req_t "trace_id")).

Definition rpmsg_handle_chmod : handler := fun data inst priv =>
  with_req data inst (fun req =>
    ret <- libc_int "chmod" [M (from req rpc_chmod_req_t "pathname"); I (get req rpc_chmod_req_t "mode")];;
    reply_with CHMOD_ID rpc_chmod_resp_t stk "ret" ret (get req rpc_chmod_req_t "trace_id")).

Definition rpmsg_handle_chdir : handler := fun data inst priv =>
  with_req data inst (fun req =>
    ret <- libc_int "chdir" [M (from req rpc_chdir_req_t "buf")];;
    reply_with CHDIR_ID rpc_chdir_resp_t stk "ret" ret (get req rpc_chdir_req_t "trace_id")).

Definition rpmsg_handle_mkdir : handler := fun data inst priv =>
  with_req data inst (fun req =>
    ret <- libc_int "mkdir" [M (from req rpc_mkdir_req_t "pathname"); I (get req rpc_mkdir_req_t "mode")];;
    reply_with MKDIR_ID rpc_mkdir_resp_t stk "ret" ret (get req rpc_mkdir_req_t "trace_id")).

Definition rpmsg_handle_rmdir : handler := fun data inst priv =>
  with_req data inst (fun req =>
    ret <- libc_int "rmdir" [M (from req rpc_rmdir_req_t "buf")];;
    reply_with RMDIR_ID rpc_rmdir_resp_t stk "ret" ret (get req rpc_rmdir_req_t "trace_id")).

Definition rpmsg_handle_pipe : handler := fun data inst priv =>
  with_req data inst (fun req =>
    r <- libc "pipe" [];;
    guard (fits rpc_pipe_resp_t "fd" (out r 0))
      (reply_with PIPE_ID rpc_pipe_resp_t (put_bytes stk rpc_pipe_resp_t "fd" (out r 0)) "ret"
         (i32 (a_ret r)) (get req rpc_pipe_req_t "trace_id"))).

(** ** Name resolution *)

(** Unused: no reply. *)
Definition rpmsg_handle_freeaddrinfo : handler := fun data inst priv => Ret (Some 0).

(** The argument at [req->buf + idx]; [None] before the start of the request. *)
Definition buf_at (req : list Z) (idx : Z) : option (list Z) :=
  let off := Z.of_nat (foff rpc_getaddrinfo_req_t "buf") + idx in
  if off <? 0 then None else Some (drop (Z.to_nat off) req).

Definition getaddrinfo_response (req resp : list Z) (ret payload_size : Z) : rio (option Z) :=
  resp <- set_rsp_base (put resp rpc_getaddrinfo_resp_t "ret" ret) (get req rpc_getaddrinfo_req_t "trace_id");;
  reply GETADDRINFO_ID resp payload_size.

(** The call and the encoding of its result (lines 660-676). *)
Definition getaddrinfo_call (req : list Z) (node service hints : arg) : rio (option Z) :=
  let s := rpc_getaddrinfo_resp_t in
  r <- libc "getaddrinfo" [node; service; hints];;
  let ret := i32 (a_ret r) in
  if ret <? 0 then getaddrinfo_response req stk ret (Z.of_nat (sizeof s))
  else
    let payload_size := Z.of_nat (sizeof s) - Z.of_nat (fsize s "buf") in
    match a_addrs r with
    | [] => getaddrinfo_response req (put (put stk s "cnt" 0) s "buflen" 0) ret payload_size
    | addrs =>
        let '(cnt, buf, buflen) :=
          encode_addrlist addrs (Some (bytes stk s "buf")) (Some (Z.of_nat (fsize s "buf"))) in
        let buflen := default 0 buflen in
        let resp := put_bytes stk s "buf" (default [] buf) in
        getaddrinfo_response req (put (put resp s "cnt" cnt) s "buflen" buflen) ret
          (u64 (payload_size + buflen))
    end.

Definition rpmsg_handle_getaddrinfo : handler := fun data inst priv =>
  with_req data inst (fun req =>
    let s := rpc_getaddrinfo_req_t in
    let node := get req s "node" in
    let service := get req s "service" in
    let buflen := get req s "buflen" in
    if (buflen <=? node) || (buflen <=? service) then Ret (Some (- EINVAL))
    else
      let hints :=
        if 0 <? get req s "hints_cnt"
        then match decode_addrlist (from req s "buf") (get req s "hints_cnt") (Z.of_nat (fsize s "buf")) with
             | DecOk l => DecOk (H l)
             | DecErr e => DecErr e
             | DecOOB => DecOOB
             end
        else DecOk NULL in
      match hints with
      | DecOOB => Ret None
      | DecErr e => getaddrinfo_response req stk e (Z.of_nat (sizeof rpc_getaddrinfo_resp_t))
      | DecOk hints =>
          match (if node <? service then M <$> buf_at req node else Some NULL),
                (if service <? buflen then M <$> buf_at req service else Some NULL) with
          | Some n, Some sv => getaddrinfo_call req n sv hints
          | _, _ => Ret None
          end
      end).

Definition hostent_reply (rpc_id : Z) (r : ans) (trace_id : Z) : rio (option Z) :=
  let s := rpc_gethostbyaddr_resp_t in
  let payload_size := Z.of_nat (sizeof s) - Z.of_nat (fsize s "buf") in
  resp <- set_rsp_base stk trace_id;;
  match a_host r with
  | None => reply rpc_id (put resp s "len" 0) payload_size
  | Some ht =>
      let '(len, buf) := encode_hostent (Some ht) (Some (bytes resp s "buf")) (Z.of_nat (fsize s "buf")) in
      let resp := put (put_bytes resp s "buf" (default [] buf)) s "len" len in
      reply rpc_id resp (if 0 <=? len then payload_size + len else payload_size)
  end.

Definition rpmsg_handle_gethostbyaddr : handler := fun data inst priv =>
  with_req data inst (fun req =>
    r <- libc "gethostbyaddr" [M (from req rpc_gethostbyaddr_req_t "buf");
                               I (get req rpc_gethostbyaddr_req_t "len");
                               I (get req rpc_gethostbyaddr_req_t "type")];;
    hostent_reply GETHOSTBYADDR_ID r (get req rpc_gethostbyaddr_req_t "trace_id")).

Definition rpmsg_handle_gethostbyname : handler := fun data inst priv =>
  with_req data inst (fun req =>
    r <- libc "gethostbyname" [M (from req rpc_gethostbyname_req_t "buf")];;
    hostent_reply GETHOSTBYNAME_ID r (get req rpc_gethostbyname_req_t "trace_id")).

Definition rpmsg_handle_gethostname : handler := fun data inst priv =>
  with_req data inst (fun req =>
    let s := rpc_gethostname_resp_t in
    let len := get req rpc_gethostname_req_t "len" in
    let len := if Z.of_nat MAX_STRING_LEN <? len then Z.of_nat MAX_STRING_LEN else len in
    r <- libc "gethostname" [I len];;
    guard (fits s "name" (out r 0))
      (let ret := i32 (a_ret r) in
       let resp := put_bytes stk s "name" (out r 0) in
       let payload_size := Z.of_nat (sizeof s) - Z.of_nat (fsize s "name") in
       match (if ret =? 0 then (fun n => Z.of_nat (length n) + 1) <$> cstr (from resp s "name") else Some 0) with
       | None => Ret None
       | Some rlen =>
           let resp := put (put resp s "len" rlen) s "ret" ret in
           resp <- set_rsp_base resp (get req rpc_gethostname_req_t "trace_id");;
           reply GETHOSTNAME_ID resp (payload_size + rlen)
       end)).

Definition rpmsg_handle_gaistrerror : handler := fun data inst priv =>
  with_req data inst (fun req =>
    let s := rpc_gai_strerror_resp_t in
    r <- libc "gai_strerror" [I (get req rpc_gai_strerror_req_t "error")];;
    if u64 (a_ret r) =? 0
    then reply_with GAISTRERROR_ID s stk "isNull" 1 (get req rpc_gai_strerror_req_t "trace_id")
    else guard (fits s "buf" (out r 0 ++ [0]))
           (reply_with GAISTRERROR_ID s (put_bytes stk s "buf" (out r 0 ++ [0])) "isNull" 0
              (get req rpc_gai_strerror_req_t "trace_id"))).

(** The loop of [rpmsg_handle_ifnameindex] (lines 2464-2468). *)
Fixpoint copy_names (names : list (Z * list Z)) (cnt : nat) (arr : list Z) : option (list Z * nat) :=
  match names with
  | [] => Some (arr, cnt)
  | (idx, name) :: names =>
      if (MAX_IFNAMEINDEX_SIZE <=? cnt)%nat || negb (fits t_nameindex "if_name" (name ++ [0])) then None
      else
        let e := put_bytes (put (take (sizeof t_nameindex) (drop (cnt * sizeof t_nameindex) arr))
                              t_nameindex "if_index" idx) t_nameindex "if_name" (name ++ [0]) in
        copy_names names (S cnt) (memwrite (cnt * sizeof t_nameindex) e arr)
  end.

Definition rpmsg_handle_ifnameindex : handler := fun data inst priv =>
  with_req data inst (fun req =>
    let s := rpc_if_nameindex_resp_t in
    r <- libc "if_nameindex" [];;
    match copy_names (default [] (a_names r)) 0 (bytes stk s "if_index") with
    | None => Ret None
    | Some (arr, cnt) =>
        resp <- set_rsp_base (put (put_bytes stk s "if_index" arr) s "cnt" (Z.of_nat cnt))
                  (get req rpc_if_nameindex_req_t "trace_id");;
        ret <- send_reply IFNAMEINDEX_ID resp (Z.of_nat (sizeof s));;
        _ <- libc "if_freenameindex" [];;
        _ <- call Cleanup;;
        Ret ret
    end).

(** ** Sockets *)

(** [getpeername] and [getsockname] (same request and response types). *)
Definition sockname_reply (fn : string) (rpc_id : Z) (req : list Z) : rio (option Z) :=
  let q := rpc_getpeername_req_t in
  let s := rpc_getpeername_resp_t in
  r <- libc fn [I (get req q "sockfd"); I (get req q "addrlen")];;
  guard (fits q "addr_buf" (out r 0))
    (let req := put (put_bytes req q "addr_buf" (out r 0)) q "addrlen" (u32 (a_len r)) in
     let addrlen := get req q "addrlen" in
     let payload_size := Z.of_nat (sizeof s) - Z.of_nat (fsize s "addr_buf") in
     resp <- set_rsp_base (put stk s "ret" (i32 (a_ret r))) (get req q "trace_id");;
     if 0 <? addrlen
     then guard (addrlen <=? Z.of_nat (fsize s "addr_buf"))
            (reply rpc_id
               (put (put_bytes resp s "addr_buf" (take (Z.to_nat addrlen) (from req q "addr_buf"))) s
                  "addrlen" addrlen)
               (payload_size + addrlen))
     else reply rpc_id (put resp s "addrlen" addrlen) payload_size).

Definition rpmsg_handle_getpeername : handler := fun data inst priv =>
  with_req data inst (sockname_reply "getpeername" GETPEERNAME_ID).

Definition rpmsg_handle_getsockname : handler := fun data inst priv =>
  with_req data inst (sockname_reply "getsockname" GETSOCKNAME_ID).

(** [payload_size -= sizeof(resp.addrlen)] keeps the whole of [resp.buf] in the
    payload, to which the address length is added again. *)
Definition accept_reply (rpc_id : Z) (q s : cstruct) (req : list Z) (r : ans) : rio (option Z) :=
  guard (negb (0 <? get req q "addrlen") || fits q "addr_buf" (out r 0))
    (let req := if 0 <? get req q "addrlen"
                then put (put_bytes req q "addr_buf" (out r 0)) q "addrlen" (u32 (a_len r)) else req in
     let addrlen := get req q "addrlen" in
     resp <- set_rsp_base (put stk s "ret" (i32 (a_ret r))) (get req q "trace_id");;
     let resp := put resp s "addrlen" addrlen in
     let payload_size := Z.of_nat (sizeof s) - Z.of_nat (fsize s "addrlen") in
     if 0 <? addrlen
     then guard (addrlen <=? Z.of_nat (fsize s "buf"))
            (reply rpc_id (put_bytes resp s "buf" (take (Z.to_nat addrlen) (from req q "addr_buf")))
               (payload_size + addrlen))
     else reply rpc_id resp payload_size).

Definition rpmsg_handle_accept : handler := fun data inst priv =>
  with_req data inst (fun req =>
    let q := rpc_accept_req_t in
    r <- libc "accept" (I (get req q "sockfd") ::
           (if 0 <? get req q "addrlen" then [I (get req q "addrlen")] else [NULL; NULL]));;
    accept_reply ACCEPT_ID q rpc_accept_resp_t req r).

Definition rpmsg_handle_accept4 : handler := fun data inst priv =>
  with_req data inst (fun req =>
    let q := rpc_accept4_req_t in
    r <- libc "accept4" (I (get req q "sockfd") ::
           (if 0 <? get req q "addrlen" then [I (get req q "addrlen")] else [NULL; NULL]) ++
           [I (get req q "flags")]);;
    accept_reply ACCEPT4_ID q rpc_accept4_resp_t req r).

Definition rpmsg_handle_bind : handler := fun data inst priv =>
  with_req data inst (fun req =>
    ret <- libc_int "bind" [I (get req rpc_bind_req_t "sockfd"); M (from req rpc_bind_req_t "addr_buf");
                            I (get req rpc_bind_req_t "addrlen")];;
    reply_with BIND_ID rpc_bind_resp_t stk "ret" ret (get req rpc_bind_req_t "trace_id")).

Definition rpmsg_handle_connect : handler := fun data inst priv =>
  with_req data inst (fun req =>
    ret <- libc_int "connect" [I (get req rpc_connect_req_t "sockfd"); M (from req rpc_connect_req_t "addr_buf");
                               I (get req rpc_connect_req_t "addrlen")];;
    reply_with CONNECT_ID rpc_connect_resp_t stk "ret" ret (get req rpc_connect_req_t "trace_id")).

Definition rpmsg_handle_listen : handler := fun data inst priv =>
  with_req data inst (fun req =>
    ret <- libc_int "listen" [I (get req rpc_listen_req_t "sockfd"); I (get req rpc_listen_req_t "backlog")];;
    reply_with LISTEN_ID rpc_listen_resp_t stk "ret" ret (get req rpc_listen_req_t "trace_id")).

Definition rpmsg_handle_recv : handler := fun data inst priv =>
  with_req data inst (fun req =>
    let s := rpc_recv_resp_t in
    r <- libc "recv" [I (get req rpc_recv_req_t "fd"); I (get req rpc_recv_req_t "len");
                      I (get req rpc_recv_req_t "flags")];;
    guard (fits s "buf" (out r 0))
      (let sret := i64 (a_ret r) in
       let resp := put (put_bytes stk s "buf" (out r 0)) s "ret" sret in
       resp <- set_rsp_base resp (get req rpc_recv_req_t "trace_id");;
       let payload_size := Z.of_nat (sizeof s) - Z.of_nat (fsize s "buf") in
       reply RECV_ID resp (if 0 <? sret then payload_size + sret else payload_size))).

Definition rpmsg_handle_recvfrom : handler := fun data inst priv =>
  with_req data inst (fun req =>
    let q := rpc_recvfrom_req_t in
    let s := rpc_recvfrom_resp_t in
    let len := i32 (Z.min (Z.of_nat (fsize s "buf")) (get req q "len")) in
    r <- libc "recvfrom" [I (get req q "fd"); I len; I (get req q "flags"); I (get req q "addrlen")];;
    guard (fits s "buf" (out r 0) && fits q "buf" (out r 1))
      (let sret := i64 (a_ret r) in
       let req := put (put_bytes req q "buf" (out r 1)) q "addrlen" (u32 (a_len r)) in
       let addrlen := get req q "addrlen" in
       let resp := put (put_bytes stk s "buf" (out r 0)) s "ret" sret in
       resp <- set_rsp_base resp (get req q "trace_id");;
       let resp := put resp s "addrlen" addrlen in
       let payload_size := Z.of_nat (sizeof s) - Z.of_nat (fsize s "buf") in
       if Z.of_nat (fsize s "addr") <? addrlen
       then reply RECVFROM_ID (put resp s "ret" (- RPC_EOVERLONG)) payload_size
       else
         guard (negb (0 <? addrlen) || (addrlen <=? Z.of_nat (fsize s "addr")))
           (let resp := if 0 <? addrlen
                        then put_bytes resp s "addr" (take (Z.to_nat addrlen) (from req q "buf")) else resp in
            reply RECVFROM_ID resp (if 0 <? sret then payload_size + sret else payload_size)))).

Definition rpmsg_handle_send : handler := fun data inst priv =>
  with_req data inst (fun req =>
    sret <- libc_long "send" [I (get req rpc_send_req_t "fd"); M (from req rpc_send_req_t "buf");
                              I (get req rpc_send_req_t "len"); I (get req rpc_send_req_t "flags")];;
    reply_with SEND_ID rpc_send_resp_t stk "ret" sret (get req rpc_send_req_t "trace_id")).

Definition rpmsg_handle_sendto : handler := fun data inst priv =>
  with_req data inst (fun req =>
    let q := rpc_sendto_req_t in
    sret <- libc_long "sendto" [I (get req q "fd"); M (drop (Z.to_nat (get req q "addrlen")) (from req q "buf"));
                                I (get req q "len"); I (get req q "flags"); M (from req q "buf");
                                I (get req q "addrlen")];;
    reply_with SENDTO_ID rpc_sendto_resp_t stk "ret" sret (get req q "trace_id")).

Definition rpmsg_handle_setsockopt : handler := fun data inst priv =>
  with_req data inst (fun req =>
    let q := rpc_setsockopt_req_t in
    ret <- libc_int "setsockopt" [I (get req q "fd"); I (get req q "level"); I (get req q "optname");
                                  M (from req q "optval"); I (get req q "optlen")];;
    reply_with SETSOCKOPT_ID rpc_setsockopt_resp_t stk "ret" ret (get req q "trace_id")).

Definition rpmsg_handle_getsockopt : handler := fun data inst priv =>
  with_req data inst (fun req =>
    let q := rpc_getsockopt_req_t in
    let s := rpc_getsockopt_resp_t in
    r <- libc "getsockopt" [I (get req q "sockfd"); I (get req q "level"); I (get req q "optname");
                            I (get req q "optlen")];;
    guard (fits s "optval" (out r 0))
      (let optlen := u32 (a_len r) in
       let payload_size := Z.of_nat (sizeof s) - Z.of_nat (fsize s "optval") in
       let '(ret, payload_size) :=
         if Z.of_nat (fsize s "optval") <? optlen then (- RPC_EOVERLONG, payload_size)
         else (i32 (a_ret r), payload_size + optlen) in
       let resp := put (put (put_bytes stk s "optval" (out r 0)) s "ret" ret) s "optlen" optlen in
       resp <- set_rsp_base resp (get req q "trace_id");;
       reply GETSOCKOPT_ID resp payload_size)).

Definition rpmsg_handle_shutdown : handler := fun data inst priv =>
  with_req data inst (fun req =>
    ret <- libc_int "shutdown" [I (get req rpc_shutdown_req_t "fd"); I (get req rpc_shutdown_req_t "how")];;
    reply_with SHUTDOWN_ID rpc_shutdown_resp_t stk "ret" ret (get req rpc_shutdown_req_t "trace_id")).

Definition rpmsg_handle_socket : handler := fun data inst priv =>
  with_req data inst (fun req =>
    ret <- libc_int "socket" [I (get req rpc_socket_req_t "domain"); I (get req rpc_socket_req_t "type");
                              I (get req rpc_socket_req_t "protocol")];;
    reply_with SOCKET_ID rpc_socket_resp_t stk "ret" ret (get req rpc_socket_req_t "trace_id")).

Definition rpmsg_handle_poll : handler := fun data inst priv =>
  with_req data inst (fun req =>
    let q := rpc_poll_req_t in
    let s := rpc_poll_resp_t in
    r <- libc "poll" [M (from req q "fds"); I (get req q "nfds"); I (get req q "timeout")];;
    guard (fits q "fds" (out r 0))
      (let req := put_bytes req q "fds" (out r 0) in
       resp <- set_rsp_base (put stk s "ret" (i32 (a_ret r))) (get req q "trace_id");;
       let n := u64 (8 * get req q "nfds") in
       guard (n <=? Z.of_nat (fsize s "fds"))
         (reply POLL_ID (put_bytes resp s "fds" (take (Z.to_nat n) (from req q "fds")))
            (Z.of_nat (sizeof s))))).

(** [select] writes back through the pointers that are not NULL. *)
Definition select_arg (req : list Z) (flag f : string) : arg :=
  if get req rpc_select_req_t flag =? 0 then NULL else M (from req rpc_select_req_t f).
Definition select_out (req : list Z) (flag f : string) (b : list Z) : list Z :=
  if get req rpc_select_req_t flag =? 0 then req
  else put_bytes req rpc_select_req_t f (take (fsize rpc_select_req_t f) b).

Definition rpmsg_handle_select : handler := fun data inst priv =>
  with_req data inst (fun req =>
    let q := rpc_select_req_t in
    let s := rpc_select_resp_t in
    r <- libc "select" [I (get req q "nfds"); select_arg req "is_readfds_not_null" "readfds";
                        select_arg req "is_writefds_not_null" "writefds";
                        select_arg req "is_exceptfds_not_null" "exceptfds";
                        select_arg req "is_timeout_not_null" "timeout"];;
    let req := select_out req "is_readfds_not_null" "readfds" (out r 0) in
    let req := select_out req "is_writefds_not_null" "writefds" (out r 1) in
    let req := select_out req "is_exceptfds_not_null" "exceptfds" (out r 2) in
    let req := select_out req "is_timeout_not_null" "timeout" (out r 3) in
    resp <- set_rsp_base (put stk s "ret" (i32 (a_ret r))) (get req q "trace_id");;
    let resp := put_bytes resp s "readfds" (bytes req q "readfds") in
    let resp := put_bytes resp s "writefds" (bytes req q "writefds") in
    let resp := put_bytes resp s "exceptfds" (bytes req q "exceptfds") in
    let resp := put_bytes resp s "timeout" (bytes req q "timeout") in
    reply SELECT_ID resp (Z.of_nat (sizeof s))).

(** The copy loop of [rpmsg_handle_writev] (lines 2573-2577): each segment goes to
    a block of [MAX_IOV_SIZE] bytes.  The first segment is at [i]. *)
Fixpoint copy_iov (req : list Z) (i todo : nat) : option (list (list Z)) :=
  match todo with
  | O => Some []
  | S todo =>
      let e := drop (i * sizeof rpc_iovbuf) (from req rpc_writev_req_t "buf") in
      let len := get e rpc_iovbuf "len" in
      if Z.of_nat MAX_IOV_SIZE <? len then None
      else cons (take (Z.to_nat len) (from e rpc_iovbuf "iov")) <$> copy_iov req (S i) todo
  end.

Definition rpmsg_handle_writev : handler := fun data inst priv =>
  with_req data inst (fun req =>
    let q := rpc_writev_req_t in
    let iovcnt := get req q "iovcnt" in
    if (iovcnt <? 0) || (Z.of_nat MAX_IOV_SIZE <? iovcnt) then Ret None
    else
      match copy_iov req 0 (Z.to_nat iovcnt) with
      | None => Ret None
      | Some iov =>
          ret <- libc_int "writev" (I (get req q "fd") :: map M iov);;
          reply_with WRITEV_ID rpc_writev_resp_t stk "ret" ret (get req q "trace_id")
      end).

(** ** Standard I/O *)

(** [rpc_write]: the translation loop (lines 1252-1258) over the remaining bytes;
    [msg] is the array of [len * 2 + 1] bytes, which starts uninitialised. *)
Definition rpc_write_loop (data : list Z) (i j : nat) (msg : list Z) : nat * nat * list Z :=
  crlf_fill data i j msg.
(** What [fwrite] is given. *)
Definition rpc_write_msg (data : list Z) (msg : list Z) : list Z :=
  let '(i, j, msg) := rpc_write_loop data 0 0 msg in
  let msg := memwrite (i + j) [0] msg in
  take (i + j) msg.
(** [fwrite] returns a [size_t] that is kept in an [int]. *)
Definition rpc_write (data : list Z) (len : nat) : rio Z :=
  let msg := rpc_write_msg (take len data) (replicate (len * 2 + 1) 0) in
  r <- libc_int "fwrite" [M msg; I 1; I (Z.of_nat (length msg)); F Fp];;
  _ <- libc "fflush" [F Fp];;
  Ret (if r <? 0 then r else 0).

(** [MIN(sizeof(req->buf), req->len)], compared as [size_t]. *)
Definition print_len (s : cstruct) (len : Z) : nat := Z.to_nat (Z.min (Z.of_nat (fsize s "buf")) (u64 len)).

Definition rpmsg_handle_printf : handler := fun data inst priv =>
  with_req data inst (fun req =>
    ret <- rpc_write (from req rpc_printf_req_t "buf")
             (print_len rpc_printf_req_t (get req rpc_printf_req_t "len"));;
    Ret (Some (if 0 <? ret then 0 else ret))).

Definition rpmsg_handle_fprintf : handler := fun data inst priv =>
  with_req_priv data inst priv (fun req =>
    let q := rpc_fprintf_req_t in
    ret <- (if is_pty_fd (get req q "fhandle")
            then rpc_write (from req q "buf") (print_len q (get req q "len"))
            else libc_int "fwrite" [M (from req q "buf"); I 1; I (u64 (get req q "len"));
                                    F (Handle (get req q "fhandle"))]);;
    _ <- call Cleanup;;
    Ret (Some (if 0 <? ret then 0 else ret))).

Definition rpmsg_handle_fopen : handler := fun data inst priv =>
  with_req_priv data inst priv (fun req =>
    let q := rpc_fopen_req_t in
    ret <- libc_ulong "fopen" [M (from req q "filename"); M (from req q "mode")];;
    reply_with FOPEN_ID rpc_fcommon_resp_t (zeroed rpc_fcommon_resp_t) "fhandle" ret (get req q "trace_id")).

Definition rpmsg_handle_fclose : handler := fun data inst priv =>
  with_req_priv data inst priv (fun req =>
    let q := rpc_fclose_req_t in
    ret <- libc_int "fclose" [F (handle2file (get req q "fhandle"))];;
    reply_with FCLOSE_ID rpc_common_resp_t (zeroed rpc_common_resp_t) "ret" ret (get req q "trace_id")).

Definition rpmsg_handle_fread : handler := fun data inst priv =>
  with_req_priv data inst priv (fun req =>
    let q := rpc_fread_req_t in
    let s := rpc_fread_resp_t in
    r <- libc "fread" [I (get req q "size"); I (get req q "count"); F (handle2file (get req q "fhandle"))];;
    guard (fits s "buf" (out r 0))
      (let sz := u64 (a_ret r) in
       let payload_size := u64 (Z.of_nat (sizeof s) - Z.of_nat (fsize s "buf") + sz) in
       let resp := put (put_bytes (zeroed s) s "buf" (out r 0)) s "ret" sz in
       resp <- set_rsp_base resp (get req q "trace_id");;
       reply FREAD_ID resp payload_size)).

Definition rpmsg_handle_fwrite : handler := fun data inst priv =>
  with_req_priv data inst priv (fun req =>
    let q := rpc_fwrite_req_t in
    ret <- libc_ulong "fwrite" [M (from req q "buf"); I (get req q "size"); I (get req q "count");
                              F (handle2file (get req q "fhandle"))];;
    reply_with FWRITE_ID rpc_fwrite_resp_t (zeroed rpc_fwrite_resp_t) "ret" ret (get req q "trace_id")).

Definition rpmsg_handle_freopen : handler := fun data inst priv =>
  with_req_priv data inst priv (fun req =>
    let q := rpc_freopen_req_t in
    ret <- libc_ulong "freopen" [M (from req q "filename"); M (from req q "mode");
                               F (handle2file (get req q "fhandle"))];;
    reply_with FREOPEN_ID rpc_fcommon_resp_t (zeroed rpc_fcommon_resp_t) "fhandle" ret (get req q "trace_id")).

Definition rpmsg_handle_fputs : handler := fun data inst priv =>
  with_req_priv data inst priv (fun req =>
    let q := rpc_fputs_req_t in
    ret <- libc_int "fputs" [M (from req q "str"); F (handle2file (get req q "fhandle"))];;
    reply_with FPUTS_ID rpc_common_resp_t (zeroed rpc_common_resp_t) "ret" ret (get req q "trace_id")).

Definition rpmsg_handle_fgets : handler := fun data inst priv =>
  with_req_priv data inst priv (fun req =>
    let q := rpc_fgets_req_t in
    let s := rpc_fgets_resp_t in
    r <- libc "fgets" [I (get req q "size"); F (handle2file (get req q "fhandle"))];;
    guard (fits s "str" (out r 0))
      (reply_with FGETS_ID s (put_bytes (zeroed s) s "str" (out r 0)) "isEof"
         (if u64 (a_ret r) =? 0 then 1 else 0) (get req q "trace_id"))).

Definition rpmsg_handle_feof : handler := fun data inst priv =>
  with_req_priv data inst priv (fun req =>
    let q := rpc_feof_req_t in
    ret <- libc_int "feof" [F (handle2file (get req q "fhandle"))];;
    reply_with FEOF_ID rpc_common_resp_t (zeroed rpc_common_resp_t) "ret" ret (get req q "trace_id")).

Definition rpmsg_handle_getc : handler := fun data inst priv =>
  with_req_priv data inst priv (fun req =>
    let q := rpc_getc_req_t in
    ret <- libc_int "getc" [F (handle2file (get req q "fhandle"))];;
    reply_with GETC_ID rpc_common_resp_t (zeroed rpc_common_resp_t) "ret" ret (get req q "trace_id")).

Definition rpmsg_handle_ferror : handler := fun data inst priv =>
  with_req_priv data inst priv (fun req =>
    let q := rpc_ferror_req_t in
    ret <- libc_int "ferror" [F (handle2file (get req q "fhandle"))];;
    reply_with FERROR_ID rpc_common_resp_t (zeroed rpc_common_resp_t) "ret" ret (get req q "trace_id")).

Definition rpmsg_handle_getc_unlocked : handler := fun data inst priv =>
  with_req_priv data inst priv (fun req =>
    let q := rpc_getc_unlocked_req_t in
    ret <- libc_int "getc_unlocked" [F (handle2file (get req q "fhandle"))];;
    reply_with GETC_UNLOCK_ID rpc_common_resp_t (zeroed rpc_common_resp_t) "ret" ret (get req q "trace_id")).

Definition rpmsg_handle_pclose : handler := fun data inst priv =>
  with_req_priv data inst priv (fun req =>
    let q := rpc_pclose_req_t in
    ret <- libc_int "pclose" [F (handle2file (get req q "fhandle"))];;
    reply_with PCLOSE_ID rpc_common_resp_t (zeroed rpc_common_resp_t) "ret" ret (get req q "trace_id")).

Definition rpmsg_handle_tmpfile : handler := fun data inst priv =>
  with_req_priv data inst priv (fun req =>
    let q := rpc_tmpfile_req_t in
    ret <- libc_ulong "tmpfile" [];;
    reply_with TMPFILE_ID rpc_fcommon_resp_t (zeroed rpc_fcommon_resp_t) "fhandle" ret (get req q "trace_id")).

Definition rpmsg_handle_clearerr : handler := fun data inst priv =>
  with_req_priv data inst priv (fun req =>
    let q := rpc_clearerr_req_t in
    _ <- libc "clearerr" [F (handle2file (get req q "fhandle"))];;
    _ <- call Cleanup;;
    Ret (Some 0)).

Definition rpmsg_handle_popen : handler := fun data inst priv =>
  with_req_priv data inst priv (fun req =>
    let q := rpc_popen_req_t in
    ret <- libc_ulong "popen" [M (from req q "cmd"); M (from req q "mode")];;
    reply_with POPEN_ID rpc_fcommon_resp_t (zeroed rpc_fcommon_resp_t) "fhandle" ret (get req q "trace_id")).

Definition rpmsg_handle_ungetc : handler := fun data inst priv =>
  with_req_priv data inst priv (fun req =>
    let q := rpc_ungetc_req_t in
    ret <- libc_int "ungetc" [I (get req q "c"); F (handle2file (get req q "fhandle"))];;
    reply_with UNGETC_ID rpc_common_resp_t (zeroed rpc_common_resp_t) "ret" ret (get req q "trace_id")).

Definition rpmsg_handle_fseeko : handler := fun data inst priv =>
  with_req_priv data inst priv (fun req =>
    let q := rpc_fseeko_req_t in
    ret <- libc_int "fseeko" [F (handle2file (get req q "fhandle")); I (get req q "offset");
                            I (get req q "whence")];;
    reply_with FSEEKO_ID rpc_common_resp_t (zeroed rpc_common_resp_t) "ret" ret (get req q "trace_id")).

Definition rpmsg_handle_ftello : handler := fun data inst priv =>
  with_req_priv data inst priv (fun req =>
    let q := rpc_ftello_req_t in
    ret <- libc_long "ftello" [F (handle2file (get req q "fhandle"))];;
    reply_with FTELLO_ID rpc_ftello_resp_t (zeroed rpc_ftello_resp_t) "ret" ret (get req q "trace_id")).

Definition rpmsg_handle_fseek : handler := fun data inst priv =>
  with_req_priv data inst priv (fun req =>
    let q := rpc_fseeko_req_t in
    ret <- libc_int "fseek" [F (handle2file (get req q "fhandle")); I (get req q "offset");
                           I (get req q "whence")];;
    reply_with FSEEK_ID rpc_common_resp_t (zeroed rpc_common_resp_t) "ret" ret (get req q "trace_id")).

Definition rpmsg_handle_ftell : handler := fun data inst priv =>
  with_req_priv data inst priv (fun req =>
    let q := rpc_ftello_req_t in
    ret <- libc_long "ftello" [F (handle2file (get req q "fhandle"))];;
    reply_with FTELL_ID rpc_ftello_resp_t (zeroed rpc_ftello_resp_t) "ret" ret (get req q "trace_id")).

Definition rpmsg_handle_rename : handler := fun data inst priv =>
  with_req_priv data inst priv (fun req =>
    let q := rpc_rename_req_t in
    ret <- libc_int "rename" [M (from req q "old"); M (from req q "new")];;
    reply_with RENAME_ID rpc_common_resp_t (zeroed rpc_common_resp_t) "ret" ret (get req q "trace_id")).

Definition rpmsg_handle_remove : handler := fun data inst priv =>
  with_req_priv data inst priv (fun req =>
    let q := rpc_remove_req_t in
    ret <- libc_int "remove" [M (from req q "path")];;
    reply_with REMOVE_ID rpc_common_resp_t (zeroed rpc_common_resp_t) "ret" ret (get req q "trace_id")).

Definition rpmsg_handle_mkstemp : handler := fun data inst priv =>
  with_req_priv data inst priv (fun req =>
    let q := rpc_mkstemp_req_t in
    ret <- libc_int "mkstemp" [M (from req q "tmp")];;
    reply_with MKSTMP_ID rpc_common_resp_t (zeroed rpc_common_resp_t) "ret" ret (get req q "trace_id")).

Definition rpmsg_handle_fflush : handler := fun data inst priv =>
  with_req data inst (fun req =>
    let q := rpc_fflush_req_t in
    ret <- libc_int "fflush" [F (handle2file (get req q "fhandle"))];;
    reply_with FFLUSH_ID rpc_fflush_resp_t stk "ret" ret (get req q "trace_id")).

Definition rpmsg_handle_getwc : handler := fun data inst priv =>
  with_req data inst (fun req =>
    let q := rpc_getwc_req_t in
    ret <- libc_uint "getwc" [F (handle2file (get req q "fhandle"))];;
    reply_with GETWC_ID rpc_getwc_resp_t stk "ret" ret (get req q "trace_id")).

Definition rpmsg_handle_putwc : handler := fun data inst priv =>
  with_req data inst (fun req =>
    let q := rpc_putwc_req_t in
    ret <- libc_uint "putwc" [I (get req q "wc"); F (handle2file (get req q "fhandle"))];;
    reply_with PUTWC_ID rpc_putwc_resp_t stk "ret" ret (get req q "trace_id")).

Definition rpmsg_handle_putc : handler := fun data inst priv =>
  with_req data inst (fun req =>
    let q := rpc_putc_req_t in
    ret <- libc_int "putc" [I (get req q "c"); F (handle2file (get req q "fhandle"))];;
    reply_with PUTC_ID rpc_putc_resp_t stk "ret" ret (get req q "trace_id")).

(** The reply carries the initial [ret], not the result [wret]. *)
Definition rpmsg_handle_ungetwc : handler := fun data inst priv =>
  with_req data inst (fun req =>
    let q := rpc_ungetwc_req_t in
    wret <- libc_uint "ungetwc" [I (get req q "wc"); F (handle2file (get req q "fhandle"))];;
    let ret := 0 in
    reply_with UNGETWC_ID rpc_ungetwc_resp_t stk "ret" ret (get req q "trace_id")).

Definition rpmsg_handle_fdopen : handler := fun data inst priv =>
  with_req data inst (fun req =>
    let q := rpc_fdopen_req_t in
    ret <- libc_ulong "fdopen" [I (get req q "fd"); M (from req q "mode")];;
    reply_with FDOPEN_ID rpc_fdopen_resp_t stk "fhandle" ret (get req q "trace_id")).

Definition rpmsg_handle_fileno : handler := fun data inst priv =>
  with_req data inst (fun req =>
    let q := rpc_fileno_req_t in
    ret <- libc_int "fileno" [F (Handle (get req q "fhandle"))];;
    reply_with FILENO_ID rpc_fileno_resp_t stk "ret" ret (get req q "trace_id")).

Definition rpmsg_handle_setvbuf : handler := fun data inst priv =>
  with_req data inst (fun req =>
    let q := rpc_setvbuf_req_t in
    ret <- libc_int "setvbuf" [F (Handle (get req q "fhandle")); NULL; I 2; I 0];;
    reply_with SETVBUF_ID rpc_setvbuf_resp_t stk "ret" ret (get req q "trace_id")).

Definition rpmsg_handle_fscanfx : handler := fun data inst priv =>
  with_req_priv data inst priv (fun req =>
    let q := rpc_fscanfx_req_t in
    let s := rpc_fscanfx_resp_t in
    r <- libc "fscanf" [F (handle2file (get req q "fhandle")); M (from req q "fmt")];;
    guard (fits s "data" (out r 0))
      (reply_with FSCANFX_ID s (put_bytes (zeroed s) s "data" (out r 0)) "ret" (i32 (a_ret r))
         (get req q "trace_id"))).

Definition rpmsg_handle_putchar : handler := fun data inst priv =>
  with_req data inst (fun req =>
    let q := rpc_putchar_req_t in
    ret <- libc_int "putchar" [I (get req q "ch")];;
    reply_with PUTCHAR_ID rpc_putchar_resp_t stk "ret" ret (get req q "trace_id")).

(** ** The service table *)

Definition service_table : list (Z * handler) :=
  [(OPEN_ID, rpmsg_handle_open);
   (READ_ID, rpmsg_handle_read);
   (WRITE_ID, rpmsg_handle_write);
   (CLOSE_ID, rpmsg_handle_close);
   (LSEEK_ID, rpmsg_handle_lseek);
   (FCNTL_ID, rpmsg_handle_fcntl);
   (IOCTL_ID, rpmsg_handle_ioctl);
   (UNLINK_ID, rpmsg_handle_unlink);
   (GETDENTS64_ID, rpmsg_handle_getdents64);
   (FREEADDRINFO_ID, rpmsg_handle_freeaddrinfo);
   (GETADDRINFO_ID, rpmsg_handle_getaddrinfo);
   (GETHOSTBYADDR_ID, rpmsg_handle_gethostbyaddr);
   (GETHOSTBYNAME_ID, rpmsg_handle_gethostbyname);
   (POLL_ID, rpmsg_handle_poll);
   (GETPEERNAME_ID, rpmsg_handle_getpeername);
   (GETHOSTNAME_ID, rpmsg_handle_gethostname);
   (GETSOCKNAME_ID, rpmsg_handle_getsockname);
   (GETSOCKOPT_ID, rpmsg_handle_getsockopt);
   (SELECT_ID, rpmsg_handle_select);
   (ACCEPT_ID, rpmsg_handle_accept);
   (BIND_ID, rpmsg_handle_bind);
   (CONNECT_ID, rpmsg_handle_connect);
   (LISTEN_ID, rpmsg_handle_listen);
   (RECV_ID, rpmsg_handle_recv);
   (RECVFROM_ID, rpmsg_handle_recvfrom);
   (SEND_ID, rpmsg_handle_send);
   (SENDTO_ID, rpmsg_handle_sendto);
   (SETSOCKOPT_ID, rpmsg_handle_setsockopt);
   (SHUTDOWN_ID, rpmsg_handle_shutdown);
   (SOCKET_ID, rpmsg_handle_socket);
   (FOPEN_ID, rpmsg_handle_fopen);
   (FCLOSE_ID, rpmsg_handle_fclose);
   (FREAD_ID, rpmsg_handle_fread);
   (FWRITE_ID, rpmsg_handle_fwrite);
   (FREOPEN_ID, rpmsg_handle_freopen);
   (FPUTS_ID, rpmsg_handle_fputs);
   (FGETS_ID, rpmsg_handle_fgets);
   (FEOF_ID, rpmsg_handle_feof);
   (FPRINTF_ID, rpmsg_handle_fprintf);
   (GETC_ID, rpmsg_handle_getc);
   (FERROR_ID, rpmsg_handle_ferror);
   (GETC_UNLOCK_ID, rpmsg_handle_getc_unlocked);
   (PCLOSE_ID, rpmsg_handle_pclose);
   (TMPFILE_ID, rpmsg_handle_tmpfile);
   (CLEARERR_ID, rpmsg_handle_clearerr);
   (POPEN_ID, rpmsg_handle_popen);
   (UNGETC_ID, rpmsg_handle_ungetc);
   (FSEEKO_ID, rpmsg_handle_fseeko);
   (FTELLO_ID, rpmsg_handle_ftello);
   (FSEEK_ID, rpmsg_handle_fseek);
   (FTELL_ID, rpmsg_handle_ftell);
   (RENAME_ID, rpmsg_handle_rename);
   (REMOVE_ID, rpmsg_handle_remove);
   (MKSTMP_ID, rpmsg_handle_mkstemp);
   (STAT_ID, rpmsg_handle_stat);
   (LSTAT_ID, rpmsg_handle_lstat);
   (GETCWD_ID, rpmsg_handle_getcwd);
   (PRINTF_ID, rpmsg_handle_printf);
   (FFLUSH_ID, rpmsg_handle_fflush);
   (GETWC_ID, rpmsg_handle_getwc);
   (PUTWC_ID, rpmsg_handle_putwc);
   (PUTC_ID, rpmsg_handle_putc);
   (UNGETWC_ID, rpmsg_handle_ungetwc);
   (FSTAT_ID, rpmsg_handle_fstat);
   (FDOPEN_ID, rpmsg_handle_fdopen);
   (FILENO_ID, rpmsg_handle_fileno);
   (SETVBUF_ID, rpmsg_handle_setvbuf);
   (SYSTEM_ID, rpmsg_handle_system);
   (READLINK_ID, rpmsg_handle_readlink);
   (ACCESS_ID, rpmsg_handle_access);
   (DUP2_ID, rpmsg_handle_dup2);
   (MKFIFO_ID, rpmsg_handle_mkfifo);
   (CHMOD_ID, rpmsg_handle_chmod);
   (CHDIR_ID, rpmsg_handle_chdir);
   (MKDIR_ID, rpmsg_handle_mkdir);
   (RMDIR_ID, rpmsg_handle_rmdir);
   (PIPE_ID, rpmsg_handle_pipe);
   (FSCANFX_ID, rpmsg_handle_fscanfx);
   (IFNAMEINDEX_ID, rpmsg_handle_ifnameindex);
   (PUTCHAR_ID, rpmsg_handle_putchar);
   (GAISTRERROR_ID, rpmsg_handle_gaistrerror);
   (ACCEPT4_ID, rpmsg_handle_accept4);
   (WRITEV_ID, rpmsg_handle_writev)].
End backend.
