(* ===== verification/RpcServer.v ===== *)
(** * RPC server ([mica/micad/services/rpc/rpc_backend.c], [rpmsg_rpc.c])

    Dispatch of a request to its handler, set-up and tear-down of the service,
    and what every handler guarantees about its reply. *)

From S2P Require Import Prelude RpcHelper RpcModel RpcBackend.

(** ** Dispatch *)

Definition RPC_BUFFER_SIZE : Z := 2048.

Section server.
(** Constants of [openamp/rpmsg.h] and [rpmsg_rpc_client_server.h]; [stk] as in
    the handlers, [old] is what the receive buffer holds before the copy. *)
Context (RPMSG_RPC_OK RPMSG_RPC_INVALID_ID RPMSG_SUCCESS : Z).

Fixpoint find_service (services : list (Z * handler)) (id : Z) : option (Z * handler) :=
  match services with
  | [] => None
  | s :: services => if s.1 =? id then Some s else find_service services id
  end.

(** The build without [MULTI_WORKERS]; with it the same handler is run by a worker
    (see the request queue).  A failing handler is only logged. *)
Definition rpmsg_rpc_server_cb (stk old : list Z) (data : list Z) (len : Z) : rio (option Z) :=
  let id := le_val (memread 0 8 data) in
  if RPC_BUFFER_SIZE <? len then
    _ <- rpc_server_send (u32 id) RPC_EOVERLONG [] 0;;
    Ret (Some (- EINVAL))
  else
    let buf := memwrite 0 (take (Z.to_nat len) data) old in
    match find_service (service_table RPMSG_RPC_OK stk) (u32 id) with
    | Some service =>
        r <- service.2 (Some buf) true true;;
        Ret (match r with Some _ => Some RPMSG_SUCCESS | None => None end)
    | None =>
        _ <- rpc_server_send (u32 id) RPMSG_RPC_INVALID_ID [] 0;;
        Ret (Some RPMSG_SUCCESS)
    end.
End server.

(** ** The log files of the service *)

Record rpc_logs := RpcLogs { lfd : Z; fp : Z }.
Definition STDOUT_FILENO : Z := 1.

(** [RpcInst] is [service_inst]: the number of services once initialised. *)
Definition rpmsg_init_rpc_server (inst services : bool) (len : Z) : Z * option Z :=
  if negb inst || negb services || (len =? 0) then (-1, None) else (0, Some len).

Definition rpmsg_rpc_service_init (n_services : Z) : rio (Z * rpc_logs * option Z) :=
  l <- libc_int "open" [];;
  let lfd := if l <? 0 then STDOUT_FILENO else l in
  fp <- libc_ulong "fopen" [];;
  if fp =? 0 then
    (if lfd =? STDOUT_FILENO then Ret tt else _ <- libc "close" [I lfd];; Ret tt);;;
    Ret (- ENOMEM, RpcLogs lfd fp, None)
  else
    let '(ret, inst) := rpmsg_init_rpc_server true true n_services in
    Ret (ret, RpcLogs lfd fp, inst).

Definition rpmsg_rpc_service_terminate (logs : rpc_logs) : rio unit :=
  (if fp logs =? 0 then Ret tt else _ <- libc "fclose" [I (fp logs)];; Ret tt);;;
  (if lfd logs =? STDOUT_FILENO then Ret tt else _ <- libc "close" [I (lfd logs)];; Ret tt).

(** ** The rpmsg service *)

Definition RPMSG_RPC_EPT_NAME : string := "rpmsg-rpc".
Definition rpc_name_match (name : string) : bool := strcmp0 name RPMSG_RPC_EPT_NAME.

(** "first message from rpc_service!" and its NUL. *)
Definition rpc_hello : list Z :=
  [102; 105; 114; 115; 116; 32; 109; 101; 115; 115; 97; 103; 101; 32; 102; 114; 111; 109; 32; 114;
   112; 99; 95; 115; 101; 114; 118; 105; 99; 101; 33; 0].
(** The bind callback. *)
Definition rpc_service_init (remote_addr remote_dest : Z) : rio unit :=
  p <- libc_ulong "malloc" [];;
  if p =? 0 then Ret tt
  else
    ret <- libc_int "rpmsg_create_ept" [I p; I remote_dest; I remote_addr];;
    if ret =? 0 then _ <- call (RpmsgSend rpc_hello);; Ret tt
    else _ <- libc "free" [I p];; Ret tt.
Definition remove_rpc_service (logs : rpc_logs) : rio unit := rpmsg_rpc_service_terminate logs.
(** The result of the initialisation is not looked at; [register] is
    [mica_register_service]. *)
Definition create_rpmsg_rpc_service (n_services : Z) (register : rio Z) : rio (Z * rpc_logs) :=
  r <- rpmsg_rpc_service_init n_services;;
  ret <- register;;
  Ret (ret, r.1.2).

(** ** What the handlers guarantee *)

(** Messages sent, releases of the request, and other calls made after a release. *)
Inductive revent := Sent (m : list Z) | Freed | AfterFree.
Definition events (s : list revent) (c : rcall) (a : ans) : list revent :=
  match c with
  | RpmsgSend m => s ++ [Sent m]
  | Cleanup => s ++ [Freed]
  | _ => match last s with Some Freed => s ++ [AfterFree] | _ => s end
  end.
(** The messages sent. *)
Definition sent (s : list (list Z)) (c : rcall) (a : ans) : list (list Z) :=
  match c with RpmsgSend m => s ++ [m] | _ => s end.

(** [m] is the answer [id], [OK] whose parameters start with the trace id. *)
Definition reply_for (OK id trace_id : Z) (m : list Z) : Prop :=
  exists payload, m = le_bytes 4 id ++ le_bytes 4 OK ++ payload /\
    memread 0 4 payload = le_bytes 4 trace_id /\ (length payload <= PROXY_MAX_BUF_LEN)%nat.

(** One reply and then the release of the request; or no reply and a result that is
    not 0, with the release unless the request was refused.  The release is the last
    call. *)
Definition replied (OK id trace_id : Z) (r : option Z) (s : list revent) : Prop :=
  ((s = [] \/ s = [Freed]) /\ r <> Some 0) \/ exists m, s = [Sent m; Freed] /\ reply_for OK id trace_id m.

(** Handlers of functions that have no reply. *)
Definition no_reply : list Z := [FREEADDRINFO_ID; PRINTF_ID; FPRINTF_ID; CLEARERR_ID].

(** What is assumed of the library here: an address list whose encoded length is
    an [int], and an [fread] count below 2^63 (the count that was asked for is
    returned when size times count wraps around to the number of bytes read). *)
Definition libc_sane (c : rcall) (a : ans) : Prop :=
  match c with
  | Libc fn _ =>
      (fn = "getaddrinfo" -> 0 <= encoded_len (a_addrs a) 0) /\
      (fn = "fread" -> u64 (a_ret a) < 2 ^ 63)
  | _ => True
  end.

Abbreviation rwp := (wpv events libc_sane).

Definition has_trace (resp : list Z) (trace_id : Z) : Prop := memread 0 4 resp = le_bytes 4 trace_id.

Lemma has_trace_base resp trace_id :
  (4 <= length resp)%nat -> has_trace (memwrite 0 (le_bytes 4 trace_id) resp) trace_id.
Proof.
  intros H. unfold has_trace. rewrite <- (length_le_bytes 4 trace_id) at 1.
  apply memread_memwrite. rewrite length_le_bytes. cbn. done.
Qed.

Lemma has_trace_memwrite off b resp trace_id :
  (4 <= off)%nat -> has_trace resp trace_id -> has_trace (memwrite off b resp) trace_id.
Proof. intros Ho Ht. unfold has_trace. by rewrite memread_memwrite_before by (cbn; done). Qed.

Lemma has_trace_put resp s f v trace_id :
  (4 <= foff s f)%nat -> has_trace resp trace_id -> has_trace (put resp s f v) trace_id.
Proof. apply has_trace_memwrite. Qed.

Lemma has_trace_put_bytes resp s f b trace_id :
  (4 <= foff s f)%nat -> has_trace resp trace_id -> has_trace (put_bytes resp s f b) trace_id.
Proof. apply has_trace_memwrite. Qed.

Lemma length_put m s f v : length (put m s f v) = length m.
Proof. apply length_memwrite. Qed.
Lemma length_put_bytes m s f b : length (put_bytes m s f b) = length m.
Proof. apply length_memwrite. Qed.
Lemma length_zeroed stk s : length (zeroed stk s) = length stk.
Proof. apply length_memwrite. Qed.
Create Rewrite HintDb mcs_len.
#[export] Hint Rewrite length_put length_put_bytes length_zeroed @length_memwrite : mcs_len.

Section replies.
Context (OK : Z).

Lemma send_reply_wp id resp size trace_id :
  has_trace resp trace_id -> 4 <= size ->
  rwp (send_reply OK id resp size)
    (fun r s => (s = [] /\ r <> Some 0) \/ exists m, s = [Sent m] /\ reply_for OK id trace_id m) [].
Proof.
  intros Ht Hs. unfold send_reply, rpc_server_send. case_match; bool_to_Prop; cbn.
  - left. split; [done|]. by intros [= ?].
  - intros a _. right. eexists. split; [done|].
    exists (take (Z.to_nat size) resp). split_and!; [done| |].
    + rewrite memread_take by lia. done.
    + rewrite length_take. lia.
Qed.

Lemma reply_wp id resp size trace_id :
  has_trace resp trace_id -> 4 <= size -> rwp (reply OK id resp size) (replied OK id trace_id) [].
Proof.
  intros Ht Hs. unfold reply. apply wpv_bind. eapply wpv_mono; [by apply send_reply_wp|].
  intros r s [[-> Hr]|(m & -> & Hm)]; cbn; intros _ _; [left; auto|right; eauto].
Qed.

Lemma set_rsp_base_wp {R} resp trace_id (k : list Z -> rio R) Q :
  (4 <= length resp)%nat ->
  (forall resp', has_trace resp' trace_id -> length resp' = length resp -> rwp (k resp') Q []) ->
  rwp (bind (set_rsp_base resp trace_id) k) Q [].
Proof.
  intros Hl Hk. unfold set_rsp_base. cbn. intros a _ _ _. apply Hk.
  - apply has_trace_memwrite; [lia|]. by apply has_trace_base.
  - by rewrite !length_memwrite.
Qed.

Lemma reply_with_wp id s resp f v trace_id :
  (4 <= length resp)%nat -> 4 <= Z.of_nat (sizeof s) ->
  rwp (reply_with OK id s resp f v trace_id) (replied OK id trace_id) [].
Proof.
  intros Hl Hs. unfold reply_with. apply set_rsp_base_wp; [by autorewrite with mcs_len|].
  intros resp' Ht _. by apply reply_wp.
Qed.

Lemma hostent_reply_wp stk id r trace_id :
  (4 <= length stk)%nat -> rwp (hostent_reply OK stk id r trace_id) (replied OK id trace_id) [].
Proof.
  intros Hl. unfold hostent_reply. apply set_rsp_base_wp; [done|]. intros resp Ht _.
  destruct (a_host r) as [ht|]; [|apply reply_wp; [by apply has_trace_put; [vm_compute; lia|]|done]].
  destruct (encode_hostent _ _ _) as [len buf]. apply reply_wp.
  - apply has_trace_put; [vm_compute; lia|]. by apply has_trace_put_bytes; [vm_compute; lia|].
  - change (Z.of_nat (sizeof rpc_gethostbyaddr_resp_t)) with 448.
    change (Z.of_nat (fsize rpc_gethostbyaddr_resp_t "buf")) with 432.
    destruct (Z.leb_spec 0 len); lia.
Qed.

Lemma length_set_stat_buff resp st : length (set_stat_buff resp st) = length resp.
Proof.
  unfold set_stat_buff. generalize (combine stat_fields (default (replicate 16 0) st)) as l. intros l.
  revert resp. induction l as [|fv l IH]; intros resp; cbn [foldl]; [done|].
  by rewrite IH, length_put.
Qed.

Lemma stat_reply_wp stk id r trace_id :
  (4 <= length stk)%nat -> rwp (stat_reply OK stk id r trace_id) (replied OK id trace_id) [].
Proof.
  intros Hl. unfold stat_reply. apply set_rsp_base_wp; [by rewrite length_set_stat_buff, length_put|].
  intros resp Ht _. by apply reply_wp.
Qed.

Lemma not_replied id trace_id r : r <> Some 0 -> rwp (Ret r) (replied OK id trace_id) [].
Proof. left. auto. Qed.

Lemma guard_wp b k (Q : option Z -> list revent -> Prop) s :
  (b = true -> rwp k Q s) -> Q None s -> rwp (guard b k) Q s.
Proof. destruct b; auto. Qed.
End replies.

(** The trace id of a request: every request that has one has it at offset 8. *)
Definition trace_of (req : list Z) : Z := le_val (memread 8 4 req).

Lemma trace_of_put m s f v : (12 <= foff s f)%nat -> trace_of (put m s f v) = trace_of m.
Proof. intros. unfold trace_of, put. by rewrite memread_memwrite_before by (cbn; lia). Qed.
Lemma trace_of_put_bytes m s f b : (12 <= foff s f)%nat -> trace_of (put_bytes m s f b) = trace_of m.
Proof. intros. unfold trace_of, put_bytes. by rewrite memread_memwrite_before by (cbn; lia). Qed.
Lemma trace_of_select_out m flag f b :
  (12 <= foff rpc_select_req_t f)%nat -> trace_of (select_out m flag f b) = trace_of m.
Proof. intros. unfold select_out. case_match; [done|]. by apply trace_of_put_bytes. Qed.

(** Evaluates the layout of concrete structures in the goal. *)
Ltac eval_layout :=
  repeat match goal with
  | |- context [sizeof ?s] => let v := eval vm_compute in (sizeof s) in change (sizeof s) with v
  | |- context [fsize ?s ?f] => let v := eval vm_compute in (fsize s f) in change (fsize s f) with v
  | |- context [foff ?s ?f] => let v := eval vm_compute in (foff s f) in change (foff s f) with v
  end.
Ltac layout := eval_layout; lia.

(** Executes a handler up to its reply. *)
Ltac norm_trace :=
  repeat match goal with
  | |- context [get ?m ?q "trace_id"] => change (get m q "trace_id") with (trace_of m)
  end;
  repeat first [ rewrite trace_of_put by layout
               | rewrite trace_of_put_bytes by layout
               | rewrite trace_of_select_out by layout ].
Ltac len_ok := autorewrite with mcs_len; first [done|lia].
Ltac trace_ok :=
  repeat first [ assumption | by match goal with H : has_trace _ _ |- _ => revert H; norm_trace end
               | apply has_trace_put; [layout|] | apply has_trace_put_bytes; [layout|]
               | case_match; try done ].
Ltac size_ok := bool_to_Prop; eval_layout; first [lia | case_match; bool_to_Prop; lia].
Ltac use_sane :=
  match goal with
  | H : libc_sane (Libc "fread" _) _ |- _ => destruct H as [_ H]; specialize (H eq_refl)
  | H : libc_sane _ _ |- _ => clear H
  end.
Ltac handle_step :=
  lazymatch goal with
  | |- forall _, _ => intros ?
  | _ : libc_sane _ _ |- _ => use_sane
  | |- wpv _ _ (reply_with _ _ _ _ _ _ _) _ _ => norm_trace; apply reply_with_wp; [len_ok|layout]
  | |- wpv _ _ (reply _ _ _ _) _ _ => apply reply_wp; [trace_ok|size_ok]
  | |- wpv _ _ (bind (set_rsp_base _ _) _) _ _ => norm_trace; apply set_rsp_base_wp; [len_ok|]
  | |- wpv _ _ (hostent_reply _ _ _ _ _) _ _ => norm_trace; apply hostent_reply_wp; [len_ok]
  | |- wpv _ _ (stat_reply _ _ _ _ _) _ _ => norm_trace; apply stat_reply_wp; [len_ok]
  | |- wpv _ _ (accept_reply _ _ _ _ _ _ _) _ _ => unfold accept_reply
  | |- wpv _ _ (sockname_reply _ _ _ _ _) _ _ => unfold sockname_reply
  | |- wpv _ _ (guard _ _) _ _ => apply guard_wp
  | |- replied _ _ _ None [] => left; split; [by left|done]
  | |- wpv _ _ (Ret (Some (- _))) _ _ => apply not_replied; done
  | |- wpv _ _ (Ret None) _ _ => apply not_replied; done
  | |- wpv _ _ (if ?b then _ else _) _ _ => destruct b eqn:?
  | |- wpv _ _ (bind (if ?b then _ else _) _) _ _ => destruct b eqn:?
  | |- wpv _ _ (match ?x with _ => _ end) _ _ => destruct x eqn:?
  | |- _ => progress cbn [with_req with_req_priv libc libc_int libc_long libc_ulong libc_uint call bind wpv events last]
  end.
Ltac handle := repeat handle_step.

Lemma le_val_nonneg l : Forall (fun b => 0 <= b) l -> 0 <= le_val l.
Proof. induction 1; cbn [le_val]; lia. Qed.

Lemma get_ulong_nonneg req s f :
  Forall (fun b => 0 <= b) req -> ftype s f = ULong -> 0 <= get req s f.
Proof.
  intros Hr Ht. unfold get. rewrite Ht. apply le_val_nonneg. unfold memread.
  by apply Forall_take, Forall_drop.
Qed.

Section all_handlers.
Context (OK : Z) (stk : list Z) (Hstk : (4 <= length stk)%nat).

Definition replies_ok (service : Z * handler) : Prop :=
  forall req, Forall (fun b => 0 <= b) req -> rwp (service.2 (Some req) true true) (replied OK service.1 (trace_of req)) [].

(** The handlers whose reply length needs an argument of its own. *)
Lemma getcwd_ok : replies_ok (GETCWD_ID, rpmsg_handle_getcwd OK stk).
Proof.
  intros req Hreq. unfold rpmsg_handle_getcwd. cbn [fst snd].
  pose proof (get_ulong_nonneg req rpc_getcwd_req_t "size" Hreq eq_refl). handle.
Qed.

Lemma fread_ok : replies_ok (FREAD_ID, rpmsg_handle_fread OK stk).
Proof.
  intros req _. unfold rpmsg_handle_fread. cbn [fst snd]. handle.
  apply reply_wp; [trace_ok|]. eval_layout. pose proof (wrapu_range 64 (a_ret a)).
  rewrite wrapu_small; lia.
Qed.

Lemma gethostname_ok : replies_ok (GETHOSTNAME_ID, rpmsg_handle_gethostname OK stk).
Proof.
  intros req _. unfold rpmsg_handle_gethostname. cbn [fst snd]. handle.
  apply reply_wp; [trace_ok|]. eval_layout. case_match; simplify_option_eq; lia.
Qed.

Lemma getsockopt_ok : replies_ok (GETSOCKOPT_ID, rpmsg_handle_getsockopt OK stk).
Proof.
  intros req _. unfold rpmsg_handle_getsockopt. cbn [fst snd]. handle.
  apply reply_wp; [trace_ok|]. pose proof (wrapu_range 32 (a_len a)).
  case_match; simplify_eq; eval_layout; lia.
Qed.

Lemma ifnameindex_ok : replies_ok (IFNAMEINDEX_ID, rpmsg_handle_ifnameindex OK stk).
Proof.
  intros req _. unfold rpmsg_handle_ifnameindex. cbn [fst snd]. handle.
  apply wpv_bind. eapply wpv_mono; [apply send_reply_wp; [trace_ok|layout]|].
  intros r s' [[-> Hr]|(m & -> & Hm)]; cbn; intros _ _ _ _; [left; auto|right; eauto].
Qed.

Lemma getaddrinfo_response_wp req resp ret size :
  (4 <= length resp)%nat -> 4 <= size ->
  rwp (getaddrinfo_response OK req resp ret size) (replied OK GETADDRINFO_ID (trace_of req)) [].
Proof.
  intros Hl Hs. unfold getaddrinfo_response. norm_trace.
  apply set_rsp_base_wp; [len_ok|]. intros resp' Ht _. by apply reply_wp.
Qed.

Lemma encode_addrlist_buflen addrs buf buflen :
  0 <= encoded_len addrs 0 -> 0 <= buflen ->
  0 <= default 0 (encode_addrlist addrs buf (Some buflen)).2.
Proof.
  intros. unfold encode_addrlist. destruct addrs; [done|]. destruct buf; [|done].
  case_match; cbn [snd default id]; done.
Qed.

Lemma encode_addrlist_buflen_le addrs buf buflen :
  0 <= buflen -> default 0 (encode_addrlist addrs buf (Some buflen)).2 <= buflen.
Proof.
  intros. unfold encode_addrlist. destruct addrs; [cbn; lia|]. destruct buf; [|cbn; lia].
  case_match; bool_to_Prop; cbn [snd default id]; lia.
Qed.

Lemma getaddrinfo_call_wp req node service hints :
  rwp (getaddrinfo_call OK stk req node service hints) (replied OK GETADDRINFO_ID (trace_of req)) [].
Proof.
  unfold getaddrinfo_call. cbn [bind libc call wpv events last]. intros a Ha.
  assert (0 <= encoded_len (a_addrs a) 0) as Henc by (by apply Ha). clear Ha.
  case_match; [apply getaddrinfo_response_wp; [len_ok|layout]|].
  destruct (a_addrs a) as [|p addrs]; [apply getaddrinfo_response_wp; [len_ok|layout]|].
  pose proof (encode_addrlist_buflen (p :: addrs) (Some (bytes stk rpc_getaddrinfo_resp_t "buf")) 432) as H1.
  pose proof (encode_addrlist_buflen_le (p :: addrs) (Some (bytes stk rpc_getaddrinfo_resp_t "buf")) 432) as H2.
  change (Z.of_nat (fsize rpc_getaddrinfo_resp_t "buf")) with 432.
  destruct (encode_addrlist _ _ _) as [[cnt buf] buflen]. cbn [snd] in *.
  apply getaddrinfo_response_wp; [len_ok|]. eval_layout. rewrite wrapu_small; lia.
Qed.

Lemma getaddrinfo_ok : replies_ok (GETADDRINFO_ID, rpmsg_handle_getaddrinfo OK stk).
Proof.
  intros req _. unfold rpmsg_handle_getaddrinfo. cbn [fst snd with_req].
  case_match; [by apply not_replied|].
  repeat (case_match; try (by apply not_replied));
    solve [apply getaddrinfo_call_wp | apply getaddrinfo_response_wp; [len_ok|layout]].
Qed.

Ltac service :=
  lazymatch goal with
  | |- _ -> _ -> replies_ok (UNLINK_ID, _) => intros _ Hun; by destruct Hun
  | |- _ -> _ -> replies_ok (FREEADDRINFO_ID, _) => intros Hno; exfalso; apply Hno; repeat constructor
  | |- _ -> _ -> replies_ok (PRINTF_ID, _) => intros Hno; exfalso; apply Hno; repeat constructor
  | |- _ -> _ -> replies_ok (FPRINTF_ID, _) => intros Hno; exfalso; apply Hno; repeat constructor
  | |- _ -> _ -> replies_ok (CLEARERR_ID, _) => intros Hno; exfalso; apply Hno; repeat constructor
  | |- _ -> _ -> replies_ok (GETCWD_ID, _) => intros _ _; exact getcwd_ok
  | |- _ -> _ -> replies_ok (FREAD_ID, _) => intros _ _; exact fread_ok
  | |- _ -> _ -> replies_ok (GETHOSTNAME_ID, _) => intros _ _; exact gethostname_ok
  | |- _ -> _ -> replies_ok (GETSOCKOPT_ID, _) => intros _ _; exact getsockopt_ok
  | |- _ -> _ -> replies_ok (IFNAMEINDEX_ID, _) => intros _ _; exact ifnameindex_ok
  | |- _ -> _ -> replies_ok (GETADDRINFO_ID, _) => intros _ _; exact getaddrinfo_ok
  | |- _ -> _ -> replies_ok (_, ?h OK stk) =>
      intros _ _ req _; cbn [fst snd]; unfold h; handle
  end.

(** Every service but unlink and those without a reply. *)
Lemma all_replies_ok :
  Forall (fun service => service.1 ∉ no_reply -> service.1 <> UNLINK_ID -> replies_ok service)
    (service_table OK stk).
Proof. unfold service_table. repeat first [apply Forall_nil_2 | apply Forall_cons_2; [service|]]. Qed.
End all_handlers.
