(* ===== verification/RpcServerProps.v ===== *)
(** * Properties of the RPC server

    What the client OS can rely on: replies, dispatch, console output, and the
    array bounds of the handlers that check their lengths. *)

From S2P Require Import Prelude RpcHelper RpcModel RpcBackend RpcServer.

(** C22: As long as the library gives [getaddrinfo] a list whose encoded length is an
    [int] and returns a count below 2^63 from [fread], and whatever it answers
    otherwise, a handler of the service table sends at most
    one message; that message carries the handler's own function id, status OK and
    the trace id of the request, and at most PROXY_MAX_BUF_LEN bytes of parameters;
    a handler that returns 0 has sent it.  The request is released at most once, after
    the message, and by every handler that returns 0.  Not covered are the four
    functions without a reply and unlink; [huge_fread_cuts_reply] shows what a larger
    [fread] count does. *)
Theorem rpc_handlers_reply (OK : Z) (stk : list Z) (o : oracle rcall ans) (id : Z) (h : handler) (req : list Z) :
  (id, h) ∈ service_table OK stk -> id ∉ no_reply -> id <> UNLINK_ID ->
  (4 <= length stk)%nat -> Forall (fun b => 0 <= b) req -> (forall hist c, libc_sane c (o hist c)) ->
  replied OK id (trace_of req) (result o (h (Some req) true true))
    (observe events [] (trace o (h (Some req) true true))).
Proof.
  intros Hin Hno Hun Hstk Hreq Ho.
  pose proof (proj1 (Forall_forall _ _) (all_replies_ok OK stk Hstk) _ Hin Hno Hun req Hreq) as Hwp.
  by apply (wpv_result_trace events libc_sane o).
Qed.

Definition quiet_libc : oracle rcall ans := fun _ _ => Ans 0 [] 0 None [] None None.
Definition close_request : list Z := le_bytes 8 CLOSE_ID ++ le_bytes 4 77 ++ le_bytes 4 5.

Lemma rpc_handlers_reply_witness :
  let p := rpmsg_handle_close 0 (replicate 12 0) (Some close_request) true true in
  replied 0 CLOSE_ID 77 (result quiet_libc p) (observe events [] (trace quiet_libc p)) /\
  observe events [] (trace quiet_libc p) =
    [Sent ([2; 0; 0; 0] ++ [0; 0; 0; 0] ++ [77; 0; 0; 0] ++ [0; 0; 0; 0] ++ [0; 0; 0; 0]); Freed].
Proof.
  split; [|by vm_compute].
  apply (rpc_handlers_reply 0 (replicate 12 0) quiet_libc CLOSE_ID (rpmsg_handle_close 0 (replicate 12 0))
           close_request).
  - unfold service_table. do 3 apply list_elem_of_further. apply list_elem_of_here.
  - intros Hno. unfold no_reply in Hno. set_unfold. destruct_or?; discriminate.
  - done.
  - vm_compute. lia.
  - apply (bool_decide_unpack _). by vm_compute.
  - by intros hist [].
Defined.

(** The client OS asks for 2^64-13 items of (2^64-3)/13 bytes, whose product is 3 in
    64 bits; the library reads 3 bytes and returns the count, which makes a payload of
    3 bytes: the reply has not even the whole trace id (line 1387). *)
Theorem huge_fread_cuts_reply (OK : Z) :
  let size := (2 ^ 64 - 3) / 13 in
  let count := 2 ^ 64 - 13 in
  let req := le_bytes 8 FREAD_ID ++ le_bytes 4 77 ++ le_bytes 4 0 ++ le_bytes 8 size ++ le_bytes 8 count ++ le_bytes 8 5 in
  let o := fun (_ : history rcall ans) c => match c with
             | Libc "fread" [I s; I c; _] => Ans c [replicate (Z.to_nat (u64 (s * c))) 97] 0 None [] None None
             | _ => Ans 0 [] 0 None [] None None end in
  observe sent [] (trace o (rpmsg_handle_fread OK (replicate 448 0) (Some req) true true)) =
    [le_bytes 4 FREAD_ID ++ le_bytes 4 OK ++ [77; 0; 0]].
Proof. by vm_compute. Qed.

(** [unlink] answers with the id of [ioctl] (line 622). *)
Theorem unlink_replies_ioctl (OK : Z) (stk : list Z) (o : oracle rcall ans) (req : list Z) :
  exists msg, observe sent [] (trace o (rpmsg_handle_unlink OK stk (Some req) true true)) = [msg] /\
    take 4 msg = le_bytes 4 IOCTL_ID /\ IOCTL_ID <> UNLINK_ID.
Proof. by eexists. Qed.

(** ** Dispatch *)

Definition service_ids : list Z := (service_table 0 []).*1.

Lemma service_ids_any OK stk : (service_table OK stk).*1 = service_ids.
Proof. reflexivity. Qed.

Lemma find_service_spec services id :
  match find_service services id with
  | Some s => s ∈ services /\ s.1 = id
  | None => id ∉ services.*1
  end.
Proof.
  induction services as [|[i h] services IH]; cbn [find_service fst]; [set_solver|].
  destruct (Z.eqb_spec i id) as [->|Hne]; [set_solver|].
  destruct (find_service services id); set_solver.
Qed.

(** A message longer than the receive buffer is answered RPC_EOVERLONG and
    refused; a message with an unknown function id is answered
    RPMSG_RPC_INVALID_ID; every other message is copied to the buffer and given to
    a handler registered under its id.  So the answer always carries the id of the
    request, also in the error cases. *)
Theorem rpc_server_dispatch (OK INVALID SUCCESS : Z) (o : oracle rcall ans) (stk old data : list Z) (len : Z) :
  let id := u32 (le_val (memread 0 8 data)) in
  let p := rpmsg_rpc_server_cb OK INVALID SUCCESS stk old data len in
  let msgs := observe sent [] (trace o p) in
  (RPC_BUFFER_SIZE < len ->
     msgs = [le_bytes 4 id ++ le_bytes 4 RPC_EOVERLONG] /\ result o p = Some (- EINVAL)) /\
  (len <= RPC_BUFFER_SIZE -> id ∉ service_ids ->
     msgs = [le_bytes 4 id ++ le_bytes 4 INVALID] /\ result o p = Some SUCCESS) /\
  (len <= RPC_BUFFER_SIZE -> id ∈ service_ids ->
     exists h, (id, h) ∈ service_table OK stk /\
       trace o p = trace o (h (Some (memwrite 0 (take (Z.to_nat len) data) old)) true true)).
Proof.
  cbn zeta. unfold rpmsg_rpc_server_cb. cbn zeta.
  pose proof (find_service_spec (service_table OK stk) (u32 (le_val (memread 0 8 data)))) as Hf.
  rewrite service_ids_any in Hf. split_and!.
  - intros Hlen. rewrite (proj2 (Z.ltb_lt _ _)) by done. done.
  - intros Hlen Hid. rewrite (proj2 (Z.ltb_ge _ _)) by done.
    destruct (find_service _ _) as [[i h]|]; [|done].
    destruct Hf as [Hin Hi]. exfalso. apply Hid. rewrite <- (service_ids_any OK stk).
    apply list_elem_of_fmap. exists (i, h). done.
  - intros Hlen Hid. rewrite (proj2 (Z.ltb_ge _ _)) by done.
    destruct (find_service _ _) as [[i h]|]; [|done]. destruct Hf as [Hin Hi]. cbn [fst snd] in *. subst i.
    exists h. split; [done|]. unfold trace. rewrite exec_bind.
    by destruct (exec o (h _ _ _) []).
Qed.

Lemma rpc_server_dispatch_witness :
  observe sent [] (trace quiet_libc (rpmsg_rpc_server_cb 0 (-1) 0 [] [] (le_bytes 8 200) 8)) =
    [[200; 0; 0; 0] ++ [255; 255; 255; 255]].
Proof.
  apply (rpc_server_dispatch 0 (-1) 0 quiet_libc [] [] (le_bytes 8 200) 8); [done|].
  intros Hin. vm_compute in Hin. set_unfold. repeat (destruct Hin as [Hin|Hin]; [discriminate|]). done.
Defined.

(** [setvbuf] and [fileno] share the id 46 and the table is searched from the
    front: a [setvbuf] request performs [fileno]. *)
Theorem setvbuf_dispatches_fileno (OK : Z) (stk : list Z) :
  find_service (service_table OK stk) SETVBUF_ID = Some (FILENO_ID, rpmsg_handle_fileno OK stk).
Proof. reflexivity. Qed.

(** ** Console output *)

(** C32: Text printed by the client is written to the console file with every
    newline preceded by a carriage return and nothing else changed; the array of
    twice the length of the text plus one byte is never overrun, whatever it held
    before. *)
Theorem rpc_write_crlf (data msg : list Z) :
  length msg = (length data * 2 + 1)%nat ->
  rpc_write_msg data msg = crlf data /\ (length (crlf data) < length msg)%nat.
Proof.
  intros Hm. pose proof (length_crlf data). split; [|lia]. unfold rpc_write_msg.
  destruct (crlf_fill_spec data 0 0 [] msg) as (i & j & junk & E & El & Hn); [done|lia|].
  cbn [app] in E, El. unfold rpc_write_loop. rewrite E, El. destruct junk as [|x junk]; [cbn in Hn; lia|].
  rewrite memwrite_snoc, <- app_assoc. apply take_app_length.
Qed.

Lemma rpc_write_crlf_witness :
  rpc_write_msg [104; 10; 10; 105] (replicate 9 7) = [104; 13; 10; 13; 10; 105].
Proof. apply (rpc_write_crlf [104; 10; 10; 105] (replicate 9 7)). reflexivity. Defined.

(** ** Array bounds *)

(** Documented behaviour of the library calls that fill a buffer: they write no
    more than the length they are given, a socket address has at most 128 bytes,
    and a host name that fits is terminated. *)
Definition buffer_contract (c : rcall) (a : ans) : Prop :=
  match c with
  | Libc fn args =>
      (forall p n, fn = "readlink" -> args = [M p; I n] -> Z.of_nat (length (out a 0)) <= Z.max 0 n) /\
      (forall fd n, fn = "getdents64" -> args = [I fd; I n] -> Z.of_nat (length (out a 0)) <= Z.max 0 n) /\
      (forall n, fn = "getcwd" -> args = [I n] -> Z.of_nat (length (out a 0)) <= Z.max 0 n) /\
      (forall n, fn = "gethostname" -> args = [I n] ->
         Z.of_nat (length (out a 0)) <= Z.max 0 n /\ (i32 (a_ret a) = 0 -> 0 ∈ out a 0)) /\
      (forall fd n fl al, fn = "recvfrom" -> args = [I fd; I n; I fl; I al] ->
         Z.of_nat (length (out a 0)) <= Z.max 0 n /\ (length (out a 1) <= 128)%nat)
  | _ => True
  end.

Definition ignore (s : unit) (c : rcall) (a : ans) : unit := s.
Abbreviation fwp p := (wpv ignore buffer_contract p (fun r _ => r <> None) tt).

Lemma reply_no_fault OK id resp size : fwp (reply OK id resp size).
Proof.
  unfold reply, send_reply, rpc_server_send. case_match; cbn; [by intros a _|by intros a _ b _].
Qed.

Lemma set_rsp_base_no_fault resp trace_id (k : list Z -> rio (option Z)) :
  (forall resp', fwp (k resp')) -> fwp (bind (set_rsp_base resp trace_id) k).
Proof. intros Hk. unfold set_rsp_base. cbn. intros a _ b _. apply Hk. Qed.

Lemma guard_no_fault b (k : rio (option Z)) : b = true -> fwp k -> fwp (guard b k).
Proof. by intros ->. Qed.

Lemma fits_le s f b n : Z.of_nat (length b) <= Z.max 0 n -> n <= Z.of_nat (fsize s f) -> fits s f b = true.
Proof. intros. apply Nat.leb_le. lia. Qed.

Lemma cstr_elem l : 0 ∈ l -> is_Some (cstr l).
Proof.
  induction l as [|b l IH]; intros Hin; [set_solver|]. cbn [cstr]. destruct (Z.eqb_spec b 0); [done|].
  apply elem_of_cons in Hin as [?|Hin]; [done|]. destruct (IH Hin) as [s ->]. done.
Qed.

Section bounded.
Context (OK : Z) (stk req : list Z) (Hreq : Forall (fun b => 0 <= b) req).

Lemma readlink_no_fault : fwp (rpmsg_handle_readlink OK stk (Some req) true true).
Proof.
  unfold rpmsg_handle_readlink. cbn [with_req libc call bind wpv ignore]. intros a (Ha & _).
  apply guard_no_fault; [eapply fits_le; [by eapply Ha|]; apply Z.le_min_l|].
  apply set_rsp_base_no_fault. intros. apply reply_no_fault.
Qed.

Lemma getcwd_no_fault : fwp (rpmsg_handle_getcwd OK stk (Some req) true true).
Proof.
  unfold rpmsg_handle_getcwd. cbn [with_req libc call bind wpv ignore].
  destruct (_ <? _) eqn:E; [done|]. bool_to_Prop. cbn [bind wpv]. intros a (_ & _ & Ha & _).
  apply guard_no_fault; [by eapply fits_le; [by eapply Ha|]|].
  apply set_rsp_base_no_fault. intros. apply reply_no_fault.
Qed.

Lemma i32_min_buf n m : 0 <= n <= 432 -> 0 <= m -> 0 <= i32 (Z.min n m) <= n.
Proof. intros. rewrite wraps_small; lia. Qed.

Lemma getdents64_no_fault : fwp (rpmsg_handle_getdents64 OK stk (Some req) true true).
Proof.
  unfold rpmsg_handle_getdents64. cbn [with_req].
  set (count := get req rpc_getdents64_req_t "count").
  pose proof (wrapu_range 64 count ltac:(lia)) as Hc.
  pose proof (i32_min_buf 432 (u64 count) ltac:(lia) ltac:(lia)) as Hm. rewrite Z.min_comm in Hm.
  apply wpv_bind. eapply (wpv_mono _ _ _ (fun _ _ => True)).
  { case_match; cbn; done. }
  intros off [] _. case_match.
  - apply set_rsp_base_no_fault. intros. cbn [libc_long libc call bind wpv]. intros p _. apply reply_no_fault.
  - cbn [libc call bind wpv ignore]. intros a (_ & Ha & _).
    apply guard_no_fault; [eapply fits_le; [by eapply Ha|]; apply Hm|].
    apply set_rsp_base_no_fault. intros. cbn [libc_long libc call bind wpv]. intros p _. apply reply_no_fault.
Qed.

Lemma from_put_bytes m s f b :
  (foff s f + length b <= length m)%nat -> exists rest, from (put_bytes m s f b) s f = b ++ rest.
Proof.
  intros Hl. unfold from, put_bytes, memwrite. eexists.
  rewrite (take_ge b) by lia. rewrite drop_app_length' by (rewrite length_take; lia). done.
Qed.

Lemma cstr_app_some l rest : 0 ∈ l -> is_Some (cstr (l ++ rest)).
Proof. intros. apply cstr_elem. set_solver. Qed.

Lemma gethostname_no_fault :
  (sizeof rpc_gethostname_resp_t <= length stk)%nat ->
  fwp (rpmsg_handle_gethostname OK stk (Some req) true true).
Proof.
  intros Hstk. change (sizeof rpc_gethostname_resp_t) with 448%nat in Hstk.
  unfold rpmsg_handle_gethostname. cbn [with_req libc call bind wpv ignore].
  set (len := if _ <? _ then _ else _). intros a (_ & _ & _ & Ha & _).
  destruct (Ha len eq_refl eq_refl) as [Hl Hnul]. clear Ha.
  assert (len <= 432) as Hlen.
  { unfold len. case_match; bool_to_Prop; unfold MAX_STRING_LEN, MAX_SBUF_LEN in *; lia. }
  apply guard_no_fault; [by eapply fits_le|].
  destruct (from_put_bytes stk rpc_gethostname_resp_t "name" (out a 0)) as [rest ->].
  { change (foff rpc_gethostname_resp_t "name") with 16%nat. lia. }
  destruct (Z.eqb_spec (i32 (a_ret a)) 0) as [E|E].
  - destruct (cstr_app_some (out a 0) rest (Hnul E)) as [n ->]. cbn [fmap option_fmap option_map].
    apply set_rsp_base_no_fault. intros. apply reply_no_fault.
  - apply set_rsp_base_no_fault. intros. apply reply_no_fault.
Qed.

Lemma recvfrom_no_fault : fwp (rpmsg_handle_recvfrom OK stk (Some req) true true).
Proof.
  unfold rpmsg_handle_recvfrom. cbn [with_req libc call bind wpv ignore]. intros a (_ & _ & _ & _ & Ha).
  destruct (Ha _ _ _ _ eq_refl eq_refl) as [H0 H1].
  pose proof (get_ulong_nonneg req rpc_recvfrom_req_t "len" Hreq eq_refl).
  apply guard_no_fault.
  { apply andb_true_iff. split.
    - eapply fits_le; [exact H0|]. apply i32_min_buf; [vm_compute; split; discriminate|done].
    - apply Nat.leb_le. change (fsize rpc_recvfrom_req_t "buf") with 432%nat. lia. }
  apply set_rsp_base_no_fault. intros. case_match; [apply reply_no_fault|].
  apply guard_no_fault; [|apply reply_no_fault]. bool_to_Prop. apply orb_true_iff. right. by apply Z.leb_le.
Qed.
End bounded.

(** C33: The handlers that bound the length they pass on - readlink, getdents64,
    getcwd, gethostname and recvfrom - never store more than their response array
    holds, for any request of the client OS, as long as the library writes no more
    than the length it is given. *)
Theorem bounded_handlers_no_fault (OK : Z) (stk req : list Z) (o : oracle rcall ans) (h : handler) :
  h ∈ [rpmsg_handle_readlink OK stk; rpmsg_handle_getdents64 OK stk; rpmsg_handle_getcwd OK stk;
       rpmsg_handle_gethostname OK stk; rpmsg_handle_recvfrom OK stk] ->
  Forall (fun b => 0 <= b) req -> (sizeof rpc_gethostname_resp_t <= length stk)%nat ->
  (forall hist c, buffer_contract c (o hist c)) ->
  result o (h (Some req) true true) <> None.
Proof.
  intros Hh Hreq Hstk Ho.
  assert (fwp (h (Some req) true true)) as Hwp.
  { repeat (apply elem_of_cons in Hh as [->|Hh];
      [auto using readlink_no_fault, getdents64_no_fault, getcwd_no_fault, gethostname_no_fault,
         recvfrom_no_fault|]). set_solver. }
  apply (wpv_result_trace ignore buffer_contract o _ (fun r _ => r <> None) tt Ho Hwp).
Qed.

Definition readlink_request : list Z :=
  le_bytes 8 READLINK_ID ++ le_bytes 4 5 ++ le_bytes 4 0 ++ le_bytes 8 (2 ^ 40) ++ [47; 97; 0].
Definition full_libc : oracle rcall ans := fun _ c =>
  match c with
  | Libc "readlink" [M _; I n] => Ans n [replicate (Z.to_nat n) 97] 0 None [] None None
  | _ => Ans (-1) [] 0 None [] None None
  end.

Lemma full_libc_contract hist c : buffer_contract c (full_libc hist c).
Proof.
  destruct c as [fn args| | | |]; try done. cbn [buffer_contract].
  split_and!; intros; subst; cbn; rewrite ?length_replicate; try lia; try done.
  split; [lia|]. intros E. by vm_compute in E.
Qed.

Lemma bounded_handlers_no_fault_witness :
  result full_libc (rpmsg_handle_readlink 0 (replicate 448 0) (Some readlink_request) true true) <> None.
Proof.
  apply (bounded_handlers_no_fault 0 (replicate 448 0) readlink_request full_libc).
  - apply list_elem_of_here.
  - apply (bool_decide_unpack _). by vm_compute.
  - by vm_compute.
  - apply full_libc_contract.
Defined.

(** [read] passes the client's count on unchecked (line 497): a file with more
    data than the response array overruns it, although [read] writes no more than
    it was asked for. *)
Theorem read_overruns_response :
  exists (req : list Z) (o : oracle rcall ans),
    (forall hist fd n, Z.of_nat (length (out (o hist (Libc "read" [I fd; I n])) 0)) <= Z.max 0 n) /\
    result o (rpmsg_handle_read 0 (replicate 448 0) (Some req) true true) = None.
Proof.
  exists (le_bytes 8 READ_ID ++ le_bytes 4 1 ++ le_bytes 4 3 ++ le_bytes 4 1000).
  exists (fun _ c => match c with
    | Libc _ [I _; I n] => Ans n [replicate (Z.to_nat n) 97] 0 None [] None None
    | _ => Ans 0 [] 0 None [] None None end).
  split; [|by vm_compute]. intros. cbn. rewrite length_replicate. lia.
Qed.

(** [writev] allocates [MAX_IOV_SIZE] (30) bytes for a segment of up to
    [MAX_IOV_LEN] (60): a request with one segment of 31 bytes overruns the block. *)
Theorem writev_overruns_segment :
  exists req : list Z, (length req <= 2048)%nat /\
    result quiet_libc (rpmsg_handle_writev 0 (replicate 16 0) (Some req) true true) = None.
Proof.
  exists (le_bytes 8 WRITEV_ID ++ le_bytes 4 1 ++ le_bytes 4 1 ++ le_bytes 4 1 ++ le_bytes 4 0 ++
          le_bytes 8 31 ++ replicate 60 65).
  split; [|by vm_compute]. vm_compute. lia.
Qed.

(** ** Log lines *)

Definition WBUF_LEN : nat := 0x200.
(** The bytes written to the log for a formatted line [text]: [vsnprintf] stores what fits
    and returns the length of the whole line, which is the length that is written;
    [None]: bytes behind the array are read. *)
Definition __lprintf (text : list Z) : option (list Z) :=
  let buf := memwrite 0 (take (WBUF_LEN - 1) text ++ [0]) (replicate WBUF_LEN 0) in
  let len := length text in
  if (len <=? length buf)%nat then Some (take len buf) else None.

(** A line that fits is written as it is; the write of a longer line, e.g. of a
    request with a long path, takes bytes from behind the array. *)
Theorem long_log_line_overruns (text : list Z) :
  ((length text < WBUF_LEN)%nat -> __lprintf text = Some text) /\
  ((WBUF_LEN < length text)%nat -> __lprintf text = None).
Proof.
  unfold __lprintf. rewrite length_memwrite, length_replicate. split; intros H.
  - rewrite (proj2 (Nat.leb_le _ _)), (take_ge text) by lia. f_equal.
    transitivity (take (length text) (memread 0 (length (text ++ [0])) (memwrite 0 (text ++ [0]) (replicate WBUF_LEN 0)))).
    + unfold memread. rewrite drop_0, take_take, length_app. f_equal. cbn. lia.
    + rewrite memread_memwrite by (rewrite length_app, length_replicate; cbn; lia). apply take_app_length.
  - by rewrite (proj2 (Nat.leb_gt _ _)) by lia.
Qed.
