(* ===== verification/RpcForward.v ===== *)
(** * Remote calls as local calls ([mica/micad/services/rpc/rpc_backend.c])

    Most functions of the RPC service only pass a call on: the arguments are fields of
    the request, the result and [errno] are fields of the response.  [forwarded] says so
    for each of them in a line of its own; the handlers implement that description. *)

From S2P Require Import Prelude RpcHelper RpcModel RpcLayout RpcBackend RpcServer.

(** ** Description of a forwarded function *)

(** An argument: a field by value, the address of a field, or the stream that a file
    handle of the client OS stands for (its standard streams are the log file), with
    and without that translation. *)
Inductive farg :=
| Val (f : string)
| Ptr (f : string)
| Stream (f : string)
| RawStream (f : string).

Definition farg_value (req : list Z) (q : cstruct) (a : farg) : arg :=
  match a with
  | Val f => I (get req q f)
  | Ptr f => M (from req q f)
  | Stream f => F (handle2file (get req q f))
  | RawStream f => F (Handle (get req q f))
  end.

Record forward := Forward {
  f_id : Z;
  f_fn : string;          (* the function that is called *)
  f_req : cstruct;
  f_args : list farg;
  f_ret : ctype;          (* the type of its result *)
  f_resp : cstruct;
  f_field : string;       (* where the client OS finds the result *)
}.

Definition forwarded : list forward :=
  [Forward OPEN_ID "open" rpc_open_req_t [Ptr "buf"; Val "flags"; Val "mode"] Int rpc_open_resp_t "ret";
   Forward CLOSE_ID "close" rpc_close_req_t [Val "fd"] Int rpc_close_resp_t "ret";
   Forward WRITE_ID "write" rpc_write_req_t [Val "fd"; Ptr "buf"; Val "count"] Long rpc_write_resp_t "ret";
   Forward LSEEK_ID "lseek" rpc_lseek_req_t [Val "fd"; Val "offset"; Val "whence"] Long rpc_lseek_resp_t "ret";
   Forward FCNTL_ID "fcntl" rpc_fcntl_req_t [Val "fd"; Val "cmd"; Val "arg"] Int rpc_fcntl_resp_t "ret";
   Forward SYSTEM_ID "system" rpc_system_req_t [Ptr "buf"] Int rpc_system_resp_t "ret";
   Forward ACCESS_ID "access" rpc_access_req_t [Ptr "pathname"; Val "mode"] Int rpc_access_resp_t "ret";
   Forward DUP2_ID "dup2" rpc_dup2_req_t [Val "oldfd"; Val "newfd"] Int rpc_dup2_resp_t "ret";
   Forward MKFIFO_ID "mkfifo" rpc_mkfifo_req_t [Ptr "pathname"; Val "mode"] Int rpc_mkfifo_resp_t "ret";
   Forward CHMOD_ID "chmod" rpc_chmod_req_t [Ptr "pathname"; Val "mode"] Int rpc_chmod_resp_t "ret";
   Forward CHDIR_ID "chdir" rpc_chdir_req_t [Ptr "buf"] Int rpc_chdir_resp_t "ret";
   Forward MKDIR_ID "mkdir" rpc_mkdir_req_t [Ptr "pathname"; Val "mode"] Int rpc_mkdir_resp_t "ret";
   Forward RMDIR_ID "rmdir" rpc_rmdir_req_t [Ptr "buf"] Int rpc_rmdir_resp_t "ret";
   Forward BIND_ID "bind" rpc_bind_req_t [Val "sockfd"; Ptr "addr_buf"; Val "addrlen"] Int rpc_bind_resp_t "ret";
   Forward CONNECT_ID "connect" rpc_connect_req_t [Val "sockfd"; Ptr "addr_buf"; Val "addrlen"] Int
     rpc_connect_resp_t "ret";
   Forward LISTEN_ID "listen" rpc_listen_req_t [Val "sockfd"; Val "backlog"] Int rpc_listen_resp_t "ret";
   Forward SEND_ID "send" rpc_send_req_t [Val "fd"; Ptr "buf"; Val "len"; Val "flags"] Long rpc_send_resp_t "ret";
   Forward SETSOCKOPT_ID "setsockopt" rpc_setsockopt_req_t
     [Val "fd"; Val "level"; Val "optname"; Ptr "optval"; Val "optlen"] Int rpc_setsockopt_resp_t "ret";
   Forward SHUTDOWN_ID "shutdown" rpc_shutdown_req_t [Val "fd"; Val "how"] Int rpc_shutdown_resp_t "ret";
   Forward SOCKET_ID "socket" rpc_socket_req_t [Val "domain"; Val "type"; Val "protocol"] Int
     rpc_socket_resp_t "ret";
   Forward FOPEN_ID "fopen" rpc_fopen_req_t [Ptr "filename"; Ptr "mode"] ULong rpc_fcommon_resp_t "fhandle";
   Forward FCLOSE_ID "fclose" rpc_fclose_req_t [Stream "fhandle"] Int rpc_common_resp_t "ret";
   Forward FWRITE_ID "fwrite" rpc_fwrite_req_t [Ptr "buf"; Val "size"; Val "count"; Stream "fhandle"] ULong
     rpc_fwrite_resp_t "ret";
   Forward FREOPEN_ID "freopen" rpc_freopen_req_t [Ptr "filename"; Ptr "mode"; Stream "fhandle"] ULong
     rpc_fcommon_resp_t "fhandle";
   Forward FPUTS_ID "fputs" rpc_fputs_req_t [Ptr "str"; Stream "fhandle"] Int rpc_common_resp_t "ret";
   Forward FEOF_ID "feof" rpc_feof_req_t [Stream "fhandle"] Int rpc_common_resp_t "ret";
   Forward GETC_ID "getc" rpc_getc_req_t [Stream "fhandle"] Int rpc_common_resp_t "ret";
   Forward FERROR_ID "ferror" rpc_ferror_req_t [Stream "fhandle"] Int rpc_common_resp_t "ret";
   Forward GETC_UNLOCK_ID "getc_unlocked" rpc_getc_unlocked_req_t [Stream "fhandle"] Int rpc_common_resp_t "ret";
   Forward PCLOSE_ID "pclose" rpc_pclose_req_t [Stream "fhandle"] Int rpc_common_resp_t "ret";
   Forward TMPFILE_ID "tmpfile" rpc_tmpfile_req_t [] ULong rpc_fcommon_resp_t "fhandle";
   Forward POPEN_ID "popen" rpc_popen_req_t [Ptr "cmd"; Ptr "mode"] ULong rpc_fcommon_resp_t "fhandle";
   Forward UNGETC_ID "ungetc" rpc_ungetc_req_t [Val "c"; Stream "fhandle"] Int rpc_common_resp_t "ret";
   Forward FSEEKO_ID "fseeko" rpc_fseeko_req_t [Stream "fhandle"; Val "offset"; Val "whence"] Int
     rpc_common_resp_t "ret";
   Forward FTELLO_ID "ftello" rpc_ftello_req_t [Stream "fhandle"] Long rpc_ftello_resp_t "ret";
   Forward FSEEK_ID "fseek" rpc_fseeko_req_t [Stream "fhandle"; Val "offset"; Val "whence"] Int
     rpc_common_resp_t "ret";
   Forward FTELL_ID "ftello" rpc_ftello_req_t [Stream "fhandle"] Long rpc_ftello_resp_t "ret";
   Forward RENAME_ID "rename" rpc_rename_req_t [Ptr "old"; Ptr "new"] Int rpc_common_resp_t "ret";
   Forward REMOVE_ID "remove" rpc_remove_req_t [Ptr "path"] Int rpc_common_resp_t "ret";
   Forward MKSTMP_ID "mkstemp" rpc_mkstemp_req_t [Ptr "tmp"] Int rpc_common_resp_t "ret";
   Forward FFLUSH_ID "fflush" rpc_fflush_req_t [Stream "fhandle"] Int rpc_fflush_resp_t "ret";
   Forward GETWC_ID "getwc" rpc_getwc_req_t [Stream "fhandle"] UInt rpc_getwc_resp_t "ret";
   Forward PUTWC_ID "putwc" rpc_putwc_req_t [Val "wc"; Stream "fhandle"] UInt rpc_putwc_resp_t "ret";
   Forward PUTC_ID "putc" rpc_putc_req_t [Val "c"; Stream "fhandle"] Int rpc_putc_resp_t "ret";
   Forward FDOPEN_ID "fdopen" rpc_fdopen_req_t [Val "fd"; Ptr "mode"] ULong rpc_fdopen_resp_t "fhandle";
   Forward FILENO_ID "fileno" rpc_fileno_req_t [RawStream "fhandle"] Int rpc_fileno_resp_t "ret";
   Forward PUTCHAR_ID "putchar" rpc_putchar_req_t [Val "ch"] Int rpc_putchar_resp_t "ret"].

Definition result_field_ok (d : forward) : bool :=
  bool_decide ((f_id d, f_req d) ∈ requests) && bool_decide ((f_id d, f_resp d) ∈ responses) &&
  bool_decide (f_field d ∈ (f_resp d).*1) && bool_decide (ftype (f_resp d) (f_field d) = f_ret d) &&
  negb (String.eqb (f_field d) "trace_id") && negb (String.eqb (f_field d) "errnum").

Lemma result_fields_ok d :
  d ∈ forwarded ->
  (f_id d, f_resp d) ∈ responses /\ f_field d ∈ (f_resp d).*1 /\ ftype (f_resp d) (f_field d) = f_ret d /\
  f_field d <> "trace_id" /\ f_field d <> "errnum".
Proof.
  intros Hin. assert (forallb result_field_ok forwarded = true) as H by by vm_compute.
  rewrite forallb_forall in H. apply list_elem_of_In, H in Hin. unfold result_field_ok in Hin.
  apply andb_true_iff in Hin as [[[[[_ Hr]%andb_true_iff Hf]%andb_true_iff Ht]%andb_true_iff Ht']%andb_true_iff He].
  apply bool_decide_eq_true in Hr, Hf, Ht. apply negb_true_iff in Ht', He.
  apply String.eqb_neq in Ht', He. done.
Qed.

(** ** The handlers do what the description says *)

Section forward.
Context (OK : Z) (stk : list Z).

(** The response is built in place or in a zeroed structure. *)
Definition performs (d : forward) (resp req : list Z) : rio (option Z) :=
  r <- libc (f_fn d) (farg_value req (f_req d) <$> f_args d);;
  reply_with OK (f_id d) (f_resp d) resp (f_field d) (cast (f_ret d) (a_ret r)) (get req (f_req d) "trace_id").

Definition implements (d : forward) : Prop :=
  exists h resp, find_service (service_table OK stk) (f_id d) = Some (f_id d, h) /\
    length resp = length stk /\ forall req, h (Some req) true true = performs d resp req.

Lemma handlers_implement : Forall implements forwarded.
Proof.
  unfold forwarded.
  repeat first [apply Forall_nil_2 | apply Forall_cons_2];
    (eexists;
     first [exists stk; split_and!; [reflexivity..|intros req; reflexivity]
           |eexists (zeroed stk _); split_and!; [reflexivity|apply length_zeroed|intros req; reflexivity]]).
Qed.

(** ** The reply *)

(** What the client OS reads from a message that was answered. *)
Lemma reply_with_message s resp f v trace_id e :
  wf_struct s = true -> (sizeof s <= length resp)%nat -> f ∈ s.*1 -> f <> "trace_id" -> f <> "errnum" ->
  ("trace_id" ∈ s.*1) /\ foff s "trace_id" = 0%nat /\ ftype s "trace_id" = UInt ->
  ("errnum" ∈ s.*1) /\ foff s "errnum" = 4%nat /\ ftype s "errnum" = Int ->
  let m := take (Z.to_nat (Z.of_nat (sizeof s)))
             (memwrite 4 (le_bytes 4 e) (memwrite 0 (le_bytes 4 trace_id) (put resp s f v))) in
  get m s "trace_id" = u32 trace_id /\ get m s "errnum" = i32 e /\ get m s f = cast (ftype s f) v /\
  length m = sizeof s.
Proof.
  intros Hwf Hl Hf Hft Hfe (Ht & Ot & Tt) (He & Oe & Te). rewrite Nat2Z.id. cbn zeta.
  assert (forall m g, g ∈ s.*1 -> get (take (sizeof s) m) s g = get m s g) as Htake.
  { intros m g Hg. destruct (field_in_struct s g Hwf Hg). unfold get. by rewrite memread_take. }
  replace (memwrite 4 _ _) with (put (put (put resp s f v) s "trace_id" trace_id) s "errnum" e)
    by (unfold put, fsize; by rewrite Ot, Tt, Oe, Te).
  rewrite !Htake by done. split_and!.
  - rewrite get_put_other, get_put_same by (rewrite ?length_put; done). by rewrite Tt.
  - rewrite get_put_same by (rewrite ?length_put; done). by rewrite Te.
  - rewrite get_put_other, get_put_other, get_put_same by (rewrite ?length_put; done). done.
  - rewrite length_take, !length_put. lia.
Qed.

(** The calls of a forwarded function. *)
Lemma performs_trace o d resp req :
  d ∈ forwarded -> (sizeof (f_resp d) <= length resp)%nat ->
  exists r e c s u m,
    trace o (performs d resp req) =
      [(Libc (f_fn d) (farg_value req (f_req d) <$> f_args d), r); (GetErrno, e); (ClearErrno, c);
       (RpmsgSend (le_bytes 4 (f_id d) ++ le_bytes 4 OK ++ m), s); (Cleanup, u)] /\
    length m = sizeof (f_resp d) /\
    get m (f_resp d) "trace_id" = u32 (get req (f_req d) "trace_id") /\
    get m (f_resp d) "errnum" = i32 (a_ret e) /\
    get m (f_resp d) (f_field d) = cast (f_ret d) (a_ret r).
Proof.
  intros Hd Hl. destruct (result_fields_ok d Hd) as (Hin & Hf & Ty & Hnt & Hne).
  destruct (response_spec _ _ Hin) as (Hwf & Ht & He & Hsz).
  unfold trace, performs, libc, call, reply_with, set_rsp_base, reply, send_reply, rpc_server_send. cbn [bind exec].
  rewrite (proj2 (Z.ltb_ge _ _)) by lia. cbn [bind exec snd app].
  do 6 eexists. split; [reflexivity|].
  pose proof (fun v t e => reply_with_message (f_resp d) resp (f_field d) v t e Hwf Hl Hf Hnt Hne Ht He) as Hm.
  cbn zeta in Hm. edestruct Hm as (E1 & E2 & E3 & E4). rewrite E1, E2, E3, E4, Ty.
  split_and!; [done..|]. apply cast_small, cast_in_range.
Qed.
End forward.

(** ** Functions that return data *)

(** [read], [recv] and [readlink]: the library stores its data in the response, which is
    cut behind them. *)
Record fetch := Fetch {
  x_id : Z;
  x_fn : string;
  x_req : cstruct;
  x_args : list Z -> list arg;
}.

Definition fetched : list fetch :=
  [Fetch READ_ID "read" rpc_read_req_t (fun req =>
     let fd := get req rpc_read_req_t "fd" in
     [I fd; I (if fd =? 0 then Z.of_nat MAX_STRING_LEN else get req rpc_read_req_t "count")]);
   Fetch RECV_ID "recv" rpc_recv_req_t (fun req =>
     [I (get req rpc_recv_req_t "fd"); I (get req rpc_recv_req_t "len"); I (get req rpc_recv_req_t "flags")]);
   Fetch READLINK_ID "readlink" rpc_readlink_req_t (fun req =>
     [M (from req rpc_readlink_req_t "pathname");
      I (Z.min (Z.of_nat (fsize rpc_readlink_resp_t "buf")) (get req rpc_readlink_req_t "bufsiz"))])].

Section fetch.
Context (OK : Z) (stk : list Z).
Abbreviation s := rpc_read_resp_t.

Definition fetches (d : fetch) (req : list Z) : rio (option Z) :=
  r <- libc (x_fn d) (x_args d req);;
  guard (fits s "buf" (out r 0))
    (let sret := i64 (a_ret r) in
     resp <- set_rsp_base (put (put_bytes stk s "buf" (out r 0)) s "ret" sret) (get req (x_req d) "trace_id");;
     reply OK (x_id d) resp (if 0 <? sret then 16 + sret else 16)).

Lemma handlers_fetch : Forall (fun d => exists h,
  find_service (service_table OK stk) (x_id d) = Some (x_id d, h) /\
  forall req, h (Some req) true true = fetches d req) fetched.
Proof. repeat first [apply Forall_nil_2 | apply Forall_cons_2]; (eexists; split; [|intros req]; reflexivity). Qed.

(** The reply when the library stored as many bytes as it says. *)
Lemma fetches_trace o d req :
  (sizeof s <= length stk)%nat ->
  let r := o [] (Libc (x_fn d) (x_args d req)) in
  Z.of_nat (length (out r 0)) = Z.max 0 (i64 (a_ret r)) -> (length (out r 0) <= fsize s "buf")%nat ->
  exists e c t u m,
    trace o (fetches d req) =
      [(Libc (x_fn d) (x_args d req), r); (GetErrno, e); (ClearErrno, c);
       (RpmsgSend (le_bytes 4 (x_id d) ++ le_bytes 4 OK ++ m), t); (Cleanup, u)] /\
    get m s "trace_id" = u32 (get req (x_req d) "trace_id") /\ get m s "errnum" = i32 (a_ret e) /\
    get m s "ret" = i64 (a_ret r) /\ drop (foff s "buf") m = out r 0.
Proof.
  intros Hl r Hn Hb. change (sizeof s) with 448%nat in Hl. change (fsize s "buf") with 432%nat in Hb.
  unfold trace, fetches, libc, call, set_rsp_base, reply, send_reply, rpc_server_send, guard.
  cbn [bind exec app]. fold r.
  assert (fits s "buf" (out r 0) = true) as -> by (by apply Nat.leb_le).
  assert ((if 0 <? i64 (a_ret r) then 16 + i64 (a_ret r) else 16) = 16 + Z.of_nat (length (out r 0))) as ->
    by (destruct (Z.ltb_spec 0 (i64 (a_ret r))); lia).
  cbn [bind exec]. rewrite (proj2 (Z.ltb_ge _ _)) by (change (Z.of_nat PROXY_MAX_BUF_LEN) with 2024; lia).
  cbn [bind exec snd app]. do 5 eexists. split; [reflexivity|].
  set (e := o _ GetErrno). set (t := get req _ _).
  replace (memwrite 4 (le_bytes 4 (a_ret e)) _)
    with (put (put (put (put_bytes stk s "buf" (out r 0)) s "ret" (i64 (a_ret r))) s "trace_id" t) s "errnum" (a_ret e))
    by done.
  assert (wf_struct s = true) as Hwf by by vm_compute.
  assert (forall f, foff s f + fsize s f <= 16 -> forall m n, get (take (Z.to_nat (16 + Z.of_nat n)) m) s f = get m s f)%nat as Htake.
  { intros f Hf m n. unfold get. rewrite memread_take; [done|lia]. }
  rewrite !Htake by (vm_compute; lia). split_and!.
  - rewrite get_put_other, get_put_same by (rewrite ?length_put, ?length_put_bytes; done || set_solver). done.
  - rewrite get_put_same by (rewrite ?length_put, ?length_put_bytes; done || set_solver). done.
  - rewrite !(get_put_other s Hwf), get_put_same by (rewrite ?length_put, ?length_put_bytes; done || set_solver).
    apply (cast_small Long), (cast_in_range Long).
  - change (foff s "buf") with 16%nat.
    replace (Z.to_nat (16 + Z.of_nat (length (out r 0)))) with (16 + length (out r 0))%nat by lia.
    rewrite <- take_drop_commute. change (take ?n (drop 16 ?m)) with (memread 16 n m). unfold put.
    change (foff s "errnum") with 4%nat. change (fsize s "errnum") with 4%nat.
    change (foff s "trace_id") with 0%nat. change (fsize s "trace_id") with 4%nat.
    change (foff s "ret") with 8%nat. change (fsize s "ret") with 8%nat.
    rewrite !memread_memwrite_apart by (rewrite ?length_memwrite, ?length_le_bytes, ?length_put_bytes; lia).
    unfold put_bytes. apply memread_memwrite. change (foff s "buf") with 16%nat. lia.
Qed.
End fetch.

(** A message whose function has a handler makes the calls of that handler. *)
Lemma cb_trace OK INVALID SUCCESS o stk old data len id h :
  find_service (service_table OK stk) id = Some (id, h) ->
  u32 (le_val (memread 0 8 data)) = id -> len <= RPC_BUFFER_SIZE ->
  trace o (rpmsg_rpc_server_cb OK INVALID SUCCESS stk old data len) =
    trace o (h (Some (memwrite 0 (take (Z.to_nat len) data) old)) true true).
Proof.
  intros Hfind Hid Hlen. unfold rpmsg_rpc_server_cb. cbn zeta.
  rewrite (proj2 (Z.ltb_ge _ _)), Hid, Hfind by done. cbn [fst snd].
  unfold trace. rewrite exec_bind. by destruct (exec o (h _ _ _) []).
Qed.

(** ** Properties *)

(** C6: A remote call of one of the forwarded functions is a local call: when a message
    with its function id arrives, the server calls exactly that function once, with the
    arguments of the request, reads and clears errno, and sends one message with the
    function id and status OK in which the client OS finds the trace id of its request,
    the errno after the call and the function's result, each in the field and with the
    type of the response structure; then the request is released. *)
Theorem rpc_forwards (OK INVALID SUCCESS : Z) (o : oracle rcall ans) (stk old data : list Z) (len : Z) (d : forward) :
  d ∈ forwarded -> u32 (le_val (memread 0 8 data)) = f_id d -> len <= RPC_BUFFER_SIZE ->
  (sizeof (f_resp d) <= length stk)%nat ->
  let req := memwrite 0 (take (Z.to_nat len) data) old in
  exists r e c s u m,
    trace o (rpmsg_rpc_server_cb OK INVALID SUCCESS stk old data len) =
      [(Libc (f_fn d) (farg_value req (f_req d) <$> f_args d), r); (GetErrno, e); (ClearErrno, c);
       (RpmsgSend (le_bytes 4 (f_id d) ++ le_bytes 4 OK ++ m), s); (Cleanup, u)] /\
    length m = sizeof (f_resp d) /\
    get m (f_resp d) "trace_id" = u32 (get req (f_req d) "trace_id") /\
    get m (f_resp d) "errnum" = i32 (a_ret e) /\
    get m (f_resp d) (f_field d) = cast (f_ret d) (a_ret r).
Proof.
  intros Hd Hid Hlen Hstk. cbn zeta.
  destruct (proj1 (Forall_forall _ _) (handlers_implement OK stk) d Hd) as (h & resp & Hfind & Hl & Hh).
  rewrite (cb_trace OK INVALID SUCCESS o stk old data len (f_id d) h Hfind Hid Hlen), Hh.
  apply performs_trace; [done|lia].
Qed.

(** C14: What a remote read, recv or readlink fetches reaches the client OS unchanged: if
    the library stores as many bytes as it returns and they fit the response, the server
    sends one message with the function id, the trace id, errno and the result, and behind
    them exactly these bytes; nothing follows them, and with a result of 0 or less there
    are none. *)
Theorem rpc_returns_data (OK INVALID SUCCESS : Z) (o : oracle rcall ans) (stk old data : list Z) (len : Z) (d : fetch) :
  d ∈ fetched -> u32 (le_val (memread 0 8 data)) = x_id d -> len <= RPC_BUFFER_SIZE ->
  (sizeof rpc_read_resp_t <= length stk)%nat ->
  let req := memwrite 0 (take (Z.to_nat len) data) old in
  let r := o [] (Libc (x_fn d) (x_args d req)) in
  Z.of_nat (length (out r 0)) = Z.max 0 (i64 (a_ret r)) -> (length (out r 0) <= fsize rpc_read_resp_t "buf")%nat ->
  exists e c t u m,
    trace o (rpmsg_rpc_server_cb OK INVALID SUCCESS stk old data len) =
      [(Libc (x_fn d) (x_args d req), r); (GetErrno, e); (ClearErrno, c);
       (RpmsgSend (le_bytes 4 (x_id d) ++ le_bytes 4 OK ++ m), t); (Cleanup, u)] /\
    get m rpc_read_resp_t "trace_id" = u32 (get req (x_req d) "trace_id") /\
    get m rpc_read_resp_t "errnum" = i32 (a_ret e) /\
    get m rpc_read_resp_t "ret" = i64 (a_ret r) /\ drop (foff rpc_read_resp_t "buf") m = out r 0.
Proof.
  intros Hd Hid Hlen Hstk req r Hn Hb.
  destruct (proj1 (Forall_forall _ _) (handlers_fetch OK stk) d Hd) as (h & Hfind & Hh).
  rewrite (cb_trace OK INVALID SUCCESS o stk old data len (x_id d) h Hfind Hid Hlen), Hh.
  by apply fetches_trace.
Qed.

(** Closing file 5 fails with EBADF (9). *)
Definition ebadf_libc : oracle rcall ans :=
  fun _ c => Ans (match c with Libc _ _ => -1 | GetErrno => 9 | _ => 0 end) [] 0 None [] None None.

Lemma rpc_forwards_witness :
  exists r e c s u m,
    trace ebadf_libc (rpmsg_rpc_server_cb 0 (-1) 0 (replicate 12 0) (replicate 16 0)
                        (le_bytes 8 CLOSE_ID ++ le_bytes 4 77 ++ le_bytes 4 5) 16) =
      [(Libc "close" [I 5], r); (GetErrno, e); (ClearErrno, c);
       (RpmsgSend (le_bytes 4 CLOSE_ID ++ le_bytes 4 0 ++ m), s); (Cleanup, u)] /\
    get m rpc_close_resp_t "trace_id" = 77.
Proof.
  destruct (rpc_forwards 0 (-1) 0 ebadf_libc (replicate 12 0) (replicate 16 0)
              (le_bytes 8 CLOSE_ID ++ le_bytes 4 77 ++ le_bytes 4 5) 16
              (Forward CLOSE_ID "close" rpc_close_req_t [Val "fd"] Int rpc_close_resp_t "ret"))
    as (r & e & c & s & u & m & Htr & _ & Ht & _).
  - apply list_elem_of_further, list_elem_of_here.
  - reflexivity.
  - done.
  - vm_compute. lia.
  - exists r, e, c, s, u, m. split; [exact Htr|]. exact Ht.
Defined.

(** Reading 3 bytes. *)
Definition abc_libc : oracle rcall ans :=
  fun _ c => match c with Libc _ _ => Ans 3 [[97; 98; 99]] 0 None [] None None | _ => Ans 0 [] 0 None [] None None end.

Lemma rpc_returns_data_witness :
  exists r e c t u m,
    trace abc_libc (rpmsg_rpc_server_cb 0 (-1) 0 (replicate 448 0) (replicate 20 0)
                      (le_bytes 8 READ_ID ++ le_bytes 4 77 ++ le_bytes 4 5 ++ le_bytes 4 100) 20) =
      [(Libc "read" [I 5; I 100], r); (GetErrno, e); (ClearErrno, c);
       (RpmsgSend (le_bytes 4 READ_ID ++ le_bytes 4 0 ++ m), t); (Cleanup, u)] /\
    drop 16 m = [97; 98; 99].
Proof.
  destruct (rpc_returns_data 0 (-1) 0 abc_libc (replicate 448 0) (replicate 20 0)
              (le_bytes 8 READ_ID ++ le_bytes 4 77 ++ le_bytes 4 5 ++ le_bytes 4 100) 20
              (nth 0 fetched (Fetch 0 EmptyString [] (fun _ => []))))
    as (e & c & t & u & m & Htr & _ & _ & _ & Hm).
  - apply list_elem_of_here.
  - reflexivity.
  - done.
  - vm_compute. lia.
  - reflexivity.
  - vm_compute. lia.
  - eexists _, e, c, t, u, m. split; [exact Htr|exact Hm].
Defined.
