(* ===== verification/Baremetal.v ===== *)
(** * Bare-metal remote processor ([library/remoteproc/baremetal_rproc.c])

    The operations behind a client OS that runs directly on a core: opening the
    device, the notifier thread, memory mappings, detection and restoring of a
    running client OS, boot and shutdown.

    The kernel, pthreads, the ELF loader and OpenAMP are external calls.  The
    status word [reserved[0]] of the resource table lies in memory shared with
    the client OS, so reading and writing it are external calls too. *)

From S2P Require Import Prelude ShmPool.

Definition CPU_ON_FUNCID : Z := 0xC4000003.
Definition CPU_OFF_FUNCID : Z := 0x84000002.
Definition SYSTEM_RESET : Z := 0x84000009.
Definition SHM_POOL_SIZE : Z := 0x20000.
Definition METAL_BAD_PHYS : Z := 2 ^ 64 - 1.
Definition MAP_FAILED : Z := 2 ^ 64 - 1.
Definition POLLIN : Z := 1.

Inductive ioctl_cmd := IOC_SENDIPI | IOC_CPUON | IOC_QUERY_MEM.

Inductive bcall :=
| OpenMcs
| Pipe
| Close (fd : Z)
| WritePipe (fd : Z)
| PthreadCreate
| PthreadDetach
| PthreadCancel
| Poll
| ReadNotifier
| SetNotifier (b : bool)
| GetNotification (client : Z)
| Ioctl (cmd : ioctl_cmd) (cpu addr : Z)
| Sysconf
| Mmap (size addr : Z)
| Munmap (virt size : Z)
| AllocMem
| AllocIo
| FreeMem
| FreeIo
| IoPhysToVirt (virt pa : Z)
| GetStatus
| SetStatus (v : Z)
| ClockGettime
| Ftell
| LoadHeader
| LocateRscTable
| RemoteprocMmap (da size : Z)
| SetRscTable (size : Z)
| GetEntry
| ReleaseImage.

(** An answer: the result, and further values the call writes through pointers
    (two descriptors, seconds and nanoseconds, address and size). *)
Record bans := Bans { b_ret : Z; b_x : Z; b_y : Z }.

Abbreviation bio := (io bcall bans).

(** ** Status word *)

Definition set_cpu_status (status : Z) : bio unit := _ <- call (SetStatus status);; Ret tt.
Definition get_cpu_status : bio Z := r <- call GetStatus;; Ret (u32 (b_ret r)).

(** [clock_gettime]: seconds and nanoseconds. *)
Definition clock : bio (Z * Z) := r <- call ClockGettime;; Ret (b_x r, b_y r).

(** Milliseconds between two readings, an [unsigned int] (lines 232-233). *)
Definition diff_ms (start now : Z * Z) : Z :=
  let diff := u32 (1000 * i32 (i32 now.1 - i32 start.1)) in
  u32 (diff + Z.quot (i32 (now.2 - start.2)) 1000000).

(** The loop of [wait_cpu_status_reset]; [None] when [fuel] readings did not
    decide it. *)
Fixpoint wait_loop (fuel : nat) (start : Z * Z) (timeout : Z) : bio (option Z) :=
  match fuel with
  | O => Ret None
  | S fuel =>
      status <- get_cpu_status;;
      if status =? 0 then Ret (Some 0)
      else
        now <- clock;;
        if timeout <=? diff_ms start now then Ret (Some (-1)) else wait_loop fuel start timeout
  end.
Definition wait_cpu_status_reset (fuel : nat) (timeout : Z) : bio (option Z) :=
  start <- clock;; wait_loop fuel start timeout.

(** ** Notifier *)

Inductive pedestal_type := BARE_METAL | JAILHOUSE.
(** A member of [g_client_list]: its pedestal and whether it is running. *)
Record client_node := ClientNode { cn_id : Z; cn_ped : pedestal_type; cn_running : bool }.

Fixpoint rproc_notify_all (g_client_list : list client_node) : bio unit :=
  match g_client_list with
  | [] => Ret tt
  | c :: l =>
      match cn_ped c with
      | BARE_METAL =>
          if cn_running c then _ <- call (GetNotification (cn_id c));; rproc_notify_all l
          else rproc_notify_all l
      | _ => rproc_notify_all l
      end
  end.

(** The thread; at most [fuel] rounds. *)
Fixpoint wait_event_loop (fuel : nat) (g_client_list : list client_node) : bio unit :=
  match fuel with
  | O => Ret tt
  | S fuel =>
      n <- call ReadNotifier;;
      if b_ret n =? 0 then Ret tt
      else
        r <- call Poll;;
        if b_ret r =? -1 then Ret tt
        else if negb (Z.land (b_x r) POLLIN =? 0)
             then rproc_notify_all g_client_list;;; wait_event_loop fuel g_client_list
             else wait_event_loop fuel g_client_list
  end.
Definition rproc_wait_event (fuel : nat) (g_client_list : list client_node) : bio unit :=
  _ <- call (SetNotifier true);; wait_event_loop fuel g_client_list.

(** The static variables. *)
Record statics := Statics { mcs_fd : Z; pipe_rd : Z; pipe_wr : Z }.

Definition rproc_register_notifier (st : statics) : bio (Z * statics) :=
  n <- call ReadNotifier;;
  if negb (b_ret n =? 0) then Ret (0, st)
  else
    p <- call Pipe;;
    if b_ret p =? -1 then Ret (-1, st)
    else
      let st := Statics (mcs_fd st) (b_x p) (b_y p) in
      let err (ret : Z) : bio (Z * statics) :=
        _ <- call (Close (pipe_rd st));; _ <- call (Close (pipe_wr st));; Ret (ret, st) in
      c <- call PthreadCreate;;
      if negb (b_ret c =? 0) then err (b_ret c)
      else
        d <- call PthreadDetach;;
        if negb (b_ret d =? 0) then _ <- call PthreadCancel;; err (b_ret d)
        else Ret (0, st).

(** Whether [rproc] is returned. *)
Definition rproc_init (st : statics) : bio (bool * statics) :=
  fd <- call OpenMcs;;
  let st := Statics (b_ret fd) (pipe_rd st) (pipe_wr st) in
  if b_ret fd <? 0 then Ret (false, st)
  else
    r <- rproc_register_notifier st;;
    let '(ret, st) := r in
    if negb (ret =? 0) then _ <- call (Close (mcs_fd st));; Ret (false, st)
    else Ret (true, st).

(** [g_client_list] without the client that is removed. *)
Definition rproc_remove (g_client_list : list client_node) (st : statics) : bio unit :=
  let find := existsb (fun c => match cn_ped c with BARE_METAL => true | _ => false end) g_client_list in
  _ <- call (SetNotifier find);;
  if find then Ret tt
  else
    _ <- call (WritePipe (pipe_wr st));;
    _ <- call (Close (mcs_fd st));;
    _ <- call (Close (pipe_rd st));;
    _ <- call (Close (pipe_wr st));;
    Ret tt.

Definition rproc_notify (cpu_id : Z) : bio Z :=
  r <- call (Ioctl IOC_SENDIPI cpu_id 0);;
  Ret (if b_ret r <? 0 then b_ret r else 0).

(** ** Memory *)

(** [struct remoteproc_mem] and its I/O region. *)
Record rproc_mem := RprocMem { m_pa : Z; m_da : Z; m_size : Z; io_virt : Z }.

(** The result ([None] is NULL), [*pa] and [*da], and [rproc->mems]. *)
Definition rproc_mmap (mems : list rproc_mem) (pa da size : Z) : bio (option Z * (Z * Z) * list rproc_mem) :=
  if (pa =? METAL_BAD_PHYS) && (da =? METAL_BAD_PHYS) then Ret (None, (pa, da), mems)
  else
    let lpa := if pa =? METAL_BAD_PHYS then da else pa in
    let lda := if da =? METAL_BAD_PHYS then lpa else da in
    s <- call Sysconf;;
    let pagesize := b_ret s in
    let aligned_addr := align_down lpa pagesize in
    let offset := u64 (lpa - aligned_addr) in
    let aligned_size := align_up (offset + size) pagesize in
    m <- call (Mmap aligned_size aligned_addr);;
    let va := u64 (b_ret m) in
    if va =? MAP_FAILED then Ret (None, (pa, da), mems)
    else
      a <- call AllocMem;;
      if b_ret a =? 0 then _ <- call (Munmap va aligned_size);; Ret (None, (pa, da), mems)
      else
        i <- call AllocIo;;
        if b_ret i =? 0 then
          _ <- call FreeMem;; _ <- call (Munmap va aligned_size);; Ret (None, (pa, da), mems)
        else
          v <- call (IoPhysToVirt (u64 (va + offset)) lpa);;
          Ret (Some (b_ret v), (lpa, lda), mems ++ [RprocMem lpa lda size (u64 (va + offset))]).

Definition get_mmap_addr_info (pagesize : Z) (m : rproc_mem) : Z * Z :=
  let aligned_addr := align_down (m_pa m) pagesize in
  let offset := u64 (m_pa m - aligned_addr) in
  (u64 (io_virt m - offset), align_up (offset + m_size m) pagesize).

Fixpoint unmap_all (mems : list rproc_mem) : bio unit :=
  match mems with
  | [] => Ret tt
  | m :: mems =>
      s <- call Sysconf;;
      let '(virt, size) := get_mmap_addr_info (b_ret s) m in
      _ <- call (Munmap virt size);;
      _ <- call FreeIo;;
      _ <- call FreeMem;;
      unmap_all mems
  end.

(** ** Configuration, start and shutdown *)

Inductive rproc_state :=
| RPROC_OFFLINE | RPROC_CONFIGURED | RPROC_READY | RPROC_RUNNING | RPROC_SUSPENDED | RPROC_ERROR
| RPROC_STOPPED.

Record rproc := Rproc {
  rp_state : rproc_state;
  rp_rsc_table : bool;       (* non-NULL *)
  rp_rsc_len : Z;
  rp_bitmap : Z;
  rp_bootaddr : Z;
  rp_mems : list rproc_mem;
}.

Definition rproc_shutdown (cpu_id : Z) (r : rproc) : bio (Z * rproc) :=
  set_cpu_status CPU_OFF_FUNCID;;;
  _ <- rproc_notify cpu_id;;
  unmap_all (rp_mems r);;;
  Ret (0, Rproc (rp_state r) false 0 0 (rp_bootaddr r) []).

(** The restoring of a client OS that runs (lines 305-336); the result is [ret],
    [None] when the wait did not end within [fuel] readings. *)
Definition restore_running (fuel : nat) (cpu_id rsc_size : Z) (r : rproc) : bio (option Z * rproc) :=
  set_cpu_status SYSTEM_RESET;;;
  _ <- rproc_notify cpu_id;;
  w <- wait_cpu_status_reset fuel 200;;
  match w with
  | None => Ret (None, r)
  | Some w =>
      if negb (w =? 0) then Ret (Some 0, r)
      else
        t <- call (SetRscTable rsc_size);;
        if negb (b_ret t =? 0) then Ret (Some (b_ret t), r)
        else
          e <- call GetEntry;;
          set_cpu_status CPU_ON_FUNCID;;;
          Ret (Some 0, Rproc RPROC_READY true rsc_size (rp_bitmap r) (b_ret e) (rp_mems r))
  end.

Section config.
Context {IO : Type} (remoteproc_mmap : Z -> Z -> option (Z * Z * IO)).

Definition rproc_config (fuel : nat) (cpu_id : Z) (pool : shmem IO) (r : rproc)
    : bio (option Z * rproc * shmem IO) :=
  q <- call (Ioctl IOC_QUERY_MEM 0 0);;
  if b_ret q <? 0 then Ret (Some (b_ret q), r, pool)
  else
    let '(ret, pool) := init_shmem_pool remoteproc_mmap pool (u64 (b_x q + u32 (cpu_id * SHM_POOL_SIZE))) SHM_POOL_SIZE in
    if negb (ret =? 0) then Ret (Some ret, r, pool)
    else
      _ <- call Ftell;;
      h <- call LoadHeader;;
      if b_ret h <? 0 then _ <- call ReleaseImage;; Ret (Some (b_ret h), r, pool)
      else
        l <- call LocateRscTable;;
        let '(rsc_da, rsc_size) := (b_x l, b_y l) in
        if negb (b_ret l =? 0) || (rsc_size <=? 0) then _ <- call ReleaseImage;; Ret (Some (b_ret l), r, pool)
        else
          t <- call (RemoteprocMmap rsc_da rsc_size);;
          if b_ret t =? 0 then _ <- call ReleaseImage;; Ret (Some (- ENOMEM), r, pool)
          else
            status <- get_cpu_status;;
            res <- (if status =? CPU_ON_FUNCID then restore_running fuel cpu_id rsc_size r
                    else Ret (Some (b_ret l), r));;
            let '(ret, r) := res in
            _ <- call ReleaseImage;;
            Ret (ret, r, pool).
End config.

Definition rproc_start (cpu_id : Z) (r : rproc) : bio Z :=
  status <- get_cpu_status;;
  if status =? CPU_ON_FUNCID then Ret 0
  else
    i <- call (Ioctl IOC_CPUON cpu_id (rp_bootaddr r));;
    if b_ret i <? 0 then Ret (b_ret i)
    else set_cpu_status CPU_ON_FUNCID;;; Ret 0.

(** ** Mappings are undone *)

(** The mappings, [struct remoteproc_mem]s and I/O regions a trace leaves;
    [None] once something is released that is not held. *)
Definition mledger_state := option (list (Z * Z) * nat * nat).
Definition drop_one (n : nat) : option nat := match n with O => None | S n => Some n end.

Definition mledger (s : mledger_state) (c : bcall) (a : bans) : mledger_state :=
  '(maps, mems, ios) ← s;
  match c with
  | Mmap size _ => if u64 (b_ret a) =? MAP_FAILED then s else Some ((u64 (b_ret a), size) :: maps, mems, ios)
  | Munmap virt size => (fun maps => (maps, mems, ios)) <$> remove1 (virt, size) maps
  | AllocMem => if b_ret a =? 0 then s else Some (maps, S mems, ios)
  | AllocIo => if b_ret a =? 0 then s else Some (maps, mems, S ios)
  | FreeMem => (fun mems => (maps, mems, ios)) <$> drop_one mems
  | FreeIo => (fun ios => (maps, mems, ios)) <$> drop_one ios
  | _ => s
  end.

(** The page size does not change. *)
Definition page_size_is (ps : Z) (c : bcall) (a : bans) : Prop := c = Sysconf -> b_ret a = ps.

Abbreviation mwp ps := (wpv mledger (page_size_is ps)).

(** The mappings held are those of the registered memories. *)
Definition mems_held (ps : Z) (mems : list rproc_mem) (s : mledger_state) : Prop :=
  exists maps, s = Some (maps, length mems, length mems) /\ maps ≡ₚ map (get_mmap_addr_info ps) mems.

(** [get_mmap_addr_info] recovers the arguments of [mmap]. *)
Lemma get_mmap_addr_info_inverse ps pa da size va :
  0 <= va < 2 ^ 64 ->
  let offset := u64 (pa - align_down pa ps) in
  get_mmap_addr_info ps (RprocMem pa da size (u64 (va + offset))) = (va, align_up (offset + size) ps).
Proof.
  intros Hva offset. unfold get_mmap_addr_info. cbn [m_pa io_virt m_size]. f_equal. fold offset.
  unfold wrapu. rewrite Zminus_mod_idemp_l. replace (va + offset - offset) with va by lia.
  by apply Z.mod_small.
Qed.

Lemma rproc_mmap_wp ps mems pa da size s :
  mems_held ps mems s -> mwp ps (rproc_mmap mems pa da size) (fun r s => mems_held ps r.2 s) s.
Proof.
  intros Hs. unfold rproc_mmap. case_match; [done|].
  destruct Hs as (maps & -> & Hm). cbn [bind call wpv mledger mbind option_bind].
  intros sc Hsc. rewrite (Hsc eq_refl). clear sc Hsc. cbn zeta.
  set (lpa := if pa =? METAL_BAD_PHYS then da else pa).
  set (off := u64 (lpa - align_down lpa ps)). set (sz := align_up (off + size) ps).
  cbn [bind call wpv]. intros m _. cbn [mledger mbind option_bind].
  pose proof (wrapu_range 64 (b_ret m)) as Hva. set (va := u64 (b_ret m)) in *.
  case_match; [by exists maps|].
  cbn [bind call wpv]. intros a _. cbn [mledger mbind option_bind].
  case_match.
  { cbn [bind call wpv]. intros _x _. cbn [mledger mbind option_bind]. rewrite remove1_head. by exists maps. }
  cbn [bind call wpv]. intros i _. cbn [mledger mbind option_bind].
  case_match.
  { cbn [bind call wpv]. intros _x _ _y _. cbn [mledger mbind option_bind fmap option_fmap option_map drop_one].
    rewrite remove1_head. by exists maps. }
  cbn [bind call wpv]. intros v _. cbn [mledger mbind option_bind].
  exists ((va, sz) :: maps). cbn [snd]. rewrite length_app, map_app, Nat.add_1_r. split; [done|].
  cbn [map]. rewrite Hm. unfold off. rewrite (get_mmap_addr_info_inverse ps) by lia.
  apply Permutation_cons_append.
Qed.

Lemma unmap_all_wp ps mems s :
  mems_held ps mems s -> mwp ps (unmap_all mems) (fun _ s => s = Some ([], 0%nat, 0%nat)) s.
Proof.
  revert s. induction mems as [|m mems IH]; intros s (maps & -> & Hm).
  - cbn [map] in Hm. apply Permutation_nil_r in Hm as ->. done.
  - cbn [unmap_all bind call wpv mledger mbind option_bind]. intros sc Hsc. rewrite (Hsc eq_refl).
    cbn [map] in Hm. destruct (get_mmap_addr_info ps m) as [virt size].
    destruct (remove1_perm (virt, size) maps _ Hm) as (maps' & E & Hm').
    cbn [bind call wpv]. intros a _ b _ c _.
    cbn [mledger mbind option_bind]. rewrite E.
    cbn [fmap option_fmap option_map mbind option_bind drop_one length]. apply IH. by exists maps'.
Qed.

(** A series of [remoteproc_mmap] requests served by this driver. *)
Fixpoint run_mmaps (reqs : list (Z * Z * Z)) (mems : list rproc_mem) : bio (list rproc_mem) :=
  match reqs with
  | [] => Ret mems
  | (pa, da, size) :: reqs => r <- rproc_mmap mems pa da size;; run_mmaps reqs r.2
  end.

Lemma run_mmaps_wp ps reqs mems s :
  mems_held ps mems s -> mwp ps (run_mmaps reqs mems) (fun mems s => mems_held ps mems s) s.
Proof.
  revert mems s. induction reqs as [|[[pa da] size] reqs IH]; intros mems s Hs; [done|].
  cbn [run_mmaps]. apply wpv_bind. eapply wpv_mono; [by apply rproc_mmap_wp|].
  intros r s' Hs'. by apply IH.
Qed.

Lemma rproc_shutdown_wp ps cpu_id r s :
  mems_held ps (rp_mems r) s ->
  mwp ps (rproc_shutdown cpu_id r) (fun r s => s = Some ([], 0%nat, 0%nat) /\ rp_mems r.2 = []) s.
Proof.
  intros Hs. unfold rproc_shutdown, set_cpu_status, rproc_notify. cbn [bind call wpv].
  intros a _ b _. destruct Hs as (maps & -> & Hm). cbn [mledger mbind option_bind].
  apply wpv_bind. eapply wpv_mono; [apply (unmap_all_wp ps); by exists maps|].
  intros [] s' ->. done.
Qed.

(** C17: Shutting a client OS down undoes every mapping: after any series of
    mapping requests, each of which may fail in any call it makes, rproc_shutdown
    unmaps exactly the address ranges that were mapped, with the page-rounded
    addresses and sizes of the mmap calls, frees every descriptor, and releases
    nothing twice.  The page size that sysconf reports must not change, the client
    has its resource table, and munmap, whose result is not checked, is taken to
    work. *)
Theorem rproc_mems_balanced (ps : Z) (o : oracle bcall bans) (reqs : list (Z * Z * Z)) (cpu_id : Z) :
  (forall h c, page_size_is ps c (o h c)) ->
  let '(mems, h) := exec o (run_mmaps reqs []) [] in
  let r := Rproc RPROC_RUNNING true 0 0 0 mems in
  observe mledger (Some ([], 0%nat, 0%nat)) (exec o (rproc_shutdown cpu_id r) h).2 = Some ([], 0%nat, 0%nat).
Proof.
  intros Ho.
  assert (mems_held ps [] (Some ([], 0%nat, 0%nat))) as H0 by (by exists []).
  pose proof (wpv_sound mledger (page_size_is ps) o _ _ (Some ([], 0%nat, 0%nat)) [] Ho
                (run_mmaps_wp ps reqs [] _ H0)) as Hrun.
  destruct (exec o (run_mmaps reqs []) []) as [mems h]. cbn [fst snd] in Hrun.
  by apply (wpv_sound mledger (page_size_is ps) o _ _ (Some ([], 0%nat, 0%nat)) h Ho
    (rproc_shutdown_wp ps cpu_id (Rproc RPROC_RUNNING true 0 0 0 mems) _ Hrun)).
Qed.

(** The second mapping fails for lack of memory. *)
Definition mmap_oracle : oracle bcall bans := fun h c =>
  match c with
  | Sysconf => Bans 4096 0 0
  | Mmap size addr => Bans (0x7f0000000000 + addr) 0 0
  | AllocIo => if (length h <? 8)%nat then Bans 1 0 0 else Bans 0 0 0
  | _ => Bans 1 0 0
  end.

Lemma rproc_mems_balanced_witness :
  let '(mems, h) := exec mmap_oracle (run_mmaps [(0x70001010, METAL_BAD_PHYS, 100); (METAL_BAD_PHYS, 0x70008000, 64)] []) [] in
  length mems = 1%nat /\
  observe mledger (Some ([], 0%nat, 0%nat))
    (exec mmap_oracle (rproc_shutdown 3 (Rproc RPROC_RUNNING true 0 0 0 mems)) h).2 = Some ([], 0%nat, 0%nat).
Proof.
  pose proof (rproc_mems_balanced 4096 mmap_oracle
    [(0x70001010, METAL_BAD_PHYS, 100); (METAL_BAD_PHYS, 0x70008000, 64)] 3) as H.
  destruct (exec mmap_oracle _ []) as [mems h] eqn:E. split.
  - vm_compute in E. by simplify_eq.
  - apply H. intros h' c ->. done.
Defined.

(** ** Waiting for the client OS *)

Definition time_ok (t : Z * Z) : Prop := 0 <= t.1 < 2 ^ 31 /\ 0 <= t.2 < 10 ^ 9.
Definition elapsed_ns (start now : Z * Z) : Z := (now.1 - start.1) * 10 ^ 9 + (now.2 - start.2).

(** The computed difference is within a millisecond of the elapsed time. *)
Lemma diff_ms_accurate start now :
  time_ok start -> time_ok now -> 0 <= elapsed_ns start now -> now.1 - start.1 < 2 ^ 20 ->
  (diff_ms start now - 1) * 10 ^ 6 < elapsed_ns start now < (diff_ms start now + 1) * 10 ^ 6.
Proof.
  destruct start as [s1 s2], now as [n1 n2]. unfold time_ok, elapsed_ns, diff_ms. cbn [fst snd].
  intros [? ?] [? ?] He Hd.
  rewrite (wraps_small 32 n1), (wraps_small 32 s1), (wraps_small 32 (n1 - s1)), (wraps_small 32 (n2 - s2)) by lia.
  pose proof (Z.quot_rem' (n2 - s2) 1000000) as Hq.
  assert (- 1000000 < Z.rem (n2 - s2) 1000000 < 1000000) as Hr.
  { pose proof (Z.rem_bound_abs (n2 - s2) 1000000). lia. }
  set (q := Z.quot (n2 - s2) 1000000) in *.
  assert (-1000 <= q <= 1000) by lia.
  rewrite (wrapu_small 32 (1000 * (n1 - s1))) by lia.
  destruct (decide (n1 = s1)) as [->|].
  - assert (0 <= q). { apply Z.quot_pos; lia. } rewrite wrapu_small; lia.
  - rewrite wrapu_small; lia.
Qed.

(** How the loop ended: its last call, or the last of [fuel] clock readings. *)
Lemma wait_loop_spec o fuel start timeout h :
  let '(r, h') := exec o (wait_loop fuel start timeout) h in
  let late h0 := timeout <= diff_ms start (b_x (o h0 ClockGettime), b_y (o h0 ClockGettime)) in
  match r with
  | Some 0 => exists h0, h' = h0 ++ [(GetStatus, o h0 GetStatus)] /\ u32 (b_ret (o h0 GetStatus)) = 0
  | Some _ => exists h0, h' = h0 ++ [(ClockGettime, o h0 ClockGettime)] /\ late h0
  | None => fuel = 0%nat \/ exists h0, S (length h0) = (length h + 2 * fuel)%nat /\ ~ late h0
  end.
Proof.
  revert h. induction fuel as [|fuel IH]; intros h; cbn [wait_loop exec]; [by left|].
  unfold get_cpu_status, clock. cbn [bind call exec].
  destruct (u32 (b_ret (o h GetStatus)) =? 0) eqn:E0; bool_to_Prop; cbn [bind call exec].
  { by exists h. }
  set (h0 := h ++ [(GetStatus, o h GetStatus)]).
  destruct (timeout <=? _) eqn:E1; bool_to_Prop; cbn [exec]; [by exists h0|].
  specialize (IH (h0 ++ [(ClockGettime, o h0 ClockGettime)])).
  destruct (exec o (wait_loop fuel start timeout) _) as [[[|p|p]|] h']; [done..|].
  right. assert (length h0 = S (length h)) as Hl by (unfold h0; rewrite length_app; cbn; lia).
  destruct IH as [->|(h1 & Hl1 & Hn)].
  - exists h0. split; lia.
  - exists h1. split; [|done]. rewrite length_app in Hl1. cbn in Hl1. lia.
Qed.

(** C34: Waiting for the client OS to clear the status word ends: it returns 0
    only after having read 0, and -1 only when more than [timeout - 1]
    milliseconds have passed since the wait began; and once the clock is
    [timeout + 1] milliseconds past the start it returns, so [fuel] readings are
    enough if the clock gets there within [fuel] readings. *)
Theorem wait_cpu_status_reset_spec (o : oracle bcall bans) (fuel : nat) (timeout : Z) :
  let start := (b_x (o [] ClockGettime), b_y (o [] ClockGettime)) in
  let time a := (b_x a, b_y a) in
  let h' := trace o (wait_cpu_status_reset fuel timeout) in
  (forall h, time_ok (time (o h ClockGettime)) /\ 0 <= elapsed_ns start (time (o h ClockGettime)) /\
     (time (o h ClockGettime)).1 - start.1 < 2 ^ 20) ->
  (forall h, (2 * fuel <= length h)%nat -> (timeout + 1) * 10 ^ 6 <= elapsed_ns start (time (o h ClockGettime))) ->
  (0 < fuel)%nat ->
  (result o (wait_cpu_status_reset fuel timeout) = Some 0 /\
     exists h0, h' = h0 ++ [(GetStatus, o h0 GetStatus)] /\ u32 (b_ret (o h0 GetStatus)) = 0) \/
  (exists e h0, result o (wait_cpu_status_reset fuel timeout) = Some e /\ e <> 0 /\
     h' = h0 ++ [(ClockGettime, o h0 ClockGettime)] /\
     (timeout - 1) * 10 ^ 6 < elapsed_ns start (time (o h0 ClockGettime))).
Proof.
  intros start time h' Hclock Hlate Hfuel. subst h'.
  unfold result, trace, wait_cpu_status_reset, clock. cbn [bind call exec app]. fold start.
  pose proof (wait_loop_spec o fuel start timeout [(ClockGettime, o [] ClockGettime)]) as Hw.
  destruct (exec o (wait_loop fuel start timeout) _) as [r h]. cbn [fst snd] in *. cbn zeta in Hw.
  assert (forall h0, (diff_ms start (time (o h0 ClockGettime)) - 1) * 10 ^ 6 <
            elapsed_ns start (time (o h0 ClockGettime)) <
            (diff_ms start (time (o h0 ClockGettime)) + 1) * 10 ^ 6) as Hacc.
  { intros h0. destruct (Hclock h0) as (Hok & He & Hs). destruct (Hclock []) as (Hok0 & _).
    by apply diff_ms_accurate. }
  destruct r as [[|p|p]|].
  - left. split; [done|]. exact Hw.
  - right. destruct Hw as (h0 & -> & Ha). exists (Z.pos p), h0. specialize (Hacc h0). unfold time in *.
    split_and!; [done|done|done|lia].
  - right. destruct Hw as (h0 & -> & Ha). exists (Z.neg p), h0. specialize (Hacc h0). unfold time in *.
    split_and!; [done|done|done|lia].
  - exfalso. destruct Hw as [?|(h0 & Hl & Hn)]; [lia|]. cbn in Hl. specialize (Hacc h0).
    specialize (Hlate h0 ltac:(lia)). unfold time in *. lia.
Qed.

(** A clock that advances 50 ms per call, and a client OS that does not answer. *)
Definition tick_oracle : oracle bcall bans := fun h c =>
  let ms := 50 * Z.of_nat (Nat.min (length h) 15) in
  match c with
  | ClockGettime => Bans 0 1000 (ms * 1000000)
  | _ => Bans SYSTEM_RESET 0 0
  end.

Lemma wait_cpu_status_reset_spec_witness :
  result tick_oracle (wait_cpu_status_reset 3 200) = Some (-1) /\
  exists h0, (200 - 1) * 10 ^ 6 <
    elapsed_ns (1000, 0) (b_x (tick_oracle h0 ClockGettime), b_y (tick_oracle h0 ClockGettime)).
Proof.
  destruct (wait_cpu_status_reset_spec tick_oracle 3 200) as [(H & _)|(e & h0 & H & _ & _ & Hl)].
  - intros h. unfold time_ok, elapsed_ns. cbn. lia.
  - intros h Hl. unfold elapsed_ns. cbn. lia.
  - lia.
  - by vm_compute in H.
  - split; [by vm_compute|]. exists h0. exact Hl.
Defined.

(** ** A client OS that runs is not booted again *)

(** The last value the host wrote to the status word, and whether it asked the
    kernel to boot a core. *)
Definition boot_monitor (s : option Z * bool) (c : bcall) (a : bans) : option Z * bool :=
  match c with
  | SetStatus v => (Some v, s.2)
  | Ioctl IOC_CPUON _ _ => (s.1, true)
  | _ => s
  end.

Abbreviation owp := (wp boot_monitor).

Lemma wait_loop_owp fuel start timeout (Q : option Z -> option Z * bool -> Prop) s :
  (forall r, Q r s) -> owp (wait_loop fuel start timeout) Q s.
Proof.
  intros HQ. induction fuel as [|fuel IH]; cbn [wait_loop]; [apply HQ|].
  unfold get_cpu_status, clock. cbn [bind call wp]. intros a. cbn [boot_monitor].
  case_match; [apply HQ|]. cbn [bind call wp]. intros b. cbn [boot_monitor]. case_match; [apply HQ|apply IH].
Qed.

Lemma restore_running_owp fuel cpu_id rsc_size r :
  rp_state r <> RPROC_READY ->
  owp (restore_running fuel cpu_id rsc_size r)
    (fun res s => s.2 = false /\ (rp_state res.2 = RPROC_READY -> s.1 = Some CPU_ON_FUNCID)) (None, false).
Proof.
  intros Hr. unfold restore_running, set_cpu_status, rproc_notify, wait_cpu_status_reset, clock.
  cbn [bind call wp]. intros a b c. cbn [boot_monitor fst snd].
  apply wp_bind, wait_loop_owp. intros [w|]; [|done].
  case_match; [done|]. cbn [bind call wp]. intros t. cbn [boot_monitor]. case_match; [done|].
  cbn [bind call wp]. by intros e d.
Qed.

Lemma rproc_config_owp {IO} (mm : Z -> Z -> option (Z * Z * IO)) fuel cpu_id pool r :
  rp_state r <> RPROC_READY ->
  owp (rproc_config mm fuel cpu_id pool r)
    (fun res s => s.2 = false /\ (rp_state res.1.2 = RPROC_READY -> s.1 = Some CPU_ON_FUNCID)) (None, false).
Proof.
  intros Hr. unfold rproc_config, get_cpu_status. cbn [bind call wp]. intros q. cbn [boot_monitor].
  case_match; [done|]. destruct (init_shmem_pool _ _ _ _) as [ret pool'].
  case_match; [done|]. cbn [bind call wp]. intros f h. cbn [boot_monitor]. case_match; [done|].
  cbn [bind call wp]. intros l. cbn [boot_monitor]. case_match; [done|].
  cbn [bind call wp]. intros t. cbn [boot_monitor]. case_match; [done|].
  cbn [bind call wp]. intros st. cbn [boot_monitor].
  apply wp_bind. case_match.
  - eapply wp_mono; [by apply restore_running_owp|]. intros [ret' r'] s Hs. cbn [bind call wp snd fst] in *.
    intros a. exact Hs.
  - cbn. by intros a.
Qed.

(** C35: A client OS that survived a restart of the host is taken over, not booted
    again: when rproc_config finds it alive (the state becomes READY), starting it
    succeeds without IOC_CPUON, on every path and whatever the calls answer, as
    long as the client OS leaves a status word of CPU_ON alone. *)
Theorem running_client_not_rebooted {IO} (mm : Z -> Z -> option (Z * Z * IO)) (o : oracle bcall bans)
    (fuel : nat) (cpu_id : Z) (pool : shmem IO) (r : rproc) :
  rp_state r <> RPROC_READY ->
  (forall h, (observe boot_monitor (None, false) h).1 = Some CPU_ON_FUNCID -> b_ret (o h GetStatus) = CPU_ON_FUNCID) ->
  let '((_, r', _), h) := exec o (rproc_config mm fuel cpu_id pool r) [] in
  rp_state r' = RPROC_READY ->
  let '(ret, h') := exec o (rproc_start cpu_id r') h in
  ret = 0 /\ (observe boot_monitor (None, false) h').2 = false.
Proof.
  intros Hr Ho.
  pose proof (wp_sound boot_monitor o _ _ (None, false) [] (rproc_config_owp mm fuel cpu_id pool r Hr)) as H.
  destruct (exec o (rproc_config mm fuel cpu_id pool r) []) as [[[ret r'] pool'] h]. cbn [fst snd] in H.
  destruct H as [Hb Hs]. intros Hready. specialize (Hs Hready).
  unfold rproc_start, get_cpu_status. cbn [bind call exec]. rewrite (Ho h Hs).
  rewrite wrapu_small by (by vm_compute). rewrite Z.eqb_refl. cbn [exec].
  split; [done|]. by rewrite observe_snoc.
Qed.

(** A running client OS that clears the reset request at once. *)
Definition alive_oracle : oracle bcall bans := fun h c =>
  match c with
  | GetStatus =>
      match (observe boot_monitor (None, false) h).1 with
      | Some v => Bans (if v =? CPU_ON_FUNCID then v else 0) 0 0
      | None => Bans CPU_ON_FUNCID 0 0
      end
  | LocateRscTable => Bans 0 0x70000000 256
  | RemoteprocMmap _ _ => Bans 0x7f0000000000 0 0
  | _ => Bans 0 0 0
  end.

Lemma running_client_not_rebooted_witness :
  let '((_, r', _), h) := exec alive_oracle
      (rproc_config (fun _ _ => Some (4096, 0, tt)) 10 3 (Shmem 0 0 0 0 0 tt)
         (Rproc RPROC_CONFIGURED false 0 0 0 [])) [] in
  rp_state r' = RPROC_READY /\
  let '(ret, h') := exec alive_oracle (rproc_start 3 r') h in
  ret = 0 /\ (observe boot_monitor (None, false) h').2 = false.
Proof.
  pose proof (running_client_not_rebooted (fun _ _ => Some (4096, 0, tt)) alive_oracle 10 3
    (Shmem 0 0 0 0 0 tt) (Rproc RPROC_CONFIGURED false 0 0 0 [])) as H.
  destruct (exec alive_oracle (rproc_config _ _ _ _ _) []) as [[[ret r'] pool'] h] eqn:E.
  assert (rp_state r' = RPROC_READY) as Hr by (vm_compute in E; by simplify_eq).
  split; [done|]. apply H; [done| |done].
  intros h' Hh. unfold alive_oracle. by rewrite Hh.
Defined.

(** ** Descriptors *)

(** The descriptors a trace leaves open. *)
Definition fd_ledger (s : list Z) (c : bcall) (a : bans) : list Z :=
  match c with
  | OpenMcs => if b_ret a <? 0 then s else b_ret a :: s
  | Pipe => if b_ret a =? -1 then s else b_x a :: b_y a :: s
  | Close fd => default s (remove1 fd s)
  | _ => s
  end.

(** Each new client opens the device again and overwrites [mcs_fd]; only the last
    descriptor is ever closed (lines 134 and 435). *)
Theorem mcs_fd_leaks :
  exists o : oracle bcall bans,
    let p :=
      st <- rproc_init (Statics 0 0 0);; st <- rproc_init st.2;;
      rproc_remove [ClientNode 0 BARE_METAL false] st.2;;; rproc_remove [] st.2 in
    observe fd_ledger [] (trace o p) = [10].
Proof.
  exists (fun h c => match c with
    | OpenMcs => Bans (10 + Z.of_nat (length h)) 0 0
    | Pipe => Bans 0 3 4
    | ReadNotifier => Bans (if (length h <? 3)%nat then 0 else 1) 0 0
    | _ => Bans 0 0 0 end).
  by vm_compute.
Qed.

(** The notifier flag is set by the new thread, not by its creator: a second
    client that is created before the thread runs gets a second pipe and thread. *)
Theorem notifier_registered_twice :
  exists o : oracle bcall bans,
    let p := st <- rproc_init (Statics 0 0 0);; rproc_init st.2 in
    length (List.filter (fun ca => match ca.1 with PthreadCreate => true | _ => false end) (trace o p)) = 2%nat.
Proof. exists (fun _ _ => Bans 0 0 0). by vm_compute. Qed.
