(* ===== verification/Mica.v ===== *)
(** * Life cycle of a client OS ([library/mica/mica.c],
    [library/remoteproc/remoteproc_core.c], [library/rpmsg_device/rpmsg_vdev.c],
    [library/rbuf_device/rbuf_dev.c])

    Creating, starting, stopping and removing a client OS, with the firmware file,
    the rpmsg device and the ring buffer device it owns.  OpenAMP's [remoteproc]
    is outside this repository: its calls are external, and an answer carries the
    [rproc->state] and [rproc->rsc_table] it leaves behind.  [remoteproc_load] is given
    the image store of this repository: it opens it, makes the loads it chooses, and
    closes it. *)

From S2P Require Import Prelude RingBuffer ShmPool Baremetal.

Inductive lcall :=
| RemoteprocInit (jailhouse : bool)
| RemoteprocConfig
| RemoteprocLoads
| RemoteprocLoad
| RemoteprocStart
| RemoteprocStop
| RemoteprocShutdown
| RemoteprocRemove
| RemoteprocMmapVring (pa da size : Z)
| Fopen
| Ftell
| MallocBuf (size : Z)
| Realloc (size : Z)
| IoPhysToVirtLoad (pa : Z)
| Fread (whole : bool) (size : Z)   (* [whole]: the file, when it is opened *)
| FreeBuf
| Fclose
| AllocVdev
| FreeVdev
| CreateVirtio
| RemoveVirtio
| ZeroShmem (va size : Z)
| InitVdevShmPool (va size : Z)
| InitVdev
| DeinitVdev
| UnregisterAllServices
| AllocRbufDev
| FreeRbufDev (dev : Z)
| CacheInvalidate
| PthreadCancel
| PthreadJoin.

(** What [remoteproc_load] asks of the image store it has opened: the arguments
    of each [load] may depend on the results of the ones before. *)
Inductive loads :=
| LoadsDone
| Load (has_data : bool) (size pa : Z) (next : Z -> loads).

(** [l_ret] is the result; [l_state] and [l_rsc] are what an OpenAMP call leaves
    in [rproc]; [l_da] is the device address a mapping returns; [l_loads] is what
    [remoteproc_load] does with the image store, [None] if it does not open it. *)
Record lans := Lans {
  l_ret : Z; l_state : rproc_state; l_rsc : bool; l_da : Z; l_loads : option loads }.
Abbreviation lio := (io lcall lans).

(** [struct fw_rsc_vdev_vring], the first vdev and the ring buffer resource of
    the resource table; [None] if [find_rsc] finds none. *)
Record vring := Vring { vr_da : Z; vr_num : Z; vr_align : Z }.
Record rbuf_rsc := RbufRsc { rr_len : Z; rr_pa : Z; rr_da : Z; rr_state : Z }.
Record rsc_contents := Rsc {
  rsc_vrings : option (list vring);
  rsc_rbuf : option rbuf_rsc;
  rsc_reserved0 : Z;
}.
(** [struct rbuf_device], with the rings that shared memory holds at [tx_va] and
    [rx_va]. *)
Record rbuf_device := RbufDevice {
  tx_va : Z; rx_va : Z; rbuf_len : Z;
  tx_ring : option ring_buffer; rx_ring : option ring_buffer;
}.
Definition rbuf_device_null : rbuf_device := RbufDevice 0 0 0 None None.

Record mclient (IO : Type) := MClient {
  mc_ped : option pedestal_type;     (* [None]: another value *)
  mc_debug : bool;
  mc_state : rproc_state;
  mc_rsc_table : bool;
  mc_rsc : rsc_contents;
  mc_pool : shmem IO;
  mc_rdev : bool;
  mc_rbuf_dev : Z;                   (* pointer, 0 is NULL *)
  mc_rbuf : rbuf_device;             (* what it points to *)
  mc_gdb_thread : bool;
  mc_listed : bool;                  (* linked in [g_client_list] *)
}.
Arguments MClient {IO}.
Arguments mc_ped {IO}. Arguments mc_debug {IO}. Arguments mc_state {IO}. Arguments mc_rsc_table {IO}.
Arguments mc_rsc {IO}. Arguments mc_pool {IO}. Arguments mc_rdev {IO}. Arguments mc_rbuf_dev {IO}.
Arguments mc_rbuf {IO}. Arguments mc_gdb_thread {IO}. Arguments mc_listed {IO}.

Definition FW_RSC_U32_ADDR_ANY : Z := 2 ^ 32 - 1.
Definition RBUF_STATE_INIT : Z := 1.

Section life_cycle.
Context {IO : Type}.
Context (metal_io_phys_to_virt : IO -> Z -> option Z) (metal_io_virt_to_phys : IO -> Z -> Z).
(** [vring_size] of OpenAMP. *)
Context (vring_size : Z -> Z -> Z).
(** What shared memory holds at an address before a ring of the given length is
    put there. *)
Context (ring_at : Z -> Z -> ring_buffer).
Abbreviation client := (mclient IO).

Definition with_rproc (c : client) (a : lans) : client :=
  MClient (mc_ped c) (mc_debug c) (l_state a) (l_rsc a) (mc_rsc c) (mc_pool c) (mc_rdev c)
    (mc_rbuf_dev c) (mc_rbuf c) (mc_gdb_thread c) (mc_listed c).
Definition with_rsc_pool (c : client) (r : rsc_contents) (p : shmem IO) : client :=
  MClient (mc_ped c) (mc_debug c) (mc_state c) (mc_rsc_table c) r p (mc_rdev c)
    (mc_rbuf_dev c) (mc_rbuf c) (mc_gdb_thread c) (mc_listed c).
Definition with_rdev (c : client) (b : bool) : client :=
  MClient (mc_ped c) (mc_debug c) (mc_state c) (mc_rsc_table c) (mc_rsc c) (mc_pool c) b
    (mc_rbuf_dev c) (mc_rbuf c) (mc_gdb_thread c) (mc_listed c).
Definition with_rbuf (c : client) (p : Z) (d : rbuf_device) : client :=
  MClient (mc_ped c) (mc_debug c) (mc_state c) (mc_rsc_table c) (mc_rsc c) (mc_pool c) (mc_rdev c)
    p d (mc_gdb_thread c) (mc_listed c).
Definition with_listed (c : client) (b : bool) : client :=
  MClient (mc_ped c) (mc_debug c) (mc_state c) (mc_rsc_table c) (mc_rsc c) (mc_pool c) (mc_rdev c)
    (mc_rbuf_dev c) (mc_rbuf c) (mc_gdb_thread c) b.

(** A call of OpenAMP on the client's [rproc]. *)
Definition rproc_call (c : client) (x : lcall) : lio (Z * client) :=
  a <- call x;; Ret (l_ret a, with_rproc c a).

(** ** Firmware image *)

(** The result of [fread] is kept in an [int]. *)
Definition store_open : lio Z :=
  f <- call Fopen;;
  if l_ret f =? 0 then Ret (- EINVAL)
  else
    n <- call Ftell;;
    b <- call (MallocBuf (u64 (l_ret n + 1)));;
    if l_ret b =? 0 then _ <- call Fclose;; Ret (- ENOMEM)
    else r <- call (Fread true (u64 (l_ret n)));; Ret (i32 (l_ret r)).

Definition store_close : lio unit := _ <- call FreeBuf;; _ <- call Fclose;; Ret tt.

(** [has_data]: the [data] argument is not NULL. *)
Definition store_load (has_data : bool) (size pa : Z) : lio Z :=
  if pa =? METAL_BAD_PHYS then
    if negb has_data then Ret (- EINVAL)
    else
      t <- call (Realloc size);;
      if l_ret t =? 0 then Ret (- ENOMEM)
      else r <- call (Fread false size);; Ret (i32 (l_ret r))
  else
    t <- call (IoPhysToVirtLoad pa);;
    if l_ret t =? 0 then Ret (- EINVAL)
    else r <- call (Fread false size);; Ret (i32 (l_ret r)).

Definition create_client (c : client) : lio (Z * client) :=
  match mc_ped c with
  | None => Ret (- EINVAL, c)
  | Some ped =>
      a <- call (RemoteprocInit (match ped with JAILHOUSE => true | BARE_METAL => false end));;
      if l_ret a =? 0 then Ret (- EINVAL, with_rproc c a)
      else Ret (0, with_listed (with_rproc c a) true)
  end.

Definition is_ready (s : rproc_state) : bool := match s with RPROC_READY => true | _ => false end.

(** [remoteproc_load] with the [mem_image_store_ops] it is given: [open] first,
    [close] last, and no [close] when [open] reports no data. *)
Fixpoint run_loads (l : loads) : lio unit :=
  match l with
  | LoadsDone => Ret tt
  | Load has_data size pa next => r <- store_load has_data size pa;; run_loads (next r)
  end.
Definition store_session (l : loads) : lio unit :=
  n <- store_open;;
  if n <=? 0 then Ret tt else run_loads l;;; store_close.
Definition remoteproc_load (c : client) : lio (Z * client) :=
  a <- call RemoteprocLoads;;
  match l_loads a with Some l => store_session l | None => Ret tt end;;;
  rproc_call c RemoteprocLoad.

Definition load_client_image (c : client) : lio (Z * client) :=
  n <- store_open;;
  if n <=? 0 then Ret (- EINVAL, c)
  else
    r <- rproc_call c RemoteprocConfig;;
    let '(ret, c) := r in
    if negb (ret =? 0) then store_close;;; Ret (- EINVAL, c)
    else
      store_close;;;
      if mc_rsc_table c && is_ready (mc_state c) then Ret (ret, c)
      else
        r <- remoteproc_load c;;
        let '(ret, c) := r in
        if negb (mc_rsc_table c) then Ret (- EINVAL, c) else Ret (ret, c).

Definition start_client (c : client) : lio (Z * client) := rproc_call c RemoteprocStart.
Definition stop_client (c : client) : lio client := r <- rproc_call c RemoteprocShutdown;; Ret r.2.
Definition destory_client (c : client) : lio client :=
  r <- rproc_call (with_listed c false) RemoteprocRemove;; Ret r.2.

(** ** The rpmsg device *)

Abbreviation alloc := (alloc_shmem_region metal_io_phys_to_virt).

(** [ALIGN_UP] on an [int] and an [unsigned int]. *)
Definition align_up32 (x a : Z) : Z := Z.land (u32 (x + (a - 1))) (u32 (Z.lnot (a - 1))).

(** The loop over the vrings (lines 48-79): the result, the pool and the vrings
    with the device addresses written back. *)
Fixpoint alloc_vrings (todo : list vring) (pool : shmem IO) : lio (Z * shmem IO * list vring) :=
  match todo with
  | [] => Ret (0, pool, [])
  | v :: todo =>
      let bufsz := align_up32 (vring_size (vr_num v) (vr_align v)) (vr_align v) in
      let any := vr_da v =? FW_RSC_U32_ADDR_ANY in
      match alloc pool (if any then 0 else vr_da v) bufsz with
      | (None, pool) => Ret (- ENOMEM, pool, v :: todo)
      | (Some buf, pool) =>
          let pa := if any then metal_io_virt_to_phys (shbuf_io pool) buf else METAL_BAD_PHYS in
          let da := if any then METAL_BAD_PHYS else vr_da v in
          a <- call (RemoteprocMmapVring pa da bufsz);;
          let v := if any then Vring (u32 (l_da a)) (vr_num v) (vr_align v) else v in
          r <- alloc_vrings todo pool;;
          let '(ret, pool, vs) := r in
          Ret (ret, pool, v :: vs)
      end
  end.

Definition setup_vdev (c : client) : lio (Z * client) :=
  match rsc_vrings (mc_rsc c) with
  | None => Ret (- ENODEV, c)
  | Some vrings =>
      r <- alloc_vrings vrings (mc_pool c);;
      let '(ret, pool, vrings) := r in
      let rsc := Rsc (Some vrings) (rsc_rbuf (mc_rsc c)) (rsc_reserved0 (mc_rsc c)) in
      let c := with_rsc_pool c rsc pool in
      if negb (ret =? 0) then Ret (ret, c)
      else
        match last vrings with
        | None => Ret (- ENODEV, c)
        | Some v =>
            let bufsz := u32 (512 * vr_num v * 2) in
            match alloc pool 0 bufsz with
            | (None, pool) => Ret (- ENOMEM, with_rsc_pool c rsc pool)
            | (Some buf, pool) =>
                _ <- call (ZeroShmem buf bufsz);;
                _ <- call (InitVdevShmPool buf bufsz);;
                Ret (0, with_rsc_pool c rsc pool)
            end
        end
  end.

Definition create_rpmsg_device (c : client) : lio (Z * client) :=
  m <- call AllocVdev;;
  if l_ret m =? 0 then Ret (- ENOMEM, c)
  else
    r <- setup_vdev c;;
    let '(ret, c) := r in
    if negb (ret =? 0) then _ <- call FreeVdev;; Ret (ret, c)
    else
      v <- call CreateVirtio;;
      if l_ret v =? 0 then _ <- call FreeVdev;; Ret (- EINVAL, c)
      else
        i <- call InitVdev;;
        if negb (l_ret i =? 0) then _ <- call RemoveVirtio;; _ <- call FreeVdev;; Ret (l_ret i, c)
        else Ret (l_ret i, with_rdev c true).

Definition release_rpmsg_device (c : client) : lio client :=
  if negb (mc_rdev c) then Ret c
  else
    _ <- call DeinitVdev;;
    _ <- call RemoveVirtio;;
    _ <- call FreeVdev;;
    Ret (with_rdev c false).

(** ** The ring buffer device *)

Definition setup_rbuf_dev (c : client) : Z * client :=
  match rsc_rbuf (mc_rsc c) with
  | None => (- ENODEV, c)
  | Some rr =>
      match alloc (mc_pool c) 0 (rr_len rr) with
      | (None, pool) => (- ENOMEM, with_rsc_pool c (mc_rsc c) pool)
      | (Some rb_va, pool) =>
          let len := i32 (rr_len rr / 2) in
          let txv := u64 (rb_va + len) in
          let '(_, rx, tx) :=
            ring_buffer_pair_init (Some (ring_at rb_va len)) (Some (ring_at txv len)) len in
          let dev := RbufDevice txv rb_va len tx rx in
          let pa := metal_io_virt_to_phys (shbuf_io pool) rb_va in
          let rsc := Rsc (rsc_vrings (mc_rsc c)) (Some (RbufRsc (rr_len rr) pa pa RBUF_STATE_INIT))
                       (rsc_reserved0 (mc_rsc c)) in
          (0, with_rbuf (with_rsc_pool c rsc pool) (mc_rbuf_dev c) dev)
      end
  end.

(** [client->rbuf_dev] keeps the pointer when the set-up fails. *)
Definition create_rbuf_device (c : client) : lio (Z * client) :=
  m <- call AllocRbufDev;;
  if l_ret m =? 0 then Ret (- ENOMEM, c)
  else
    let '(ret, c) := setup_rbuf_dev (with_rbuf c (l_ret m) rbuf_device_null) in
    if negb (ret =? 0) then _ <- call (FreeRbufDev (l_ret m));; Ret (ret, c)
    else Ret (0, c).

Definition destroy_rbuf_device (c : client) : lio client :=
  _ <- call (FreeRbufDev (mc_rbuf_dev c));; Ret c.

(** ** The life cycle *)

Definition mica_create (c : client) : lio (Z * client) := create_client c.

Definition mica_start (c : client) : lio (Z * client) :=
  r <- load_client_image c;;
  let '(ret, c) := r in
  if negb (ret =? 0) then Ret (ret, c)
  else
    r <- start_client c;;
    let '(ret, c) := r in
    if negb (ret =? 0) then Ret (ret, c)
    else
      r <- create_rpmsg_device c;;
      let '(ret, c) := r in
      if mc_debug c then create_rbuf_device c else Ret (ret, c).

Definition mica_stop (c : client) : lio client :=
  r <- rproc_call c RemoteprocStop;;
  let c := r.2 in
  _ <- call UnregisterAllServices;;
  c <- release_rpmsg_device c;;
  c <- (if mc_debug c then destroy_rbuf_device c else Ret c);;
  stop_client c.

Definition is_offline (s : rproc_state) : bool := match s with RPROC_OFFLINE => true | _ => false end.

Definition mica_remove (c : client) : lio client :=
  c <- (if is_offline (mc_state c) then Ret c else mica_stop c);;
  (if mc_gdb_thread c then _ <- call PthreadCancel;; _ <- call PthreadJoin;; Ret tt else Ret tt);;;
  destory_client c.

Definition status_name (s : rproc_state) : string :=
  match s with
  | RPROC_OFFLINE => "Offline" | RPROC_CONFIGURED => "Configured" | RPROC_READY => "Ready"
  | RPROC_RUNNING => "Running" | RPROC_SUSPENDED => "Suspended" | RPROC_ERROR => "Error"
  | RPROC_STOPPED => "Stopped"
  end.

(** A running client whose status word says CPU_OFF is stopped. *)
Definition show_client_status (c : client) : lio (string * client) :=
  match mc_state c with
  | RPROC_RUNNING =>
      _ <- call CacheInvalidate;;
      if rsc_reserved0 (mc_rsc c) =? CPU_OFF_FUNCID
      then c <- mica_stop c;; Ret (status_name RPROC_OFFLINE, c)
      else Ret (status_name (mc_state c), c)
  | s => Ret (status_name s, c)
  end.
End life_cycle.

(** ** Resources of a life cycle *)

Inductive lres := ResFile | ResBuf | ResVdev | ResVirtio | ResRpmsg | ResRbuf (dev : Z).
#[global] Instance lres_eq_dec : EqDecision lres.
Proof. solve_decision. Defined.

Definition take_res (r : lres) (ok : bool) (s : option (list lres)) : option (list lres) :=
  if ok then (cons r) <$> s else s.
Definition drop_res (r : lres) (s : option (list lres)) : option (list lres) := s ≫= remove1 r.

(** What is held after a call; [None] once something not held is released.
    Freeing NULL releases nothing; [realloc] to no size frees and gives NULL. *)
Definition ledger (s : option (list lres)) (c : lcall) (a : lans) : option (list lres) :=
  let ok := negb (l_ret a =? 0) in
  match c with
  | Fopen => take_res ResFile ok s
  | MallocBuf _ => take_res ResBuf ok s
  | Realloc size => if ok || negb (size =? 0) then s else drop_res ResBuf s
  | FreeBuf => drop_res ResBuf s
  | Fclose => drop_res ResFile s
  | AllocVdev => take_res ResVdev ok s
  | FreeVdev => drop_res ResVdev s
  | CreateVirtio => take_res ResVirtio ok s
  | RemoveVirtio => drop_res ResVirtio s
  | InitVdev => take_res ResRpmsg (negb ok) s
  | DeinitVdev => drop_res ResRpmsg s
  | AllocRbufDev => take_res (ResRbuf (l_ret a)) ok s
  | FreeRbufDev p => if p =? 0 then s else drop_res (ResRbuf p) s
  | _ => s
  end.

(** No load into the store's own buffer is of size 0. *)
Fixpoint sized (l : loads) : Prop :=
  match l with
  | LoadsDone => True
  | Load _ size pa next => (pa = METAL_BAD_PHYS -> size <> 0) /\ forall r, sized (next r)
  end.

(** The firmware file is not empty and can be read when it is opened, and OpenAMP
    asks for no empty load. *)
Definition image_readable (c : lcall) (a : lans) : Prop :=
  match c with
  | Fread true _ => 0 < i32 (l_ret a)
  | RemoteprocLoads => match l_loads a with Some l => sized l | None => True end
  | _ => True
  end.

Definition rpmsg_held (b : bool) : list lres := if b then [ResRpmsg; ResVirtio; ResVdev] else [].

Section balance.
Context {IO : Type} (p2v : IO -> Z -> option Z) (v2p : IO -> Z -> Z) (vring_size : Z -> Z -> Z).
Context (ring_at : Z -> Z -> ring_buffer).
Abbreviation client := (mclient IO).
Abbreviation lwp := (wpv ledger image_readable).

Ltac lstep :=
  cbn [bind call wpv]; intros ? ?;
  cbn [ledger take_res drop_res image_readable negb fmap option_fmap option_map mbind option_bind] in *.

(** Opening the image store: its file and its buffer are held exactly if data is
    reported. *)
Definition store_held (n : Z) : list lres := if n <=? 0 then [] else [ResBuf; ResFile].

Lemma store_open_lwp l : lwp store_open (fun n s => s = Some (store_held n ++ l)) (Some l).
Proof.
  unfold store_open, store_held. lstep. case_match; cbn [negb]; [cbn; done|]. lstep. lstep. case_match; cbn [negb].
  { lstep. by rewrite remove1_head. }
  lstep. by rewrite (proj2 (Z.leb_gt _ _)) by done.
Qed.

Lemma store_close_lwp l : lwp store_close (fun _ s => s = Some l) (Some (ResBuf :: ResFile :: l)).
Proof.
  unfold store_close. lstep. lstep. rewrite remove1_head. cbn [mbind option_bind]. by rewrite remove1_head.
Qed.

Lemma store_load_lwp has_data size pa l :
  (pa = METAL_BAD_PHYS -> size <> 0) ->
  lwp (store_load has_data size pa) (fun _ s => s = Some l) (Some l).
Proof.
  intros Hs. unfold store_load. destruct (Z.eqb_spec pa METAL_BAD_PHYS) as [E|E].
  - destruct has_data; cbn [negb]; [|done]. lstep.
    rewrite (proj2 (Z.eqb_neq size 0)) by auto. cbn [negb]. rewrite orb_true_r. case_match; [done|]. by lstep.
  - lstep. case_match; [done|]. by lstep.
Qed.

Lemma run_loads_lwp ld l : sized ld -> lwp (run_loads ld) (fun _ s => s = Some l) (Some l).
Proof.
  induction ld as [|d size pa next IH]; cbn [sized run_loads]; [done|]. intros [H1 H2].
  apply wpv_bind. eapply wpv_mono; [by apply store_load_lwp|]. intros r s ->. auto.
Qed.

Lemma store_session_lwp ld l : sized ld -> lwp (store_session ld) (fun _ s => s = Some l) (Some l).
Proof.
  intros Hs. unfold store_session. apply wpv_bind. eapply wpv_mono; [apply store_open_lwp|].
  intros n s ->. unfold store_held. case_match; [done|]. apply wpv_bind.
  eapply wpv_mono; [by apply run_loads_lwp|]. intros ? s ->. apply store_close_lwp.
Qed.

Lemma remoteproc_load_lwp (c : client) l :
  lwp (remoteproc_load c) (fun r s => s = Some l /\ exists a, r.2 = with_rproc c a) (Some l).
Proof.
  unfold remoteproc_load, rproc_call. lstep. apply wpv_bind.
  eapply (wpv_mono _ _ _ (fun _ s => s = Some l)).
  - destruct (l_loads _); [by apply store_session_lwp|done].
  - intros ? s ->. lstep. split; [done|]. by eexists.
Qed.

Lemma load_client_image_lwp (c : client) l :
  lwp (load_client_image c)
    (fun r s => s = Some l /\ mc_rdev r.2 = mc_rdev c /\ mc_rbuf_dev r.2 = mc_rbuf_dev c /\
                mc_debug r.2 = mc_debug c) (Some l).
Proof.
  unfold load_client_image, rproc_call. apply wpv_bind. eapply wpv_mono; [apply store_open_lwp|].
  intros n s ->. unfold store_held. case_match; [done|]. lstep. case_match.
  { apply wpv_bind. eapply wpv_mono; [apply store_close_lwp|]. by intros ? s ->. }
  apply wpv_bind. eapply wpv_mono; [apply store_close_lwp|]. intros ? s ->. case_match; [done|].
  apply wpv_bind. eapply wpv_mono; [apply remoteproc_load_lwp|]. intros [ret c'] s (-> & x & E).
  cbn [snd] in E. subst c'. by case_match.
Qed.

(** Only the pool, the resource table and the rings differ. *)
Definition same_owner (c c' : client) : Prop :=
  mc_rdev c' = mc_rdev c /\ mc_rbuf_dev c' = mc_rbuf_dev c /\ mc_debug c' = mc_debug c.

Lemma alloc_vrings_lwp todo pool l :
  lwp (alloc_vrings p2v v2p vring_size todo pool) (fun _ s => s = Some l) (Some l).
Proof.
  revert pool. induction todo as [|v todo IH]; intros pool; cbn [alloc_vrings]; [done|].
  destruct (alloc_shmem_region _ _ _ _) as [[buf|] pool']; [|done].
  lstep. apply wpv_bind. eapply wpv_mono; [apply IH|]. by intros [[ret pool''] vs] s ->.
Qed.

Lemma setup_vdev_lwp (c : client) l :
  lwp (setup_vdev p2v v2p vring_size c) (fun r s => s = Some l /\ same_owner c r.2) (Some l).
Proof.
  unfold setup_vdev. destruct (rsc_vrings _) as [vs|]; [|done].
  apply wpv_bind. eapply wpv_mono; [apply alloc_vrings_lwp|]. intros [[ret pool] vs'] s ->.
  case_match; [done|]. destruct (last vs'); [|done].
  destruct (alloc_shmem_region _ _ _ _) as [[buf|] pool']; [|done]. lstep. by lstep.
Qed.

Lemma create_rpmsg_device_lwp (c : client) l :
  mc_rdev c = false ->
  lwp (create_rpmsg_device p2v v2p vring_size c)
    (fun r s => s = Some (rpmsg_held (mc_rdev r.2) ++ l) /\ mc_rdev r.2 = (r.1 =? 0) /\
                mc_rbuf_dev r.2 = mc_rbuf_dev c /\ mc_debug r.2 = mc_debug c) (Some l).
Proof.
  intros Hc. unfold create_rpmsg_device. lstep. case_match; cbn [negb wpv fst snd]; [by rewrite Hc|].
  apply wpv_bind. eapply wpv_mono; [apply setup_vdev_lwp|]. intros [ret c'] s [-> (Hr & Hb & Hd)].
  cbn [snd] in *. case_match.
  { lstep. rewrite remove1_head. cbn [fst snd]. rewrite Hr, Hc. bool_to_Prop.
    split_and!; [done|symmetry; by apply Z.eqb_neq|done..]. }
  lstep. case_match; cbn [negb].
  { lstep. rewrite remove1_head. cbn [fst snd]. by rewrite Hr, Hc. }
  cbn [bind call wpv]. intros i _. cbn [ledger].
  destruct (l_ret i =? 0) eqn:Ei; cbn [negb take_res].
  - apply Z.eqb_eq in Ei. rewrite Ei. cbn [wpv fst snd]. by split_and!.
  - lstep. lstep. rewrite remove1_head. cbn [mbind option_bind]. rewrite remove1_head.
    cbn [fst snd wpv]. by rewrite Hr, Hc, Ei.
Qed.

Lemma drop_res_mid r l1 l2 : r ∉ l1 -> drop_res r (Some (l1 ++ r :: l2)) = Some (l1 ++ l2).
Proof. intros H. cbn. rewrite remove1_app_r by done. by rewrite remove1_head. Qed.

Definition ring_held (b : bool) (dev : Z) : list lres := if b then [ResRbuf dev] else [].

Lemma release_rpmsg_device_lwp (c : client) b dev :
  lwp (release_rpmsg_device c)
    (fun c' s => s = Some (ring_held b dev) /\ mc_rdev c' = false /\
                 mc_rbuf_dev c' = mc_rbuf_dev c /\ mc_debug c' = mc_debug c)
    (Some (ring_held b dev ++ rpmsg_held (mc_rdev c))).
Proof.
  assert (forall r, (forall p, r <> ResRbuf p) -> r ∉ ring_held b dev) as Hn.
  { intros r Hr. destruct b; cbn; set_solver. }
  unfold release_rpmsg_device. destruct (mc_rdev c) eqn:E; cbn [negb rpmsg_held].
  - cbn [bind call wpv ledger]. intros d _ v _ f _.
    by rewrite !drop_res_mid, app_nil_r by (by apply Hn).
  - by rewrite app_nil_r.
Qed.

Lemma setup_rbuf_dev_owner (c : client) : same_owner c (setup_rbuf_dev p2v v2p ring_at c).2.
Proof.
  unfold setup_rbuf_dev. destruct (rsc_rbuf _); [|done].
  destruct (alloc_shmem_region _ _ _ _) as [[buf|] pool']; [|done].
  by destruct (ring_buffer_pair_init _ _ _) as [[]].
Qed.

Lemma create_rbuf_device_lwp (c : client) l :
  lwp (create_rbuf_device p2v v2p ring_at c)
    (fun r s => s = Some (ring_held (r.1 =? 0) (mc_rbuf_dev r.2) ++ l) /\
                (r.1 = 0 -> mc_rbuf_dev r.2 <> 0) /\
                mc_rdev r.2 = mc_rdev c /\ mc_debug r.2 = mc_debug c) (Some l).
Proof.
  unfold create_rbuf_device. cbn [bind call wpv]. intros m _. cbn [ledger].
  destruct (l_ret m =? 0) eqn:Em; cbn [negb take_res]; [done|]. bool_to_Prop.
  pose proof (setup_rbuf_dev_owner (with_rbuf c (l_ret m) rbuf_device_null)) as (Hr & Hb & Hd).
  destruct (setup_rbuf_dev _ _ _ _) as [ret c']. cbn [snd with_rbuf mc_rdev mc_rbuf_dev mc_debug] in *.
  destruct (ret =? 0) eqn:Er; cbn [negb bind call wpv ledger fst snd].
  - by rewrite Hb.
  - intros _ _. rewrite (proj2 (Z.eqb_neq _ _)), Er by done. cbn. rewrite decide_True by done.
    bool_to_Prop. by split_and!.
Qed.

Lemma mica_start_lwp (c : client) :
  mc_rdev c = false ->
  lwp (mica_start p2v v2p vring_size ring_at c)
    (fun r s => mc_debug r.2 = mc_debug c /\
       (mc_debug c = false \/ r.1 = 0 ->
        s = Some (ring_held (mc_debug c) (mc_rbuf_dev r.2) ++ rpmsg_held (mc_rdev r.2)) /\
        (mc_debug c = true -> mc_rbuf_dev r.2 <> 0))) (Some []).
Proof.
  intros Hc. unfold mica_start, start_client, rproc_call. apply wpv_bind.
  eapply wpv_mono; [apply load_client_image_lwp|]. intros [ret c1] s (-> & Hr1 & _ & Hd1). cbn [snd] in *.
  destruct (ret =? 0) eqn:E1; cbn [negb].
  2:{ bool_to_Prop. cbn. split; [done|]. rewrite Hr1, Hc. by intros [->|]. }
  lstep. cbn [snd fst].
  destruct (l_ret _ =? 0) eqn:E2; cbn [negb].
  2:{ bool_to_Prop. cbn. split; [done|]. rewrite Hr1, Hc. by intros [->|]. }
  apply wpv_bind. eapply wpv_mono; [apply create_rpmsg_device_lwp; cbn; by rewrite Hr1|].
  intros [ret2 c2] s (-> & Hr2 & _ & Hd2). cbn [snd fst with_rproc mc_debug] in *. rewrite app_nil_r.
  rewrite Hd2, Hd1. destruct (mc_debug c) eqn:Hd.
  - eapply wpv_mono; [apply create_rbuf_device_lwp|]. intros [ret3 c3] s (-> & Hp & Hr3 & Hd3).
    cbn [fst snd] in *. split; [by rewrite Hd3, Hd2, Hd1|]. intros [|E]; [done|].
    rewrite E, Hr3. by split; [|intros _; apply Hp].
  - cbn [wpv fst snd]. split; [by rewrite Hd2, Hd1|done].
Qed.

Lemma mica_stop_lwp (c : client) :
  (mc_debug c = true -> mc_rbuf_dev c <> 0) ->
  lwp (mica_stop c) (fun c' s => s = Some [] /\ mc_rdev c' = false /\ mc_debug c' = mc_debug c)
    (Some (ring_held (mc_debug c) (mc_rbuf_dev c) ++ rpmsg_held (mc_rdev c))).
Proof.
  intros Hp. unfold mica_stop, stop_client, rproc_call.
  cbn [bind call wpv]. intros st _ un _. cbn [ledger snd]. apply wpv_bind.
  eapply wpv_mono; [exact (release_rpmsg_device_lwp (with_rproc c st) _ _)|]. intros c' s (-> & Hr & Hb & Hd).
  cbn [snd with_rproc mc_debug mc_rbuf_dev] in *. rewrite Hd. destruct (mc_debug c) eqn:E.
  - unfold destroy_rbuf_device. lstep. rewrite Hb, (proj2 (Z.eqb_neq _ _)) by auto.
    cbn [ring_held]. lstep. by rewrite remove1_head.
  - by lstep.
Qed.

(** [n] times started and stopped; given up when a start with the debug option
    fails. *)
Fixpoint cycles (n : nat) (c : client) : lio (bool * client) :=
  match n with
  | O => Ret (true, c)
  | S n =>
      r <- mica_start p2v v2p vring_size ring_at c;;
      let '(ret, c) := r in
      if mc_debug c && negb (ret =? 0) then Ret (false, c)
      else c <- mica_stop c;; cycles n c
  end.

Lemma cycles_lwp n (c : client) :
  mc_rdev c = false ->
  lwp (cycles n c) (fun r s => (r.1 = true -> s = Some []) /\ (mc_debug c = false -> r.1 = true)) (Some []).
Proof.
  revert c. induction n as [|n IH]; intros c Hc; cbn [cycles]; [done|].
  apply wpv_bind. eapply wpv_mono; [by apply mica_start_lwp|]. intros [ret c1] s [Hd Hs].
  cbn [fst snd] in *. destruct (mc_debug c1 && negb (ret =? 0)) eqn:E.
  { split; [done|]. intros Hf. by rewrite Hd, Hf in E. }
  destruct Hs as [-> Hp].
  { apply andb_false_iff in E as [E|E]; [left; congruence|right]. bool_to_Prop. done. }
  apply wpv_bind. rewrite <- Hd. eapply wpv_mono; [apply mica_stop_lwp; by rewrite Hd|].
  intros c2 s' (-> & Hr2 & Hd2). rewrite <- Hd2. by apply IH.
Qed.
End balance.

(** C23: Starting and stopping a client OS any number of times leaves no firmware
    file or buffer, no rpmsg device, virtio device or rpmsg session and no ring
    buffer device behind, and nothing is released twice, on every error path
    except two: a client with the debug option must start (see
    failed_rbuf_freed_twice), and the firmware file must be readable
    and not empty each time it is opened.  This includes the second opening, by
    OpenAMP's remoteproc_load through mem_image_store_ops, with any sequence of
    loads and any of them failing; OpenAMP is taken to close a store that opened
    with data, once and last, and not to ask for 0 bytes at any address. *)
Theorem client_resources_balanced {IO} (p2v : IO -> Z -> option Z) (v2p : IO -> Z -> Z)
    (vring_size : Z -> Z -> Z) (ring_at : Z -> Z -> ring_buffer) (o : oracle lcall lans)
    (n : nat) (c : mclient IO) :
  (forall h x, image_readable x (o h x)) ->
  mc_rdev c = false ->
  let p := cycles p2v v2p vring_size ring_at n c in
  ((result o p).1 = true -> observe ledger (Some []) (trace o p) = Some []) /\
  (mc_debug c = false -> (result o p).1 = true).
Proof.
  intros Ho Hc p. exact (wpv_result_trace ledger image_readable o p _ (Some []) Ho
    (cycles_lwp p2v v2p vring_size ring_at n c Hc)).
Qed.

Definition rsc_example : rsc_contents :=
  Rsc (Some [Vring FW_RSC_U32_ADDR_ANY 8 16; Vring 0x70001000 8 16]) (Some (RbufRsc 0x2000 0 0 0)) 0.
Definition client_example (debug : bool) (rsc : rsc_contents) : mclient unit :=
  MClient (Some BARE_METAL) debug RPROC_OFFLINE false rsc pool_example false 0 rbuf_device_null false false.
(** The headers are read into the store's buffer and, if that worked, a segment
    to its place in memory. *)
Definition elf_loads : loads :=
  Load true 52 METAL_BAD_PHYS (fun r =>
    if r <=? 0 then LoadsDone else Load false 4096 0x70000000 (fun _ => LoadsDone)).
Lemma elf_loads_sized : sized elf_loads.
Proof. split; [done|]. intros r. cbn. case_match; [done|]. cbn. split; [|done]. by intros E%Z.eqb_eq. Qed.
(** Everything succeeds; pointers are 64. *)
Definition good_oracle : oracle lcall lans := fun _ c =>
  match c with
  | Fopen | MallocBuf _ | Realloc _ | IoPhysToVirtLoad _ | Fread _ _ | AllocVdev | CreateVirtio | AllocRbufDev =>
      Lans 64 RPROC_READY true 0 None
  | RemoteprocLoads => Lans 0 RPROC_OFFLINE false 0 (Some elf_loads)
  | RemoteprocConfig => Lans 0 RPROC_CONFIGURED false 0 None
  | _ => Lans 0 RPROC_READY true 0x70000000 None
  end.
Definition v2p_example (_ : unit) (va : Z) : Z := va - 0x10000 + 0x70000000.
Definition ring_at_example (_ len : Z) : ring_buffer :=
  RingBuffer 7 7 7 7 (replicate (Z.to_nat (len - sizeof_ring_buffer)) 0).

Lemma client_resources_balanced_witness :
  let p := cycles p2v_example v2p_example (fun num _ => num * 16) ring_at_example 2
             (client_example true rsc_example) in
  (result good_oracle p).1 = true /\ observe ledger (Some []) (trace good_oracle p) = Some [].
Proof.
  intros p. assert ((result good_oracle p).1 = true) as E by (by vm_compute). split; [done|].
  refine (proj1 (client_resources_balanced p2v_example v2p_example (fun num _ => num * 16)
    ring_at_example good_oracle 2 (client_example true rsc_example) _ eq_refl) E).
  intros h x. destruct x as [| | | | | | | | | | | | | |[]| | | | | | | | | | | | | | | |]; try exact I.
  - exact elf_loads_sized.
  - by vm_compute.
Defined.

Abbreviation start_example := (mica_start p2v_example v2p_example (fun num _ => num * 16) ring_at_example).

(** A start whose ring buffer device could not be set up leaves a pointer to
    freed memory in the client, and the next stop frees it again (line 123 of
    [rbuf_dev.c]). *)
Theorem failed_rbuf_freed_twice :
  observe ledger (Some []) (trace good_oracle
    (r <- start_example (client_example true (Rsc (rsc_vrings rsc_example) None 0));; mica_stop r.2)) = None.
Proof. by vm_compute. Qed.

(** An empty firmware file: the file and the buffer stay behind (line 137 of
    [remoteproc_core.c]). *)
Theorem empty_image_leaks :
  observe ledger (Some []) (trace (fun h c => match c with Fread _ _ => Lans 0 RPROC_OFFLINE false 0 None | _ => good_oracle h c end)
    (start_example (client_example false rsc_example))) = Some [ResBuf; ResFile].
Proof. by vm_compute. Qed.

(** A load of 0 bytes to any address: [realloc] has freed the buffer and given
    NULL, which [store_load] takes for a lack of memory, and [store_close] frees
    the buffer again (line 76 of [remoteproc_core.c]). *)
Theorem empty_load_freed_twice :
  observe ledger (Some []) (trace (fun h c =>
      match c with
      | Realloc _ => Lans 0 RPROC_OFFLINE false 0 None
      | RemoteprocLoads => Lans 0 RPROC_OFFLINE false 0 (Some (Load true 0 METAL_BAD_PHYS (fun _ => LoadsDone)))
      | _ => good_oracle h c
      end) (start_example (client_example false rsc_example))) = None.
Proof. by vm_compute. Qed.

(** With the debug option the failure of the rpmsg device is not reported (line
    47 of [mica.c]). *)
Theorem debug_masks_rpmsg_failure :
  let r := result (fun h c => match c with CreateVirtio => Lans 0 RPROC_READY true 0 None | _ => good_oracle h c end)
    (start_example (client_example true rsc_example)) in
  r.1 = 0 /\ mc_rdev r.2 = false.
Proof. by vm_compute. Qed.

(** A ring buffer resource with no room behind the two headers is published as
    initialised although no ring was: the result of [ring_buffer_pair_init] is
    ignored (line 70 of [rbuf_dev.c]). *)
Theorem small_ring_reported_ready :
  let '(ret, c) := setup_rbuf_dev p2v_example v2p_example ring_at_example
      (client_example true (Rsc None (Some (RbufRsc 32 0 0 0)) 0)) in
  ret = 0 /\ (rr_state <$> rsc_rbuf (mc_rsc c)) = Some RBUF_STATE_INIT /\
  (rb_len <$> rx_ring (mc_rbuf c)) = Some 7.
Proof. by vm_compute. Qed.

(** ** The ring buffer device *)

Lemma alloc_any {IO} (p2v : IO -> Z -> option Z) pool size :
  pool_ok pool -> fits_address_space size pool ->
  alloc_shmem_region p2v pool 0 size =
    if unused_shmem_start pool + size <=? virt_shmem_end pool
    then (Some (unused_shmem_start pool),
          Shmem (phys_shmem_start pool) (shmem_size pool) (virt_shmem_start pool) (virt_shmem_end pool)
            (unused_shmem_start pool + size) (shbuf_io pool))
    else (None, pool).
Proof.
  intros [Hs He] [Hz Hf]. unfold alloc_shmem_region. rewrite Z.eqb_refl, (wrapu_small 64) by lia.
  destruct (Z.leb_spec (unused_shmem_start pool + size) (virt_shmem_end pool)).
  - by rewrite (proj2 (Z.ltb_ge _ _)) by lia.
  - by rewrite (proj2 (Z.ltb_lt _ _)) by lia.
Qed.

(** Creating the ring buffer device succeeds exactly if memory is available
    and the unused part of the pool has room for the ring buffer resource.  Then
    the two rings are valid, empty and use one half each of a region taken from
    the unused part of the pool, and the resource table publishes the address of
    the region with the state INIT; otherwise the error is -ENOMEM and neither
    the pool nor the resource table has changed. *)
Theorem create_rbuf_device_spec {IO} (p2v : IO -> Z -> option Z) (v2p : IO -> Z -> Z)
    (ring_at : Z -> Z -> ring_buffer) (o : oracle lcall lans) (c : mclient IO) (rr : rbuf_rsc) :
  let pool := mc_pool c in
  let half := rr_len rr / 2 in
  rsc_rbuf (mc_rsc c) = Some rr -> pool_ok pool -> fits_address_space (rr_len rr) pool ->
  sizeof_ring_buffer < half < 2 ^ 31 ->
  (forall va len, length (rb_data (ring_at va len)) = Z.to_nat (len - sizeof_ring_buffer)) ->
  let '(ret, c') := result o (create_rbuf_device p2v v2p ring_at c) in
  if negb (l_ret (o [] AllocRbufDev) =? 0) &&
     (unused_shmem_start pool + rr_len rr <=? virt_shmem_end pool)
  then
    ret = 0 /\ pool_ok (mc_pool c') /\
    let va := unused_shmem_start pool in
    exists rx tx, mc_rbuf c' = RbufDevice (va + half) va half (Some tx) (Some rx) /\
      ring_inv rx /\ contents rx = [] /\ rb_len rx = half - sizeof_ring_buffer /\
      ring_inv tx /\ contents tx = [] /\ rb_len tx = half - sizeof_ring_buffer /\
      va + 2 * half <= unused_shmem_start (mc_pool c') <= virt_shmem_end pool /\
      rsc_rbuf (mc_rsc c') =
        Some (RbufRsc (rr_len rr) (v2p (shbuf_io pool) va) (v2p (shbuf_io pool) va) RBUF_STATE_INIT)
  else ret = - ENOMEM /\ mc_pool c' = pool /\ mc_rsc c' = mc_rsc c.
Proof.
  intros pool half Hrr Hok Hfit Hhalf Hring. unfold result, create_rbuf_device. cbn [bind call exec].
  destruct (l_ret (o [] AllocRbufDev) =? 0); cbn [negb andb exec fst]; [done|].
  unfold setup_rbuf_dev. cbn [with_rbuf mc_rsc mc_pool mc_rbuf_dev]. rewrite Hrr. fold pool.
  rewrite alloc_any by done. destruct (Z.leb_spec (unused_shmem_start pool + rr_len rr) (virt_shmem_end pool)).
  2:{ cbn. by destruct c. }
  assert (16 < half) by apply Hhalf. fold half. rewrite (wraps_small 32 half) by lia.
  pose proof (Z.mul_div_le (rr_len rr) 2 ltac:(lia)) as Hd. fold half in Hd.
  destruct Hok as [Hs He]. rewrite (wrapu_small 64 (unused_shmem_start pool + half)) by lia.
  destruct (ring_buffer_pair_init_ok (ring_at (unused_shmem_start pool) half)
    (ring_at (unused_shmem_start pool + half) half) half Hhalf (Hring _ _) (Hring _ _))
    as (rx & tx & E & Hrx & Htx & Hcx & Hct & Hlx & Hlt).
  rewrite E. cbn. split; [done|]. split; [unfold pool_ok in *; cbn; lia|].
  exists rx, tx. split_and!; try done; lia.
Qed.

Lemma create_rbuf_device_spec_witness :
  let '(ret, c') := result good_oracle
      (create_rbuf_device p2v_example v2p_example ring_at_example (client_example true rsc_example)) in
  ret = 0 /\ pool_ok (mc_pool c').
Proof.
  pose proof (create_rbuf_device_spec p2v_example v2p_example ring_at_example good_oracle
    (client_example true rsc_example) (RbufRsc 0x2000 0 0 0) eq_refl) as H.
  destruct (result _ _) as [ret c']. cbn [negb andb] in H.
  destruct H as (H1 & H2 & _); [..|by split].
  - unfold pool_ok. cbn. lia.
  - unfold fits_address_space. cbn. lia.
  - by vm_compute.
  - intros va len. apply length_replicate.
Defined.

(** ** The layout of the vrings *)

Section vrings.
Context {IO : Type} (p2v : IO -> Z -> option Z) (v2p : IO -> Z -> Z) (vring_size : Z -> Z -> Z).

(** The region a vring asks for: an address, 0 for any, and a size. *)
Definition vring_req (v : vring) : Z * Z :=
  (if vr_da v =? FW_RSC_U32_ADDR_ANY then 0 else vr_da v,
   align_up32 (vring_size (vr_num v) (vr_align v)) (vr_align v)).

(** A vring is kept, except that an open address is filled in. *)
Definition vring_kept (v v' : vring) : Prop :=
  vr_num v' = vr_num v /\ vr_align v' = vr_align v /\
  (vr_da v <> FW_RSC_U32_ADDR_ANY -> vr_da v' = vr_da v).

Lemma alloc_vrings_regions (o : oracle lcall lans) todo pool h :
  let '((ret, pool', vs), _) := exec o (alloc_vrings p2v v2p vring_size todo pool) h in
  let '(rs, poolr) := alloc_regions p2v pool (map vring_req todo) in
  (ret = 0 /\ length rs = length todo /\ pool' = poolr /\ Forall2 vring_kept todo vs) \/
  (ret = - ENOMEM /\ (length rs < length todo)%nat).
Proof.
  revert pool h. induction todo as [|v todo IH]; intros pool h; cbn [alloc_vrings map alloc_regions].
  { left. by split_and!. }
  unfold vring_req at 1.
  destruct (alloc_shmem_region _ _ _ _) as [[buf|] pool1]; cbn [exec].
  - cbn [bind call exec]. rewrite exec_bind.
    match goal with |- context [exec o (alloc_vrings _ _ _ _ _) ?h'] => specialize (IH pool1 h') end.
    destruct (exec o _ _) as [[[ret pool'] vs] h']. cbn [exec].
    destruct (alloc_regions _ pool1 _) as [rs poolr]. cbn [length].
    destruct IH as [(-> & -> & -> & Hk)|(-> & Hl)]; [left|right; split; [done|lia]].
    split_and!; try done. constructor; [|done]. by destruct (Z.eqb_spec (vr_da v) FW_RSC_U32_ADDR_ANY).
  - pose proof (length_alloc_regions p2v pool1 (map vring_req todo)) as Hl.
    rewrite length_map in Hl. destruct (alloc_regions _ _ _) as [rs poolr]. right. cbn in *. split; [done|lia].
Qed.

Lemma kept_last vs vs' v :
  Forall2 vring_kept vs vs' -> last vs = Some v -> exists v', last vs' = Some v' /\ vr_num v' = vr_num v.
Proof.
  induction 1 as [|x y l l' [Hn _] H IH]; [done|].
  destruct H; cbn in *; [|exact IH]. intros ?. simplify_eq. by exists y.
Qed.
End vrings.

(** Setting up the virtio device succeeds exactly if the pool grants a region
    to every vring, at the vring's address where it has one, and to the message
    buffers behind them.  The granted regions then lie one behind the other in the
    unused part of the pool, and the vrings keep their size and their address
    unless it was open. *)
Theorem setup_vdev_regions {IO} (p2v : IO -> Z -> option Z) (v2p : IO -> Z -> Z)
    (vring_size : Z -> Z -> Z) (o : oracle lcall lans) (c : mclient IO) (vrings : list vring) (v : vring) :
  let pool := mc_pool c in
  let reqs := map (vring_req vring_size) vrings ++ [(0, u32 (512 * vr_num v * 2))] in
  rsc_vrings (mc_rsc c) = Some vrings -> last vrings = Some v ->
  pool_ok pool -> Forall (fun req => fits_address_space req.2 pool) reqs ->
  (forall io phys va, p2v io phys = Some va -> va < virt_shmem_end pool) ->
  let '(ret, c') := result o (setup_vdev p2v v2p vring_size c) in
  let rs := (alloc_regions p2v pool reqs).1 in
  laid_out (unused_shmem_start pool) (virt_shmem_end pool) rs /\
  (ret = 0 <-> length rs = length reqs) /\
  (ret = 0 -> mc_pool c' = (alloc_regions p2v pool reqs).2 /\
     exists vrings', rsc_vrings (mc_rsc c') = Some vrings' /\ Forall2 vring_kept vrings vrings') /\
  (ret <> 0 -> ret = - ENOMEM).
Proof.
  intros pool reqs Hv Hlast Hok Hfit Hp2v.
  assert (laid_out (unused_shmem_start pool) (virt_shmem_end pool) (alloc_regions p2v pool reqs).1) as Hl.
  { apply alloc_regions_laid_out; try done. intros ???. apply Hp2v. }
  unfold result, setup_vdev. rewrite Hv, exec_bind.
  pose proof (alloc_vrings_regions p2v v2p vring_size o vrings (mc_pool c) []) as Ha. fold pool in Ha |- *.
  unfold reqs in *. clear reqs. rewrite alloc_regions_app in *.
  destruct (exec o (alloc_vrings _ _ _ _ _) []) as [[[ret pool'] vs] h'].
  destruct (alloc_regions p2v pool (map _ vrings)) as [rs poolr]. cbn [alloc_regions] in *.
  rewrite length_app, length_map. cbn [length].
  destruct Ha as [(-> & Hlen & -> & Hk)|(-> & Hlen)]; cbn [Z.eqb negb].
  - destruct (kept_last vrings vs v Hk Hlast) as (v' & -> & ->).
    destruct (alloc_shmem_region p2v poolr 0 _) as [[buf|] pool2]; cbn in *.
    + split; [done|]. rewrite length_app. cbn. split_and!; [split; [lia|done]| |done].
      intros _. split; [done|]. by exists vs.
    + split; [done|]. rewrite app_nil_r. split_and!; [split; [done|lia]|done|done].
  - destruct (alloc_shmem_region p2v poolr 0 _) as [r pool2].
    change (- ENOMEM =? 0) with false. cbn [negb exec fst]. split; [done|].
    split_and!; [split; [done|]|done|done]. destruct r; cbn; rewrite length_app; cbn; lia.
Qed.

Lemma setup_vdev_regions_witness :
  let '(ret, c') := result good_oracle
      (setup_vdev p2v_example v2p_example (fun num _ => num * 16) (client_example true rsc_example)) in
  ret = 0 /\ exists vrings', rsc_vrings (mc_rsc c') = Some vrings' /\ length vrings' = 2%nat.
Proof.
  pose proof (setup_vdev_regions p2v_example v2p_example (fun num _ => num * 16) good_oracle
    (client_example true rsc_example)
    [Vring FW_RSC_U32_ADDR_ANY 8 16; Vring 0x70001000 8 16] (Vring 0x70001000 8 16) eq_refl eq_refl) as H.
  destruct (result _ _) as [ret c']. destruct H as (_ & Hret & Hok & _).
  - unfold pool_ok. cbn. lia.
  - repeat constructor; by vm_compute.
  - intros io phys va. apply p2v_example_range.
  - assert (ret = 0) as E by (apply Hret; by vm_compute). split; [done|].
    destruct (Hok E) as (_ & vs & Hvs & Hk). exists vs. split; [done|]. by apply Forall2_length in Hk.
Defined.

(** ** The boot sequence *)

Inductive phase := TakenOver | Configured | Loaded | Started.
(** The phases a client OS has gone through, the last one first. *)
Definition phases (s : list phase) (c : lcall) (a : lans) : list phase :=
  let ok := l_ret a =? 0 in
  match c with
  | RemoteprocConfig => if ok then (if l_rsc a && is_ready (l_state a) then TakenOver else Configured) :: s else s
  | RemoteprocLoad => if ok && l_rsc a then Loaded :: s else s
  | RemoteprocStart => if ok then Started :: s else s
  | _ => s
  end.
Definition bootable (s : list phase) : Prop := s = [TakenOver] \/ s = [Loaded; Configured].
Definition booted (s : list phase) : Prop := s = [Started; TakenOver] \/ s = [Started; Loaded; Configured].

Section boot.
Context {IO : Type} (p2v : IO -> Z -> option Z) (v2p : IO -> Z -> Z) (vring_size : Z -> Z -> Z).
Context (ring_at : Z -> Z -> ring_buffer).
Abbreviation client := (mclient IO).
Abbreviation pwp := (wp phases).

(** The image store adds nothing to the phases. *)
Lemma store_open_pwp s : pwp store_open (fun _ s' => s' = s) s.
Proof.
  unfold store_open. cbn [bind call wp]. intros f. cbn [phases]. case_match; [done|].
  cbn [bind call wp phases]. intros n b. by case_match; intros.
Qed.

Lemma run_loads_pwp ld s : pwp (run_loads ld) (fun _ s' => s' = s) s.
Proof.
  induction ld as [|d size pa next IH]; cbn [run_loads]; [done|]. apply wp_bind.
  eapply (wp_mono _ _ (fun _ s' => s' = s)).
  - unfold store_load. destruct (pa =? _); [destruct d; cbn [negb]; [|done]|].
    all: cbn [bind call wp phases]; intros t; by case_match; [|intros r].
  - by intros r s' ->.
Qed.

Lemma store_session_pwp ld s : pwp (store_session ld) (fun _ s' => s' = s) s.
Proof.
  unfold store_session, store_close. apply wp_bind. eapply wp_mono; [apply store_open_pwp|].
  intros n s' ->. case_match; [done|]. apply wp_bind. eapply wp_mono; [apply run_loads_pwp|].
  by intros ? s' -> ? ?.
Qed.

Lemma load_client_image_pwp (c : client) :
  pwp (load_client_image c)
    (fun r s => (r.1 = 0 -> bootable s) /\ mc_rdev r.2 = mc_rdev c /\ mc_debug r.2 = mc_debug c) [].
Proof.
  unfold load_client_image, remoteproc_load, store_close, rproc_call. apply wp_bind.
  eapply wp_mono; [apply store_open_pwp|]. intros n s ->. case_match; [done|].
  cbn [bind call wp]. intros g. cbn [phases].
  destruct (l_ret g =? 0) eqn:Eg; cbn [negb bind call wp phases]; [|done]. intros x y.
  cbn [with_rproc mc_rsc_table mc_state].
  destruct (l_rsc g && is_ready (l_state g)); [split; [by left|done]|].
  cbn [bind call wp phases]. intros ls. do 2 apply wp_bind.
  eapply (wp_mono _ _ (fun _ s => s = [Configured])).
  - destruct (l_loads ls); [apply store_session_pwp|done].
  - intros ? s ->. cbn [bind call wp phases]. intros l. cbn. destruct (l_rsc l); cbn; [|done].
    split; [|done]. intros ->. by right.
Qed.

(** The devices add nothing to the phases. *)
Lemma setup_vdev_pwp (c : client) s :
  pwp (setup_vdev p2v v2p vring_size c) (fun r s' => s' = s /\ same_owner c r.2) s.
Proof.
  unfold setup_vdev. destruct (rsc_vrings _) as [vs|]; [|done]. apply wp_bind.
  eapply (wp_mono _ _ (fun _ s' => s' = s)).
  - generalize (mc_pool c). induction vs as [|v vs IH]; intros pool; cbn [alloc_vrings]; [done|].
    destruct (alloc_shmem_region _ _ _ _) as [[buf|] pool']; [|done].
    cbn [bind call wp phases]. intros a. apply wp_bind. eapply wp_mono; [apply IH|].
    by intros [[ret pool''] vs'] s' ->.
  - intros [[ret pool] vs'] s' ->. case_match; [done|]. destruct (last vs'); [|done].
    destruct (alloc_shmem_region _ _ _ _) as [[buf|] pool']; [|done]. cbn. by intros _ _.
Qed.

Lemma create_rpmsg_device_pwp (c : client) s :
  mc_rdev c = false ->
  pwp (create_rpmsg_device p2v v2p vring_size c)
    (fun r s' => s' = s /\ mc_rdev r.2 = (r.1 =? 0) /\ mc_debug r.2 = mc_debug c) s.
Proof.
  intros Hc. unfold create_rpmsg_device. cbn [bind call wp phases]. intros m.
  case_match; [by cbn; rewrite Hc|].
  apply wp_bind. eapply wp_mono; [apply setup_vdev_pwp|]. intros [ret c'] s' [-> (Hr & _ & Hd)].
  cbn [snd] in *. destruct (ret =? 0) eqn:E1; cbn [negb bind call wp phases fst snd].
  2:{ intros _. by rewrite Hr, Hc, E1. }
  intros v. destruct (l_ret v =? 0); cbn [negb bind call wp phases fst snd].
  { intros _. by rewrite Hr, Hc. }
  intros i. destruct (l_ret i =? 0) eqn:E2; cbn [negb bind call wp phases fst snd].
  - by rewrite E2.
  - intros _ _. by rewrite Hr, Hc, E2.
Qed.

Lemma create_rbuf_device_pwp (c : client) s :
  pwp (create_rbuf_device p2v v2p ring_at c) (fun r s' => s' = s /\ mc_rdev r.2 = mc_rdev c) s.
Proof.
  unfold create_rbuf_device. cbn [bind call wp phases]. intros m. case_match; [done|].
  pose proof (setup_rbuf_dev_owner p2v v2p ring_at (with_rbuf c (l_ret m) rbuf_device_null)) as (Hr & _ & _).
  destruct (setup_rbuf_dev _ _ _ _) as [ret c']. case_match; cbn; [by intros _|done].
Qed.

Lemma mica_start_pwp (c : client) :
  mc_rdev c = false ->
  pwp (mica_start p2v v2p vring_size ring_at c)
    (fun r s => (mc_debug c = false -> mc_rdev r.2 = (r.1 =? 0)) /\
                (mc_rdev r.2 = true \/ r.1 = 0 -> booted s)) [].
Proof.
  intros Hc. unfold mica_start, start_client, rproc_call. apply wp_bind.
  eapply wp_mono; [apply load_client_image_pwp|]. intros [ret c1] s (Hs & Hr1 & Hd1).
  cbn [fst snd] in *. destruct (ret =? 0) eqn:E1; cbn [negb].
  2:{ cbn. rewrite Hr1, Hc, E1. bool_to_Prop. by split; [|intros []]. }
  apply Z.eqb_eq in E1. specialize (Hs E1). cbn [bind call wp phases fst snd]. intros st.
  destruct (l_ret st =? 0) eqn:E2; cbn [negb].
  2:{ cbn. rewrite Hr1, Hc, E2. bool_to_Prop. by split; [|intros []]. }
  assert (booted (Started :: s)) as Hb by (destruct Hs as [->| ->]; [by left|by right]).
  apply wp_bind. eapply wp_mono; [apply create_rpmsg_device_pwp; cbn; by rewrite Hr1|].
  intros [ret2 c2] s' (-> & Hr2 & Hd2). cbn [fst snd with_rproc mc_debug] in *.
  rewrite Hd2, Hd1. destruct (mc_debug c); [|by cbn].
  eapply wp_mono; [apply create_rbuf_device_pwp|]. by intros [ret3 c3] s' [-> _].
Qed.
End boot.

(** C36: A started client OS went through the boot sequence in order: mica_start
    returns 0, or leaves an rpmsg device, only after remoteproc_config succeeded,
    then the image was loaded and has a resource table, unless a running client
    was taken over, and then remoteproc_start succeeded.  Without the debug option
    it returns 0 if and only if the rpmsg device exists. *)
Theorem mica_start_boots {IO} (p2v : IO -> Z -> option Z) (v2p : IO -> Z -> Z)
    (vring_size : Z -> Z -> Z) (ring_at : Z -> Z -> ring_buffer) (o : oracle lcall lans) (c : mclient IO) :
  mc_rdev c = false ->
  let p := mica_start p2v v2p vring_size ring_at c in
  let '(ret, c') := result o p in
  (mc_debug c = false -> mc_rdev c' = (ret =? 0)) /\
  (mc_rdev c' = true \/ ret = 0 -> booted (observe phases [] (trace o p))).
Proof.
  intros Hc p. pose proof (wp_result_trace phases o p _ [] (mica_start_pwp p2v v2p vring_size ring_at c Hc)) as H.
  by destruct (result o p).
Qed.

Lemma mica_start_boots_witness :
  let '(ret, c') := result good_oracle (start_example (client_example false rsc_example)) in
  ret = 0 /\ mc_rdev c' = true.
Proof.
  assert ((result good_oracle (start_example (client_example false rsc_example))).1 = 0) as E by (by vm_compute).
  pose proof (mica_start_boots p2v_example v2p_example (fun num _ => num * 16) ring_at_example
    good_oracle (client_example false rsc_example) eq_refl) as H. cbv zeta in H.
  destruct (result _ _) as [ret c']. cbn [fst] in E. subst ret. destruct H as [H _]. split; [done|by apply H].
Defined.
