(* ===== verification/Listener.v ===== *)
(** * The control socket of micad ([mica/micad/socket_listener.c])

    micad listens on one socket per client OS and on the socket "mica-create".
    A message on the latter creates a client OS and its socket; a message on a
    client's socket starts, stops, removes or inspects it.  Objects from [calloc]
    are named by a counter, so that a pointer to a freed object is recognised:
    a handler that uses one has no result ([None]).  Log output is left out. *)

From stdpp Require Import gmap pretty.
From S2P Require Import Prelude RingBuffer ShmPool Baremetal Mica.

Definition MAX_NAME_LEN : nat := 32.
Definition MAX_PATH_LEN : nat := 64.
Definition CTRL_MSG_SIZE : nat := 32.
Definition RESPONSE_MSG_SIZE : nat := 256.
Definition MAX_FIRMWARE_PATH_LEN : nat := 128.
Definition MICA_SOCKET_DIRECTORY : string := "/run/mica".
Definition MICA_GDB_SERVER_PORT : Z := 5678.
Definition MICA_MSG_SUCCESS : string := "MICA-SUCCESS".
Definition MICA_MSG_FAILED : string := "MICA-FAILED".

(** [struct create_msg]; the strings end at the first NUL. *)
Record create_msg := CreateMsg {
  cm_cpu : Z; cm_name : string; cm_path : string; cm_ped : string; cm_ped_cfg : string; cm_debug : bool;
}.

(** The services of [mica/micad/services] that a started client gets. *)
Inductive service_kind := DebugService | TtyService | RpcService | UmtService.

Inductive scall :=
| Life (client : Z) (c : lcall)
| CreateService (client : Z) (k : service_kind)
| PrintServices (client : Z)
| CallocUnit
| FreeUnit
| CallocClient
| FreeClient (client : Z)
| MallocLog (size : Z)
| FreeLog
| Send (fd : Z) (text : string)
| Socket
| Bind (fd : Z) (path : string)
| Listen (fd : Z)
| EpollAdd (fd : Z)
| EpollDel (fd : Z)
| Accept (fd : Z)
| Recv (fd : Z)
| RecvCreate (fd : Z)
| CloseFd (fd : Z)
| Unlink (path : string)
| Access (path : string)
| NumProcessors
| EpollCreate
| Rmrf (path : string)
| Mkdir (path : string)
| ThreadCreate
| ThreadDetach
| ThreadCancel.

(** The result and [errno], a received or printed text, a received structure, the
    answer of a call of the client life cycle, and whether the debug service started
    its server thread. *)
Record sans := Sans {
  s_ret : Z; s_errno : Z; s_text : string; s_msg : create_msg; s_life : lans; s_thread : bool;
}.
Abbreviation sio := (io scall sans).

(** The life cycle of [client] among the calls of the daemon. *)
Fixpoint lift {R} (client : Z) (p : io lcall lans R) : sio R :=
  match p with
  | Ret r => Ret r
  | Call c k => Call (Life client c) (fun a => lift client (k (s_life a)))
  end.

Inductive listener_cb := CreateMicaClient | ClientCtrlHandler.
Record listen_unit := ListenUnit {
  lu_id : Z;
  lu_name : string;
  lu_fd : Z;
  lu_path : string;
  lu_cb : listener_cb;
  lu_client : option Z;
}.

(** [struct mica_client]: [sc_life] has the fields of the life cycle. *)
Record sclient (IO : Type) := SClient { sc_cpu : Z; sc_path : string; sc_ped_cfg : string; sc_life : mclient IO }.
Arguments SClient {IO}. Arguments sc_cpu {IO}. Arguments sc_path {IO}.
Arguments sc_ped_cfg {IO}. Arguments sc_life {IO}.

Record daemon (IO : Type) := Daemon {
  listener_list : list listen_unit;
  heap : gmap Z (sclient IO);
  g_client_list : list Z;
  next_id : Z;
}.
Arguments Daemon {IO}. Arguments listener_list {IO}. Arguments heap {IO}.
Arguments g_client_list {IO}. Arguments next_id {IO}.

Definition send_log (fd : Z) (text : string) : sio unit :=
  m <- call (MallocLog (Z.of_nat (String.length text) + 1));;
  if s_ret m =? 0 then Ret tt
  else _ <- call (Send fd text);; _ <- call FreeLog;; Ret tt.

(** [%-ns]. *)
Definition pad (n : nat) (s : string) : string :=
  s +:+ String.concat "" (replicate (n - String.length s) " "%string).

Section listener.
Context {IO : Type}.
Context (p2v : IO -> Z -> option Z) (v2p : IO -> Z -> Z) (vring_size : Z -> Z -> Z).
Context (ring_at : Z -> Z -> ring_buffer).
(** The NULL I/O region, and the resource table of the firmware at a path. *)
Context (io_null : IO) (image_rsc : string -> rsc_contents).
Abbreviation state := (daemon IO).

Definition set_life (st : state) (id : Z) (l : mclient IO) : state :=
  Daemon (listener_list st)
    (alter (fun c => SClient (sc_cpu c) (sc_path c) (sc_ped_cfg c) l) id (heap st))
    (g_client_list st) (next_id st).
Definition set_listeners (st : state) (l : list listen_unit) : state :=
  Daemon l (heap st) (g_client_list st) (next_id st).

(** The test that the loops over [listener_list] make. *)
Definition named (name : string) (u : listen_unit) : bool := strncmp0 name (lu_name u) MAX_NAME_LEN.

Definition free_client (st : state) (c : option Z) : sio state :=
  match c with
  | None => Ret st
  | Some id =>
      _ <- call (FreeClient id);;
      Ret (Daemon (listener_list st) (delete id (heap st)) (g_client_list st) (next_id st))
  end.

Definition free_unit (st : state) (u : listen_unit) : sio state :=
  st <- free_client st (lu_client u);;
  _ <- call (CloseFd (lu_fd u));;
  _ <- call (Unlink (lu_path u));;
  _ <- call FreeUnit;;
  Ret st.

Definition free_listener_by_name (st : state) (name : string) : sio state :=
  match list_find (fun u => named name u) (listener_list st) with
  | None => Ret st
  | Some (i, u) => free_unit (set_listeners st (delete i (listener_list st))) u
  end.

Fixpoint free_units (st : state) (us : list listen_unit) : sio state :=
  match us with
  | [] => Ret st
  | u :: us => st <- free_unit (set_listeners st us) u;; free_units st us
  end.
Definition free_all_listeners (st : state) : sio state := free_units st (listener_list st).

(** Lines 143-144. *)
Definition socket_path (name : string) : string :=
  strprefix (MAX_PATH_LEN - 1) (MICA_SOCKET_DIRECTORY +:+ "/" +:+ name +:+ ".socket").

Definition add_listener (st : state) (name : string) (client : option Z) (cb : listener_cb) : sio (Z * state) :=
  m <- call CallocUnit;;
  if s_ret m =? 0 then Ret (- ENOMEM, st)
  else
    let name := strlcpy name MAX_NAME_LEN in
    let path := socket_path name in
    s <- call Socket;;
    let fd := s_ret s in
    if fd <? 0 then _ <- call FreeUnit;; Ret (-1, st)
    else
      let free_socket (ret : Z) : sio (Z * state) :=
        _ <- call (CloseFd fd);; _ <- call (Unlink path);; _ <- call FreeUnit;; Ret (ret, st) in
      b <- call (Bind fd path);;
      if s_ret b <? 0 then free_socket (s_ret b)
      else
        l <- call (Listen fd);;
        if s_ret l <? 0 then free_socket (s_ret l)
        else
          e <- call (EpollAdd fd);;
          if s_ret e <? 0 then free_socket (s_ret e)
          else
            let u := ListenUnit (next_id st) name fd path cb client in
            Ret (0, Daemon (listener_list st ++ [u]) (heap st) (g_client_list st) (next_id st + 1)).

Definition check_create_msg (st : state) (msg : create_msg) (msg_fd : Z) : sio Z :=
  a <- call (Access (cm_path msg));;
  if negb (s_ret a =? 0) then send_log msg_fd ("No such file: " +:+ cm_path msg);;; Ret (- EINVAL)
  else
    n <- call NumProcessors;;
    if s_ret n <=? cm_cpu msg then
      n <- call NumProcessors;;
      send_log msg_fd ("Invalid CPUID: " +:+ pretty (i32 (cm_cpu msg)) +:+ ", out of range(0-" +:+
                       pretty (s_ret n - 1) +:+ ")");;;
      Ret (- EINVAL)
    else if existsb (named (cm_name msg)) (listener_list st) then
      send_log msg_fd (cm_name msg +:+ " is already created");;; Ret (- EINVAL)
    else Ret 0.

(** A client from [calloc], with the fields of the message. *)
Definition new_client (msg : create_msg) : sclient IO :=
  let path := strlcpy (cm_path msg) MAX_FIRMWARE_PATH_LEN in
  SClient (cm_cpu msg) path (strlcpy (cm_ped_cfg msg) MAX_FIRMWARE_PATH_LEN)
    (MClient (Some (if strcmp0 (cm_ped msg) "jailhouse" then JAILHOUSE else BARE_METAL)) (cm_debug msg)
       RPROC_OFFLINE false (image_rsc path) (Shmem 0 0 0 0 0 io_null) false 0 rbuf_device_null false false).

Definition create_reply (msg_fd ret : Z) (st : state) : sio (Z * state) :=
  send_log msg_fd (if negb (ret =? 0) then MICA_MSG_FAILED else MICA_MSG_SUCCESS);;;
  _ <- call (CloseFd msg_fd);;
  Ret (ret, st).

Definition create_mica_client (st : state) (unit_ : listen_unit) : sio (Z * state) :=
  a <- call (Accept (lu_fd unit_));;
  let msg_fd := s_ret a in
  if msg_fd =? -1 then Ret (-1, st)
  else
    r <- call (RecvCreate msg_fd);;
    if s_ret r <? 0 then create_reply msg_fd (s_ret r) st
    else
      let msg := s_msg r in
      ret <- check_create_msg st msg msg_fd;;
      if ret <? 0 then create_reply msg_fd ret st
      else
        m <- call CallocClient;;
        if s_ret m =? 0 then create_reply msg_fd (- ENOMEM) st
        else
          let id := next_id st in
          let c := new_client msg in
          let st := Daemon (listener_list st) (<[id := c]> (heap st)) (g_client_list st) (id + 1) in
          r <- lift id (mica_create (sc_life c));;
          let '(ret, l) := r in
          let st := set_life st id l in
          if ret <? 0 then st <- free_client st (Some id);; create_reply msg_fd ret st
          else
            let st := Daemon (listener_list st) (heap st) (g_client_list st ++ [id]) (next_id st) in
            r <- add_listener st (cm_name msg) (Some id) ClientCtrlHandler;;
            let '(ret, st) := r in
            if ret <? 0 then st <- free_client st (Some id);; create_reply msg_fd ret st
            else create_reply msg_fd ret st.

Definition show_status (msg_fd : Z) (u : listen_unit) (id : Z) (c : sclient IO) : sio (mclient IO) :=
  r <- lift id (show_client_status (sc_life c));;
  let '(status, l) := r in
  b <- call (PrintServices id);;
  send_log msg_fd (strprefix (RESPONSE_MSG_SIZE * 2 - 1)
    (pad 30 (lu_name u) +:+ pad 20 (pretty (i32 (sc_cpu c))) +:+ pad 20 status +:+ s_text b));;;
  Ret l.

Definition start_gdb_client (msg_fd : Z) (c : sclient IO) : sio Z :=
  if negb (mc_debug (sc_life c)) then
    send_log msg_fd ("The elf file does not support debugging" +:+ String (Ascii.ascii_of_nat 10) "");;;
    Ret (-1)
  else
    send_log msg_fd (strprefix (RESPONSE_MSG_SIZE - 1)
      ("gdb " +:+ sc_path c +:+ " -ex 'set remotetimeout unlimited' -ex 'target extended-remote :" +:+
       pretty MICA_GDB_SERVER_PORT +:+ "' -ex 'set remote run-packet off'"));;;
    Ret 0.

(** The services of a started client, in order, up to the first failure. *)
Fixpoint create_services (id : Z) (ks : list service_kind) : sio Z :=
  match ks with
  | [] => Ret 0
  | k :: ks =>
      a <- call (CreateService id k);;
      if negb (s_ret a =? 0) then Ret (s_ret a) else create_services id ks
  end.

Definition with_thread (l : mclient IO) (b : bool) : mclient IO :=
  MClient (mc_ped l) (mc_debug l) (mc_state l) (mc_rsc_table l) (mc_rsc l) (mc_pool l) (mc_rdev l)
    (mc_rbuf_dev l) (mc_rbuf l) (mc_gdb_thread l || b) (mc_listed l).

(** The command "start" (lines 288-319): the result and the client. *)
Definition ctrl_start (id : Z) (c : sclient IO) : sio (Z * mclient IO) :=
  r <- lift id (mica_start p2v v2p vring_size ring_at (sc_life c));;
  let '(ret, l) := r in
  if negb (ret =? 0) then Ret (ret, l)
  else
    let rest := [TtyService; RpcService; UmtService] in
    if mc_debug l then
      a <- call (CreateService id DebugService);;
      let l := with_thread l (s_thread a) in
      if negb (s_ret a =? 0) then Ret (s_ret a, l)
      else ret <- create_services id rest;; Ret (ret, l)
    else ret <- create_services id rest;; Ret (ret, l).

Definition ctrl_fail (msg_fd ret : Z) (st : state) : sio (option (Z * state)) :=
  send_log msg_fd MICA_MSG_FAILED;;; _ <- call (CloseFd msg_fd);; Ret (Some (ret, st)).
Definition ctrl_done (msg_fd : Z) (st : state) : sio unit :=
  send_log msg_fd MICA_MSG_SUCCESS;;; _ <- call (CloseFd msg_fd);; Ret tt.

Definition client_ctrl_handler (st : state) (u : listen_unit) : sio (option (Z * state)) :=
  a <- call (Accept (lu_fd u));;
  let msg_fd := s_ret a in
  if msg_fd =? -1 then Ret (Some (-1, st))
  else
    r <- call (Recv msg_fd);;
    if s_ret r <? 0 then ctrl_fail msg_fd (s_ret r) st
    else
      let msg := strprefix CTRL_MSG_SIZE (s_text r) in
      let msg_is cmd := strncmp0 msg cmd CTRL_MSG_SIZE in
      let ok st : sio (option (Z * state)) := ctrl_done msg_fd st;;; Ret (Some (0, st)) in
      match lu_client u ≫= fun id => (fun c => (id, c)) <$> heap st !! id with
      | None => Ret None
      | Some (id, c) =>
          if msg_is "start"%string then
            r <- ctrl_start id c;;
            let '(ret, l) := r in
            let st := set_life st id l in
            if negb (ret =? 0) then ctrl_fail msg_fd ret st else ok st
          else if msg_is "stop"%string then
            l <- lift id (mica_stop (sc_life c));;
            ok (set_life st id l)
          else if msg_is "rm"%string then
            e <- call (EpollDel (lu_fd u));;
            if s_ret e <? 0 then ctrl_fail msg_fd (s_ret e) st
            else
              l <- lift id (mica_remove (sc_life c));;
              let st := set_life st id l in
              let st := Daemon (listener_list st) (heap st)
                          (List.filter (fun x => negb (x =? id)) (g_client_list st)) (next_id st) in
              ctrl_done msg_fd st;;;
              st <- free_listener_by_name st (lu_name u);;
              Ret (Some (0, st))
          else if msg_is "status"%string then
            l <- show_status msg_fd u id c;;
            ok (set_life st id l)
          else if msg_is "gdb"%string then
            ret <- start_gdb_client msg_fd c;;
            if ret =? -1 then ctrl_fail msg_fd ret st else ok st
          else
            send_log msg_fd ("Invalid command: " +:+ msg);;;
            ctrl_fail msg_fd (s_ret r) st
      end.

(** [unit->cb(epoll_fd, unit)]. *)
Definition dispatch (st : state) (u : listen_unit) : sio (option (Z * state)) :=
  match lu_cb u with
  | CreateMicaClient => r <- create_mica_client st u;; Ret (Some r)
  | ClientCtrlHandler => client_ctrl_handler st u
  end.

(** The loop over the ready events; [None] if one designates a freed unit. *)
Fixpoint serve (st : state) (ready : list Z) : sio (option state) :=
  match ready with
  | [] => Ret (Some st)
  | i :: ready =>
      match list_find (fun u => lu_id u = i) (listener_list st) with
      | None => Ret None
      | Some (_, u) =>
          r <- dispatch st u;;
          match r with
          | None => Ret None
          | Some (_, st) => serve st ready
          end
      end
  end.

(** [wait_create_msg] before it stores its flags: the epoll descriptor if it listens. *)
Definition wait_create_msg_init (st : state) : sio (option Z * state) :=
  e <- call EpollCreate;;
  if s_ret e =? -1 then Ret (None, st)
  else
    r <- add_listener st "mica-create" None CreateMicaClient;;
    let '(ret, st) := r in
    if ret <? 0 then _ <- call (CloseFd (s_ret e));; Ret (None, st) else Ret (Some (s_ret e), st).

(** [register_socket_listener] before it waits: [Some ret] if it returns early. *)
Definition register_start : sio (option Z) :=
  _ <- call (Rmrf MICA_SOCKET_DIRECTORY);;
  m <- call (Mkdir MICA_SOCKET_DIRECTORY);;
  if (s_ret m =? -1) && negb (s_errno m =? EEXIST) then Ret (Some (s_ret m))
  else
    t <- call ThreadCreate;;
    if negb (s_ret t =? 0) then Ret (Some (s_ret t))
    else
      d <- call ThreadDetach;;
      if negb (s_ret d =? 0) then _ <- call ThreadCancel;; Ret (Some (s_ret d)) else Ret None.

(** The new thread runs up to its loop while the caller waits for [created]. *)
Definition register_socket_listener (st : state) : sio (Z * state) :=
  r <- register_start;;
  match r with
  | Some ret => Ret (ret, st)
  | None =>
      r <- wait_create_msg_init st;;
      let '(epoll_fd, st) := r in
      Ret (if epoll_fd is Some _ then 0 else -1, st)
  end.

Definition unregister_socket_listener (st : state) : sio state :=
  st <- free_all_listeners st;;
  _ <- call (Rmrf MICA_SOCKET_DIRECTORY);;
  Ret st.
End listener.

(** ** The listeners *)

(** Listeners [us] are well formed if the [live] clients and the counter allow it:
    the names are terminated and pairwise different, and each control listener owns
    a live client of its own. *)
Record wf (us : list listen_unit) (live : Z -> Prop) (next : Z) : Prop := Wf {
  wf_names : NoDup (lu_name <$> us);
  wf_short : Forall (fun u => (String.length (lu_name u) < MAX_NAME_LEN)%nat) us;
  wf_ids : NoDup (lu_id <$> us);
  wf_ids_fresh : Forall (fun u => lu_id u < next) us;
  wf_owners : NoDup (omap lu_client us);
  wf_live : forall u id, u ∈ us -> lu_client u = Some id -> live id;
  wf_owned : Forall (fun u => lu_cb u = ClientCtrlHandler -> is_Some (lu_client u)) us;
  wf_live_fresh : forall id, live id -> id < next;
}.

Lemma wf_iff us live live' next : (forall id, live id <-> live' id) -> wf us live next -> wf us live' next.
Proof. intros H []. split; try done; intros; eauto; [apply H; eauto|apply H in H0; eauto]. Qed.

Lemma wf_alloc us live next : wf us live next -> wf us (fun id => id = next \/ live id) (next + 1).
Proof.
  intros []. split; try done; eauto.
  - eapply Forall_impl; [exact wf_ids_fresh0|]. cbn. lia.
  - intros id [->|H%wf_live_fresh0]; lia.
Qed.

Lemma wf_client_not_next us live next : wf us live next -> next ∉ omap lu_client us.
Proof.
  intros [] (u & Hu & E)%list_elem_of_omap. specialize (wf_live_fresh0 _ (wf_live0 _ _ Hu E)). lia.
Qed.

Lemma wf_free us live next c :
  c ∉ omap lu_client us -> wf us live next -> wf us (fun id => id <> c /\ live id) next.
Proof.
  intros Hc []. split; try done; [|naive_solver]. intros u id Hu E. split; [|eauto].
  intros ->. apply Hc, list_elem_of_omap. eauto.
Qed.

Lemma wf_add us live next u :
  wf us live next ->
  lu_id u = next -> lu_name u ∉ lu_name <$> us -> (String.length (lu_name u) < MAX_NAME_LEN)%nat ->
  (lu_cb u = ClientCtrlHandler -> is_Some (lu_client u)) ->
  (forall c, lu_client u = Some c -> live c /\ c ∉ omap lu_client us) ->
  wf (us ++ [u]) live (next + 1).
Proof.
  intros [] Hid Hname Hlen Hcb Hc. split; rewrite ?fmap_app, ?omap_app, ?Forall_app, ?NoDup_app.
  - cbn. split_and!; [done|set_solver|apply NoDup_singleton].
  - by rewrite Forall_singleton.
  - cbn. split_and!; [done| |apply NoDup_singleton].
    intros i (v & -> & Hv)%list_elem_of_fmap. rewrite Forall_forall in wf_ids_fresh0.
    specialize (wf_ids_fresh0 v Hv). intros ?%list_elem_of_singleton. lia.
  - rewrite Forall_singleton. split; [|lia]. eapply Forall_impl; [exact wf_ids_fresh0|]. cbn. lia.
  - cbn. destruct (lu_client u) as [c|]; cbn.
    + destruct (Hc c eq_refl). split_and!; [done|set_solver|apply NoDup_singleton].
    + split_and!; [done|set_solver|apply NoDup_nil_2].
  - intros v id [Hv|Hv]%elem_of_app E; [eauto|]. apply list_elem_of_singleton in Hv as ->. by apply Hc.
  - by rewrite Forall_singleton.
  - intros id H%wf_live_fresh0. lia.
Qed.

Lemma wf_remove us us' u live next c :
  us ≡ₚ u :: us' -> lu_client u = Some c -> wf us live next -> wf us' (fun id => id <> c /\ live id) next.
Proof.
  intros Hp Hc [].
  rewrite Hp in *. cbn in *. rewrite Hc in *. cbn in *.
  apply NoDup_cons in wf_names0 as [_ ?], wf_ids0 as [_ ?], wf_owners0 as [Hn ?].
  apply Forall_cons in wf_short0 as [_ ?], wf_ids_fresh0 as [_ ?], wf_owned0 as [_ ?].
  split; try done; [|naive_solver]. intros v id Hv E. split.
  - intros ->. apply Hn, list_elem_of_omap. eauto.
  - apply (wf_live0 v); [|done]. rewrite Hp. set_solver.
Qed.

(** The descriptors that are open; [None] once a closed one is closed again. *)
Definition fdl (s : option (list Z)) (c : scall) (a : sans) : option (list Z) :=
  match c with
  | Accept _ => if s_ret a =? -1 then s else (cons (s_ret a)) <$> s
  | Socket => if s_ret a <? 0 then s else (cons (s_ret a)) <$> s
  | EpollCreate => if s_ret a =? -1 then s else (cons (s_ret a)) <$> s
  | CloseFd fd => s ≫= remove1 fd
  | _ => s
  end.
Definition opn (l : list Z) (s : option (list Z)) : Prop := exists l', s = Some l' /\ l' ≡ₚ l.

#[global] Instance opn_proper : Proper ((≡ₚ) ==> eq ==> iff) opn.
Proof. intros l l' Hl s ? <-. unfold opn. by setoid_rewrite Hl. Qed.

Lemma opn_cons fd l s : opn l s -> opn (fd :: l) (cons fd <$> s).
Proof. intros (l' & -> & Hl). exists (fd :: l'). split; [done|]. by rewrite Hl. Qed.
Lemma opn_close fd l s : opn (fd :: l) s -> opn l (s ≫= remove1 fd).
Proof. intros (l' & -> & Hl). destruct (remove1_perm _ _ _ Hl) as (l2 & E & ?). by exists l2. Qed.

(** A name on the wire is terminated. *)
Definition terminated (c : scall) (a : sans) : Prop :=
  match c with
  | RecvCreate _ => (String.length (cm_name (s_msg a)) < MAX_NAME_LEN)%nat
  | _ => True
  end.

Section listener_inv.
Context {IO : Type}.
Context (p2v : IO -> Z -> option Z) (v2p : IO -> Z -> Z) (vring_size : Z -> Z -> Z).
Context (ring_at : Z -> Z -> ring_buffer) (io_null : IO) (image_rsc : string -> rsc_contents).
Abbreviation state := (daemon IO).
Abbreviation fwp := (wpv fdl terminated).

Lemma lift_fwp {R} id (p : io lcall lans R) s : fwp (lift id p) (fun _ s' => s' = s) s.
Proof. induction p as [r|c k IH]; cbn; [done|]. intros a _. apply IH. Qed.
Lemma send_log_fwp fd t s : fwp (send_log fd t) (fun _ s' => s' = s) s.
Proof. unfold send_log. cbn. intros m _. case_match; cbn; [done|]. by intros _ _ _ _. Qed.
Lemma create_services_fwp id ks s : fwp (create_services id ks) (fun _ s' => s' = s) s.
Proof.
  induction ks as [|k ks IH]; cbn; [done|]. intros a _. case_match; [done|apply IH].
Qed.

(** A part of a program that leaves the descriptors alone. *)
Lemma fwp_quiet {R T} (p : sio R) (f : R -> sio T) (Q : T -> option (list Z) -> Prop) s :
  fwp p (fun _ s' => s' = s) s -> (forall r, fwp (f r) Q s) -> fwp (bind p f) Q s.
Proof. intros Hp Hf. apply wpv_bind. eapply wpv_mono; [exact Hp|]. intros r s' ->. apply Hf. Qed.

Definition fds (st : state) : list Z := lu_fd <$> listener_list st.
Definition live (st : state) (id : Z) : Prop := is_Some (heap st !! id).
Definition st_wf (st : state) : Prop := wf (listener_list st) (live st) (next_id st).
(** [l]: descriptors open besides those of the listeners. *)
Definition inv (l : list Z) (st : state) (s : option (list Z)) : Prop :=
  st_wf st /\ opn (l ++ fds st) s.

Lemma set_life_wf st id l : st_wf st -> st_wf (set_life st id l).
Proof.
  apply wf_iff. intros id'. unfold live. cbn. by rewrite lookup_alter_is_Some.
Qed.

Lemma live_delete st us id : forall id',
  id' <> id /\ live st id' <->
  live (Daemon us (delete id (heap st)) (g_client_list st) (next_id st)) id'.
Proof. intros id'. unfold live. cbn. rewrite lookup_delete_is_Some. naive_solver. Qed.

Lemma free_client_fwp l st id s :
  id ∉ omap lu_client (listener_list st) -> inv l st s ->
  fwp (free_client st (Some id)) (fun st' s' => inv l st' s' /\ listener_list st' = listener_list st) s.
Proof.
  intros Hid [Hw Ho]. cbn. intros _ _. split; [|done]. split; [|done].
  eapply wf_iff; [|by apply wf_free]. apply live_delete.
Qed.

(** The listener that a name designates is the one that has it. *)
Lemma find_named st u :
  st_wf st -> u ∈ listener_list st ->
  exists i, list_find (fun v => named (lu_name u) v) (listener_list st) = Some (i, u) /\
    listener_list st ≡ₚ u :: delete i (listener_list st).
Proof.
  intros [Hn Hs _ _ _ _ _ _] Hu. rewrite Forall_forall in Hs.
  assert (forall v, v ∈ listener_list st -> named (lu_name u) v <-> v = u) as Heq.
  { intros v Hv. unfold named. rewrite strncmp0_bounded by (apply Nat.lt_le_incl; auto).
    unfold strcmp0. rewrite bool_decide_spec. split; [|by intros ->].
    intros E. symmetry. by eapply NoDup_fmap_elem_inj. }
  destruct (list_find_elem_of (fun v => named (lu_name u) v) _ u Hu) as [[i v] Hf]; [by apply Heq|].
  exists i. rewrite Hf. apply list_find_Some in Hf as (Hi & Hv & _).
  assert (v = u) as -> by (apply Heq; [by eapply list_elem_of_lookup_2|done]).
  split; [done|]. by apply delete_Permutation.
Qed.

(** Removal by the owner takes exactly its listener and its client away. *)
Lemma free_listener_fwp l st u id s :
  u ∈ listener_list st -> lu_client u = Some id -> inv l st s ->
  fwp (free_listener_by_name st (lu_name u))
    (fun st' s' => inv l st' s' /\ listener_list st ≡ₚ u :: listener_list st') s.
Proof.
  intros Hu Hc [Hw Ho]. destruct (find_named st u Hw Hu) as (i & Hf & Hp).
  unfold free_listener_by_name. rewrite Hf. unfold free_unit. rewrite Hc. cbn. intros _ _ _ _ _ _ _ _.
  split; [|done]. split.
  - eapply wf_iff; [|by eapply wf_remove]. apply (live_delete st).
  - cbn. apply opn_close. unfold fds in *. cbn. rewrite Hp in Ho. cbn in Ho.
    by rewrite Permutation_middle.
Qed.

Lemma ctrl_fail_fwp l st fd ret s :
  inv (fd :: l) st s -> fwp (ctrl_fail fd ret st) (fun r s' => r = Some (ret, st) /\ inv l st s') s.
Proof.
  intros [Hw Ho]. unfold ctrl_fail. apply fwp_quiet; [apply send_log_fwp|]. intros _. cbn.
  intros _ _. split; [done|]. split; [done|]. by apply opn_close.
Qed.
Lemma ctrl_done_fwp l st fd s :
  inv (fd :: l) st s -> fwp (ctrl_done fd st) (fun _ s' => inv l st s') s.
Proof.
  intros [Hw Ho]. unfold ctrl_done. apply fwp_quiet; [apply send_log_fwp|]. intros _. cbn.
  intros _ _. split; [done|]. by apply opn_close.
Qed.
Lemma create_reply_fwp l st fd ret s :
  inv (fd :: l) st s -> fwp (create_reply fd ret st) (fun r s' => r = (ret, st) /\ inv l st s') s.
Proof.
  intros [Hw Ho]. unfold create_reply. apply fwp_quiet; [apply send_log_fwp|]. intros _. cbn.
  intros _ _. split; [done|]. split; [done|]. by apply opn_close.
Qed.

Lemma add_listener_fwp l st name client cb s :
  inv l st s -> (String.length name < MAX_NAME_LEN)%nat -> name ∉ lu_name <$> listener_list st ->
  (cb = ClientCtrlHandler -> is_Some client) ->
  (forall c, client = Some c -> live st c /\ c ∉ omap lu_client (listener_list st)) ->
  fwp (add_listener st name client cb)
    (fun r s' => inv l r.2 s' /\ (r.1 < 0 /\ r.2 = st \/
       r.1 = 0 /\ exists u, listener_list r.2 = listener_list st ++ [u])) s.
Proof.
  intros [Hw Ho] Hlen Hname Hcb Hc. unfold add_listener. cbn [bind call wpv fdl]. intros m _.
  case_match; [cbn; by split; [|left]|]. cbn [bind call wpv]. intros sk _. cbn [fdl].
  destruct (Z.ltb_spec (s_ret sk) 0) as [Hsk|Hsk]; [cbn; intros _ _; by split; [|left]|].
  apply (opn_cons (s_ret sk)) in Ho.
  assert (forall ret path, ret < 0 ->
    fwp (_ <- call (CloseFd (s_ret sk));; _ <- call (Unlink path);; _ <- call FreeUnit;; Ret (ret, st))
      (fun r s' => inv l r.2 s' /\ (r.1 < 0 /\ r.2 = st \/
         r.1 = 0 /\ exists u, listener_list r.2 = listener_list st ++ [u])) (cons (s_ret sk) <$> s)) as Herr.
  { intros ret path Hr. cbn. intros _ _ _ _ _ _. split; [|by left]. split; [done|]. by apply opn_close. }
  cbn [bind call wpv fdl]. intros b _. destruct (Z.ltb_spec (s_ret b) 0); [by apply Herr|].
  cbn [bind call wpv fdl]. intros ls _. destruct (Z.ltb_spec (s_ret ls) 0); [by apply Herr|].
  cbn [bind call wpv fdl]. intros e _. destruct (Z.ltb_spec (s_ret e) 0); [by apply Herr|].
  cbn [wpv fst snd]. split; [|by right; split; [|eexists]]. split.
  - rewrite strlcpy_short by done. by apply wf_add.
  - unfold fds in *. cbn. rewrite fmap_app. cbn. rewrite app_assoc, <- Permutation_cons_append. done.
Qed.

Lemma check_create_msg_fwp st msg fd s :
  (String.length (cm_name msg) < MAX_NAME_LEN)%nat -> st_wf st ->
  fwp (check_create_msg st msg fd)
    (fun r s' => s' = s /\ (r < 0 \/ r = 0 /\ cm_name msg ∉ lu_name <$> listener_list st)) s.
Proof.
  intros Hlen [_ Hs _ _ _ _ _ _]. rewrite Forall_forall in Hs.
  unfold check_create_msg. cbn [bind call wpv fdl]. intros a _.
  case_match; [apply fwp_quiet; [apply send_log_fwp|]; intros _; by split; [|left]|].
  cbn [bind call wpv fdl]. intros n _. case_match.
  { cbn [bind call wpv fdl]. intros n' _. apply fwp_quiet; [apply send_log_fwp|]. intros _. by split; [|left]. }
  destruct (existsb _ _) eqn:E.
  { apply fwp_quiet; [apply send_log_fwp|]. intros _. by split; [|left]. }
  cbn. split; [done|]. right. split; [done|]. intros (u & Hn & Hu)%list_elem_of_fmap.
  apply not_true_iff_false in E. apply E, existsb_exists. exists u.
  split; [by apply list_elem_of_In|]. unfold named.
  rewrite strncmp0_bounded by (apply Nat.lt_le_incl; auto). by apply bool_decide_eq_true.
Qed.

Lemma create_mica_client_fwp l st u s :
  inv l st s ->
  fwp (create_mica_client io_null image_rsc st u)
    (fun r s' => inv l r.2 s' /\ forall v, v ∈ listener_list st -> v ∈ listener_list r.2) s.
Proof.
  intros [Hw Ho]. unfold create_mica_client. cbn [bind call wpv fdl]. intros a _.
  destruct (s_ret a =? -1); [done|]. apply (opn_cons (s_ret a)) in Ho.
  set (s1 := cons (s_ret a) <$> s) in *.
  assert (forall ret st' s', inv (s_ret a :: l) st' s' ->
    (forall v, v ∈ listener_list st -> v ∈ listener_list st') ->
    fwp (create_reply (s_ret a) ret st')
      (fun r s'' => inv l r.2 s'' /\ forall v, v ∈ listener_list st -> v ∈ listener_list r.2) s') as Hrep.
  { intros ret st' s' Hi Hv. eapply wpv_mono; [by apply create_reply_fwp|]. by intros ? ? [-> ?]. }
  cbn [bind call wpv fdl]. intros r Hlen. case_match; [by apply Hrep|].
  apply wpv_bind. eapply wpv_mono; [by apply check_create_msg_fwp|]. intros ret s' [-> Hret].
  destruct Hret as [Hret|[-> Hname]]; [by rewrite (proj2 (Z.ltb_lt _ _)) by done; apply Hrep|]. cbn [Z.ltb Z.compare].
  cbn [bind call wpv fdl]. intros m _. case_match; [by apply Hrep|].
  set (id := next_id st). set (c := new_client io_null image_rsc (s_msg r)).
  apply fwp_quiet; [apply lift_fwp|]. intros [ret l'].
  set (st1 := Daemon (listener_list st) (<[id:=c]> (heap st)) (g_client_list st) (id + 1)).
  assert (st_wf (set_life st1 id l')) as Hw1.
  { apply set_life_wf. eapply wf_iff; [|by apply wf_alloc]. intros id'. unfold live. cbn.
    rewrite lookup_insert_is_Some. unfold id. split; [intros [->|]; [by left|]|naive_solver].
    destruct (decide (next_id st = id')); [by left|by right]. }
  assert (id ∉ omap lu_client (listener_list st)) as Hid by (eapply wf_client_not_next; exact Hw).
  case_match.
  { apply wpv_bind. eapply wpv_mono; [by apply (free_client_fwp (s_ret a :: l))|].
    intros st' s' [Hi E]. apply Hrep; [done|]. by rewrite E. }
  set (st2 := Daemon (listener_list st) (heap (set_life st1 id l')) (g_client_list st ++ [id]) (id + 1)).
  apply wpv_bind. eapply wpv_mono.
  { apply (add_listener_fwp (s_ret a :: l) st2); try done.
    intros ? [= <-]. split; [|done]. unfold live. cbn. rewrite lookup_alter_is_Some, lookup_insert_eq. by eexists. }
  intros [ret' st'] s' [Hi Hcase]. cbn [fst snd] in *.
  destruct Hcase as [[Hneg ->]|[-> [u' Hu']]].
  - rewrite (proj2 (Z.ltb_lt _ _)) by done. apply wpv_bind.
    eapply wpv_mono; [by apply (free_client_fwp (s_ret a :: l))|].
    intros st' s'' [Hi' E]. apply Hrep; [done|]. by rewrite E.
  - cbn [Z.ltb Z.compare]. apply Hrep; [done|]. rewrite Hu'. cbn. set_solver.
Qed.

Lemma ctrl_start_fwp id c s :
  fwp (ctrl_start p2v v2p vring_size ring_at id c) (fun _ s' => s' = s) s.
Proof.
  unfold ctrl_start. apply fwp_quiet; [apply lift_fwp|]. intros [ret l]. case_match; [done|].
  case_match; [cbn [bind call wpv fdl]; intros a _; case_match; [done|]|];
    (apply fwp_quiet; [apply create_services_fwp|done]).
Qed.
Lemma show_status_fwp fd u id (c : sclient IO) s : fwp (show_status fd u id c) (fun _ s' => s' = s) s.
Proof.
  unfold show_status. apply fwp_quiet; [apply lift_fwp|]. intros [status l].
  cbn [bind call wpv fdl]. intros b _. apply fwp_quiet; [apply send_log_fwp|done].
Qed.
Lemma start_gdb_client_fwp fd (c : sclient IO) s : fwp (start_gdb_client fd c) (fun _ s' => s' = s) s.
Proof. unfold start_gdb_client. case_match; (apply fwp_quiet; [apply send_log_fwp|done]). Qed.

(** What a handler of [u] may do to the listeners. *)
Definition keeps (u : listen_unit) (st st' : state) : Prop :=
  forall v, v ∈ listener_list st -> lu_id v <> lu_id u -> v ∈ listener_list st'.
Definition served l (u : listen_unit) (st : state) (r : option (Z * state)) (s : option (list Z)) : Prop :=
  exists ret st', r = Some (ret, st') /\ inv l st' s /\ keeps u st st'.

Lemma client_ctrl_handler_fwp l st u s :
  inv l st s -> u ∈ listener_list st -> lu_cb u = ClientCtrlHandler ->
  fwp (client_ctrl_handler p2v v2p vring_size ring_at st u) (served l u st) s.
Proof.
  intros [Hw Ho] Hu Hcb. unfold client_ctrl_handler. cbn [bind call wpv fdl]. intros a _.
  destruct (s_ret a =? -1); [by exists (-1), st; split_and!; [| |intros v]|]. apply (opn_cons (s_ret a)) in Ho.
  set (s1 := cons (s_ret a) <$> s) in *. cbn [bind call wpv fdl]. intros r _.
  assert (exists id c, lu_client u = Some id /\ heap st !! id = Some c) as (id & c & Hid & Hc).
  { destruct Hw as [_ _ _ _ _ Hl Hown _]. rewrite Forall_forall in Hown.
    destruct (Hown u Hu Hcb) as [id Hid]. destruct (Hl u id Hu Hid) as [c Hc]. eauto. }
  assert (forall st' ret, st_wf st' -> listener_list st' = listener_list st ->
    fwp (ctrl_fail (s_ret a) ret st') (served l u st) s1) as Hfail.
  { intros st' ret Hw' El. eapply wpv_mono; [apply (ctrl_fail_fwp l)|].
    - split; [done|]. unfold fds. by rewrite El.
    - intros ? ? [-> Hi]. exists ret, st'. split_and!; [done|done|]. intros v. by rewrite El. }
  assert (forall st', st_wf st' -> listener_list st' = listener_list st ->
    fwp (ctrl_done (s_ret a) st';;; Ret (Some (0, st'))) (served l u st) s1) as Hdone.
  { intros st' Hw' El. apply wpv_bind. eapply wpv_mono; [apply (ctrl_done_fwp l)|].
    - split; [done|]. unfold fds. by rewrite El.
    - intros r0 s' Hi. exists 0, st'. split_and!; [done|done|]. intros v. by rewrite El. }
  assert (lu_client u ≫= (fun id => (fun c => (id, c)) <$> heap st !! id) = Some (id, c)) as ->
    by (rewrite Hid; cbn; by rewrite Hc).
  case_match; [by apply Hfail|]. case_match.
  { apply fwp_quiet; [apply ctrl_start_fwp|]. intros [ret l'].
    case_match; [apply Hfail|apply Hdone]; (done || by apply set_life_wf). }
  case_match; [apply fwp_quiet; [apply lift_fwp|]; intros l'; apply Hdone; (done || by apply set_life_wf)|].
  case_match.
  { cbn [bind call wpv fdl]. intros e _. case_match; [by apply Hfail|].
    apply fwp_quiet; [apply lift_fwp|]. intros l'. apply wpv_bind.
    eapply wpv_mono; [apply (ctrl_done_fwp l); split; [exact (set_life_wf st id l' Hw)|exact Ho]|].
    intros r0 s' Hi. apply wpv_bind. eapply wpv_mono; [eapply free_listener_fwp; [exact Hu|exact Hid|exact Hi]|].
    intros st' s'' [Hi' Hp]. exists 0, st'. split_and!; [done|done|].
    intros v Hv Hne. cbn in Hp. rewrite Hp in Hv. apply elem_of_cons in Hv as [->|]; done. }
  case_match; [apply fwp_quiet; [apply show_status_fwp|]; intros l'; apply Hdone; (done || by apply set_life_wf)|].
  case_match; [apply fwp_quiet; [apply start_gdb_client_fwp|]; intros ret; case_match; [by apply Hfail|by apply Hdone]|].
  apply fwp_quiet; [apply send_log_fwp|]. intros _. by apply Hfail.
Qed.

Lemma dispatch_fwp l st u s :
  inv l st s -> u ∈ listener_list st ->
  fwp (dispatch p2v v2p vring_size ring_at io_null image_rsc st u) (served l u st) s.
Proof.
  intros Hi Hu. unfold dispatch. destruct (lu_cb u) eqn:E; [|by apply client_ctrl_handler_fwp].
  apply wpv_bind. eapply wpv_mono; [by apply create_mica_client_fwp|]. intros [ret st'] s' [Hi' Hv].
  exists ret, st'. split_and!; [done|done|]. intros v ? _. by apply Hv.
Qed.

Lemma serve_fwp l st ready s :
  inv l st s -> NoDup ready -> (forall i, i ∈ ready -> i ∈ lu_id <$> listener_list st) ->
  fwp (serve p2v v2p vring_size ring_at io_null image_rsc st ready)
    (fun r s' => exists st', r = Some st' /\ inv l st' s') s.
Proof.
  revert st s. induction ready as [|i ready IH]; intros st s Hi Hn Hr; cbn [serve]; [by exists st|].
  apply NoDup_cons in Hn as [Hni Hn].
  destruct (proj1 (list_elem_of_fmap _ _ _) (Hr i ltac:(set_solver))) as (u & -> & Hu).
  destruct (list_find_elem_of (fun v => lu_id v = lu_id u) _ u Hu) as [[j v] Hf]; [done|]. rewrite Hf.
  apply list_find_Some in Hf as (Hj & Hv & _). apply list_elem_of_lookup_2 in Hj.
  apply wpv_bind. eapply wpv_mono; [by apply dispatch_fwp|]. intros r s' (ret & st' & -> & Hi' & Hk).
  apply IH; [done|done|]. intros i Hir.
  destruct (proj1 (list_elem_of_fmap _ _ _) (Hr i ltac:(set_solver))) as (w & -> & Hw).
  apply list_elem_of_fmap_2, Hk; [done|]. intros E. apply Hni. by rewrite <- Hv, <- E.
Qed.

(** *** The list of clients *)

(** The memory and the socket of a listener can be set up. *)
Definition sockets_ok (c : scall) (a : sans) : Prop :=
  match c with
  | CallocUnit => s_ret a <> 0
  | Socket | Bind _ _ | Listen _ | EpollAdd _ => 0 <= s_ret a
  | _ => True
  end.
Abbreviation gwp := (wpv fdl sockets_ok).

(** Every client in [g_client_list] is owned by a listener. *)
Definition linked (st : state) : Prop := forall id, id ∈ g_client_list st -> id ∈ omap lu_client (listener_list st).

(** What a handler of [u] may do to the list of clients. *)
Definition relinks (u : listen_unit) (st st' : state) : Prop :=
  forall id, id ∈ g_client_list st' ->
    id ∈ omap lu_client (listener_list st') \/
    id ∈ g_client_list st /\ (listener_list st ⊆ listener_list st' \/ lu_client u <> Some id).
Definition relinked (u : listen_unit) (st : state) (r : option (Z * state)) (_ : option (list Z)) : Prop :=
  forall ret st', r = Some (ret, st') -> relinks u st st'.

Lemma relinks_same u st st' :
  g_client_list st' = g_client_list st -> listener_list st' = listener_list st -> relinks u st st'.
Proof. intros Hg Hl id Hid. right. rewrite Hg in Hid. split; [done|]. left. by rewrite Hl. Qed.

Lemma add_listener_gwp (st : state) name id cb s :
  gwp (add_listener st name (Some id) cb)
    (fun r _ => r.1 = 0 /\ g_client_list r.2 = g_client_list st /\
       exists u, lu_client u = Some id /\ listener_list r.2 = listener_list st ++ [u]) s.
Proof.
  unfold add_listener. cbn [bind call wpv sockets_ok]. intros m Hm. rewrite (proj2 (Z.eqb_neq _ _)) by done.
  cbn [bind call wpv sockets_ok]. intros sk Hs. rewrite (proj2 (Z.ltb_ge _ _)) by done.
  cbn [bind call wpv sockets_ok]. intros b Hb. rewrite (proj2 (Z.ltb_ge _ _)) by done.
  cbn [bind call wpv sockets_ok]. intros l Hl. rewrite (proj2 (Z.ltb_ge _ _)) by done.
  cbn [bind call wpv sockets_ok]. intros e He. rewrite (proj2 (Z.ltb_ge _ _)) by done.
  cbn. split_and!; [done|done|]. eexists. split; [|reflexivity]. done.
Qed.

Lemma create_mica_client_gwp st u s :
  gwp (create_mica_client io_null image_rsc st u) (fun r _ => relinks u st r.2) s.
Proof.
  assert (forall fd ret st' s', relinks u st st' ->
    gwp (create_reply fd ret st') (fun r _ => relinks u st r.2) s') as Hrep.
  { intros fd ret st' s' Hr. unfold create_reply. apply wpv_any. intros _ s''. by cbn. }
  assert (relinks u st st) as H0 by by apply relinks_same.
  unfold create_mica_client. cbn [bind call wpv]. intros a _. case_match; [done|].
  cbn [bind call wpv]. intros r _. case_match; [by apply Hrep|].
  apply wpv_any. intros ret s1. case_match; [by apply Hrep|].
  cbn [bind call wpv]. intros m _. case_match; [by apply Hrep|].
  apply wpv_any. intros [ret' l] s2. case_match.
  { cbn [free_client bind call wpv]. intros ? _. apply Hrep. by apply relinks_same. }
  apply wpv_bind. eapply wpv_mono; [apply add_listener_gwp|].
  intros [ret2 st2] s3 (Hret & Hg & v & Hv & Hl). cbn [fst snd] in *. rewrite Hret. cbn [Z.ltb Z.compare]. apply Hrep.
  intros id Hid. rewrite Hg in Hid. cbn in Hid. rewrite Hl. cbn.
  apply elem_of_app in Hid as [Hid| ->%list_elem_of_singleton].
  - right. split; [done|]. left. set_solver.
  - left. rewrite omap_app. apply elem_of_app. right. cbn. rewrite Hv. set_solver.
Qed.

Lemma client_ctrl_handler_gwp st u s :
  gwp (client_ctrl_handler p2v v2p vring_size ring_at st u) (relinked u st) s.
Proof.
  assert (forall fd ret st' s', relinks u st st' -> gwp (ctrl_fail fd ret st') (relinked u st) s') as Hfail.
  { intros fd ret st' s' Hr. unfold ctrl_fail. apply wpv_any. intros _ s''. cbn. by intros _ _ ? ? [= _ <-]. }
  assert (forall fd st' s', relinks u st st' -> gwp (ctrl_done fd st';;; Ret (Some (0, st'))) (relinked u st) s') as Hdone.
  { intros fd st' s' Hr. apply wpv_any. intros _ s''. by intros ? ? [= _ <-]. }
  assert (forall id l, relinks u st (set_life st id l)) as Hlife by (intros; by apply relinks_same).
  assert (relinks u st st) as H0 by by apply relinks_same.
  unfold client_ctrl_handler. cbn [bind call wpv]. intros a _. case_match; [by intros ? ? [= _ <-]|].
  cbn [bind call wpv]. intros r _. case_match; [by apply Hfail|].
  destruct (lu_client u) as [id|] eqn:Eu; cbn [mbind option_bind]; [|done].
  destruct (heap st !! id) as [c|]; cbn [fmap option_fmap option_map]; [|done].
  case_match; [apply wpv_any; intros [ret l] s1; case_match; [by apply Hfail|by apply Hdone]|].
  case_match; [apply wpv_any; intros l s1; by apply Hdone|].
  case_match.
  { cbn [bind call wpv]. intros e _. case_match; [by apply Hfail|].
    apply wpv_any. intros l s1. apply wpv_any. intros _ s2. unfold free_listener_by_name.
    assert (forall us x y, relinks u st (Daemon us x (List.filter (fun x => negb (x =? id)) (g_client_list st)) y)) as Hrel.
    { intros us x y i Hi. cbn in Hi. apply list_elem_of_In, filter_In in Hi as [Hi Hne]. right.
      split; [by apply list_elem_of_In|]. right. rewrite Eu. intros [= ->]. by rewrite Z.eqb_refl in Hne. }
    case_match; [|by intros ? ? [= _ <-]]. case_match. unfold free_unit, free_client. cbn.
    case_match; cbn; do 3 (intros ? _); try (intros ? _); intros ? ? [= _ <-]; apply Hrel. }
  case_match; [apply wpv_any; intros l s1; by apply Hdone|].
  case_match; [apply wpv_any; intros ret s1; case_match; [by apply Hfail|by apply Hdone]|].
  apply wpv_any. intros _ s1. by apply Hfail.
Qed.

Lemma dispatch_gwp st u s :
  gwp (dispatch p2v v2p vring_size ring_at io_null image_rsc st u) (relinked u st) s.
Proof.
  unfold dispatch. destruct (lu_cb u); [|apply client_ctrl_handler_gwp].
  apply wpv_bind. eapply wpv_mono; [apply create_mica_client_gwp|]. intros [ret st'] s' Hr. by intros ? ? [= _ <-].
Qed.

(** With the account of the listeners, every linked client keeps its owner. *)
Lemma relinks_linked u st st' :
  st_wf st -> u ∈ listener_list st -> linked st -> keeps u st st' -> relinks u st st' -> linked st'.
Proof.
  intros Hw Hu Hl Hk Hr id Hid. destruct (Hr id Hid) as [?|[Hin Hcase]]; [done|].
  destruct (proj1 (list_elem_of_omap _ _ _) (Hl id Hin)) as (v & Hv & Ev). apply list_elem_of_omap. exists v. split; [|done].
  destruct Hcase as [Hsub|Hne]; [by apply Hsub|]. apply Hk; [done|]. intros E. apply Hne.
  assert (v = u) as <-; [|done]. destruct Hw as [_ _ Hids _ _ _ _ _].
  apply list_elem_of_lookup in Hv as [i Hi]. apply list_elem_of_lookup in Hu as [j Hj].
  assert (i = j) as <-; [|congruence].
  apply (NoDup_lookup (lu_id <$> listener_list st) _ _ (lu_id u)); [done|..];
    rewrite list_lookup_fmap, ?Hi, ?Hj; cbn; congruence.
Qed.

Lemma serve_linked l st ready s :
  inv l st s -> linked st -> NoDup ready -> (forall i, i ∈ ready -> i ∈ lu_id <$> listener_list st) ->
  wpv fdl (fun c a => terminated c a /\ sockets_ok c a)
    (serve p2v v2p vring_size ring_at io_null image_rsc st ready)
    (fun r s' => exists st', r = Some st' /\ inv l st' s' /\ linked st') s.
Proof.
  revert st s. induction ready as [|i ready IH]; intros st s Hi Hlk Hn Hr; cbn [serve]; [by exists st|].
  apply NoDup_cons in Hn as [Hni Hn].
  destruct (proj1 (list_elem_of_fmap _ _ _) (Hr i ltac:(set_solver))) as (u & -> & Hu).
  destruct (list_find_elem_of (fun v => lu_id v = lu_id u) _ u Hu) as [[j v] Hf]; [done|]. rewrite Hf.
  apply list_find_Some in Hf as (Hj & Hv & _). apply list_elem_of_lookup_2 in Hj.
  apply wpv_bind. eapply wpv_mono; [apply wpv_and; [by apply dispatch_fwp|apply dispatch_gwp]|].
  intros r s' [(ret & st' & -> & Hi' & Hk) Hrl].
  apply IH; [done| |done|]; [eapply relinks_linked; [apply Hi|exact Hj|done|done|by eapply Hrl]|].
  intros i Hir. destruct (proj1 (list_elem_of_fmap _ _ _) (Hr i ltac:(set_solver))) as (w & -> & Hw).
  apply list_elem_of_fmap_2, Hk; [done|]. intros E. apply Hni. by rewrite <- Hv, <- E.
Qed.

Definition daemon_empty : state := Daemon [] ∅ [] 0.

Lemma init_links s :
  wpv fdl (fun _ _ => True) (wait_create_msg_init daemon_empty) (fun r _ => g_client_list r.2 = []) s.
Proof.
  unfold wait_create_msg_init, add_listener. cbn. intros e _. case_match; [done|]. cbn.
  repeat (first [done | intros ? _; cbn | case_match; cbn]).
Qed.

Lemma init_fwp :
  fwp (wait_create_msg_init daemon_empty)
    (fun r s => forall ep, r.1 = Some ep -> inv [ep] r.2 s) (Some []).
Proof.
  unfold wait_create_msg_init. cbn [bind call wpv fdl]. intros e _. case_match; [done|].
  apply wpv_bind. eapply wpv_mono.
  - apply (add_listener_fwp [s_ret e]); try done; [|cbv; lia|apply not_elem_of_nil].
    split; [|by exists [s_ret e]].
    split; try (by constructor); [set_solver|]. intros id [c Hc]. cbn in Hc. by rewrite lookup_empty in Hc.
  - intros [ret st] s [Hi _]. cbn [fst snd] in *. case_match; [done|]. by intros ep [= <-].
Qed.

(** The states of the daemon between two calls of [epoll_wait], with the calls made
    so far: any set of registered listeners may be ready, in any order. *)
Inductive reach (o : oracle scall sans) : state -> history scall sans -> Prop :=
| reach_init ep st h :
    exec o (wait_create_msg_init daemon_empty) [] = ((Some ep, st), h) -> reach o st h
| reach_batch st h ready st' h' :
    reach o st h -> NoDup ready -> (forall i, i ∈ ready -> i ∈ lu_id <$> listener_list st) ->
    exec o (serve p2v v2p vring_size ring_at io_null image_rsc st ready) h = (Some st', h') ->
    reach o st' h'.

Lemma reach_inv (o : oracle scall sans) st h :
  (forall h c, terminated c (o h c)) -> reach o st h ->
  exists ep, inv [ep] st (observe fdl (Some []) h).
Proof.
  intros Ho. induction 1 as [ep st h E|st h ready st' h' Hreach [ep IH] Hn Hr E].
  - pose proof (wpv_sound fdl terminated o _ _ (Some []) [] Ho init_fwp) as H. rewrite E in H. exists ep. by apply H.
  - pose proof (wpv_sound fdl terminated o _ _ (Some []) h Ho (serve_fwp [ep] st ready _ IH Hn Hr)) as H.
    rewrite E in H. destruct H as (? & [= <-] & Hi). by exists ep.
Qed.

Lemma reach_linked (o : oracle scall sans) st h :
  (forall h c, terminated c (o h c)) -> (forall h c, sockets_ok c (o h c)) -> reach o st h -> linked st.
Proof.
  intros Ho Hs. induction 1 as [ep st h E|st h ready st' h' Hreach IH Hn Hr E].
  - pose proof (wpv_sound fdl (fun _ _ => True) o _ _ (Some []) [] ltac:(done) (init_links _)) as H.
    rewrite E in H. cbn in H. intros id Hid. rewrite H in Hid. set_solver.
  - destruct (reach_inv o st h Ho Hreach) as [ep Hi].
    pose proof (wpv_sound fdl (fun c a => terminated c a /\ sockets_ok c a) o _ _ (Some []) h ltac:(done)
      (serve_linked [ep] st ready _ Hi IH Hn Hr)) as H.
    rewrite E in H. by destruct H as (? & [= <-] & _ & ?).
Qed.
End listener_inv.

(** C21: In every state that micad reaches, through any batches of events and
    whatever its calls answer, the listeners have pairwise different names, each
    control listener owns a live client OS that no other listener owns, and the open
    descriptors are the epoll descriptor and the listeners' sockets, none of them
    closed twice; a further batch of ready listeners is served without following a
    pointer to a freed listener, or from a listener to a freed client; and as long as
    the sockets of new clients can be set up, every client in [g_client_list] is alive
    too, so that linking and unlinking its neighbours touches no freed client
    ([freed_client_stays_listed] shows that a failed set-up breaks this).  Names on the
    wire must be terminated. *)
Theorem daemon_invariant {IO} (p2v : IO -> Z -> option Z) (v2p : IO -> Z -> Z)
    (vring_size : Z -> Z -> Z) (ring_at : Z -> Z -> ring_buffer) (io_null : IO)
    (image_rsc : string -> rsc_contents) (o : oracle scall sans) (st : daemon IO) (h : history scall sans) :
  (forall h c, terminated c (o h c)) ->
  reach p2v v2p vring_size ring_at io_null image_rsc o st h ->
  NoDup (lu_name <$> listener_list st) /\
  NoDup (omap lu_client (listener_list st)) /\
  (forall u, u ∈ listener_list st -> lu_cb u = ClientCtrlHandler ->
     exists id, lu_client u = Some id /\ is_Some (heap st !! id)) /\
  (exists ep l, observe fdl (Some []) h = Some l /\ l ≡ₚ ep :: (lu_fd <$> listener_list st)) /\
  (forall ready, NoDup ready -> (forall i, i ∈ ready -> i ∈ lu_id <$> listener_list st) ->
     is_Some (exec o (serve p2v v2p vring_size ring_at io_null image_rsc st ready) h).1) /\
  ((forall h c, sockets_ok c (o h c)) -> forall id, id ∈ g_client_list st -> is_Some (heap st !! id)).
Proof.
  intros Ho Hr. destruct (reach_inv _ _ _ _ _ _ _ _ _ Ho Hr) as [ep Hi]. pose proof Hi as [Hw Hopn].
  destruct Hopn as (l & E & Hl). split_and!; try apply Hw; [|by exists ep, l| |].
  - intros u Hu Hcb. destruct Hw as [_ _ _ _ _ Hlive Hown _]. rewrite Forall_forall in Hown.
    destruct (Hown u Hu Hcb) as [id Hid]. exists id. split; [done|]. by eapply Hlive.
  - intros ready Hn Hin. pose proof (wpv_sound fdl terminated o _ _ (Some []) h Ho
      (serve_fwp p2v v2p vring_size ring_at io_null image_rsc [ep] st ready _ Hi Hn Hin)) as H.
    destruct H as (st' & -> & _). by eexists.
  - intros Hs id Hid. pose proof (reach_linked _ _ _ _ _ _ _ _ _ Ho Hs Hr id Hid) as Hin.
    apply list_elem_of_omap in Hin as (u & Hu & Ec). destruct Hw as [_ _ _ _ _ Hlive _ _]. by eapply Hlive.
Qed.

Definition msg_example (name : string) : create_msg :=
  CreateMsg 3 name "/lib/firmware/a.elf" "" "" false.
(** Messages create the client "qemu-zephyr"; sockets and connections are numbered
    by the length of the history. *)
Definition micad_oracle : oracle scall sans := fun h c =>
  let ans r := Sans r 0 "status" (msg_example "qemu-zephyr") (Lans 1 RPROC_OFFLINE false 0 None) false in
  match c with
  | Accept _ | Socket | EpollCreate => ans (10 + Z.of_nat (length h))
  | CallocUnit | CallocClient | MallocLog _ => ans 64
  | NumProcessors => ans 4
  | _ => ans 0
  end.

Abbreviation serve_example :=
  (serve p2v_example v2p_example (fun num _ => num * 16) ring_at_example tt (fun _ => rsc_example)).
Abbreviation reach_example :=
  (reach p2v_example v2p_example (fun num _ => num * 16) ring_at_example tt (fun _ => rsc_example)).
Definition micad_started := exec micad_oracle (wait_create_msg_init (daemon_empty (IO := unit))) [].
Definition micad_created := exec micad_oracle (serve_example micad_started.1.2 [0]) micad_started.2.

Lemma daemon_invariant_witness :
  let st := default daemon_empty micad_created.1 in
  reach_example micad_oracle st micad_created.2 /\
  length (listener_list st) = 2%nat /\ g_client_list st = [1] /\ is_Some (heap st !! 1).
Proof.
  cbv zeta. assert (reach_example micad_oracle (default daemon_empty micad_created.1) micad_created.2) as Hr.
  { eapply (reach_batch _ _ _ _ _ _ _ micad_started.1.2 micad_started.2 [0]).
    - eapply reach_init. by vm_compute.
    - apply NoDup_singleton.
    - intros i ->%list_elem_of_singleton. vm_compute. left.
    - by vm_compute. }
  split; [exact Hr|]. split; [by vm_compute|]. split; [by vm_compute|].
  assert (forall h c, terminated c (micad_oracle h c)) as Ht by (intros h []; try done; vm_compute; lia).
  destruct (daemon_invariant _ _ _ _ _ _ _ _ _ Ht Hr) as (_ & _ & _ & _ & _ & Hlive).
  apply Hlive; [|vm_compute; left]. intros h []; cbn; done || lia.
Defined.

(** ** Replies *)

(** The connection a handler accepted, and what it sent. *)
Definition talk (s : option Z * list (Z * string)) (c : scall) (a : sans) : option Z * list (Z * string) :=
  match c with
  | Accept _ => (if s_ret a =? -1 then None else Some (s_ret a), s.2)
  | Send fd t => (s.1, s.2 ++ [(fd, t)])
  | _ => s
  end.
Definition log_allocated (c : scall) (a : sans) : Prop :=
  match c with MallocLog _ => s_ret a <> 0 | _ => True end.

Definition talking (fd : Z) (s : option Z * list (Z * string)) : Prop :=
  s.1 = Some fd /\ Forall (fun x => x.1 = fd) s.2.

(** A request was answered: no connection, or a last message on it that tells the
    verdict; a request that failed leaves the listeners alone. *)
Definition answered {IO} (st : daemon IO) (r : option (Z * daemon IO)) (s : option Z * list (Z * string)) : Prop :=
  match s.1 with
  | None => s.2 = [] /\ r = Some (-1, st)
  | Some fd => exists l v ret st', r = Some (ret, st') /\ s.2 = l ++ [(fd, v)] /\
      Forall (fun x => x.1 = fd) l /\
      (v = MICA_MSG_SUCCESS /\ ret = 0 \/ v = MICA_MSG_FAILED /\ listener_list st' = listener_list st)
  end.

Section replies.
Context {IO : Type}.
Context (p2v : IO -> Z -> option Z) (v2p : IO -> Z -> Z) (vring_size : Z -> Z -> Z).
Context (ring_at : Z -> Z -> ring_buffer) (io_null : IO) (image_rsc : string -> rsc_contents).
Abbreviation state := (daemon IO).
Abbreviation twp := (wpv talk log_allocated).

Lemma lift_twp {R} id (p : io lcall lans R) s : twp (lift id p) (fun _ s' => s' = s) s.
Proof. induction p as [r|c k IH]; cbn; [done|]. intros a _. apply IH. Qed.
Lemma send_log_twp fd t s : twp (send_log fd t) (fun _ s' => s' = (s.1, s.2 ++ [(fd, t)])) s.
Proof.
  unfold send_log. cbn. intros m Hm. rewrite (proj2 (Z.eqb_neq _ _)) by done. cbn. by intros _ _ _ _.
Qed.
Lemma send_log_talking fd t s : talking fd s -> twp (send_log fd t) (fun _ s' => talking fd s') s.
Proof.
  intros [H1 H2]. eapply wpv_mono; [apply send_log_twp|]. intros _ s' ->. split; [done|]. cbn.
  apply Forall_app. by split; [|constructor].
Qed.

Lemma twp_talk {R T} fd (p : sio R) (f : R -> sio T) Q s :
  twp p (fun _ s' => talking fd s') s -> (forall r s', talking fd s' -> twp (f r) Q s') -> twp (bind p f) Q s.
Proof. intros Hp Hf. apply wpv_bind. eapply wpv_mono; [exact Hp|]. intros r s'. apply Hf. Qed.
Lemma lift_talking {R} fd id (p : io lcall lans R) s : talking fd s -> twp (lift id p) (fun _ s' => talking fd s') s.
Proof. intros H. eapply wpv_mono; [apply lift_twp|]. by intros _ s' ->. Qed.

Lemma ctrl_start_talking fd id (c : sclient IO) s :
  talking fd s -> twp (ctrl_start p2v v2p vring_size ring_at id c) (fun _ s' => talking fd s') s.
Proof.
  assert (forall ks s', talking fd s' -> twp (create_services id ks) (fun _ s'' => talking fd s'') s') as Hks.
  { induction ks as [|k ks IH]; cbn; [done|]. intros s' Hs' a _. case_match; [done|by apply IH]. }
  intros H. unfold ctrl_start. eapply twp_talk; [by apply lift_talking|]. intros [ret l] s' Hs'.
  case_match; [done|].
  case_match; [cbn [bind call wpv talk]; intros a _; case_match; [done|]|];
    (eapply twp_talk; [by apply Hks|done]).
Qed.
Lemma show_status_talking fd u id (c : sclient IO) s :
  talking fd s -> twp (show_status fd u id c) (fun _ s' => talking fd s') s.
Proof.
  intros H. unfold show_status. eapply twp_talk; [by apply lift_talking|]. intros [status l] s' Hs'.
  cbn [bind call wpv talk]. intros b _. eapply twp_talk; [by apply send_log_talking|done].
Qed.
Lemma start_gdb_client_talking fd (c : sclient IO) s :
  talking fd s -> twp (start_gdb_client fd c) (fun _ s' => talking fd s') s.
Proof.
  intros H. unfold start_gdb_client. case_match; (eapply twp_talk; [by apply send_log_talking|done]).
Qed.
Lemma check_create_msg_talking (st : state) msg fd s :
  talking fd s -> twp (check_create_msg st msg fd) (fun _ s' => talking fd s') s.
Proof.
  intros H. unfold check_create_msg. cbn [bind call wpv talk]. intros a _.
  case_match; [eapply twp_talk; [by apply send_log_talking|done]|]. cbn [bind call wpv talk]. intros n _.
  case_match; [cbn [bind call wpv talk]; intros n' _; eapply twp_talk; [by apply send_log_talking|done]|].
  case_match; [eapply twp_talk; [by apply send_log_talking|done]|done].
Qed.
Lemma add_listener_talking (st : state) name client cb fd s :
  talking fd s -> twp (add_listener st name client cb)
    (fun r s' => talking fd s' /\ (r.1 < 0 /\ r.2 = st \/ r.1 = 0)) s.
Proof.
  intros H. unfold add_listener. cbn [bind call wpv talk]. intros m _.
  case_match; [split; [done|]; by left|]. cbn [bind call wpv talk]. intros sk _.
  case_match; [cbn; intros _ _; split; [done|]; by left|]. cbn [bind call wpv talk]. intros b _.
  case_match; [cbn; intros _ _ _ _ _ _; bool_to_Prop; split; [done|]; by left|]. cbn [bind call wpv talk]. intros ls _.
  case_match; [cbn; intros _ _ _ _ _ _; bool_to_Prop; split; [done|]; by left|]. cbn [bind call wpv talk]. intros e _.
  case_match; [cbn; intros _ _ _ _ _ _; bool_to_Prop; split; [done|]; by left|]. split; [done|]. by right.
Qed.

Lemma ctrl_fail_answers (st st' : state) fd ret s :
  talking fd s -> listener_list st' = listener_list st -> twp (ctrl_fail fd ret st') (answered st) s.
Proof.
  intros [H1 H2] El. unfold ctrl_fail. apply wpv_bind. eapply wpv_mono; [apply send_log_twp|].
  intros _ s' ->. cbn. intros _ _. unfold answered. cbn. rewrite H1.
  exists s.2, MICA_MSG_FAILED, ret, st'. split_and!; try done. by right.
Qed.
(** [f]: what follows the reply and says no more. *)
Lemma ctrl_done_answers (st st' : state) fd (f : unit -> sio (option (Z * state))) s :
  talking fd s ->
  (forall s', twp (f tt) (fun r s'' => s'' = s' /\ exists st'', r = Some (0, st'')) s') ->
  twp (bind (ctrl_done fd st') f) (answered st) s.
Proof.
  intros [H1 H2] Hf. unfold ctrl_done. apply wpv_bind, wpv_bind. eapply wpv_mono; [apply send_log_twp|].
  intros _ s' ->. cbn. intros _ _. eapply wpv_mono; [apply Hf|]. intros r s' [-> [st'' ->]].
  unfold answered. cbn. rewrite H1. exists s.2, MICA_MSG_SUCCESS, 0, st''. split_and!; try done. by left.
Qed.
Lemma create_reply_answers (st st' : state) fd ret s :
  talking fd s -> (ret <> 0 -> listener_list st' = listener_list st) ->
  twp (create_reply fd ret st') (fun r s' => answered st (Some r) s') s.
Proof.
  intros [H1 H2] El. unfold create_reply. apply wpv_bind. eapply wpv_mono; [apply send_log_twp|].
  intros _ s' ->. cbn. intros _ _. unfold answered. cbn. rewrite H1.
  exists s.2, (if negb (ret =? 0) then MICA_MSG_FAILED else MICA_MSG_SUCCESS), ret, st'.
  split_and!; try done. destruct (Z.eqb_spec ret 0); cbn; [by left|right]. eauto.
Qed.

Lemma accepted_talking (a : sans) (s : option Z * list (Z * string)) : s.2 = [] -> talking (s_ret a) (Some (s_ret a), s.2).
Proof. intros E. split; [done|]. cbn. rewrite E. constructor. Qed.

Lemma create_mica_client_answers (st : state) u :
  twp (create_mica_client io_null image_rsc st u) (fun r s' => answered st (Some r) s') (None, []).
Proof.
  unfold create_mica_client. cbn [bind call wpv talk snd]. intros a _.
  destruct (s_ret a =? -1); [done|]. pose proof (accepted_talking a (None, []) eq_refl) as Ht. cbn [snd] in Ht.
  cbn [bind call wpv talk]. intros r _. case_match; [by apply create_reply_answers|].
  eapply twp_talk; [by apply check_create_msg_talking|]. intros ret s Hs.
  case_match; [by apply create_reply_answers|]. cbn [bind call wpv talk]. intros m _.
  case_match; [by apply create_reply_answers|].
  eapply twp_talk; [by apply lift_talking|]. intros [ret' l] s' Hs'. case_match.
  { cbn [free_client bind call wpv talk]. intros _ _. by apply create_reply_answers. }
  apply wpv_bind. eapply wpv_mono; [by apply add_listener_talking|].
  intros [ret'' st'] s'' [Hs'' Hret]. cbn [fst snd] in Hret. destruct Hret as [[Hneg ->]| ->].
  - rewrite (proj2 (Z.ltb_lt _ _)) by done. cbn [free_client bind call wpv talk]. intros _ _.
    by apply create_reply_answers.
  - by apply create_reply_answers.
Qed.

Lemma client_ctrl_handler_answers (st : state) u :
  (exists id, lu_client u = Some id /\ is_Some (heap st !! id)) ->
  twp (client_ctrl_handler p2v v2p vring_size ring_at st u) (answered st) (None, []).
Proof.
  intros (id & Hid & c & Hc). unfold client_ctrl_handler. cbn [bind call wpv talk snd]. intros a _.
  destruct (s_ret a =? -1); [done|]. pose proof (accepted_talking a (None, []) eq_refl) as Ht. cbn [snd] in Ht.
  cbn [bind call wpv talk]. intros r _. case_match; [by apply ctrl_fail_answers|].
  assert (lu_client u ≫= (fun id => (fun c => (id, c)) <$> heap st !! id) = Some (id, c)) as ->
    by (rewrite Hid; cbn; by rewrite Hc).
  assert (forall st' s, talking (s_ret a) s ->
    twp (ctrl_done (s_ret a) st';;; Ret (Some (0, st'))) (answered st) s) as Hok.
  { intros st' s Hs. apply ctrl_done_answers; [done|]. intros s'. cbn. eauto. }
  case_match.
  { eapply twp_talk; [by apply ctrl_start_talking|]. intros [ret l] s Hs.
    case_match; [by apply ctrl_fail_answers|by apply Hok]. }
  case_match; [eapply twp_talk; [by apply lift_talking|]; intros l s Hs; by apply Hok|].
  case_match.
  { cbn [bind call wpv talk]. intros e _. case_match; [by apply ctrl_fail_answers|].
    eapply twp_talk; [by apply lift_talking|]. intros l s Hs. apply ctrl_done_answers; [done|].
    intros s'. unfold free_listener_by_name. case_match; [|by cbn; eauto].
    destruct p as [i v]. unfold free_unit, free_client. case_match; cbn; intros; eauto. }
  case_match; [eapply twp_talk; [by apply show_status_talking|]; intros l s Hs; by apply Hok|].
  case_match.
  { eapply twp_talk; [by apply start_gdb_client_talking|]. intros ret s Hs.
    case_match; [by apply ctrl_fail_answers|by apply Hok]. }
  eapply twp_talk; [by apply send_log_talking|]. intros _ s Hs. by apply ctrl_fail_answers.
Qed.
Lemma dispatch_answers st u :
  (lu_cb u = ClientCtrlHandler -> exists id, lu_client u = Some id /\ is_Some (heap st !! id)) ->
  twp (dispatch p2v v2p vring_size ring_at io_null image_rsc st u) (answered st) (None, []).
Proof.
  intros Hu. unfold dispatch. destruct (lu_cb u); [|by apply client_ctrl_handler_answers, Hu].
  apply wpv_bind, create_mica_client_answers.
Qed.
End replies.

(** Every request is answered: when a ready listener is served and the
    connection could be accepted, all messages go to that connection and the last
    one is MICA-SUCCESS, and then the handler returns 0, or MICA-FAILED, and then no
    listener was added or removed.  Log messages must find memory; the listener's
    client must be live, as in every state reached. *)
Theorem requests_answered {IO} (p2v : IO -> Z -> option Z) (v2p : IO -> Z -> Z)
    (vring_size : Z -> Z -> Z) (ring_at : Z -> Z -> ring_buffer) (io_null : IO)
    (image_rsc : string -> rsc_contents) (o : oracle scall sans) (st : daemon IO) (u : listen_unit) :
  (forall h c, log_allocated c (o h c)) ->
  (lu_cb u = ClientCtrlHandler -> exists id, lu_client u = Some id /\ is_Some (heap st !! id)) ->
  let p := dispatch p2v v2p vring_size ring_at io_null image_rsc st u in
  answered st (result o p) (observe talk (None, []) (trace o p)).
Proof.
  intros Ho Hu p. apply (wpv_result_trace talk log_allocated o p (answered st) (None, []) Ho).
  by apply dispatch_answers.
Qed.

Lemma requests_answered_witness :
  let st := default daemon_empty micad_created.1 in
  exists u, listener_list st !! 1%nat = Some u /\
  let p := dispatch p2v_example v2p_example (fun num _ => num * 16) ring_at_example tt
             (fun _ => rsc_example) st u in
  answered st (result micad_oracle p) (observe talk (None, []) (trace micad_oracle p)) /\
  length (observe talk (None, []) (trace micad_oracle p)).2 = 2%nat.
Proof.
  eexists. split; [by vm_compute|]. split; [|by vm_compute].
  apply requests_answered; [by intros h []|]. intros _. exists 1. split; [done|]. by eexists.
Defined.

(** A client whose socket could not be set up is freed but stays in the list of
    clients that the notifier walks (lines 411-415). *)
Theorem freed_client_stays_listed :
  exists st, (result (fun h c => match c with Bind _ _ => Sans (-1) 98 "" (msg_example "a") (Lans 0 RPROC_OFFLINE false 0 None) false
                              | _ => micad_oracle h c end)
              (create_mica_client tt (fun _ => rsc_example) daemon_empty
                 (ListenUnit 0 "mica-create" 3 "/run/mica/mica-create.socket" CreateMicaClient None))).2 = st /\
    g_client_list st = [0] /\ heap st = ∅.
Proof. eexists. split; [done|]. split; by vm_compute. Qed.

(** A name of 32 characters is stored without its last one, so that it is not
    recognised as taken (lines 142 and 222). *)
Theorem long_name_not_recognised :
  let name := String.concat "" (replicate 32 "a"%string) in
  named name (ListenUnit 0 (strlcpy name MAX_NAME_LEN) 3 "" ClientCtrlHandler (Some 1)) = false.
Proof. by vm_compute. Qed.
