(* ===== verification/ListenerThread.v ===== *)
(** * The listening thread ([mica/micad/socket_listener.c])

    [register_socket_listener] starts the thread [wait_create_msg] and waits on a condition
    variable until the thread has opened its socket or failed.  The two run concurrently
    here, with the mutex, the condition variable and the flags [listening] and [created];
    the control socket listener's file has the handlers, and the sequential account of the
    start that the theorems below justify. *)

From Stdlib Require Import Relation_Operators Lexicographic_Product.
From S2P Require Import Prelude RingBuffer ShmPool Baremetal Mica Listener.

(** ** The programs *)

Definition EINTR : Z := 4.
Definition EXIT_FAILURE : Z := 1.

Inductive tcall :=
| Sys (c : scall)
| MutexLock
| MutexUnlock
| CondWait
| CondBroadcast
| LoadCreated
| StoreCreated
| LoadListening
| StoreListening
| EpollWait
| Exit (status : Z).

(** [t_sys] answers a system call, [t_flag] the load of a flag; [EpollWait] returns
    [s_ret] of [t_sys] and the ready listeners. *)
Record tans := Tans { t_sys : sans; t_flag : bool; t_ready : list Z }.
Abbreviation tio := (io tcall tans).

Fixpoint sys {R} (p : sio R) : tio R :=
  match p with
  | Ret r => Ret r
  | Call c k => Call (Sys c) (fun a => sys (k (t_sys a)))
  end.

(** [while (!created) pthread_cond_wait(&cond, &mutex)], at most [fuel] tests of the flag;
    [false]: there were more. *)
Fixpoint wait_created (fuel : nat) : tio bool :=
  match fuel with
  | O => Ret false
  | S fuel =>
      a <- call LoadCreated;;
      if t_flag a then Ret true else _ <- call CondWait;; wait_created fuel
  end.

Definition await_thread (fuel : nat) : tio (option Z) :=
  _ <- call MutexLock;;
  ok <- wait_created fuel;;
  if negb ok then Ret None
  else
    _ <- call MutexUnlock;;
    a <- call LoadListening;;
    Ret (Some (if t_flag a then 0 else -1)).

Definition register_socket_listener_mt (fuel : nat) : tio (option Z) :=
  r <- sys register_start;;
  match r with Some ret => Ret (Some ret) | None => await_thread fuel end.

Section thread.
Context {IO : Type}.
Context (p2v : IO -> Z -> option Z) (v2p : IO -> Z -> Z) (vring_size : Z -> Z -> Z).
Context (ring_at : Z -> Z -> ring_buffer) (io_null : IO) (image_rsc : string -> rsc_contents).
Abbreviation state := (daemon IO).

(** How the thread ends: its state, or nothing if it used a freed listener; the loop is
    left too when [rounds] of it were observed. *)
Abbreviation outcome := (option state).

Fixpoint listen_loop (rounds : nat) (epoll_fd : Z) (st : state) : tio outcome :=
  match rounds with
  | O => Ret (Some st)
  | S rounds =>
      l <- call LoadListening;;
      if negb (t_flag l) then _ <- call (Sys (CloseFd epoll_fd));; Ret (Some st)
      else
        e <- call EpollWait;;
        let fds := s_ret (t_sys e) in
        if fds <? 0 then
          if s_errno (t_sys e) =? EINTR then listen_loop rounds epoll_fd st
          else _ <- call (Exit EXIT_FAILURE);; Ret (Some st)
        else
          r <- sys (serve p2v v2p vring_size ring_at io_null image_rsc st (take (Z.to_nat fds) (t_ready e)));;
          match r with
          | None => Ret None
          | Some st => listen_loop rounds epoll_fd st
          end
  end.

(** [created = true] under the mutex. *)
Definition announce (p : tio outcome) : tio outcome :=
  _ <- call MutexLock;;
  _ <- call StoreCreated;;
  _ <- call CondBroadcast;;
  _ <- call MutexUnlock;;
  p.

Definition wait_create_msg (rounds : nat) (st : state) : tio outcome :=
  r <- sys (wait_create_msg_init st);;
  let '(epoll_fd, st) := r in
  match epoll_fd with
  | Some epoll_fd => _ <- call StoreListening;; announce (listen_loop rounds epoll_fd st)
  | None => announce (Ret (Some st))
  end.

(** ** The two threads *)

(** [owner]: who holds the mutex, [true] for the caller of [register_socket_listener];
    [sleeping]: that caller sleeps on the condition variable, and whether it was woken;
    [spurious]: so many times it may still wake without a broadcast. *)
Record shared := Shared {
  listening : bool; created : bool; owner : option bool; sleeping : option bool; spurious : nat;
}.

(** [thread]: what is left of [wait_create_msg], if it runs; the histories are those of
    the system calls of each thread; [exited]: the process is gone. *)
Record config := Config {
  sh : shared;
  main : tio (option Z);
  main_calls : history scall sans;
  thread : option (tio outcome);
  thread_calls : history scall sans;
  cancelled : bool;
  exited : bool;
}.

Definition sys_call (c : tcall) (a : tans) : history scall sans :=
  match c with Sys c => [(c, t_sys a)] | _ => [] end.

(** A call that does not wait, made by thread [who]; [None]: the call must wait, or is not
    one that changes the shared state. *)
Definition effect (who : bool) (c : tcall) (s : shared) : option shared :=
  match c with
  | Sys _ | LoadCreated | LoadListening | EpollWait => Some s
  | MutexLock =>
      if owner s is Some _ then None else Some (Shared (listening s) (created s) (Some who) (sleeping s) (spurious s))
  | MutexUnlock => Some (Shared (listening s) (created s) None (sleeping s) (spurious s))
  | CondBroadcast =>
      Some (Shared (listening s) (created s) (owner s) ((fun _ => true) <$> sleeping s) (spurious s))
  | StoreCreated => Some (Shared (listening s) true (owner s) (sleeping s) (spurious s))
  | StoreListening => Some (Shared true (created s) (owner s) (sleeping s) (spurious s))
  | CondWait | Exit _ => None
  end.

(** What a load reads. *)
Definition reads (c : tcall) (s : shared) (a : tans) : Prop :=
  match c with
  | LoadCreated => t_flag a = created s
  | LoadListening => t_flag a = listening s
  | _ => True
  end.

(** A successful [pthread_create] starts the thread, [pthread_cancel] may end it. *)
Definition spawns (c : tcall) (a : tans) : bool :=
  match c with Sys ThreadCreate => s_ret (t_sys a) =? 0 | _ => false end.
Definition cancels (c : tcall) : bool := match c with Sys ThreadCancel => true | _ => false end.

Section steps.
Context (rounds : nat) (st0 : state).

Inductive step : config -> config -> Prop :=
| step_main cfg c k a s' :
    exited cfg = false -> main cfg = Call c k -> effect true c (sh cfg) = Some s' -> reads c (sh cfg) a ->
    step cfg (Config s' (k a) (main_calls cfg ++ sys_call c a)
                (if spawns c a then Some (wait_create_msg rounds st0) else thread cfg) (thread_calls cfg)
                (cancels c || cancelled cfg) false)
| step_sleep cfg k s :
    exited cfg = false -> main cfg = Call CondWait k -> sh cfg = s -> sleeping s = None ->
    step cfg (Config (Shared (listening s) (created s) None (Some false) (spurious s)) (main cfg)
                (main_calls cfg) (thread cfg) (thread_calls cfg) (cancelled cfg) false)
| step_wake cfg k s (woken : bool) n a :
    exited cfg = false -> main cfg = Call CondWait k -> sh cfg = s -> sleeping s = Some woken -> owner s = None ->
    spurious s = (if woken then n else S n) ->
    step cfg (Config (Shared (listening s) (created s) (Some true) None n) (k a)
                (main_calls cfg) (thread cfg) (thread_calls cfg) (cancelled cfg) false)
| step_thread cfg c k a s' :
    exited cfg = false -> thread cfg = Some (Call c k) -> effect false c (sh cfg) = Some s' -> reads c (sh cfg) a ->
    step cfg (Config s' (main cfg) (main_calls cfg) (Some (k a)) (thread_calls cfg ++ sys_call c a)
                (cancelled cfg) false)
| step_cancel cfg p :
    exited cfg = false -> cancelled cfg = true -> thread cfg = Some p ->
    step cfg (Config (sh cfg) (main cfg) (main_calls cfg) None (thread_calls cfg) true false)
| step_exit cfg status k :
    exited cfg = false -> thread cfg = Some (Call (Exit status) k) ->
    step cfg (Config (sh cfg) (main cfg) (main_calls cfg) None (thread_calls cfg) (cancelled cfg) true).

Definition initial (fuel n : nat) : config :=
  Config (Shared false false None None n) (register_socket_listener_mt fuel) [] None [] false false.

(** ** Phases *)

(** [p] makes the calls of [h] and goes on as [q]. *)
Fixpoint runs_to {C A R} (p : io C A R) (h : history C A) (q : io C A R) : Prop :=
  match h with
  | [] => p = q
  | ca :: h => exists k, p = Call ca.1 k /\ runs_to (k ca.2) h q
  end.

Lemma runs_to_snoc {C A R} (p : io C A R) h c k a : runs_to p h (Call c k) -> runs_to p (h ++ [(c, a)]) (k a).
Proof. revert p. induction h as [|[c' a'] h IH]; intros p; cbn; [intros ->; eauto|]. intros (k' & -> & H). eauto. Qed.

Lemma runs_to_bind {C A R S} (p : io C A R) (f : R -> io C A S) h1 h2 r q :
  runs_to p h1 (Ret r) -> runs_to (f r) h2 q -> runs_to (bind p f) (h1 ++ h2) q.
Proof.
  revert p. induction h1 as [|[c a] h1 IH]; intros p; cbn; [by intros ->|].
  intros (k & -> & H1) H2. eexists. split; [done|]. by apply IH.
Qed.

Context (fuel : nat).

(** Where [register_socket_listener] is; [n]: tests of the flag that are left. *)
Inductive mphase :=
| MStart (q : sio (option Z))
| MLock
| MTest (n : nat)
| MWait (n : nat)
| MUnlock
| MLoad
| MEnd (ret : Z).

Definition tested (ok : bool) : tio (option Z) :=
  if negb ok then Ret None
  else _ <- call MutexUnlock;; a <- call LoadListening;; Ret (Some (if t_flag a then 0 else -1)).
Definition mprog (ph : mphase) : tio (option Z) :=
  match ph with
  | MStart q => r <- sys q;; match r with Some ret => Ret (Some ret) | None => await_thread fuel end
  | MLock => await_thread fuel
  | MTest n => bind (wait_created n) tested
  | MWait n => _ <- call CondWait;; bind (wait_created n) tested
  | MUnlock => tested true
  | MLoad => a <- call LoadListening;; Ret (Some (if t_flag a then 0 else -1))
  | MEnd ret => Ret (Some ret)
  end.

(** Where the thread is; [r]: how its socket was set up. *)
Inductive tphase :=
| TInit (q : sio (option Z * state))
| TStore (epoll_fd : Z) (st : state)
| TLock (r : option Z * state)
| TCreated (r : option Z * state)
| TBroadcast (r : option Z * state)
| TUnlock (r : option Z * state)
| TLoop (p : tio outcome).

Definition after (r : option Z * state) : tio outcome :=
  match r.1 with Some epoll_fd => listen_loop rounds epoll_fd r.2 | None => Ret (Some r.2) end.
Definition set_up (r : option Z * state) : tio outcome :=
  let '(epoll_fd, st) := r in
  match epoll_fd with
  | Some epoll_fd => _ <- call StoreListening;; announce (listen_loop rounds epoll_fd st)
  | None => announce (Ret (Some st))
  end.
Definition tprog (ph : tphase) : tio outcome :=
  match ph with
  | TInit q => bind (sys q) set_up
  | TStore epoll_fd st => set_up (Some epoll_fd, st)
  | TLock r => announce (after r)
  | TCreated r => _ <- call StoreCreated;; _ <- call CondBroadcast;; _ <- call MutexUnlock;; after r
  | TBroadcast r => _ <- call CondBroadcast;; _ <- call MutexUnlock;; after r
  | TUnlock r => _ <- call MutexUnlock;; after r
  | TLoop p => p
  end.

(** The phase of a program whose start has come to [q]. *)
Definition mnorm (q : sio (option Z)) : mphase :=
  match q with Ret (Some ret) => MEnd ret | Ret None => MLock | Call _ _ => MStart q end.
Definition tnorm (q : sio (option Z * state)) : tphase :=
  match q with Ret (Some ep, st) => TStore ep st | Ret (None, st) => TLock (None, st) | Call _ _ => TInit q end.

Lemma mprog_norm q : mprog (mnorm q) = mprog (MStart q).
Proof. by destruct q as [[ret|]|]. Qed.
Lemma tprog_norm q : tprog (tnorm q) = tprog (TInit q).
Proof. by destruct q as [[[ep|] st]|]. Qed.

(** *** What holds in a phase *)

(** The loop leaves the mutex and the flags alone. *)
Definition quiet_call (c : tcall) : bool :=
  match c with Sys _ | LoadListening | EpollWait | Exit _ => true | _ => false end.
Fixpoint quiet (p : tio outcome) : Prop :=
  match p with
  | Ret _ => True
  | Call c k => quiet_call c = true /\ forall a, quiet (k a)
  end.

Lemma quiet_sys {R} (p : sio R) (f : R -> tio outcome) : (forall r, quiet (f r)) -> quiet (bind (sys p) f).
Proof. intros Hf. induction p as [r|c k IH]; cbn; [apply Hf|]. split; [done|]. intros a. apply IH. Qed.

Lemma quiet_loop n ep st : quiet (listen_loop n ep st).
Proof.
  revert st. induction n as [|n IH]; intros st; cbn [listen_loop]; [done|]. cbn [bind call quiet quiet_call].
  split; [done|]. intros l. case_match; [by cbn|]. cbn [bind call quiet quiet_call]. split; [done|]. intros e.
  case_match; [case_match; [apply IH|by cbn]|]. apply quiet_sys. intros [st'|]; [apply IH|done].
Qed.

Lemma quiet_after r : quiet (after r).
Proof. unfold after. case_match; [apply quiet_loop|done]. Qed.

(** The start creates one thread, and waits for it only if it was not cancelled. *)
Fixpoint start_ok (q : sio (option Z)) (spawned : bool) : Prop :=
  match q with
  | Ret None => spawned = true
  | Ret (Some _) => True
  | Call c k =>
      (c = ThreadCreate -> spawned = false) /\
      (forall a, (c = ThreadCancel -> exists ret, k a = Ret (Some ret)) /\
        start_ok (k a) (match c with ThreadCreate => s_ret a =? 0 | _ => spawned end))
  end.

Lemma register_start_ok : start_ok register_start false.
Proof.
  cbn. split; [done|]. intros _. split; [done|]. split; [done|]. intros m. split; [done|].
  case_match; cbn; [done|]. split; [done|]. intros t. split; [done|].
  case_match eqn:E; cbn; [done|]. apply negb_false_iff in E. rewrite E. split; [done|]. intros d. split; [done|].
  case_match; cbn; [|done]. split; [done|]. intros _. split; [eauto|done].
Qed.

(** The socket is set up as the flag says. *)
Definition listens (r : option Z * state) : bool := if r.1 is Some _ then true else false.
Definition told (s : shared) (calls : history scall sans) : Prop :=
  exists r h1 h2, calls = h1 ++ h2 /\ runs_to (wait_create_msg_init st0) h1 (Ret r) /\ listening s = listens r.

Definition tok (tp : option tphase) (s : shared) (calls : history scall sans) : Prop :=
  match tp with
  | None => created s = false /\ listening s = false /\ calls = [] /\ owner s <> Some false
  | Some (TInit q) =>
      (exists c k, q = Call c k) /\ runs_to (wait_create_msg_init st0) calls q /\ created s = false /\ listening s = false /\ owner s <> Some false
  | Some (TStore ep st) =>
      runs_to (wait_create_msg_init st0) calls (Ret (Some ep, st)) /\
      created s = false /\ listening s = false /\ owner s <> Some false
  | Some (TLock r) =>
      runs_to (wait_create_msg_init st0) calls (Ret r) /\ created s = false /\ listening s = listens r /\
      owner s <> Some false
  | Some (TCreated r) =>
      runs_to (wait_create_msg_init st0) calls (Ret r) /\ created s = false /\ listening s = listens r /\
      owner s = Some false
  | Some (TBroadcast r) => told s calls /\ created s = true /\ owner s = Some false
  | Some (TUnlock r) => told s calls /\ created s = true /\ owner s = Some false /\ sleeping s <> Some false
  | Some (TLoop p) =>
      told s calls /\ created s = true /\ owner s <> Some false /\ sleeping s <> Some false /\ quiet p
  end.

Definition mok (mp : mphase) (s : shared) : Prop :=
  match mp with
  | MStart q => (exists c k, q = Call c k) /\ owner s <> Some true /\ sleeping s = None /\ (spurious s + 2 <= fuel)%nat
  | MLock => owner s <> Some true /\ sleeping s = None /\ (spurious s + 2 <= fuel)%nat
  | MTest n =>
      owner s = Some true /\ sleeping s = None /\ (0 < n)%nat /\ (created s = false -> (spurious s + 2 <= n)%nat)
  | MWait n =>
      (spurious s < n)%nat /\
      (sleeping s = None /\ owner s = Some true /\ created s = false \/
       exists woken, sleeping s = Some woken /\ owner s <> Some true /\ (woken = true -> created s = true))
  | MUnlock => owner s = Some true /\ sleeping s = None /\ created s = true
  | MLoad => owner s <> Some true /\ sleeping s = None /\ created s = true
  | MEnd _ => False
  end.

Definition mrun (mp : mphase) (calls : history scall sans) : Prop :=
  match mp with
  | MStart q => runs_to register_start calls q
  | MEnd ret => runs_to register_start calls (Ret (Some ret))
  | _ => runs_to register_start calls (Ret None)
  end.

(** The caller waits for a thread that runs. *)
Definition joint (mp : mphase) (tp : option tphase) : Prop :=
  match mp with
  | MStart q => start_ok q (if tp is Some _ then true else false)
  | _ => tp <> None
  end.

Record active (cfg : config) (mp : mphase) (tp : option tphase) : Prop := Active {
  a_main : main cfg = mprog mp;
  a_thread : thread cfg = tprog <$> tp;
  a_mrun : mrun mp (main_calls cfg);
  a_mok : mok mp (sh cfg);
  a_tok : tok tp (sh cfg) (thread_calls cfg);
  a_joint : joint mp tp;
  a_alive : cancelled cfg = false /\ exited cfg = false;
}.

(** The sequential account of the start explains the outcome. *)
Definition explained (cfg : config) : Prop :=
  exists ret st1 h1 h2, main cfg = Ret (Some ret) /\ thread_calls cfg = h1 ++ h2 /\
    runs_to (register_socket_listener st0) (main_calls cfg ++ h1) (Ret (ret, st1)).

Definition start_inv (cfg : config) : Prop :=
  explained cfg \/ (exited cfg = true /\ exists c k, main cfg = Call c k) \/ exists mp tp, active cfg mp tp.

(** *** Steps of one thread seen by the other *)

Lemma tok_main tp s s' calls :
  created s' = created s -> listening s' = listening s -> (owner s' = Some false <-> owner s = Some false) ->
  (sleeping s' = Some false -> sleeping s = Some false \/ created s = false) ->
  tok tp s calls -> tok tp s' calls.
Proof.
  intros Ec El Eo Es. destruct tp as [[]|]; cbn; unfold told; rewrite Ec, El; try (by rewrite Eo); naive_solver congruence.
Qed.

Lemma mok_thread mp s s' :
  (owner s' = Some true <-> owner s = Some true) -> spurious s' = spurious s ->
  (created s' = created s \/ created s' = true /\ owner s <> Some true) ->
  (sleeping s' = sleeping s \/ created s = true /\ sleeping s' = (fun _ => true) <$> sleeping s) ->
  mok mp s -> mok mp s'.
Proof.
  intros Eo En Ec Es. destruct mp; cbn; rewrite ?En, ?Eo.
  - intros (? & ? & Hs & ?). split_and!; try done. destruct Es as [->|[_ ->]]; by rewrite Hs.
  - intros (? & Hs & ?). split_and!; try done. destruct Es as [->|[_ ->]]; by rewrite Hs.
  - intros (? & Hs & ? & ?). split_and!; try done; [destruct Es as [->|[_ ->]]; by rewrite Hs|naive_solver congruence].
  - intros (? & [(Hs & ? & ?)|(w & Hs & ? & ?)]); (split; [done|]).
    + left. destruct Ec as [Ec|[_ ?]]; [|done]. destruct Es as [->|[? _]]; [|congruence]. by rewrite Ec.
    + right. destruct Es as [->|[? ->]]; [exists w|exists true; rewrite Hs]; naive_solver congruence.
  - intros (? & Hs & ?). split_and!; try done; [destruct Es as [->|[_ ->]]; by rewrite Hs|naive_solver congruence].
  - intros (? & Hs & ?). split_and!; try done; [destruct Es as [->|[_ ->]]; by rewrite Hs|naive_solver congruence].
  - done.
Qed.

Lemma tok_norm q s calls :
  runs_to (wait_create_msg_init st0) calls q -> created s = false -> listening s = false -> owner s <> Some false ->
  tok (Some (tnorm q)) s calls.
Proof. destruct q as [[[ep|] st]|]; cbn; intros; split_and!; eauto. Qed.

Lemma thread_step cfg mp tp c k a s' :
  active cfg mp tp -> thread cfg = Some (Call c k) -> effect false c (sh cfg) = Some s' -> reads c (sh cfg) a ->
  exists tp', active (Config s' (main cfg) (main_calls cfg) (Some (k a)) (thread_calls cfg ++ sys_call c a)
                (cancelled cfg) false) mp (Some tp').
Proof.
  intros [Hm Ht Hmr Hmok Htok Hj Hal] Hc Hs Ha. rewrite Ht in Hc.
  destruct tp as [tp|]; [|done]. cbn in Hc. injection Hc as Hc.
  assert (joint mp (Some tp) -> forall tp', joint mp (Some tp')) as Hj' by (by destruct mp).
  assert (forall tp', k a = tprog tp' -> mok mp s' -> tok (Some tp') s' (thread_calls cfg ++ sys_call c a) ->
    active (Config s' (main cfg) (main_calls cfg) (Some (k a)) (thread_calls cfg ++ sys_call c a)
              (cancelled cfg) false) mp (Some tp')) as Hact.
  { intros tp' Ek Hmok' Htok'. split; cbn; try done; [by rewrite Ek|by apply Hj'|by destruct Hal]. }
  destruct tp as [q|ep st|r|r|r|r|p]; cbn in Htok, Hc.
  - destruct Htok as ((c0 & k0 & ->) & Hr & ? & ? & ?). cbn in Hc. simplify_eq/=.
    exists (tnorm (k0 (t_sys a))). apply Hact; [by rewrite tprog_norm|done|]. apply tok_norm; [by apply runs_to_snoc|done..].
  - simplify_eq/=. exists (TLock (Some ep, st)). apply Hact; [done| |].
    + eapply mok_thread; [..|done]; auto.
    + rewrite app_nil_r. naive_solver.
  - simplify_eq/=. destruct Htok as (? & ? & ? & ?). destruct (owner (sh cfg)) eqn:Eo; [done|]. simplify_eq.
    exists (TCreated r). apply Hact; [done| |].
    + eapply mok_thread; [..|done]; auto. cbn. by rewrite Eo.
    + rewrite app_nil_r. by cbn.
  - simplify_eq/=. destruct Htok as (Hr & ? & ? & Eo). exists (TBroadcast r). apply Hact; [done| |].
    + eapply mok_thread; [..|done]; auto. right. by rewrite Eo.
    + rewrite app_nil_r. cbn. split_and!; [|done..]. exists r, (thread_calls cfg), []. by rewrite app_nil_r.
  - simplify_eq/=. destruct Htok as (Hr & ? & ?). exists (TUnlock r). apply Hact; [done| |].
    + eapply mok_thread; [..|done]; auto.
    + rewrite app_nil_r. cbn. split_and!; try done. by destruct (sleeping (sh cfg)).
  - simplify_eq/=. destruct Htok as (Hr & ? & Eo & ?). exists (TLoop (after r)). apply Hact; [done| |].
    + eapply mok_thread; [..|done]; auto. cbn. by rewrite Eo.
    + rewrite app_nil_r. cbn. split_and!; try done. apply quiet_after.
  - subst p. destruct Htok as ((r & h1 & h2 & Eh & Hr & El) & ? & ? & ? & Hq). destruct Hq as [Hc Hq].
    assert (s' = sh cfg) as -> by (destruct c; cbn in *; congruence).
    exists (TLoop (k a)). apply Hact; [done|done|]. cbn. split_and!; try done.
    exists r, h1, (h2 ++ sys_call c a). by rewrite Eh, app_assoc.
Qed.

Lemma explained_early cfg ret :
  runs_to register_start (main_calls cfg) (Ret (Some ret)) -> main cfg = Ret (Some ret) -> explained cfg.
Proof.
  intros Hr Hm. exists ret, st0, [], (thread_calls cfg). split_and!; [done..|].
  by apply (runs_to_bind _ _ _ [] (Some ret)).
Qed.

Lemma explained_late cfg :
  runs_to register_start (main_calls cfg) (Ret None) -> told (sh cfg) (thread_calls cfg) ->
  main cfg = Ret (Some (if listening (sh cfg) then 0 else -1)) -> explained cfg.
Proof.
  intros Hr (r & h1 & h2 & E & Hi & El) Hm. exists (if listening (sh cfg) then 0 else -1), r.2, h1, h2.
  split_and!; [done..|]. apply (runs_to_bind _ _ _ _ None); [done|]. rewrite <- (app_nil_r h1).
  apply (runs_to_bind _ _ _ [] r); [done|]. destruct r as [[ep|] st]; cbn in *; by rewrite El.
Qed.

Lemma tok_told tp s calls : tok tp s calls -> created s = true -> told s calls.
Proof. destruct tp as [[]|]; cbn; naive_solver congruence. Qed.

(** The configuration after a call of the caller that does not wait. *)
Definition after_main (cfg : config) (c : tcall) (k : tans -> tio (option Z)) (a : tans) (s' : shared) : config :=
  Config s' (k a) (main_calls cfg ++ sys_call c a)
    (if spawns c a then Some (wait_create_msg rounds st0) else thread cfg) (thread_calls cfg)
    (cancels c || cancelled cfg) false.

Lemma start_step cfg q c k a s' :
  (exists tp, active cfg (MStart q) tp) -> main cfg = Call c k -> effect true c (sh cfg) = Some s' ->
  start_inv (after_main cfg c k a s').
Proof.
  intros [tp [Hm Ht Hmr Hmok Htok Hj [Hcan Hex]]] Hc Hs. rewrite Hm in Hc.
  destruct Hmok as ((c0 & k0 & ->) & Ho & Hsl & Hf). cbn in Hc. simplify_eq/=.
  destruct Hj as [Hsp Hj]. destruct (Hj (t_sys a)) as [Hcancel Hok].
  pose proof (runs_to_snoc _ _ _ _ (t_sys a) Hmr) as Hmr'. unfold after_main. cbn [sys_call].
  destruct (k0 (t_sys a)) as [[ret|]|c1 k1] eqn:Ek; [left; by apply (explained_early _ ret)| |].
  all: assert (cancels (Sys c0) = false) as Hnc by (destruct c0; try done; by destruct (Hcancel eq_refl)).
  all: set (tp' := if spawns (Sys c0) a then Some (tnorm (wait_create_msg_init st0)) else tp).
  all: assert (start_ok (k0 (t_sys a)) (if tp' is Some _ then true else false)) as Hok'
    by (rewrite Ek; destruct c0; try exact Hok; unfold tp'; cbn; destruct tp; [by specialize (Hsp eq_refl)|];
        by destruct (s_ret (t_sys a) =? 0)).
  all: assert (tok tp' (sh cfg) (thread_calls cfg)) as Htok'
    by (unfold tp'; destruct (spawns (Sys c0) a) eqn:Esp; [|done]; destruct c0; try discriminate Esp;
        destruct tp; [by specialize (Hsp eq_refl)|]; destruct Htok as (? & ? & -> & ?); by apply tok_norm).
  all: assert ((if spawns (Sys c0) a then Some (wait_create_msg rounds st0) else thread cfg) = tprog <$> tp') as Ht'
    by (unfold tp'; destruct (spawns (Sys c0) a); [|done];
        exact (f_equal Some (eq_sym (tprog_norm (wait_create_msg_init st0))))).
  all: rewrite Ek in Hok'; right; right; rewrite Hnc.
  - exists MLock, tp'. split; try done. cbn. by destruct tp'.
  - exists (MStart (Call c1 k1)), tp'. split; try done. cbn. split_and!; eauto.
Qed.

Lemma main_step cfg mp tp c k a s' :
  active cfg mp tp -> main cfg = Call c k -> effect true c (sh cfg) = Some s' -> reads c (sh cfg) a ->
  start_inv (after_main cfg c k a s').
Proof.
  intros Hact Hc Hs Ha. pose proof Hact as [Hm Ht Hmr Hmok Htok Hj [Hcan Hex]]. rewrite Hm in Hc.
  assert (forall mp', sys_call c a = [] -> spawns c a = false -> cancels c = false ->
    k a = mprog mp' -> mrun mp' (main_calls cfg) -> mok mp' s' -> tok tp s' (thread_calls cfg) -> joint mp' tp ->
    start_inv (after_main cfg c k a s')) as Hnext.
  { intros mp' Ec Es En Ek Hmr' Hmok' Htok' Hj'. right; right. exists mp', tp. unfold after_main.
    rewrite Ec, Es, En, app_nil_r. by split. }
  destruct mp as [q| |n|n| | |ret]; cbn in Hmok, Hc.
  - eapply start_step; [by exists tp|by rewrite Hm|done].
  - simplify_eq/=. destruct Hmok as (? & ? & ?). destruct (owner (sh cfg)) eqn:Eo; [done|]. simplify_eq.
    apply (Hnext (MTest fuel)); try done; [cbn; split_and!; try done; lia|].
    eapply tok_main; [..|done]; try done; [by rewrite Eo|auto].
  - destruct Hmok as (? & ? & Hn & Hl). destruct n as [|n]; [lia|]. cbn in Hc. simplify_eq/=.
    destruct (t_flag a) eqn:Ef; [apply (Hnext MUnlock)|apply (Hnext (MWait n))]; try (by rewrite ?Ef); cbn.
    specialize (Hl (eq_sym Ha)). split; [lia|by left].
  - by simplify_eq/=.
  - simplify_eq/=. destruct Hmok as (Eo & ? & ?). apply (Hnext MLoad); try done.
    eapply tok_main; [..|done]; try done; [by rewrite Eo|auto].
  - simplify_eq/=. destruct Hmok as (? & ? & Hcr). left. apply explained_late; cbn.
    + by rewrite app_nil_r.
    + by eapply tok_told.
    + by rewrite Ha.
  - done.
Qed.

Lemma sleep_step cfg mp tp k s :
  active cfg mp tp -> main cfg = Call CondWait k -> sh cfg = s -> sleeping s = None ->
  start_inv (Config (Shared (listening s) (created s) None (Some false) (spurious s)) (main cfg)
               (main_calls cfg) (thread cfg) (thread_calls cfg) (cancelled cfg) false).
Proof.
  intros [Hm Ht Hmr Hmok Htok Hj [Hcan Hex]] Hc <- Hsl. rewrite Hm in Hc. right; right. exists mp, tp.
  destruct mp as [q| |n|n| | |ret]; cbn in Hmok, Hc; try discriminate Hc.
  - by destruct Hmok as ((c0 & k0 & ->) & _).
  - by destruct n.
  - destruct Hmok as (? & [(_ & Eo & Ec)|(w & ? & _)]); [|congruence]. split; try done; cbn.
    + split; [done|]. right. by exists false.
    + eapply tok_main; [..|done]; try done; [by rewrite Eo|by right].
Qed.

Lemma wake_step cfg mp tp k s (woken : bool) n a :
  active cfg mp tp -> main cfg = Call CondWait k -> sh cfg = s -> sleeping s = Some woken -> owner s = None ->
  spurious s = (if woken then n else S n) ->
  start_inv (Config (Shared (listening s) (created s) (Some true) None n) (k a)
               (main_calls cfg) (thread cfg) (thread_calls cfg) (cancelled cfg) false).
Proof.
  intros [Hm Ht Hmr Hmok Htok Hj [Hcan Hex]] Hc <- Hsl Ho Hn. rewrite Hm in Hc. right; right.
  destruct mp as [q| |m|m| | |ret]; cbn in Hmok, Hc; try discriminate Hc.
  - by destruct Hmok as ((c0 & k0 & ->) & _).
  - by destruct m.
  - destruct Hmok as (Hl & [(? & _)|(w & ? & _ & Hw)]); [congruence|].
    assert (w = woken) as -> by congruence. injection Hc as <-. exists (MTest m), tp.
    split; try done; cbn.
    + split_and!; try done; [destruct woken; lia|]. intros Ec. destruct woken; [|lia]. by rewrite Hw in Ec.
    + eapply tok_main; [..|done]; try done. by rewrite Ho.
Qed.

Lemma step_start_inv cfg cfg' : step cfg cfg' -> start_inv cfg -> start_inv cfg'.
Proof.
  intros Hs [(ret & st1 & h1 & h2 & Hm & Ht & Hr)|[[Hex _]|(mp & tp & Ha)]].
  - left. exists ret, st1, h1. destruct Hs; try congruence; cbn; [eexists|exists h2..]; split_and!; try done.
    rewrite Ht. by rewrite app_assoc.
  - by destruct Hs; congruence.
  - destruct Hs as [cfg c k a s' _ Hm Hs Hr|cfg k s _ Hm Es Hsl|cfg k s w n a _ Hm Es Hsl Ho Hn
      |cfg c k a s' _ Ht Hs Hr|cfg p _ Hcan _|cfg status k _ Ht].
    + by eapply main_step.
    + by eapply sleep_step.
    + by eapply wake_step.
    + right; right. destruct (thread_step cfg mp tp c k a s' Ha Ht Hs Hr) as [tp' Ha']. eauto.
    + destruct Ha as [_ _ _ _ _ _ [? _]]. congruence.
    + right; left. split; [done|]. destruct Ha as [Hm _ _ Hmok _ _ _]. cbn. rewrite Hm.
      destruct mp as [q| |[]|n| | |ret]; cbn in *; try (by eauto); [by destruct Hmok as ((? & ? & ->) & _); eauto|lia].
Qed.

Lemma start_initial n : (n + 2 <= fuel)%nat -> start_inv (initial fuel n).
Proof.
  intros Hn. right; right. exists (MStart register_start), None. split; try done.
  - cbn. split_and!; eauto.
  - apply register_start_ok.
Qed.

(** ** Every run ends *)

Abbreviation order :=
  (slexprod _ _ (slexprod _ _ (@next_prog tcall tans (option Z)) (@next_opt tcall tans outcome)) lt).
Definition measure (cfg : config) :=
  ((main cfg, thread cfg), match sleeping (sh cfg) with None => 1%nat | Some _ => 0%nat end).

Lemma start_step_smaller cfg cfg' : step cfg cfg' -> order (measure cfg') (measure cfg).
Proof.
  unfold measure. intros [cfg0 c k a s' _ Hm Hs Hr|cfg0 k s _ Hm Es Hsl|cfg0 k s w n a _ Hm Es Hsl Ho Hn
    |cfg0 c k a s' _ Ht Hs Hr|cfg0 p _ Hcan Ht|cfg0 status k _ Ht]; cbn [main thread sh sleeping].
  - do 2 apply left_slex. by exists c, k, a.
  - rewrite Es, Hsl. apply right_slex. lia.
  - do 2 apply left_slex. by exists CondWait, k, a.
  - apply left_slex, right_slex. rewrite Ht. by exists c, k, a.
  - apply left_slex, right_slex. by rewrite Ht.
  - apply left_slex, right_slex. by rewrite Ht.
Qed.

Lemma step_acc cfg : Acc (flip step) cfg.
Proof.
  assert (well_founded order) as Hwf
    by (repeat apply wf_slexprod; [apply next_prog_wf|apply next_opt_wf|apply lt_wf]).
  remember (measure cfg) as m eqn:Em. revert cfg Em. induction (Hwf m) as [m _ IH]. intros cfg ->.
  constructor. intros cfg' Hs. by eapply IH; [apply start_step_smaller|].
Qed.

(** ** No one waits forever *)

Lemma answer_exists c s : exists a, reads c s a.
Proof.
  pose (a b := Tans (Sans 0 0 "" (CreateMsg 0 "" "" "" "" false) (Lans 0 RPROC_OFFLINE false 0 None) false) b []).
  destruct c; try (by exists (a true)); [by exists (a (created s))|by exists (a (listening s))].
Qed.

(** The thread moves, unless it waits for the mutex or has come to its loop. *)
Lemma thread_moves cfg mp tp :
  active cfg mp (Some tp) ->
  match tp with TLock _ => owner (sh cfg) = None | TLoop _ => False | _ => True end -> exists cfg', step cfg cfg'.
Proof.
  intros [_ Ht _ _ Htok _ [_ Hex]] Hp.
  assert (exists c k s', tprog tp = Call c k /\ effect false c (sh cfg) = Some s') as (c & k & s' & Ek & Es).
  { destruct tp as [q|ep st|r|r|r|r|p]; try done; cbn in *.
    - destruct Htok as ((c0 & k0 & ->) & _). cbn. by do 3 eexists.
    - by do 3 eexists.
    - do 3 eexists. split; [done|]. cbn. by rewrite Hp.
    - by do 3 eexists.
    - by do 3 eexists.
    - by do 3 eexists. }
  destruct (answer_exists c (sh cfg)) as [a Ha]. eexists. eapply (step_thread cfg c k a s'); try done.
  rewrite Ht. cbn. by rewrite Ek.
Qed.

(** Who holds the mutex moves on. *)
Lemma mutex_moves cfg mp tp : active cfg mp tp -> owner (sh cfg) = Some false -> exists cfg', step cfg cfg'.
Proof.
  intros Ha Ho. pose proof (a_tok _ _ _ Ha) as Htok. destruct tp as [[]|]; cbn in Htok; try naive_solver.
  all: by eapply thread_moves.
Qed.

Lemma main_moves cfg c k s' :
  exited cfg = false -> main cfg = Call c k -> effect true c (sh cfg) = Some s' -> exists cfg', step cfg cfg'.
Proof. intros Hex Hm Hs. destruct (answer_exists c (sh cfg)) as [a Ha]. eexists. by eapply (step_main cfg c k a s'). Qed.

Lemma active_moves cfg mp tp : active cfg mp tp -> exists cfg', step cfg cfg'.
Proof.
  intros Ha. pose proof Ha as [Hm _ _ Hmok Htok Hj [_ Hex]].
  destruct mp as [q| |n|n| | |ret]; cbn in Hm, Hmok, Hj; try (by eapply main_moves; [|exact Hm|]).
  - destruct Hmok as ((c0 & k0 & ->) & _). by eapply main_moves; [|exact Hm|].
  - destruct Hmok as (Ho & _). destruct (owner (sh cfg)) as [[]|] eqn:Eo; [done|by eapply mutex_moves|].
    eapply main_moves; [done|exact Hm|]. cbn. by rewrite Eo.
  - destruct n as [|n]; [lia|]. by eapply main_moves; [|exact Hm|].
  - destruct Hmok as (Hn & [(Hsl & _)|(w & Hsl & Ho & _)]); [eexists; by eapply step_sleep|].
    destruct (owner (sh cfg)) as [[]|] eqn:Eo; [done|by eapply mutex_moves|].
    destruct (answer_exists CondWait (sh cfg)) as [a _].
    destruct w; [eexists; by eapply (step_wake cfg _ _ true (spurious (sh cfg)) a)|].
    destruct (spurious (sh cfg)) as [|m] eqn:En; [|eexists; by eapply (step_wake cfg _ _ false m a)].
    destruct tp as [tp|]; [|done]. eapply thread_moves; [done|]. destruct tp; cbn in Htok; naive_solver.
  - done.
Qed.

Lemma reachable_start_inv n cfg :
  (n + 2 <= fuel)%nat -> rtc step (initial fuel n) cfg -> start_inv cfg.
Proof.
  intros Hn. generalize (start_initial n Hn). generalize (initial fuel n). intros cfg0 Hi Hr.
  induction Hr as [|cfg0 cfg1 cfg2 Hs _ IH]; [done|]. by eapply IH, step_start_inv.
Qed.
End steps.
End thread.

(** ** Schedules *)

Inductive move := MoveMain | MoveSleep | MoveWake | MoveThread.

Section moves.
Context {IO : Type}.
Context (p2v : IO -> Z -> option Z) (v2p : IO -> Z -> Z) (vring_size : Z -> Z -> Z).
Context (ring_at : Z -> Z -> ring_buffer) (io_null : IO) (image_rsc : string -> rsc_contents).
Context (rounds : nat) (st0 : daemon IO) (o : oracle scall sans).
Abbreviation step := (step p2v v2p vring_size ring_at io_null image_rsc rounds st0).

(** The answers of [o]; no listener is ever ready. *)
Definition answer (h : history scall sans) (s : shared) (c : tcall) : tans :=
  Tans (o h (match c with Sys c => c | _ => NumProcessors end))
    (match c with LoadCreated => created s | _ => listening s end) [].

Definition run_move (m : move) (cfg : config (IO := IO)) : option (config (IO := IO)) :=
  if exited cfg then None else
  let s := sh cfg in
  match m, main cfg, thread cfg with
  | MoveMain, Call c k, _ =>
      s' ← effect true c s;
      Some (after_main p2v v2p vring_size ring_at io_null image_rsc rounds st0 cfg c k
              (answer (main_calls cfg) s c) s')
  | MoveSleep, Call CondWait k, _ =>
      if sleeping s is None then
        Some (Config (Shared (listening s) (created s) None (Some false) (spurious s)) (main cfg)
                (main_calls cfg) (thread cfg) (thread_calls cfg) (cancelled cfg) false)
      else None
  | MoveWake, Call CondWait k, _ =>
      match sleeping s, owner s with
      | Some true, None =>
          Some (Config (Shared (listening s) (created s) (Some true) None (spurious s)) (k (answer [] s CondWait))
                  (main_calls cfg) (thread cfg) (thread_calls cfg) (cancelled cfg) false)
      | _, _ => None
      end
  | MoveThread, _, Some (Call c k) =>
      s' ← effect false c s;
      let a := answer (thread_calls cfg) s c in
      Some (Config s' (main cfg) (main_calls cfg) (Some (k a)) (thread_calls cfg ++ sys_call c a)
              (cancelled cfg) false)
  | _, _, _ => None
  end.
Fixpoint run_moves (ms : list move) (cfg : config) : option config :=
  match ms with
  | [] => Some cfg
  | m :: ms => cfg ← run_move m cfg; run_moves ms cfg
  end.

Lemma answer_reads h s c : reads c s (answer h s c).
Proof. by destruct c. Qed.

Lemma start_move_step m cfg cfg' : run_move m cfg = Some cfg' -> step cfg cfg'.
Proof.
  unfold run_move. destruct (exited cfg) eqn:Hex; [done|]. destruct m.
  - destruct (main cfg) as [|c k] eqn:Hm; [done|]. destruct (effect true c (sh cfg)) as [s'|] eqn:Hs; [|done].
    intros [= <-]. eapply step_main; [done..|]. apply answer_reads.
  - destruct (main cfg) as [|[] k] eqn:Hm; try done. destruct (sleeping (sh cfg)) eqn:Hsl; [done|].
    intros [= <-]. rewrite <- Hm. by eapply step_sleep.
  - destruct (main cfg) as [|[] k] eqn:Hm; try done. destruct (sleeping (sh cfg)) as [[]|] eqn:Hsl; try done.
    destruct (owner (sh cfg)) eqn:Ho; [done|]. intros [= <-]. by eapply (step_wake _ _ _ _ _ _ _ _ _ _ _ true).
  - destruct (main cfg) as [|c0 k0] eqn:Hm, (thread cfg) as [[|c k]|] eqn:Ht; try done; try (by destruct c0).
    all: destruct (effect false c (sh cfg)) as [s'|] eqn:Hs; [|done].
    all: intros [= <-]; rewrite <- Hm; eapply step_thread; [done..|]; apply answer_reads.
Qed.

Lemma start_moves_steps ms cfg cfg' : run_moves ms cfg = Some cfg' -> rtc step cfg cfg'.
Proof.
  revert cfg. induction ms as [|m ms IH]; intros cfg; cbn; [by intros [= ->]|].
  intros (cfg1 & Hm & Hms)%bind_Some. eapply rtc_l; [by eapply start_move_step|auto].
Qed.

(** Nothing moves once both have returned. *)
Definition both_returned (cfg : config (IO := IO)) : option Z :=
  match main cfg, thread cfg with
  | Ret (Some ret), Some (Ret (Some _)) => if cancelled cfg then None else Some ret
  | _, _ => None
  end.

Lemma both_returned_rest cfg ret :
  both_returned cfg = Some ret -> main cfg = Ret (Some ret) /\ forall cfg', ~ step cfg cfg'.
Proof.
  unfold both_returned. destruct (main cfg) as [[]|] eqn:Hm, (thread cfg) as [[[]|]|] eqn:Ht; try done.
  destruct (cancelled cfg) eqn:Hc; [done|]. intros [= ->]. split; [done|]. intros cfg' Hs. destruct Hs; congruence.
Qed.
End moves.

(** ** Properties *)

Section properties.
Context {IO : Type}.
Context (p2v : IO -> Z -> option Z) (v2p : IO -> Z -> Z) (vring_size : Z -> Z -> Z).
Context (ring_at : Z -> Z -> ring_buffer) (io_null : IO) (image_rsc : string -> rsc_contents).
Context (rounds : nat) (st0 : daemon IO).
Abbreviation step := (step p2v v2p vring_size ring_at io_null image_rsc rounds st0).

(** C10: The start of the listener never hangs: however the caller and the new thread are
    scheduled, with up to [n] spurious wake-ups, every run ends, and when nothing can move
    any more register_socket_listener has returned a result, unless the process has
    exited.  [n + 2] tests of the flag are enough. *)
Theorem register_returns (fuel n : nat) (cfg : config) :
  (n + 2 <= fuel)%nat -> rtc step (initial fuel n) cfg ->
  Acc (flip step) cfg /\
  ((forall cfg', ~ step cfg cfg') -> exited cfg = true \/ exists ret, main cfg = Ret (Some ret)).
Proof.
  intros Hn Hr. split; [apply step_acc|]. intros Hrest.
  destruct (reachable_start_inv _ _ _ _ _ _ _ _ _ n cfg Hn Hr) as [(ret & ? & ? & ? & Hm & _)|[[Hex _]|(mp & tp & Ha)]].
  - eauto.
  - by left.
  - destruct (active_moves _ _ _ _ _ _ _ _ _ cfg mp tp Ha) as [cfg' Hs]. by destruct (Hrest cfg').
Qed.

(** C11: The start of the listener is what it would be without threads: whenever
    register_socket_listener has returned, its result is the one that
    [register_socket_listener], which calls the setup of the thread like a function,
    returns for the calls that the caller made followed by the first calls of the thread.
    So it returns 0 only after the socket is open and known to epoll. *)
Theorem register_refines (fuel n : nat) (cfg : config) (r : option Z) :
  (n + 2 <= fuel)%nat -> rtc step (initial fuel n) cfg -> main cfg = Ret r ->
  exists ret st1 h1 h2, r = Some ret /\ thread_calls cfg = h1 ++ h2 /\
    runs_to (register_socket_listener st0) (main_calls cfg ++ h1) (Ret (ret, st1)).
Proof.
  intros Hn Hr Hm.
  destruct (reachable_start_inv _ _ _ _ _ _ _ _ _ n cfg Hn Hr) as [(ret & st1 & h1 & h2 & Hm' & Ht & Hs)|[[_ (c & k & Hc)]|(mp & tp & Ha)]].
  - exists ret, st1, h1, h2. split_and!; congruence.
  - congruence.
  - destruct Ha as [Hm' _ _ Hmok _ _ _]. rewrite Hm in Hm'.
    destruct mp as [q| |[]|m| | |ret]; cbn in *; try done; [by destruct Hmok as ((? & ? & ->) & _)|lia].
Qed.
End properties.

(** The caller sleeps before the thread is ready; the thread listens for one round. *)
Definition schedule_example : list move :=
  replicate 6 MoveMain ++ [MoveSleep] ++ replicate 11 MoveThread ++ [MoveWake] ++ replicate 3 MoveMain ++
  replicate 2 MoveThread.
Abbreviation step_example :=
  (step p2v_example v2p_example (fun num _ => num * 16) ring_at_example tt (fun _ => rsc_example) 1 daemon_empty).
Abbreviation cfg_example :=
  (run_moves p2v_example v2p_example (fun num _ => num * 16) ring_at_example tt (fun _ => rsc_example) 1
    daemon_empty micad_oracle schedule_example (initial 2 0)).

Lemma schedule_example_runs : exists cfg,
  rtc step_example (initial 2 0) cfg /\ main cfg = Ret (Some 0) /\ (forall cfg', ~ step_example cfg cfg').
Proof.
  assert ((cfg_example ≫= both_returned) = Some 0) as H by (by vm_compute).
  apply bind_Some in H as (cfg & E & H). exists cfg. split; [exact (start_moves_steps _ _ _ _ _ _ _ _ _ _ _ _ E)|].
  by apply both_returned_rest.
Qed.

Lemma register_returns_witness :
  exists cfg, rtc step_example (initial 2 0) cfg /\ (exited cfg = true \/ exists ret, main cfg = Ret (Some ret)).
Proof.
  destruct schedule_example_runs as (cfg & Hr & _ & Hrest). exists cfg. split; [exact Hr|].
  destruct (register_returns p2v_example v2p_example (fun num _ => num * 16) ring_at_example tt
    (fun _ => rsc_example) 1 daemon_empty 2 0 cfg) as [_ H]; [lia|exact Hr|]. exact (H Hrest).
Defined.

Lemma register_refines_witness :
  exists cfg : config (IO := unit), main cfg = Ret (Some 0) /\
    exists ret st1 h1 h2, Some 0 = Some ret /\ thread_calls cfg = h1 ++ h2 /\
      runs_to (register_socket_listener (daemon_empty (IO := unit))) (main_calls cfg ++ h1) (Ret (ret, st1)).
Proof.
  destruct schedule_example_runs as (cfg & Hr & Hm & _). exists cfg. split; [exact Hm|].
  apply (register_refines p2v_example v2p_example (fun num _ => num * 16) ring_at_example tt
    (fun _ => rsc_example) 1 daemon_empty 2 0 cfg (Some 0)); [lia|exact Hr|exact Hm].
Defined.

(** A listener that epoll reports while the daemon stops is freed when it is served
    (lines 458-461 and 524-529). *)
Theorem stop_frees_ready_listener :
  let st := micad_started.1.2 in
  (lu_id <$> listener_list st = [0]) /\
  result micad_oracle (st <- unregister_socket_listener st;; serve_example st [0]) = None.
Proof. split; by vm_compute. Qed.
