(* ===== verification/MicaTool.v ===== *)
(** * The command line tool and the daemon ([mica/micactl/mica.py])

    Both ends of a control socket: the message with which the tool creates a client, as
    Python packs it and as the daemon reads it into a [struct create_msg], and the verdict
    of the daemon as the tool reads it from the stream.  Text is ASCII. *)

From stdpp Require Import pretty.
From S2P Require Import Prelude RpcModel RpcLayout RingBuffer ShmPool Baremetal Mica Listener.

(** ** Text as bytes *)

Definition str_bytes (s : string) : list Z := (fun c => Z.of_nat (Ascii.nat_of_ascii c)) <$> String.list_ascii_of_string s.
Definition bytes_str (b : list Z) : string :=
  String.string_of_list_ascii ((fun z => Ascii.ascii_of_nat (Z.to_nat z)) <$> b).

Lemma bytes_str_bytes s : bytes_str (str_bytes s) = s.
Proof.
  unfold bytes_str, str_bytes. rewrite <- list_fmap_compose.
  rewrite <- (String.string_of_list_ascii_of_string s) at 2. f_equal.
  rewrite <- (list_fmap_id (String.list_ascii_of_string s)) at 2. apply list_fmap_ext.
  intros i c _. cbn. by rewrite Nat2Z.id, Ascii.ascii_nat_embedding.
Qed.

(** ** The message that creates a client *)

(** [struct.pack] with [ns]: cut or filled with zeros, so that a text of [n] bytes or more
    has no terminating NUL. *)
Definition pack_s (n : nat) (b : list Z) : list Z := take n b ++ replicate (n - length b) 0.

(** [mica_create_msg.pack]: the format 'I32s128s32s128s?' needs no padding; a core number
    outside of 32 bits raises an exception. *)
Definition pack (m : create_msg) : option (list Z) :=
  if (0 <=? cm_cpu m) && (cm_cpu m <? 2 ^ 32)
  then Some (le_bytes 4 (cm_cpu m) ++ pack_s 32 (str_bytes (cm_name m)) ++ pack_s 128 (str_bytes (cm_path m)) ++
             pack_s 32 (str_bytes (cm_ped m)) ++ pack_s 128 (str_bytes (cm_ped_cfg m)) ++
             [if cm_debug m then 1 else 0])
  else None.

(** [struct create_msg]. *)
Definition create_msg_t : cstruct :=
  [("cpu", UInt); ("name", Bytes MAX_NAME_LEN 1); ("path", Bytes MAX_FIRMWARE_PATH_LEN 1);
   ("ped", Bytes MAX_NAME_LEN 1); ("ped_cfg", Bytes MAX_FIRMWARE_PATH_LEN 1); ("debug", Char)].

(** [recv(msg_fd, &msg, sizeof(msg), 0)] over what the variable held. *)
Definition recv_create (msg data : list Z) : list Z := memwrite 0 (take (sizeof create_msg_t) data) msg.

(** The structure as the daemon uses it: a text starts at its field and ends at the first
    NUL, wherever that is; [None]: there is none in the structure. *)
Definition text_at (msg : list Z) (f : string) : option string := bytes_str <$> cstr (from msg create_msg_t f).
Definition read_create_msg (msg : list Z) : option create_msg :=
  name ← text_at msg "name";
  path ← text_at msg "path";
  ped ← text_at msg "ped";
  ped_cfg ← text_at msg "ped_cfg";
  Some (CreateMsg (get msg create_msg_t "cpu") name path ped ped_cfg (negb (get msg create_msg_t "debug" =? 0))).

(** A text that fits its field with the NUL. *)
Definition fits_field (n : nat) (s : string) : Prop :=
  (length (str_bytes s) < n)%nat /\ Forall (fun b => b <> 0) (str_bytes s).

Lemma length_pack_s n b : length (pack_s n b) = n.
Proof. unfold pack_s. rewrite length_app, length_take, length_replicate. lia. Qed.

Lemma text_pack_s n s rest :
  fits_field n s -> bytes_str <$> cstr (pack_s n (str_bytes s) ++ rest) = Some s.
Proof.
  intros [Hl Hn]. unfold pack_s. rewrite take_ge by lia. rewrite <- app_assoc.
  destruct (n - length (str_bytes s))%nat as [|k] eqn:E; [lia|]. cbn [replicate app].
  rewrite cstr_app by done. cbn. by rewrite bytes_str_bytes.
Qed.

Lemma drop_pre (n : nat) (l1 l2 : list Z) : length l1 = n -> drop n (l1 ++ l2) = l2.
Proof. intros <-. apply drop_app_length. Qed.

(** The fields of a packed message, one behind the other. *)
Lemma read_packed m (rest : list Z) :
  0 <= cm_cpu m < 2 ^ 32 -> fits_field MAX_NAME_LEN (cm_name m) -> fits_field MAX_FIRMWARE_PATH_LEN (cm_path m) ->
  fits_field MAX_NAME_LEN (cm_ped m) -> fits_field MAX_FIRMWARE_PATH_LEN (cm_ped_cfg m) ->
  read_create_msg (le_bytes 4 (cm_cpu m) ++ pack_s 32 (str_bytes (cm_name m)) ++ pack_s 128 (str_bytes (cm_path m)) ++
    pack_s 32 (str_bytes (cm_ped m)) ++ pack_s 128 (str_bytes (cm_ped_cfg m)) ++
    [if cm_debug m then 1 else 0] ++ rest) = Some m.
Proof.
  intros Hcpu Hname Hpath Hped Hcfg. set (l := le_bytes 4 (cm_cpu m) ++ _).
  assert (get l create_msg_t "cpu" = cm_cpu m) as Ecpu.
  { unfold get, l. change (ftype create_msg_t "cpu") with UInt. change (foff create_msg_t "cpu") with 0%nat.
    change (fsize create_msg_t "cpu") with 4%nat. unfold memread. rewrite drop_0.
    rewrite take_app_length' by (by rewrite length_le_bytes). rewrite le_val_bytes4. by apply wrapu_small. }
  assert (get l create_msg_t "debug" = if cm_debug m then 1 else 0) as Edebug.
  { unfold get, l. change (ftype create_msg_t "debug") with Char. change (fsize create_msg_t "debug") with 1%nat.
    change (foff create_msg_t "debug") with (4 + (32 + (128 + (32 + 128))))%nat. unfold memread.
    rewrite <- !drop_drop, !drop_pre by (apply length_pack_s || apply length_le_bytes). by destruct (cm_debug m). }
  unfold read_create_msg, text_at. rewrite Ecpu, Edebug. unfold from, l.
  change (foff create_msg_t "name") with 4%nat. change (foff create_msg_t "path") with (4 + 32)%nat.
  change (foff create_msg_t "ped") with (4 + (32 + 128))%nat.
  change (foff create_msg_t "ped_cfg") with (4 + (32 + (128 + 32)))%nat.
  rewrite <- !drop_drop, !drop_pre by (apply length_pack_s || apply length_le_bytes).
  rewrite text_pack_s by done. cbn [mbind option_bind]. rewrite text_pack_s by done. cbn [mbind option_bind].
  rewrite text_pack_s by done. cbn [mbind option_bind]. rewrite text_pack_s by done. cbn [mbind option_bind].
  destruct m as [? ? ? ? ? []]; done.
Qed.

(** ** The verdict *)

(** Python's [p in l]. *)
Fixpoint contains (p l : list Z) : bool :=
  bool_decide (take (length p) l = p) || match l with [] => false | _ :: l => contains p l end.

Lemma contains_spec p l : contains p l = true <-> exists k1 k2, l = k1 ++ p ++ k2.
Proof.
  split.
  - induction l as [|x l IH]; cbn [contains]; intros [H|H]%orb_true_iff; try done.
    + apply bool_decide_eq_true in H. exists [], []. rewrite <- H. by rewrite take_nil.
    + apply bool_decide_eq_true in H. exists [], (drop (length p) (x :: l)). cbn [app].
      rewrite <- H at 1. by rewrite take_drop.
    + destruct (IH H) as (k1 & k2 & ->). by exists (x :: k1), k2.
  - intros (k1 & k2 & ->). induction k1 as [|x k1 IH]; cbn [app].
    + assert (bool_decide (take (length p) (p ++ k2) = p) = true) as H
        by (apply bool_decide_eq_true, take_app_length).
      destruct (p ++ k2); cbn [contains]; by rewrite H.
    + cbn [contains]. by rewrite IH, orb_true_r.
Qed.

Definition FAILED : list Z := str_bytes MICA_MSG_FAILED.
Definition SUCCESS : list Z := str_bytes MICA_MSG_SUCCESS.

(** The verdict in a stream that arrives in [chunks], behind [response_buffer]. *)
Fixpoint tool_recv (chunks : list (list Z)) (response_buffer : list Z) : option string :=
  match chunks with
  | [] => None
  | chunk :: chunks =>
      let response_buffer := response_buffer ++ chunk in
      if contains FAILED response_buffer then Some MICA_MSG_FAILED
      else if contains SUCCESS response_buffer then Some MICA_MSG_SUCCESS
      else if (length chunk =? 0)%nat then None
      else tool_recv chunks response_buffer
  end.

(** No verdict before the end. *)
Definition no_verdict (l : list Z) : Prop := contains FAILED l = false /\ contains SUCCESS l = false.

Lemma contains_prefix p l k : contains p l = true -> contains p (l ++ k) = true.
Proof. rewrite !contains_spec. intros (k1 & k2 & ->). exists k1, (k2 ++ k). by rewrite <- !app_assoc. Qed.

Lemma no_verdict_prefix l k : no_verdict (l ++ k) -> no_verdict l.
Proof.
  unfold no_verdict. rewrite <- !not_true_iff_false. intros [H1 H2].
  split; intros H; [apply H1|apply H2]; by apply contains_prefix.
Qed.

(** A verdict that ends the text is read as what it is. *)
Lemma verdict_at_end text v x :
  v ++ [x] = FAILED \/ v ++ [x] = SUCCESS -> no_verdict (text ++ v) ->
  (if contains FAILED (text ++ v ++ [x]) then Some MICA_MSG_FAILED
   else if contains SUCCESS (text ++ v ++ [x]) then Some MICA_MSG_SUCCESS else None) = Some (bytes_str (v ++ [x])).
Proof.
  intros Hv [HF HS].
  assert (forall p, contains p (text ++ p) = true) as Hself
    by (intros p; apply contains_spec; exists text, []; by rewrite app_nil_r).
  destruct Hv as [E|E].
  - by rewrite E, Hself.
  - assert (contains FAILED (text ++ v ++ [x]) = false) as ->.
    { apply not_true_iff_false. intros (k1 & k2 & Ek)%contains_spec.
      destruct k2 as [|y k2 _] using rev_ind.
      - rewrite app_nil_r in Ek. assert (last (text ++ v ++ [x]) = last (k1 ++ FAILED)) as El by by rewrite Ek.
        rewrite E in El. by rewrite !last_app in El.
      - rewrite !app_assoc in Ek. apply app_inj_tail in Ek as [Ek _].
        apply not_true_iff_false in HF. apply HF, contains_spec. exists k1, k2. by rewrite Ek, app_assoc. }
    by rewrite E, Hself.
Qed.

(** However the stream is cut into chunks. *)
Lemma tool_recv_spec text v x chunks buf :
  v ++ [x] = FAILED \/ v ++ [x] = SUCCESS -> no_verdict (text ++ v) ->
  Forall (fun c => c <> []) chunks -> chunks <> [] ->
  buf ++ concat chunks = text ++ v ++ [x] -> tool_recv chunks buf = Some (bytes_str (v ++ [x])).
Proof.
  intros Hv Hno Hne Hnil. revert buf. induction Hne as [|c chunks Hc Hne IH]; [done|]. intros buf Hbuf.
  cbn [concat tool_recv] in *. rewrite app_assoc in Hbuf. destruct chunks as [|c' chunks].
  - rewrite app_nil_r in Hbuf. rewrite Hbuf. pose proof (verdict_at_end text v x Hv Hno) as H.
    revert H. destruct (contains FAILED _); [done|]. by destruct (contains SUCCESS _).
  - assert (exists k y, concat (c' :: chunks) = k ++ [y]) as (k & y & Ek).
    { destruct (@exists_last _ (concat (c' :: chunks))) as (k & y & E); [|eauto].
      apply Forall_cons in Hne as [Hc' _]. by destruct c'. }
    assert (no_verdict (buf ++ c)) as [HF HS].
    { apply (no_verdict_prefix _ k). rewrite Ek, !app_assoc in Hbuf.
      apply app_inj_tail in Hbuf as [Hbuf _]. by rewrite Hbuf. }
    rewrite HF, HS. destruct c as [|z c]; [done|]. cbn [length Nat.eqb]. by apply IH.
Qed.

(** ** The commands *)

(** What the tool asks of Python and of the system.  [ReadConfig] loads the file into the
    parser; the four calls after it look at section "Mica". *)
Inductive pcall :=
| IsFile (path : string)
| Exists (path : string)
| ListDir (path : string)
| ReadConfig (path : string)
| Get (option : string)
| GetInt (option : string)
| GetBoolean (option : string)
| HasOption (option : string)
| Connect (path : string)
| SendAll (path : string) (msg : list Z)
| RecvChunk (path : string)
| CloseSocket (path : string)
| System (command : string).

(** [pa_exc]: the call raises an exception; [pa_timeout]: [recv] took too long. *)
Record pans := Pans {
  pa_exc : bool; pa_timeout : bool; pa_bool : bool; pa_int : Z; pa_str : string;
  pa_strs : list string; pa_bytes : list Z;
}.
Abbreviation pio := (io pcall pans).

(** A value, an exception, [exit], or: the tool is still receiving. *)
Inductive pres (A : Type) := PVal (a : A) | PExc | PExit (code : Z) | PRunning.
Arguments PVal {A} a. Arguments PExc {A}. Arguments PExit {A} code. Arguments PRunning {A}.

(** [str.split(p)[0]] and [str.strip()]. *)
Fixpoint before (p l : list Z) : list Z :=
  if bool_decide (take (length p) l = p) then []
  else match l with [] => [] | x :: l => x :: before p l end.
Definition is_space (b : Z) : bool := (b =? 32) || (9 <=? b) && (b <=? 13).
Fixpoint lstrip (l : list Z) : list Z :=
  match l with [] => [] | x :: l' => if is_space x then lstrip l' else l end.
Definition strip (l : list Z) : list Z := reverse (lstrip (reverse (lstrip l))).

(** [mica_socket.recv] on an open connection; after [fuel] chunks the loop is still
    running.  A message before MICA-SUCCESS whose first word is "gdb" is run. *)
Fixpoint recv (fuel : nat) (path : string) (response_buffer : list Z) : pio (pres (option string)) :=
  match fuel with
  | O => Ret PRunning
  | S fuel =>
      a <- call (RecvChunk path);;
      if pa_timeout a then Ret (PVal None)
      else if pa_exc a then Ret PExc
      else
        let response_buffer := response_buffer ++ pa_bytes a in
        if contains FAILED response_buffer then Ret (PVal (Some MICA_MSG_FAILED))
        else if contains SUCCESS response_buffer then
          let msg := strip (before SUCCESS response_buffer) in
          (if bool_decide (msg <> []) && bool_decide (before (str_bytes " ") msg = str_bytes "gdb")
           then _ <- call (System (bytes_str msg));; Ret tt else Ret tt);;;
          Ret (PVal (Some MICA_MSG_SUCCESS))
        else if (length (pa_bytes a) =? 0)%nat then Ret (PVal None)
        else recv fuel path response_buffer
  end.

(** The end of a [with mica_socket(path)] block whose body has left with [r]. *)
Definition leave {A} (path : string) (r : pres A) : pio (pres A) :=
  match r with PRunning => Ret PRunning | _ => _ <- call (CloseSocket path);; Ret r end.

(** [with mica_socket(path) as socket]: a message is sent and the answer read. *)
Definition talk_to (fuel : nat) (path : string) (msg : list Z) : pio (pres (option string)) :=
  c <- call (Connect path);;
  if pa_exc c then Ret PExc
  else
    s <- call (SendAll path msg);;
    r <- (if pa_exc s then Ret PExc else recv fuel path []);;
    leave path r.

Definition MICA_CONFIG_PATH : string := "/etc/mica".
Definition create_socket : string := "/run/mica/mica-create.socket".
Definition ctrl_socket (name : string) : string := "/run/mica/" +:+ name +:+ ".socket".

(** [os.path.join]. *)
Definition path_join (a b : string) : string :=
  if (strprefix 1 b =? "/")%string then b else a +:+ "/" +:+ b.

(** A call that may raise. *)
Definition attempt {A B} (c : pcall) (f : pans -> A) (k : A -> pio (option B)) : pio (option B) :=
  a <- call c;; if pa_exc a then Ret None else k (f a).
(** An option that may be missing. *)
Definition optional {A B} (o : string) (dflt : A) (get : (A -> pio (option B)) -> pio (option B))
    (k : A -> pio (option B)) : pio (option B) :=
  attempt (HasOption o) pa_bool (fun b : bool => if b then get k else k dflt).

(** The [try] block of [send_create_msg]: the message and [auto_boot]; [None]: an
    exception, which the function reports and returns. *)
Definition read_config : pio (option (create_msg * bool)) :=
  attempt (GetInt "CPU") pa_int (fun cpu =>
  attempt (Get "Name") pa_str (fun name =>
  attempt (Get "ClientPath") pa_str (fun path =>
  optional "Pedestal" (""%string, ""%string)
    (fun k => attempt (Get "Pedestal") pa_str (fun ped =>
              attempt (Get "PedestalConf") pa_str (fun ped_cfg => k (ped, ped_cfg))))
    (fun '(ped, ped_cfg) =>
  optional "AutoBoot" false (fun k => attempt (GetBoolean "AutoBoot") pa_bool k) (fun auto_boot =>
  optional "Debug" false (fun k => attempt (GetBoolean "Debug") pa_bool k) (fun debug =>
  Ret (Some (CreateMsg cpu name path ped ped_cfg debug, auto_boot)))))))).

(** [pres unit] of an answer that is only shown. *)
Definition shown {A} (r : pres A) : pres unit :=
  match r with PVal _ => PVal tt | PExc => PExc | PExit n => PExit n | PRunning => PRunning end.

Definition send_create_msg (fuel : nat) (config_file : string) : pio (pres unit) :=
  f <- call (IsFile config_file);;
  let mica_config := if pa_bool f then config_file else path_join MICA_CONFIG_PATH config_file in
  g <- (if pa_bool f then Ret f else call (IsFile mica_config));;
  if negb (pa_bool g) then Ret (PVal tt)
  else
    e <- call (Exists create_socket);;
    if negb (pa_bool e) then Ret (PExit 1)
    else
      p <- call (ReadConfig mica_config);;
      if pa_exc p then Ret PExc
      else
        c <- read_config;;
        match c with
        | None => Ret (PVal tt)
        | Some (msg, auto_boot) =>
            (* [pack] runs in the [with] block *)
            c <- call (Connect create_socket);;
            if pa_exc c then Ret PExc
            else
              r <- match pack msg with
                   | None => Ret PExc
                   | Some data =>
                       s <- call (SendAll create_socket data);;
                       if pa_exc s then Ret PExc else recv fuel create_socket []
                   end;;
              r <- leave create_socket r;;
              match r with
              | PVal response =>
                  if bool_decide (response = Some MICA_MSG_FAILED) then Ret (PVal tt)
                  else if auto_boot : bool then
                    r <- talk_to fuel (ctrl_socket (cm_name msg)) (str_bytes "start");;
                    Ret (shown r)
                  else Ret (PVal tt)
              | PExc => Ret PExc
              | PExit n => Ret (PExit n)
              | PRunning => Ret PRunning
              end
        end.

Definition send_ctrl_msg (fuel : nat) (command client : string) : pio (pres unit) :=
  e <- call (Exists (ctrl_socket client));;
  if negb (pa_bool e) then Ret (PVal tt)
  else
    r <- talk_to fuel (ctrl_socket client) (str_bytes command);;
    Ret (shown r).

Definition ends_with (suffix s : string) : bool :=
  let l := str_bytes s in let x := str_bytes suffix in bool_decide (drop (length l - length x) l = x).

(** The loop of [query_status] over the files. *)
Fixpoint query_files (fuel : nat) (files : list string) : pio (pres unit) :=
  match files with
  | [] => Ret (PVal tt)
  | filename :: files =>
      if (filename =? "mica-create.socket")%string || negb (ends_with ".socket" filename)
      then query_files fuel files
      else
        r <- talk_to fuel (path_join MICA_SOCKET_DIRECTORY filename) (str_bytes "status");;
        match r with
        | PVal _ => query_files fuel files
        | PExc => Ret PExc
        | PExit n => Ret (PExit n)
        | PRunning => Ret PRunning
        end
  end.
Definition query_status (fuel : nat) : pio (pres unit) :=
  e <- call (Exists create_socket);;
  if negb (pa_bool e) then Ret (PExit 1)
  else
    l <- call (ListDir MICA_SOCKET_DIRECTORY);;
    if pa_exc l then Ret PExc else query_files fuel (pa_strs l).

(** The loop of [main] for [create --all]. *)
Fixpoint create_all (fuel : nat) (files : list string) : pio (pres unit) :=
  match files with
  | [] => Ret (PVal tt)
  | file :: files =>
      r <- send_create_msg fuel (path_join MICA_CONFIG_PATH file);;
      match r with PVal _ => create_all fuel files | _ => Ret r end
  end.

(** The arguments as [argparse] returns them. *)
Inductive args :=
| Create (all : bool) (config : option string)
| Ctrl (command client : string)
| Status.

(** An error of the parser exits with 2; an empty [config] counts as none. *)
Definition main (fuel : nat) (a : args) : pio (pres unit) :=
  match a with
  | Create all config =>
      match all, (if bool_decide (config = Some ""%string) then None else config) with
      | true, Some _ => Ret (PExit 2)
      | true, None =>
          l <- call (ListDir MICA_CONFIG_PATH);;
          if pa_exc l then Ret PExc else create_all fuel (pa_strs l)
      | false, Some config => send_create_msg fuel config
      | false, None => Ret (PVal tt)
      end
  | Ctrl command client => send_ctrl_msg fuel command client
  | Status => query_status fuel
  end.

(** ** What goes over the sockets *)

(** The open connection, the messages sent, what the daemon answered to the
    first one, whether a connection was used that is not open, the number of non-empty
    chunks received on the current connection and the largest such number. *)
Record wire := Wire {
  w_open : option string; w_sent : list (string * list Z); w_got : list Z; w_bad : bool;
  w_run : nat; w_max : nat;
}.
(** What a [recv] that does not fail has received. *)
Definition received (a : pans) : list Z := if pa_timeout a || pa_exc a then [] else pa_bytes a.
Definition on_wire (s : wire) (c : pcall) (a : pans) : wire :=
  match c with
  | Connect p =>
      if pa_exc a then s
      else Wire (Some p) (w_sent s) (w_got s) (w_bad s || bool_decide (w_open s <> None)) 0 (w_max s)
  | SendAll p m =>
      Wire (w_open s) (if pa_exc a then w_sent s else w_sent s ++ [(p, m)]) (w_got s)
        (w_bad s || bool_decide (w_open s <> Some p)) (w_run s) (w_max s)
  | RecvChunk p =>
      let run := if (length (received a) =? 0)%nat then w_run s else S (w_run s) in
      Wire (w_open s) (w_sent s)
        (if length (w_sent s) =? 1 then w_got s ++ received a else w_got s)%nat
        (w_bad s || bool_decide (w_open s <> Some p)) run (w_max s `max` run)
  | CloseSocket p =>
      Wire None (w_sent s) (w_got s) (w_bad s || bool_decide (w_open s <> Some p)) (w_run s) (w_max s)
  | _ => s
  end.
Definition wire0 : wire := Wire None [] [] false 0 0.
Definition closed (s : wire) : Prop := w_open s = None /\ w_bad s = false.

Lemma same_open (p : string) : bool_decide (Some p <> Some p) = false.
Proof. apply bool_decide_eq_false_2. by intros []. Qed.

Lemma recv_wp fuel path buf s :
  w_open s = Some path -> w_bad s = false ->
  wp on_wire (recv fuel path buf) (fun _ s' => w_open s' = Some path /\ w_bad s' = false) s.
Proof.
  revert buf s. induction fuel as [|fuel IH]; intros buf s Ho Hb; cbn [recv]; [done|].
  cbn [bind call wp on_wire]. intros a. rewrite Hb, Ho, same_open.
  do 3 (case_match; [by cbn|]). case_match; [case_match; by cbn|]. case_match; [by cbn|]. by apply IH.
Qed.

(** A program that ends has closed its connections. *)
Definition closes {A} (r : pres A) (s : wire) : Prop := r <> PRunning -> closed s.

Lemma leave_wp {A} path (r : pres A) s :
  w_open s = Some path -> w_bad s = false -> wp on_wire (leave path r) (fun r' s' => r' = r /\ closes r s') s.
Proof.
  intros Ho Hb. unfold leave, closes. destruct r; cbn; try (intros _; split; [done|]; intros _);
    try (split; cbn; [done|]; by rewrite Hb, Ho, same_open). by split; [|intros []].
Qed.

Lemma talk_to_wp fuel path msg s :
  closed s -> wp on_wire (talk_to fuel path msg) closes s.
Proof.
  intros [Ho Hb]. unfold talk_to. cbn [bind call wp on_wire]. intros c. case_match; [by cbn|].
  rewrite Ho, Hb. cbn [bind call wp on_wire w_open w_sent w_got w_bad w_run w_max]. intros m.
  apply wp_bind. eapply (wp_mono _ _ (fun _ s' => w_open s' = Some path /\ w_bad s' = false)).
  - case_match; [|apply recv_wp]; cbn; by rewrite ?same_open.
  - intros r s' [Ho' Hb']. eapply wp_mono; [by apply leave_wp|]. by intros ? ? [-> ?].
Qed.

(** Reading the configuration does not touch the sockets. *)
Lemma attempt_wp {A B} c (f : pans -> A) (k : A -> pio (option B)) Q s :
  (forall a, on_wire s c a = s) -> Q None s -> (forall x, wp on_wire (k x) Q s) -> wp on_wire (attempt c f k) Q s.
Proof. intros Hs Hn Hk. unfold attempt. cbn. intros a. rewrite Hs. by case_match. Qed.

Lemma read_config_wp s : wp on_wire read_config (fun _ s' => s' = s) s.
Proof.
  unfold read_config, optional.
  repeat first [done | apply attempt_wp; [done|done|intros ?] | progress cbn beta iota | case_match].
Qed.

Lemma send_create_msg_wp fuel file s :
  closed s -> wp on_wire (send_create_msg fuel file) closes s.
Proof.
  intros Hc. unfold send_create_msg. cbn [bind call wp on_wire]. intros f.
  apply wp_bind. eapply (wp_mono _ _ (fun _ s' => s' = s)); [by case_match|]. intros g s' ->.
  case_match; [by intros ?|]. cbn [bind call wp on_wire]. intros e. case_match; [by intros ?|].
  cbn [bind call wp on_wire]. intros p. case_match; [by intros ?|]. apply wp_bind.
  eapply wp_mono; [apply read_config_wp|]. intros [[msg auto]|] s' ->; [|by intros ?].
  cbn [bind call wp on_wire]. intros c. case_match; [by intros ?|]. destruct Hc as [Ho Hb].
  rewrite Ho, Hb. cbn [w_open w_sent w_got w_bad w_run w_max orb]. apply wp_bind.
  eapply (wp_mono _ _ (fun _ s' => w_open s' = Some create_socket /\ w_bad s' = false)).
  - case_match; [|by cbn]. cbn [bind call wp on_wire w_open w_sent w_got w_bad w_run w_max]. intros m.
    rewrite same_open. case_match; [by cbn|by apply recv_wp].
  - intros r s' [Ho' Hb']. apply wp_bind. eapply wp_mono; [by apply leave_wp|]. intros ? s'' [-> Hc'].
    unfold closes in *. destruct r; [|intros _; by apply Hc'..|done].
    assert (closed s'') as Hc by by apply Hc'. case_match; [by intros ?|]. case_match; [|by intros ?]. apply wp_bind.
    eapply wp_mono; [by apply talk_to_wp|]. intros r' s3 Hc3 Hr. apply Hc3. by destruct r'.
Qed.

Lemma tool_main_wp fuel a s : closed s -> wp on_wire (main fuel a) closes s.
Proof.
  intros Hc. destruct a as [all config|command client|]; cbn [main].
  - destruct all, (if bool_decide _ then None else config); try (by intros ?); [|by apply send_create_msg_wp].
    cbn [bind call wp on_wire]. intros l. case_match; [by intros ?|]. generalize (pa_strs l). intros files. revert s Hc.
    induction files as [|file files IH]; intros s Hc; cbn [create_all]; [by intros ?|]. apply wp_bind.
    eapply wp_mono; [by apply send_create_msg_wp|]. intros [] s' Hc'; [by apply IH, Hc'|done..].
  - unfold send_ctrl_msg. cbn [bind call wp on_wire]. intros e. case_match; [by intros ?|]. apply wp_bind.
    eapply wp_mono; [by apply talk_to_wp|]. intros [] s' Hc' ?; by apply Hc'.
  - unfold query_status. cbn [bind call wp on_wire]. intros e. case_match; [by intros ?|]. cbn [bind call wp on_wire].
    intros l. case_match; [by intros ?|]. generalize (pa_strs l). intros files. revert s Hc.
    induction files as [|file files IH]; intros s Hc; cbn [query_files]; [by intros ?|]. case_match; [by apply IH|].
    apply wp_bind. eapply wp_mono; [by apply talk_to_wp|].
    intros [] s' Hc'; [by apply IH, Hc'|intros _; by apply Hc'..|done].
Qed.
(** *** A run in which nothing fails *)

(** Section "Mica" of the configuration file; [None]: missing or not of that type. *)
Record conf := Conf {
  cf_text : string -> option string; cf_int : string -> option Z; cf_bool : string -> option bool;
}.

(** Python reads that file, and files and connections are there. *)
Definition got {A} (x : option A) (f : pans -> A) (a : pans) : Prop :=
  match x with Some v => pa_exc a = false /\ f a = v | None => pa_exc a = true end.
Definition answers (cf : conf) (c : pcall) (a : pans) : Prop :=
  match c with
  | Get o => got (cf_text cf o) pa_str a
  | GetInt o => got (cf_int cf o) pa_int a
  | GetBoolean o => got (cf_bool cf o) pa_bool a
  | HasOption o => got (Some (bool_decide (is_Some (cf_text cf o)))) pa_bool a
  | IsFile _ | Exists _ => pa_bool a = true
  | ReadConfig _ | Connect _ | SendAll _ _ => pa_exc a = false
  | RecvChunk _ => pa_exc a = false
  | _ => True
  end.
Abbreviation twp cf := (wpv on_wire (answers cf)).

(** The message that the file describes, and whether the client is started. *)
Definition flag (cf : conf) (o : string) : option bool :=
  match cf_text cf o with Some _ => cf_bool cf o | None => Some false end.
Definition config_message (cf : conf) : option (create_msg * bool) :=
  cpu ← cf_int cf "CPU";
  name ← cf_text cf "Name";
  path ← cf_text cf "ClientPath";
  '(ped, ped_cfg) ← match cf_text cf "Pedestal" with
                    | Some ped => (fun ped_cfg => (ped, ped_cfg)) <$> cf_text cf "PedestalConf"
                    | None => Some (""%string, ""%string)
                    end;
  auto_boot ← flag cf "AutoBoot";
  debug ← flag cf "Debug";
  Some (CreateMsg cpu name path ped ped_cfg debug, auto_boot).

Lemma attempt_twp {A B} cf c (f : pans -> A) x (k : A -> pio (option B)) (g : A -> option B) s :
  (forall a, on_wire s c a = s) -> (forall a, answers cf c a -> got x f a) ->
  (forall v, x = Some v -> twp cf (k v) (fun r s' => r = g v /\ s' = s) s) ->
  twp cf (attempt c f k) (fun r s' => r = (x ≫= g) /\ s' = s) s.
Proof.
  intros Hs Ha Hk. unfold attempt. cbn. intros a Hv. rewrite Hs. specialize (Ha a Hv). unfold got in Ha.
  destruct x as [v|]; cbn; [|by rewrite Ha]. destruct Ha as [-> ->]. by apply Hk.
Qed.

Lemma flag_twp {B} cf o (k : bool -> pio (option B)) (g : bool -> option B) s :
  (forall v, twp cf (k v) (fun r s' => r = g v /\ s' = s) s) ->
  twp cf (optional o false (fun k => attempt (GetBoolean o) pa_bool k) k)
    (fun r s' => r = (flag cf o ≫= g) /\ s' = s) s.
Proof.
  intros Hk. unfold optional, flag.
  eapply (wpv_mono _ _ _ (fun r s' => r = (Some (bool_decide (is_Some (cf_text cf o))) ≫=
    fun b : bool => if b then cf_bool cf o ≫= g else g false) /\ s' = s)).
  - apply attempt_twp; [done|done|]. intros v _. destruct v; [|apply Hk]. by apply attempt_twp.
  - intros r s' [-> ->]. split; [|done]. cbn. by destruct (cf_text cf o).
Qed.

Lemma read_config_twp cf s : twp cf read_config (fun r s' => r = config_message cf /\ s' = s) s.
Proof.
  unfold read_config, config_message. apply attempt_twp; [done|done|]. intros cpu _.
  apply attempt_twp; [done|done|]. intros name _. apply attempt_twp; [done|done|]. intros path _.
  set (rest := fun '(ped, ped_cfg) => optional "AutoBoot" false _ _).
  pose (g (x : string * string) := auto_boot ← flag cf "AutoBoot"; debug ← flag cf "Debug";
    Some (CreateMsg cpu name path x.1 x.2 debug, auto_boot)).
  assert (forall x, twp cf (rest x) (fun r s' => r = g x /\ s' = s) s) as Hrest.
  { intros [ped ped_cfg]. unfold rest. apply flag_twp. intros auto. apply flag_twp. by intros debug. }
  clearbody rest. unfold optional.
  eapply (wpv_mono _ _ _ (fun r s' => r = (Some (bool_decide (is_Some (cf_text cf "Pedestal"))) ≫=
    fun b : bool => if b then cf_text cf "Pedestal" ≫= fun ped => cf_text cf "PedestalConf" ≫= fun c => g (ped, c)
                    else g (""%string, ""%string)) /\ s' = s)).
  - apply attempt_twp; [done|done|]. intros v _. destruct v; [|apply Hrest].
    apply attempt_twp; [done|done|]. intros ped _. apply attempt_twp; [done|done|]. intros c _. apply Hrest.
  - intros r s' [-> ->]. split; [|done]. cbn. destruct (cf_text cf "Pedestal") as [ped|]; cbn; [|done].
    by destruct (cf_text cf "PedestalConf").
Qed.

(** The answer is a failure if and only if it was received; and the loop ends unless
    [fuel] chunks arrive. *)
Lemma recv_twp cf fuel path buf s :
  w_open s = Some path -> w_bad s = false -> contains FAILED buf = false -> (w_run s <= w_max s)%nat ->
  twp cf (recv fuel path buf)
    (fun r s' => exists more run mx,
       s' = Wire (Some path) (w_sent s) (if length (w_sent s) =? 1 then w_got s ++ more else w_got s)%nat false run mx /\
       (w_max s <= mx)%nat /\
       ((exists v, r = PVal v /\ bool_decide (v = Some MICA_MSG_FAILED) = contains FAILED (buf ++ more)) \/
        r = PRunning /\ (w_run s + fuel <= mx)%nat)) s.
Proof.
  revert buf s. induction fuel as [|fuel IH]; intros buf s Ho Hb Hf Hm; cbn [recv wpv].
  - exists [], (w_run s), (w_max s). rewrite !app_nil_r. split_and!; [|done|right; split; [done|lia]].
    destruct s. cbn in *. subst. by case_match.
  - cbn [bind call wpv]. intros a Hx. cbn in Hx. rewrite Hx. cbn [on_wire]. unfold received.
    rewrite Hx, orb_false_r, Hb, Ho, same_open. cbn [orb].
    set (run := if (length (if pa_timeout a then [] else pa_bytes a) =? 0)%nat then w_run s else S (w_run s)).
    assert (w_max s <= w_max s `max` run)%nat by lia.
    assert (forall more v, (if pa_timeout a then [] else pa_bytes a) = more ->
      bool_decide (v = Some MICA_MSG_FAILED) = contains FAILED (buf ++ more) ->
      exists more0 run0 mx, Wire (Some path) (w_sent s)
          (if length (w_sent s) =? 1 then w_got s ++ (if pa_timeout a then [] else pa_bytes a) else w_got s)%nat
          false run (w_max s `max` run) =
        Wire (Some path) (w_sent s) (if length (w_sent s) =? 1 then w_got s ++ more0 else w_got s)%nat false run0 mx /\
      (w_max s <= mx)%nat /\
      ((exists v0, PVal v = PVal v0 /\ bool_decide (v0 = Some MICA_MSG_FAILED) = contains FAILED (buf ++ more0)) \/
       PVal v = PRunning /\ (w_run s + S fuel <= mx)%nat)) as Hend.
    { intros more v <- Hv. eexists _, run, _. split; [done|]. split; [done|]. left. by exists v. }
    assert (forall v : option string, v <> Some MICA_MSG_FAILED -> bool_decide (v = Some MICA_MSG_FAILED) = false) as Hne
      by (intros; by apply bool_decide_eq_false_2).
    destruct (pa_timeout a) eqn:Et.
    { apply (Hend []); [done|]. by rewrite app_nil_r, Hf, Hne. }
    destruct (contains FAILED (buf ++ pa_bytes a)) eqn:Ef; [by apply (Hend (pa_bytes a)); rewrite ?Ef|].
    destruct (contains SUCCESS (buf ++ pa_bytes a)) eqn:Es.
    { destruct (bool_decide _ && bool_decide _); cbn [bind call wpv on_wire]; [intros _ _|];
        apply (Hend (pa_bytes a)); by rewrite ?Ef, ?Hne. }
    destruct (length (pa_bytes a) =? 0)%nat eqn:El; [apply (Hend (pa_bytes a)); by rewrite ?Ef, ?Hne|].
    assert (run = S (w_run s)) as Er by done.
    eapply wpv_mono; [apply IH; cbn; done || lia|]. intros r s' (more & run' & mx & -> & Hmx & Hr).
    cbn [w_sent w_got w_run w_max] in *. exists (pa_bytes a ++ more), run', mx. split_and!.
    + f_equal. case_match; [by rewrite app_assoc|done].
    + lia.
    + destruct Hr as [(v & -> & Hv)|[-> Hl]]; [left; exists v; by rewrite app_assoc|right; split; [done|lia]].
Qed.

Lemma leave_twp {A} cf path (v : A) sent got run mx Q :
  Q (PVal v) (Wire None sent got false run mx) ->
  twp cf (leave path (PVal v)) Q (Wire (Some path) sent got false run mx).
Proof. intros HQ. cbn. intros _ _. by rewrite same_open. Qed.

Lemma talk_to_twp cf fuel path msg s :
  closed s -> (1 <= length (w_sent s))%nat -> 
  twp cf (talk_to fuel path msg)
    (fun r s' => (w_max s <= w_max s')%nat /\ ((w_max s' < fuel)%nat -> (exists v, r = PVal v) /\
       closed s' /\ w_sent s' = w_sent s ++ [(path, msg)] /\ w_got s' = w_got s)) s.
Proof.
  intros [Ho Hb] Hp. unfold talk_to. cbn [bind call wpv on_wire]. intros c Hc. rewrite Hc, Ho, Hb.
  cbn [bind call wpv on_wire w_open w_sent w_got w_bad w_run w_max]. intros m Hm. rewrite Hm, same_open. apply wpv_bind.
  eapply wpv_mono; [apply recv_twp; cbn; done || lia|]. cbn [w_sent w_got w_run w_max].
  intros r s' (more & run & mx & -> & Hmx & [(v & -> & _)|[-> Hl]]).
  - apply leave_twp. split; [done|]. intros _. split; [by exists v|]. split_and!; [done..|].
    cbn. by rewrite length_app, (proj2 (Nat.eqb_neq _ _)) by (cbn; lia).
  - cbn. split; [done|]. lia.
Qed.

Lemma send_create_msg_twp cf fuel file m auto data :
  config_message cf = Some (m, auto) -> pack m = Some data ->
  twp cf (send_create_msg fuel file)
    (fun r s' => (w_max s' < fuel)%nat -> r = PVal tt /\ closed s' /\
       w_sent s' = (create_socket, data) ::
         (if auto && negb (contains FAILED (w_got s')) then [(ctrl_socket (cm_name m), str_bytes "start")] else [])) wire0.
Proof.
  intros Hm Hd. unfold send_create_msg. cbn [bind call wpv on_wire]. intros f Hf. cbn in Hf. rewrite Hf.
  cbn [bind]. rewrite Hf. cbn [negb bind call wpv on_wire]. intros e He. cbn in He. rewrite He.
  cbn [negb bind call wpv on_wire]. intros p Hp. cbn in Hp. rewrite Hp. apply wpv_bind.
  eapply wpv_mono; [apply read_config_twp|]. intros r s' [-> ->]. rewrite Hm, Hd.
  cbn [bind call wpv on_wire]. intros c Hc. cbn in Hc. rewrite Hc. cbn [bind call wpv on_wire].
  intros a Ha. cbn in Ha. rewrite Ha. apply wpv_bind. eapply wpv_mono; [by apply recv_twp|].
  cbn [w_sent w_got w_open w_bad w_run w_max wire0 app length Nat.eqb].
  intros r s' (more & run & mx & -> & _ & [(v & -> & Hv)|[-> Hl]]); [|cbn; lia].
  apply wpv_bind, leave_twp. rewrite Hv. cbn [app]. destruct (contains FAILED more) eqn:Ef.
  { cbn [wpv w_sent w_got]. by rewrite Ef, andb_false_r. }
  destruct auto; [|by cbn]. apply wpv_bind. eapply wpv_mono; [by apply talk_to_twp|].
  intros r s' [_ Hr] Hmx. destruct (Hr Hmx) as ([v' ->] & Hcl & Hs & Hg). cbn [w_sent w_got] in *.
  by rewrite Hs, Hg, Ef.
Qed.

Lemma socket_path_agrees name :
  (String.length name < MAX_NAME_LEN)%nat -> socket_path (strlcpy name MAX_NAME_LEN) = ctrl_socket name.
Proof.
  intros Hl. rewrite strlcpy_short by done. unfold socket_path, MAX_NAME_LEN in *. rewrite strprefix_all; [done|].
  rewrite !string_length_app. cbn. lia.
Qed.

(** ** Properties *)

(** C16: The daemon reads the message that creates a client as the tool packed it: for
    every core number of 32 bits and texts that are shorter than their fields, packing
    succeeds and the structure that the daemon receives, whatever it held before, has
    exactly that core, name, path, pedestal, configuration and debug flag. *)
Theorem create_msg_roundtrip (m : create_msg) (msg : list Z) :
  0 <= cm_cpu m < 2 ^ 32 -> fits_field MAX_NAME_LEN (cm_name m) -> fits_field MAX_FIRMWARE_PATH_LEN (cm_path m) ->
  fits_field MAX_NAME_LEN (cm_ped m) -> fits_field MAX_FIRMWARE_PATH_LEN (cm_ped_cfg m) ->
  length msg = sizeof create_msg_t ->
  pack m ≫= (fun data => read_create_msg (recv_create msg data)) = Some m.
Proof.
  intros Hcpu Hname Hpath Hped Hcfg Hlen. unfold pack.
  rewrite (proj2 (Z.leb_le _ _)), (proj2 (Z.ltb_lt _ _)) by lia. cbn [andb mbind option_bind].
  change (sizeof create_msg_t) with 328%nat in Hlen. unfold recv_create.
  change (sizeof create_msg_t) with 328%nat.
  rewrite take_ge by (rewrite !length_app, !length_pack_s, length_le_bytes; cbn; lia).
  match goal with |- read_create_msg (memwrite 0 ?b msg) = _ => set (data := b) end.
  assert (memwrite 0 data msg = data ++ drop 325 msg) as ->.
  { unfold memwrite. assert (length data = 325%nat) as Hd
      by (unfold data; rewrite !length_app, !length_pack_s, length_le_bytes; done).
    rewrite take_0, Hd, Nat.sub_0_r, (take_ge data) by lia. done. }
  unfold data. rewrite <- !app_assoc. set (rest := drop 325 msg).
  apply read_packed; done.
Qed.

(** A connection on which these chunks arrive, before the daemon closes it or, if it is
    [slow], [recv] waits for more than the timeout. *)
Definition is_recv (ca : pcall * pans) : Prop := match ca.1 with RecvChunk _ => True | _ => False end.
#[global] Instance is_recv_dec ca : Decision (is_recv ca).
Proof. destruct ca as [[] ?]; cbn; apply _. Defined.
Definition chunk_oracle (chunks : list (list Z)) (slow : bool) : oracle pcall pans := fun h _ =>
  match chunks !! length (filter is_recv h) with
  | Some chunk => Pans false false true 0 "" [] chunk
  | None => Pans false slow true 0 "" [] []
  end.

Lemma exec_recv path pre chunks slow (h : history pcall pans) buf :
  length (filter is_recv h) = length pre -> no_verdict buf ->
  (exec (chunk_oracle (pre ++ chunks) slow) (recv (S (length chunks)) path buf) h).1 = PVal (tool_recv chunks buf).
Proof.
  assert (forall pre chunks (h : history pcall pans) c, length (filter is_recv h) = length pre ->
    chunk_oracle (pre ++ chunks) slow h c =
      match chunks with [] => Pans false slow true 0 "" [] [] | x :: _ => Pans false false true 0 "" [] x end) as Ho.
  { intros pre' chunks' h' c' Hh'. unfold chunk_oracle. rewrite Hh', lookup_app_r, Nat.sub_diag by lia.
    by destruct chunks'. }
  revert pre h buf. induction chunks as [|c chunks IH]; intros pre h buf Hh Hno.
  - pose proof (Ho pre [] h (RecvChunk path) Hh) as E. cbn [recv length tool_recv bind call exec]. rewrite E.
    cbn [pa_timeout pa_exc pa_bytes]. destruct slow; [done|].
    destruct Hno as [HF HS]. by rewrite (app_nil_r buf), HF, HS.
  - pose proof (Ho pre (c :: chunks) h (RecvChunk path) Hh) as E.
    cbn [length]. remember (S (length chunks)) as fuel eqn:Efuel. cbn [recv tool_recv bind call exec]. rewrite E. cbn [pa_timeout pa_exc pa_bytes].
    destruct (contains FAILED (buf ++ c)) eqn:HF; [done|].
    destruct (contains SUCCESS (buf ++ c)) eqn:HS; [by destruct (bool_decide _ && bool_decide _)|].
    destruct (length c =? 0)%nat; [done|]. subst fuel.
    specialize (IH (pre ++ [c])). rewrite <- app_assoc in IH. apply IH; [|by split].
    etransitivity; [apply (f_equal length (filter_app is_recv h [_]))|].
    rewrite !length_app. cbn. f_equal. exact Hh.
Qed.

Definition heard (path : string) (chunks : list (list Z)) (slow : bool) : pres (option string) :=
  result (chunk_oracle chunks slow) (recv (S (length chunks)) path []).

Lemma heard_spec path chunks slow : heard path chunks slow = PVal (tool_recv chunks []).
Proof. by apply (exec_recv path []). Qed.

(** A stream that breaks off before the verdict. *)
Lemma tool_recv_none chunks buf : no_verdict (buf ++ concat chunks) -> tool_recv chunks buf = None.
Proof.
  revert buf. induction chunks as [|c chunks IH]; intros buf Hno; [done|]. cbn [concat tool_recv] in *.
  rewrite app_assoc in Hno. destruct (no_verdict_prefix _ _ Hno) as [-> ->]. case_match; [done|]. by apply IH.
Qed.

Lemma cut_stream_none chunks late l :
  concat chunks ++ late = l -> late <> [] -> no_verdict (removelast l) -> tool_recv chunks [] = None.
Proof.
  intros <- Hl Hno. destruct (exists_last Hl) as (k & y & ->). rewrite app_assoc, removelast_last in Hno.
  by apply tool_recv_none, (no_verdict_prefix _ k).
Qed.

(** What the daemon sends on a connection, as a stream. *)
Definition stream (sent : list (Z * string)) : list Z := concat ((fun x => str_bytes x.2) <$> sent).

Lemma stream_snoc l fd v : stream (l ++ [(fd, v)]) = stream l ++ str_bytes v.
Proof. unfold stream. rewrite fmap_app, concat_app. cbn. by rewrite app_nil_r. Qed.

Lemma verdict_bytes v :
  v = MICA_MSG_SUCCESS \/ v = MICA_MSG_FAILED ->
  exists b x, str_bytes v = b ++ [x] /\ (b ++ [x] = FAILED \/ b ++ [x] = SUCCESS).
Proof.
  intros [-> | ->].
  - exists (take 11 SUCCESS), 83. split; [by vm_compute|right; by vm_compute].
  - exists (take 10 FAILED), 68. split; [by vm_compute|left; by vm_compute].
Qed.

(** C13: The tool reports what the daemon did: when a ready listener is served and the
    connection was accepted, the tool, however the stream is cut into chunks, returns
    MICA-SUCCESS, and then the handler has returned 0, or MICA-FAILED, and then no listener
    was added or removed; if the stream breaks off before its end, because the timeout of
    5 seconds runs out or for another reason, it reports no verdict, and never a wrong
    one.  The log texts before the verdict must not contain one, and log messages must
    find memory. *)
Theorem tool_sees_verdict {IO} (p2v : IO -> Z -> option Z) (v2p : IO -> Z -> Z) (vring_size : Z -> Z -> Z)
    (ring_at : Z -> Z -> ring_buffer) (io_null : IO) (image_rsc : string -> rsc_contents)
    (o : oracle scall sans) (st : daemon IO) (u : listen_unit) (path : string) (chunks : list (list Z))
    (slow : bool) (late : list Z) :
  (forall h c, log_allocated c (o h c)) ->
  (lu_cb u = ClientCtrlHandler -> exists id, lu_client u = Some id /\ is_Some (heap st !! id)) ->
  let p := dispatch p2v v2p vring_size ring_at io_null image_rsc st u in
  let s := observe talk (None, []) (trace o p) in
  is_Some s.1 -> Forall (fun c => c <> []) chunks -> concat chunks ++ late = stream s.2 ->
  no_verdict (removelast (stream s.2)) ->
  exists ret st', result o p = Some (ret, st') /\
    if decide (late = []) then
      heard path chunks slow = PVal (Some MICA_MSG_SUCCESS) /\ ret = 0 \/
      heard path chunks slow = PVal (Some MICA_MSG_FAILED) /\ listener_list st' = listener_list st
    else heard path chunks slow = PVal None.
Proof.
  rewrite heard_spec. intros Ho Hu p s [fd Hfd] Hne Hs Hno.
  pose proof (wpv_result_trace talk log_allocated o p (answered st) (None, []) Ho
    (dispatch_answers p2v v2p vring_size ring_at io_null image_rsc st u Hu)) as Ha.
  fold s in Ha. unfold answered in Ha. rewrite Hfd in Ha. destruct Ha as (l & v & ret & st' & Hr & Hl & _ & Hv).
  exists ret, st'. split; [done|]. destruct (decide (late = [])) as [->|Hlate].
  2: { by rewrite (cut_stream_none _ _ _ Hs Hlate Hno). }
  rewrite app_nil_r in Hs. rewrite Hl, stream_snoc in Hs, Hno.
  destruct (verdict_bytes v) as (b & x & Eb & Hb); [naive_solver|]. rewrite Eb, app_assoc in Hno.
  rewrite removelast_last in Hno. rewrite Eb in Hs.
  assert (tool_recv chunks [] = Some v) as ->.
  { rewrite <- (bytes_str_bytes v), Eb. apply (tool_recv_spec (stream l)); try done.
    intros ->. cbn in Hs. by destruct (stream l), b. }
  naive_solver.
Qed.

Lemma create_msg_roundtrip_witness :
  let m := msg_example "qemu-zephyr" in
  length <$> pack m = Some 325%nat /\
  pack m ≫= (fun data => read_create_msg (recv_create (replicate 328 255) data)) = Some m.
Proof.
  split; [by vm_compute|].
  apply (create_msg_roundtrip (msg_example "qemu-zephyr") (replicate 328 255)); try done;
    (split; [vm_compute; lia|by apply (bool_decide_unpack (Forall _ _))]).
Defined.

(** The status of a client arrives in three chunks, the verdict cut in two; and if the
    third chunk is late, the tool reports nothing. *)
Lemma tool_sees_verdict_witness :
  let st := default daemon_empty micad_created.1 in
  exists u, listener_list st !! 1%nat = Some u /\
  let p := dispatch p2v_example v2p_example (fun num _ => num * 16) ring_at_example tt
             (fun _ => rsc_example) st u in
  let s := stream (observe talk (None, []) (trace micad_oracle p)).2 in
  let chunks := [take 7 s; take 73 (drop 7 s); drop 80 s] in
  (exists ret st', result micad_oracle p = Some (ret, st') /\
     if decide (@nil Z = []) then
       heard (lu_path u) chunks true = PVal (Some MICA_MSG_SUCCESS) /\ ret = 0 \/
       heard (lu_path u) chunks true = PVal (Some MICA_MSG_FAILED) /\ listener_list st' = listener_list st
     else heard (lu_path u) chunks true = PVal None) /\
  heard (lu_path u) chunks true = PVal (Some MICA_MSG_SUCCESS) /\
  heard (lu_path u) (take 2 chunks) true = PVal None.
Proof.
  eexists. split; [by vm_compute|]. cbv zeta. split; [|split; by vm_compute].
  apply tool_sees_verdict; [by intros h []| | | | |].
  - intros _. exists 1. split; [done|]. by eexists.
  - by eexists.
  - repeat constructor; by vm_compute.
  - by vm_compute.
  - split; by vm_compute.
Defined.

(** A name of 32 characters is packed without a NUL, so that the daemon reads the path as
    its end (mica.py lines 27-33, socket_listener.c lines 373-383). *)
Theorem long_name_runs_into_path :
  let name := String.concat "" (replicate 32 "a"%string) in
  cm_name <$> (pack (msg_example name) ≫= (fun data => read_create_msg (recv_create (replicate 328 0) data))) =
  Some (name +:+ "/lib/firmware/a.elf").
Proof. by vm_compute. Qed.

(** C12: "mica create" does what the configuration file says: for a readable file that
    describes a message whose name has fewer than 32 characters, and connections that
    do not fail, the tool sends on the socket "mica-create" exactly the message
    with the values of the file, and then, if and only if AutoBoot is set and it did not
    receive MICA-FAILED (an answer that does not come within the timeout included), the
    command "start" on the socket of that client, which is the one the daemon binds for
    it; it returns, as soon as [fuel] exceeds the number of non-empty chunks received on
    any connection, and no connection is left open. *)
Theorem tool_creates (cf : conf) (fuel : nat) (file : string) (o : oracle pcall pans) (m : create_msg)
    (auto : bool) (data : list Z) :
  (forall h c, answers cf c (o h c)) -> config_message cf = Some (m, auto) -> pack m = Some data ->
  (String.length (cm_name m) < MAX_NAME_LEN)%nat ->
  let p := send_create_msg fuel file in
  let s := observe on_wire wire0 (trace o p) in
  (w_max s < fuel)%nat ->
  result o p = PVal tt /\ closed s /\
  w_sent s = (create_socket, data) ::
    (if auto && negb (contains FAILED (w_got s))
     then [(socket_path (strlcpy (cm_name m) MAX_NAME_LEN), str_bytes "start")] else []).
Proof.
  intros Ho Hm Hd Hl p s. rewrite socket_path_agrees by done.
  exact (wpv_result_trace on_wire (answers cf) o p _ wire0 Ho (send_create_msg_twp cf fuel file m auto data Hm Hd)).
Qed.

(** A file with AutoBoot. *)
Definition conf_example : conf :=
  Conf (fun o => if (o =? "Name")%string then Some "qemu-zephyr"%string
                 else if (o =? "ClientPath")%string then Some "/lib/firmware/a.elf"%string
                 else if (o =? "AutoBoot")%string then Some "yes"%string else None)
    (fun o => if (o =? "CPU")%string then Some 3 else None)
    (fun o => if (o =? "AutoBoot")%string then Some true else None).
Definition tool_oracle : oracle pcall pans := fun _ c =>
  let ans {A} (x : option A) b i t := Pans (negb (bool_decide (is_Some x))) false b i t [] SUCCESS in
  match c with
  | Get o => ans (cf_text conf_example o) true 0 (default ""%string (cf_text conf_example o))
  | GetInt o => ans (cf_int conf_example o) true (default 0 (cf_int conf_example o)) ""%string
  | GetBoolean o => ans (cf_bool conf_example o) (default false (cf_bool conf_example o)) 0 ""%string
  | HasOption o => ans (Some tt) (bool_decide (is_Some (cf_text conf_example o))) 0 ""%string
  | _ => ans (Some tt) true 0 ""%string
  end.

Lemma tool_oracle_answers h c : answers conf_example c (tool_oracle h c).
Proof.
  destruct c as [| | | |o|o|o|o| | | | |]; try (by split); try done; cbn [answers tool_oracle].
  - by destruct (cf_text conf_example o).
  - by destruct (cf_int conf_example o).
  - by destruct (cf_bool conf_example o).
Qed.

Lemma tool_creates_witness :
  let s := observe on_wire wire0 (trace tool_oracle (send_create_msg 5 "zephyr.conf")) in
  closed s /\ (fst <$> w_sent s) = [create_socket; "/run/mica/qemu-zephyr.socket"%string].
Proof.
  cbv zeta. destruct (pack (msg_example "qemu-zephyr")) as [data|] eqn:Hd; [|by vm_compute in Hd].
  destruct (tool_creates conf_example 5 "zephyr.conf" tool_oracle (msg_example "qemu-zephyr") true data
    tool_oracle_answers eq_refl Hd) as (_ & Hc & _); [cbv; lia|vm_compute; lia|]. split; [exact Hc|by vm_compute].
Defined.

(** Every command of the tool that ends closes the connections it has opened and uses no
    other, whatever fails. *)
Theorem tool_closes (fuel : nat) (a : args) (o : oracle pcall pans) :
  result o (main fuel a) <> PRunning -> closed (observe on_wire wire0 (trace o (main fuel a))).
Proof. by apply (wp_result_trace on_wire o (main fuel a) closes), tool_main_wp. Qed.
