(* ===== verification/Jailhouse.v ===== *)
(** * The jailhouse remote processor ([library/remoteproc/jailhouse_rproc.c])

    A client OS in a jailhouse cell, reached through an ivshmem device that the
    kernel exposes as /dev/uio0.  Cells are managed by running the jailhouse tool.
    System calls, the tool, OpenAMP and the ELF loader are external calls. *)

From Stdlib Require Import Ascii.
From S2P Require Import Prelude ShmPool Baremetal.

Definition JAILHOUSE_CELL_NAME_MAXLEN : nat := 31.
Definition JAILHOUSE_CONFIG_REVISION : Z := 13.

(** The registers of [struct ivshmem_v2_reg] that are written. *)
Inductive ivshmem_v2_reg := INT_CONTROL | DOORBELL | STATE.

Inductive jcall :=
| Pipe
| Poll
| ReadUio (fd : Z)
| Write32 (reg : ivshmem_v2_reg) (v : Z)
| ReadId
| GetNotification
| Close (fd : Z)
| PthreadExit
| PthreadCreate
| PthreadDetach
| PthreadCancel
| MallocArgv (n : nat)
| FreeArgv
| Fork
| Execvp (argv : list string)
| Waitpid (argv : list string)      (* the child that runs [argv] *)
| OpenUio (path : string)
| MmapRegs (fd : Z)
| OpenInfo (path : string)
| ReadInfo (fd : Z)
| MallocPdata
| FreePdata
| Fopen (path : string)
| FreadHdr
| Fclose
| Sysconf
| MmapUio (fd size off : Z)
| Munmap (virt size : Z)
| AllocMem
| AllocIo
| FreeMem
| FreeIo
| IoPhysToVirt (virt pa : Z)
| Ftell
| LoadHeader
| LocateRscTable
| CopyRsc (dst off size : Z)
| SetRscTable (size : Z)
| ReleaseImage
| WritePipe (fd : Z).

(** The result, further values written through pointers, and a text read: the
    contents of a sysfs file, or the name in a cell description whose revision is
    [j_x]. *)
Record jans := Jans { j_ret : Z; j_x : Z; j_y : Z; j_text : string }.
Abbreviation jio := (io jcall jans).

(** [struct rproc_pdata] with its [struct ivshmem_device]. *)
Record rproc_pdata := Pdata {
  cell_name : string;
  uio_fd : Z;
  pipe_rd : Z;
  pipe_wr : Z;
  ivshm_regs : Z;
  peer_id : Z;
  shmem_addr : Z;
  shmem_sz : Z;
}.

(** ** Notifier *)

(** At most [fuel] rounds of the loop; [false]: it still waits. *)
Fixpoint wait_event_loop (fuel : nat) (p : rproc_pdata) : jio bool :=
  match fuel with
  | O => Ret false
  | S fuel =>
      r <- call Poll;;
      if j_ret r =? -1 then Ret true
      else
        (if negb (Z.land (j_x r) POLLIN =? 0) then
           _ <- call (ReadUio (uio_fd p));;
           _ <- call (Write32 INT_CONTROL 1);;
           _ <- call GetNotification;;
           Ret tt
         else Ret tt);;;
        if negb (Z.land (j_y r) POLLIN =? 0) then Ret true else wait_event_loop fuel p
  end.

(** The thread up to its loop: it stores its pipe in the private data.  [None]: it
    has ended. *)
Definition wait_event_open (p : rproc_pdata) : jio (option rproc_pdata) :=
  r <- call Pipe;;
  if j_ret r =? -1 then Ret None
  else Ret (Some (Pdata (cell_name p) (uio_fd p) (j_x r) (j_y r) (ivshm_regs p) (peer_id p)
                    (shmem_addr p) (shmem_sz p))).
(** The rest of it. *)
Definition wait_event_rest (fuel : nat) (n : option rproc_pdata) : jio (option rproc_pdata) :=
  match n with
  | None => Ret None
  | Some p =>
      left <- wait_event_loop fuel p;;
      if negb left then Ret (Some p)
      else
        _ <- call (Close (pipe_rd p));;
        _ <- call (Close (pipe_wr p));;
        _ <- call PthreadExit;;
        Ret None
  end.
Definition rproc_wait_event (fuel : nat) (p : rproc_pdata) : jio (option rproc_pdata) :=
  n <- wait_event_open p;; wait_event_rest fuel n.

Definition rproc_register_notifier : jio Z :=
  c <- call PthreadCreate;;
  if negb (j_ret c =? 0) then Ret (j_ret c)
  else
    d <- call PthreadDetach;;
    if negb (j_ret d =? 0) then _ <- call PthreadCancel;; Ret (j_ret d) else Ret 0.

(** ** The jailhouse tool *)

Definition WIFEXITED (status : Z) : bool := Z.land status 0x7f =? 0.
Definition WEXITSTATUS (status : Z) : Z := Z.land (Z.shiftr status 8) 0xff.

(** The NULL-terminated arguments are a list. *)
Definition run_command (argv : list string) : jio Z :=
  m <- call (MallocArgv (length argv + 1));;
  if j_ret m =? 0 then Ret (-1)
  else
    p <- call Fork;;
    ret <- (if j_ret p <? 0 then Ret (-1)
            else if j_ret p =? 0 then _ <- call (Execvp argv);; Ret (-1)
            else
              w <- call (Waitpid argv);;
              Ret (if negb (WIFEXITED (j_x w)) || negb (WEXITSTATUS (j_x w) =? 0) then -1 else 0));;
    _ <- call FreeArgv;;
    Ret ret.

(** ** The ivshmem device *)

(** The first occurrence of [needle]; [None] is NULL. *)
Fixpoint strstr (s needle : string) : option string :=
  if String.prefix needle s then Some s
  else match s with EmptyString => None | String _ s => strstr s needle end.

(** [strtoll(s, NULL, 16)]: blanks, a sign, 0x, digits; saturates. *)
Definition hex_digit (c : Ascii.ascii) : option Z :=
  let n := Z.of_N (Ascii.N_of_ascii c) in
  if (48 <=? n) && (n <=? 57) then Some (n - 48)
  else if (97 <=? n) && (n <=? 102) then Some (n - 87)
  else if (65 <=? n) && (n <=? 70) then Some (n - 55)
  else None.
Fixpoint hex_digits (acc : Z) (s : string) : Z :=
  match s with
  | String c s => match hex_digit c with Some d => hex_digits (16 * acc + d) s | None => acc end
  | EmptyString => acc
  end.
Definition is_blank (c : Ascii.ascii) : bool :=
  let n := Z.of_N (Ascii.N_of_ascii c) in (n =? 32) || ((9 <=? n) && (n <=? 13)).
Fixpoint skip_blanks (s : string) : string :=
  match s with
  | String c s' => if is_blank c then skip_blanks s' else s
  | EmptyString => s
  end.
Definition strtoll16 (s : string) : Z :=
  let s := skip_blanks s in
  let '(neg, s) :=
    match s with
    | String "-"%char s => (true, s)
    | String "+"%char s => (false, s)
    | _ => (false, s)
    end in
  let s :=
    match s with
    | String "0"%char (String x (String d _ as s')) =>
        if (Ascii.eqb x "x"%char || Ascii.eqb x "X"%char) && bool_decide (is_Some (hex_digit d)) then s' else s
    | _ => s
    end in
  let v := hex_digits 0 s in
  if neg then Z.max (- 2 ^ 63) (- v) else Z.min (2 ^ 63 - 1) v.

(** One sysfs file of the device: the number, [None] if it cannot be read. *)
Definition read_info (devname which : string) : jio (option Z) :=
  let path := strprefix 63 ("/sys/class/uio" +:+ devname +:+ "/maps/map2/" +:+ which) in
  f <- call (OpenInfo path);;
  if j_ret f <? 0 then Ret None
  else
    r <- call (ReadInfo (j_ret f));;
    _ <- call (Close (j_ret f));;
    if j_ret r <? 0 then Ret None else Ret (Some (u64 (strtoll16 (j_text r)))).

Definition init_ivshmem_dev (uio_dev : string) (p : rproc_pdata) : jio (Z * rproc_pdata) :=
  f <- call (OpenUio uio_dev);;
  let fd := j_ret f in
  if fd <? 0 then Ret (-1, p)
  else
    m <- call (MmapRegs fd);;
    let regs := u64 (j_ret m) in
    let p := Pdata (cell_name p) (uio_fd p) (pipe_rd p) (pipe_wr p) regs (peer_id p) (shmem_addr p) (shmem_sz p) in
    let err (p : rproc_pdata) : jio (Z * rproc_pdata) := _ <- call (Close fd);; Ret (-1, p) in
    if regs =? 0 then err p
    else
      let devname := default "(null)" (strstr uio_dev "/uio") in
      sz <- read_info devname "size";;
      match sz with
      | None => err p
      | Some sz =>
          let p := Pdata (cell_name p) (uio_fd p) (pipe_rd p) (pipe_wr p) regs (peer_id p) (shmem_addr p) sz in
          ad <- read_info devname "addr";;
          match ad with
          | None => err p
          | Some ad =>
              i <- call ReadId;;
              let peer := if u32 (j_ret i) =? 0 then 1 else 0 in
              _ <- call (Write32 INT_CONTROL 1);;
              _ <- call (Write32 STATE 1);;
              Ret (0, Pdata (cell_name p) fd (pipe_rd p) (pipe_wr p) regs peer ad sz)
          end
      end.

(** [fresh]: the indeterminate contents of the new private data.  [None] is NULL. *)
Definition rproc_init (fresh : rproc_pdata) (ped_cfg : string) : jio (option rproc_pdata) :=
  m <- call MallocPdata;;
  if j_ret m =? 0 then Ret None
  else
    r <- init_ivshmem_dev "/dev/uio0" fresh;;
    let '(ret, p) := r in
    if negb (ret =? 0) then _ <- call FreePdata;; Ret None
    else
      let err : jio (option rproc_pdata) :=
        _ <- call (Close (uio_fd p));; _ <- call FreePdata;; Ret None in
      f <- call (Fopen ped_cfg);;
      if j_ret f =? 0 then err
      else
        h <- call FreadHdr;;
        _ <- call Fclose;;
        if negb (j_ret h =? 1) then err
        else if negb (j_x h =? JAILHOUSE_CONFIG_REVISION) then err
        else
          ret <- run_command ["jailhouse"; "cell"; "create"; ped_cfg];;
          if negb (ret =? 0) then err
          else
            Ret (Some (Pdata (strlcpy (j_text h) (JAILHOUSE_CELL_NAME_MAXLEN + 1)) (uio_fd p) (pipe_rd p)
                         (pipe_wr p) (ivshm_regs p) (peer_id p) (shmem_addr p) (shmem_sz p))).

(** ** Memory *)

(** The window of the uio device that a request maps: its size and its offset. *)
Definition uio_window (p : rproc_pdata) (pagesize lpa size : Z) : Z * Z :=
  let aligned_addr := align_down lpa pagesize in
  let offset := u64 (lpa - aligned_addr) in
  (align_up (offset + size) pagesize, u64 (aligned_addr - shmem_addr p + 2 * pagesize)).

Definition rproc_mmap (p : rproc_pdata) (mems : list rproc_mem) (pa da size : Z)
    : jio (option Z * (Z * Z) * list rproc_mem) :=
  if (pa =? METAL_BAD_PHYS) && (da =? METAL_BAD_PHYS) then Ret (None, (pa, da), mems)
  else
    let lpa := if pa =? METAL_BAD_PHYS then da else pa in
    let lda := if da =? METAL_BAD_PHYS then lpa else da in
    s <- call Sysconf;;
    let offset := u64 (lpa - align_down lpa (j_ret s)) in
    let '(aligned_size, uio_mem_addr) := uio_window p (j_ret s) lpa size in
    m <- call (MmapUio (uio_fd p) aligned_size uio_mem_addr);;
    let va := u64 (j_ret m) in
    if va =? MAP_FAILED then Ret (None, (pa, da), mems)
    else
      a <- call AllocMem;;
      if j_ret a =? 0 then _ <- call (Munmap va aligned_size);; Ret (None, (pa, da), mems)
      else
        i <- call AllocIo;;
        if j_ret i =? 0 then
          _ <- call FreeMem;; _ <- call (Munmap va aligned_size);; Ret (None, (pa, da), mems)
        else
          v <- call (IoPhysToVirt (u64 (va + offset)) lpa);;
          Ret (Some (j_ret v), (lpa, lda), mems ++ [RprocMem lpa lda size (u64 (va + offset))]).

(** ** Configuration, start, shutdown and removal *)

Section config.
Context {IO : Type} (remoteproc_mmap : Z -> Z -> option (Z * Z * IO)).
Context (metal_io_phys_to_virt : IO -> Z -> option Z).

Definition rproc_config (p : rproc_pdata) (path : string) (pool : shmem IO) (r : rproc)
    : jio (Z * rproc * shmem IO) :=
  let '(ret, pool) := init_shmem_pool remoteproc_mmap pool (shmem_addr p) (shmem_sz p) in
  if negb (ret =? 0) then Ret (ret, r, pool)
  else
    let err (ret : Z) (pool : shmem IO) : jio (Z * rproc * shmem IO) :=
      _ <- call ReleaseImage;; Ret (ret, r, pool) in
    _ <- call Ftell;;
    h <- call LoadHeader;;
    if j_ret h <? 0 then err (j_ret h) pool
    else
      l <- call LocateRscTable;;
      let '(offset, rsc_size) := (j_x l, j_y l) in
      if negb (j_ret l =? 0) || (rsc_size <=? 0) then err (j_ret l) pool
      else
        s <- call Sysconf;;
        let pagesize := j_ret s in
        if pagesize <? rsc_size then err (- EINVAL) pool
        else
          ret <- run_command ["jailhouse"; "cell"; "load"; cell_name p; path];;
          if negb (ret =? 0) then err ret pool
          else
            match alloc_shmem_region metal_io_phys_to_virt pool (shmem_addr p) pagesize with
            | (None, pool) => err (- ENOMEM) pool
            | (Some rsc_table, pool) =>
                _ <- call (CopyRsc rsc_table offset rsc_size);;
                t <- call (SetRscTable rsc_size);;
                if negb (j_ret t =? 0) then err (- EINVAL) pool
                else
                  _ <- call ReleaseImage;;
                  Ret (0, Rproc RPROC_READY true rsc_size (rp_bitmap r) (rp_bootaddr r) (rp_mems r), pool)
            end.
End config.

Definition rproc_start (p : rproc_pdata) : jio Z :=
  ret <- run_command ["jailhouse"; "cell"; "start"; cell_name p];;
  if negb (ret =? 0) then Ret ret else rproc_register_notifier.

Fixpoint unmap_all (mems : list rproc_mem) : jio unit :=
  match mems with
  | [] => Ret tt
  | m :: mems =>
      _ <- call (Munmap (io_virt m) (m_size m));;
      _ <- call FreeIo;;
      _ <- call FreeMem;;
      unmap_all mems
  end.

Definition rproc_shutdown (p : rproc_pdata) (r : rproc) : jio (Z * rproc) :=
  ret <- run_command ["jailhouse"; "cell"; "shutdown"; cell_name p];;
  if negb (ret =? 0) then Ret (ret, r)
  else
    unmap_all (rp_mems r);;;
    _ <- call (WritePipe (pipe_wr p));;
    Ret (0, Rproc (rp_state r) false 0 0 (rp_bootaddr r) []).

(** [None]: [rproc->priv] is NULL afterwards. *)
Definition rproc_remove (p : rproc_pdata) : jio (option rproc_pdata) :=
  ret <- run_command ["jailhouse"; "cell"; "destroy"; cell_name p];;
  if negb (ret =? 0) then Ret (Some p)
  else _ <- call (Close (uio_fd p));; _ <- call FreePdata;; Ret None.

Definition rproc_notify (p : rproc_pdata) : jio Z :=
  _ <- call (Write32 DOORBELL (u32 (Z.shiftl (peer_id p) 16)));; Ret 0.

(** ** The cell and what belongs to it *)

Inductive jres := JPdata | JFd (fd : Z) | JArgv | JFile | JCell.
#[global] Instance jres_eq_dec : EqDecision jres.
Proof. solve_decision. Defined.

Definition exited_ok (status : Z) : bool := WIFEXITED status && (WEXITSTATUS status =? 0).

(** What is held; [None] once something not held is released. *)
Definition jledger (s : option (list jres)) (c : jcall) (a : jans) : option (list jres) :=
  let got r (ok : bool) := if ok then cons r <$> s else s in
  match c with
  | MallocPdata => got JPdata (negb (j_ret a =? 0))
  | FreePdata => s ≫= remove1 JPdata
  | Pipe => if j_ret a =? -1 then s else (fun l => JFd (j_x a) :: JFd (j_y a) :: l) <$> s
  | OpenUio _ | OpenInfo _ => got (JFd (j_ret a)) (negb (j_ret a <? 0))
  | Close fd => s ≫= remove1 (JFd fd)
  | MallocArgv _ => got JArgv (negb (j_ret a =? 0))
  | FreeArgv => s ≫= remove1 JArgv
  | Fopen _ => got JFile (negb (j_ret a =? 0))
  | Fclose => s ≫= remove1 JFile
  | Waitpid [_; _; verb; _] =>
      if String.eqb verb "create" then got JCell (exited_ok (j_x a))
      else if String.eqb verb "destroy" then if exited_ok (j_x a) then s ≫= remove1 JCell else s
      else s
  | _ => s
  end.
Abbreviation jwp := (wp jledger).

(** What a command that succeeds does to the cell. *)
Definition cell_after (argv : list string) (l : list jres) : option (list jres) :=
  match argv with
  | [_; _; verb; _] =>
      if String.eqb verb "create" then Some (JCell :: l)
      else if String.eqb verb "destroy" then remove1 JCell l
      else Some l
  | _ => Some l
  end.

Lemma waitpid_jledger argv l w :
  jledger (Some (JArgv :: l)) (Waitpid argv) w ≫= remove1 JArgv =
    if exited_ok (j_x w) then cell_after argv l else Some l.
Proof.
  assert (remove1 JArgv (JArgv :: l) = Some l) as Ha by apply remove1_head.
  unfold cell_after. destruct argv as [|a1 [|a2 [|verb [|a4 [|a5 argv]]]]]; cbn [jledger mbind option_bind];
    try (rewrite Ha; by destruct (exited_ok _)).
  destruct (String.eqb verb "create"), (exited_ok _); try (by rewrite ?Ha).
  - destruct (String.eqb verb "destroy"); [|exact Ha]. cbn.
    destruct (remove1 JCell l) as [l'|]; [|done]. cbn. by repeat case_decide.
  - destruct (String.eqb verb "destroy"); exact Ha.
Qed.

Lemma run_command_jwp argv l (Q : Z -> option (list jres) -> Prop) :
  Q (-1) (Some l) -> Q 0 (cell_after argv l) -> jwp (run_command argv) Q (Some l).
Proof.
  intros Hfail Hok. unfold run_command. cbn [bind call wp jledger]. intros m.
  destruct (j_ret m =? 0); cbn [negb wp fmap option_fmap option_map]; [done|].
  cbn [bind call wp jledger]. intros f. case_match; cbn [bind call wp jledger].
  { intros a. cbn [mbind option_bind]. by rewrite remove1_head. }
  case_match; cbn [bind call wp jledger].
  { intros e a. cbn [mbind option_bind]. by rewrite remove1_head. }
  intros w a. rewrite <- negb_andb. fold (exited_ok (j_x w)).
  change (Q (if negb (exited_ok (j_x w)) then -1 else 0)
    (jledger (Some (JArgv :: l)) (Waitpid argv) w ≫= remove1 JArgv)).
  rewrite waitpid_jledger. by destruct (exited_ok _).
Qed.

Lemma read_info_jwp devname which l :
  jwp (read_info devname which) (fun _ s => s = Some l) (Some l).
Proof.
  unfold read_info. cbn [bind call wp jledger]. intros f. destruct (j_ret f <? 0); [done|].
  cbn [negb fmap option_fmap option_map bind call wp jledger]. intros r a.
  cbn [mbind option_bind]. rewrite remove1_head. by case_match.
Qed.

Lemma init_ivshmem_dev_jwp dev p l :
  jwp (init_ivshmem_dev dev p)
    (fun r s => r.1 <> 0 /\ s = Some l \/ r.1 = 0 /\ s = Some (JFd (uio_fd r.2) :: l)) (Some l).
Proof.
  unfold init_ivshmem_dev. cbn [bind call wp jledger]. intros f. destruct (j_ret f <? 0); [by left|].
  cbn [negb fmap option_fmap option_map bind call wp jledger]. intros m.
  case_match; [cbn; intros _; rewrite decide_True by done; by left|].
  apply wp_bind. eapply wp_mono; [apply read_info_jwp|]. intros [sz|] s ->.
  2:{ cbn. intros _. rewrite decide_True by done. by left. }
  apply wp_bind. eapply wp_mono; [apply read_info_jwp|]. intros [ad|] s ->.
  2:{ cbn. intros _. rewrite decide_True by done. by left. }
  cbn. intros _ _ _. by right.
Qed.

(** What a client in a cell holds. *)
Definition cell_held (p : option rproc_pdata) : list jres :=
  match p with None => [] | Some p => [JCell; JFd (uio_fd p); JPdata] end.

Lemma rproc_init_jwp fresh cfg :
  jwp (rproc_init fresh cfg) (fun r s => s = Some (cell_held r)) (Some []).
Proof.
  unfold rproc_init. cbn [bind call wp jledger]. intros m. destruct (j_ret m =? 0); [done|].
  cbn [negb fmap option_fmap option_map]. apply wp_bind. eapply wp_mono; [apply init_ivshmem_dev_jwp|].
  intros [ret p] s Hs. cbn [fst snd] in Hs. destruct Hs as [[Hr ->]|[-> ->]].
  { rewrite (proj2 (Z.eqb_neq _ _)) by done. cbn. by intros _. }
  cbn [Z.eqb negb].
  assert (jwp (_ <- call (Close (uio_fd p));; _ <- call FreePdata;; Ret None)
    (fun r s => s = Some (cell_held r)) (Some [JFd (uio_fd p); JPdata])) as Herr.
  { cbn. intros _ _. rewrite decide_True by done. cbn. by rewrite decide_True. }
  cbn [bind call wp jledger]. intros f. destruct (j_ret f =? 0); [exact Herr|].
  cbn [negb fmap option_fmap option_map bind call wp jledger]. intros h c.
  cbn [mbind option_bind]. rewrite remove1_head. case_match; [exact Herr|]. case_match; [exact Herr|].
  apply wp_bind, run_command_jwp; [exact Herr|done].
Qed.

(** The descriptors of a notifier that still runs. *)
Definition notifier_held (n : option rproc_pdata) : list jres :=
  match n with None => [] | Some p => [JFd (pipe_rd p); JFd (pipe_wr p)] end.

(** Descriptors of the pipe and of the device may have any numbers, so what is
    held is known up to order. *)
Definition holds (l : list jres) (s : option (list jres)) : Prop := exists l', s = Some l' /\ l' ≡ₚ l.

Lemma holds_remove1 r l s : holds (r :: l) s -> holds l (s ≫= remove1 r).
Proof. intros (l' & -> & Hp). destruct (remove1_perm r l' l Hp) as (l2 & E & H2). by exists l2. Qed.

Lemma rproc_remove_jwp p n s :
  holds (cell_held (Some p) ++ notifier_held n) s ->
  jwp (rproc_remove p) (fun r s => holds (cell_held r ++ notifier_held n) s) s.
Proof.
  intros (l & -> & Hp). unfold rproc_remove. apply wp_bind, run_command_jwp.
  { by exists l. }
  cbn [cell_after String.eqb Ascii.eqb Bool.eqb Z.eqb negb bind call wp jledger]. intros _ _.
  do 2 apply holds_remove1. apply (holds_remove1 JCell _ (Some l)). by exists l.
Qed.

Lemma wait_event_loop_jwp fuel p s : jwp (wait_event_loop fuel p) (fun _ s' => s' = s) s.
Proof.
  induction fuel as [|fuel IH]; cbn [wait_event_loop]; [done|]. cbn [bind call wp jledger]. intros r.
  case_match; [done|]. apply wp_bind. eapply (wp_mono _ _ (fun _ s' => s' = s)).
  - by case_match; cbn.
  - intros _ s' ->. by case_match.
Qed.

Lemma wait_event_open_jwp p l :
  jwp (wait_event_open p) (fun n s => holds (l ++ notifier_held n) s /\ uio_fd (default p n) = uio_fd p) (Some l).
Proof.
  unfold wait_event_open. cbn [bind call wp jledger]. intros r. case_match; cbn [wp fmap option_fmap option_map].
  - split; [|done]. exists l. split; [done|]. cbn. by rewrite app_nil_r.
  - split; [|done]. eexists. split; [done|]. cbn. rewrite <- !Permutation_middle. by rewrite app_nil_r.
Qed.

Lemma wait_event_rest_jwp fuel n l s :
  holds (l ++ notifier_held n) s ->
  jwp (wait_event_rest fuel n) (fun n' s' => holds (l ++ notifier_held n') s') s.
Proof.
  destruct n as [p|]; cbn [wait_event_rest]; [|done]. intros Hs. apply wp_bind.
  eapply wp_mono; [apply wait_event_loop_jwp|]. intros left s' ->. destruct left; [|done].
  cbn [negb bind call wp jledger]. intros _ _ _. do 2 apply holds_remove1.
  destruct Hs as (l' & -> & Hp). exists l'. split; [done|]. rewrite Hp. cbn.
  rewrite <- !Permutation_middle. done.
Qed.

Lemma rproc_shutdown_jwp p r L s : holds L s -> jwp (rproc_shutdown p r) (fun _ s => holds L s) s.
Proof.
  intros Hs. pose proof Hs as (l & -> & _). unfold rproc_shutdown.
  apply wp_bind, run_command_jwp; [done|]. cbn [cell_after Z.eqb negb].
  apply wp_bind. eapply (wp_mono _ _ (fun _ s => s = Some l)).
  - induction (rp_mems r) as [|m mems IH]; [done|]. cbn. intros _ _ _. exact IH.
  - intros _ s ->. cbn. by intros _.
Qed.

Lemma rproc_start_jwp p l : jwp (rproc_start p) (fun _ s => s = Some l) (Some l).
Proof.
  unfold rproc_start, rproc_register_notifier. apply wp_bind, run_command_jwp; [done|].
  cbn [cell_after Z.eqb negb bind call wp jledger]. intros c. case_match; [done|].
  cbn. intros d. case_match; [by cbn|done].
Qed.

Section cycle.
Context {IO : Type} (remoteproc_mmap : Z -> Z -> option (Z * Z * IO)).
Context (p2v : IO -> Z -> option Z).

Lemma rproc_config_jwp p path pool r l :
  jwp (rproc_config remoteproc_mmap p2v p path pool r) (fun _ s => s = Some l) (Some l).
Proof.
  unfold rproc_config. destruct (init_shmem_pool _ _ _ _) as [ret pool']. case_match; [done|].
  cbn [bind call wp jledger]. intros f h. case_match; [by cbn|].
  cbn [bind call wp jledger]. intros lo. case_match; [by cbn|].
  cbn [bind call wp jledger]. intros sc. case_match; [by cbn|].
  apply wp_bind, run_command_jwp; [by cbn|]. cbn [cell_after Z.eqb negb].
  destruct (alloc_shmem_region _ _ _ _) as [[t|] pool'']; [|by cbn].
  cbn. intros _ b. case_match; by cbn.
Qed.

(** A client OS is created, configured, started, shut down and removed; the steps
    that follow the creation are tried even if an earlier one failed.  The notifier
    opens its pipe as soon as it is registered, and runs once before the shutdown and
    once after it.  The result: the private data, the result of the shutdown, and
    the notifier if it still waits. *)
Definition cell_cycle (fuel : nat) (fresh : rproc_pdata) (cfg path : string) (pool : shmem IO) (r : rproc)
    : jio (option rproc_pdata * Z * option rproc_pdata) :=
  p <- rproc_init fresh cfg;;
  match p with
  | None => Ret (None, 0, None)
  | Some p =>
      c <- rproc_config remoteproc_mmap p2v p path pool r;;
      st <- rproc_start p;;
      n <- (if st =? 0 then wait_event_open p else Ret None);;
      let p := default p n in
      n <- wait_event_rest fuel n;;
      sh <- rproc_shutdown p c.1.2;;
      n <- wait_event_rest fuel n;;
      p <- rproc_remove p;;
      Ret (p, sh.1, n)
  end.

Lemma cell_cycle_jwp fuel fresh cfg path pool r :
  jwp (cell_cycle fuel fresh cfg path pool r)
    (fun res s => holds (cell_held res.1.1 ++ notifier_held res.2) s) (Some []).
Proof.
  unfold cell_cycle. apply wp_bind. eapply wp_mono; [apply rproc_init_jwp|]. intros [p|] s ->.
  2:{ by exists []. }
  apply wp_bind. eapply wp_mono; [apply rproc_config_jwp|]. intros c s ->.
  apply wp_bind. eapply wp_mono; [apply rproc_start_jwp|]. intros st s ->.
  apply wp_bind. eapply (wp_mono _ _ (fun n s => holds (cell_held (Some (default p n)) ++ notifier_held n) s)).
  { case_match; [|by exists (cell_held (Some p))].
    eapply wp_mono; [apply wait_event_open_jwp|]. intros n s [Hs Hu]. cbn [cell_held]. by rewrite Hu. }
  intros n s Hs. set (p' := default p n) in *. clearbody p'.
  apply wp_bind. eapply wp_mono; [by apply wait_event_rest_jwp|]. intros n1 s1 Hs1.
  apply wp_bind. eapply wp_mono; [exact (rproc_shutdown_jwp _ _ _ _ Hs1)|]. intros sh s2 Hs2.
  apply wp_bind. eapply wp_mono; [exact (wait_event_rest_jwp _ _ _ _ Hs2)|]. intros n3 s3 Hs3.
  apply wp_bind. eapply wp_mono; [exact (rproc_remove_jwp _ _ _ Hs3)|]. done.
Qed.
End cycle.

(** Whether the notifier's pipe has been written to. *)
Definition written (s : bool) (c : jcall) (a : jans) : bool :=
  s || match c with WritePipe _ => true | _ => false end.
(** [poll] reports a pipe that has been written to, if it does not fail. *)
Definition pipe_seen (o : oracle jcall jans) : Prop :=
  forall h, observe written false h = true ->
    j_ret (o h Poll) = -1 \/ Z.land (j_y (o h Poll)) POLLIN <> 0.

Lemma rproc_shutdown_written p r s :
  wp written (rproc_shutdown p r) (fun res s' => res.1 = 0 -> s' = true) s.
Proof.
  unfold rproc_shutdown. apply wp_any. intros ret s1. destruct (Z.eqb_spec ret 0) as [->|Hr]; cbn [negb].
  - apply wp_any. intros _ s2. cbn. intros a _. apply orb_true_r.
  - by cbn.
Qed.

Lemma wait_event_rest_ends o fuel n h :
  (0 < fuel)%nat -> pipe_seen o -> observe written false h = true ->
  (exec o (wait_event_rest fuel n) h).1 = None.
Proof.
  intros Hf Ho Hh. destruct n as [p|]; [|done]. destruct fuel as [|fuel]; [lia|].
  cbn [wait_event_rest]. rewrite exec_bind. cbn [wait_event_loop bind call exec].
  destruct (Ho h Hh) as [E|E].
  { by rewrite E. }
  destruct (j_ret (o h Poll) =? -1); [done|]. rewrite exec_bind.
  destruct (exec o _ _) as [u h']. apply Z.eqb_neq in E. by rewrite E.
Qed.

Lemma cell_cycle_notifier {IO} rm (p2v : IO -> Z -> option Z) o fuel fresh cfg path pool r :
  (0 < fuel)%nat -> pipe_seen o ->
  let '(_, sh, n) := result o (cell_cycle rm p2v fuel fresh cfg path pool r) in sh = 0 -> n = None.
Proof.
  intros Hf Ho. unfold result, cell_cycle. rewrite exec_bind. destruct (exec o (rproc_init _ _) _) as [[p|] h0]; [|done].
  rewrite exec_bind. destruct (exec o (rproc_config _ _ _ _ _ _) _) as [c h1].
  rewrite exec_bind. destruct (exec o (rproc_start _) _) as [st h2].
  rewrite exec_bind. destruct (exec o _ h2) as [n h3].
  rewrite exec_bind. destruct (exec o (wait_event_rest _ _) _) as [n1 h4].
  rewrite exec_bind. pose proof (wp_sound written o (rproc_shutdown (default p n) c.1.2) _ false h4
    (rproc_shutdown_written _ _ _)) as Hw. destruct (exec o (rproc_shutdown _ _) _) as [sh h5].
  rewrite exec_bind. pose proof (wait_event_rest_ends o fuel n1 h5 Hf Ho) as He.
  destruct (exec o (wait_event_rest _ _) _) as [n2 h6].
  rewrite exec_bind. destruct (exec o (rproc_remove _) _) as [p' h7]. cbn in *. auto.
Qed.

(** C37: A jailhouse client OS keeps what it needs and gives it back: whatever the
    system calls and the jailhouse tool answer, a creation that fails leaves no
    private data, descriptor, file, argument vector or cell behind; a client that is
    created, configured, started, shut down and removed leaves none either, with two
    exceptions: if the tool could not destroy the cell, the client still has the cell,
    its device and its private data, and if the notifier thread still waits, its pipe
    is open.  The notifier does not wait any more once the tool has shut the cell down
    and poll reports the pipe written to.  Nothing is released twice.  The notifier is
    taken to open its pipe before the shutdown and to end before the removal, which
    the code does not wait for, and to have opened nothing if it was cancelled because
    it could not be detached.  Mappings are not counted (see registers_stay_mapped). *)
Theorem cell_balanced {IO} (remoteproc_mmap : Z -> Z -> option (Z * Z * IO)) (p2v : IO -> Z -> option Z)
    (o : oracle jcall jans) (fuel : nat) (fresh : rproc_pdata) (cfg path : string) (pool : shmem IO) (r : rproc) :
  observe jledger (Some []) (trace o (rproc_init fresh cfg)) = Some (cell_held (result o (rproc_init fresh cfg))) /\
  let c := cell_cycle remoteproc_mmap p2v fuel fresh cfg path pool r in
  let '(p, sh, n) := result o c in
  holds (cell_held p ++ notifier_held n) (observe jledger (Some []) (trace o c)) /\
  ((0 < fuel)%nat -> pipe_seen o -> sh = 0 -> n = None).
Proof.
  split; [apply (wp_result_trace jledger o _ _ (Some []) (rproc_init_jwp fresh cfg))|]. intros c.
  pose proof (wp_result_trace jledger o _ _ (Some []) (cell_cycle_jwp remoteproc_mmap p2v fuel fresh cfg path pool r)) as Hl.
  pose proof (cell_cycle_notifier remoteproc_mmap p2v o fuel fresh cfg path pool r) as Hn.
  fold c in Hl, Hn. destruct (result o c) as [[p sh] n]. by split.
Qed.

(** ** Address translation *)

Lemma uio_window_spec p k pa size :
  0 <= k <= 30 -> (2 ^ k | shmem_addr p) ->
  0 <= shmem_addr p <= pa -> 0 <= size -> pa + size + 4 * 2 ^ k < 2 ^ 64 ->
  let '(asz, off) := uio_window p (2 ^ k) pa size in
  let pos := 2 * 2 ^ k + (pa - shmem_addr p) in
  (2 ^ k | off) /\ (2 ^ k | asz) /\ 2 * 2 ^ k <= off <= pos /\ pos + size <= off + asz < pos + size + 2 ^ k /\
  u64 (pa - align_down pa (2 ^ k)) = pos - off.
Proof.
  intros Hk [m Hm] Hpa Hsz Hmax. unfold uio_window.
  assert (0 < 2 ^ k) by (apply Z.pow_pos_nonneg; lia).
  rewrite align_down_spec by lia. pose proof (Z.mod_pos_bound pa (2 ^ k) ltac:(lia)) as Hmod.
  pose proof (Z_div_mod_eq_full pa (2 ^ k)) as Hdiv.
  rewrite (wrapu_small 64 (pa - _)) by lia.
  replace (pa - (pa - pa mod 2 ^ k)) with (pa mod 2 ^ k) by lia.
  assert (shmem_addr p <= pa - pa mod 2 ^ k) as Hge.
  { assert (m <= pa / 2 ^ k) by (apply Z.div_le_lower_bound; lia). nia. }
  rewrite (wrapu_small 64 (pa - _ - _ + _)) by lia.
  destruct (align_up_bounds (pa mod 2 ^ k + size) k) as [Hb Hd]; [lia..|].
  split_and!; [|done|lia..]. exists (pa / 2 ^ k - m + 2). lia.
Qed.

(** A mapped region shows the bytes of the shared memory section that the
    physical address denotes.  For an address in a page-aligned section, a request
    that succeeds maps a page-aligned window of the device that starts at or behind
    the section's third page, covers the requested bytes and reaches less than one
    page beyond them, and the address recorded for the region lies in the window
    where the requested byte is. *)
Theorem uio_mapping_correct (o : oracle jcall jans) (p : rproc_pdata) (mems : list rproc_mem) (k pa da size : Z) :
  0 <= k <= 30 -> (2 ^ k | shmem_addr p) -> (forall h, j_ret (o h Sysconf) = 2 ^ k) ->
  0 <= shmem_addr p <= pa -> 0 <= size -> pa + size + 4 * 2 ^ k < 2 ^ 64 - 1 ->
  let '((va, _, mems'), h) := exec o (rproc_mmap p mems pa da size) [] in
  match va with
  | None => mems' = mems
  | Some _ => exists asz off base mem,
      nth_error h 1 = Some (MmapUio (uio_fd p) asz off, base) /\
      mems' = mems ++ [mem] /\ m_pa mem = pa /\ m_size mem = size /\
      let pos := 2 * 2 ^ k + (pa - shmem_addr p) in
      (2 ^ k | off) /\ 2 * 2 ^ k <= off <= pos /\ pos + size <= off + asz < pos + size + 2 ^ k /\
      io_virt mem = u64 (u64 (j_ret base) + (pos - off))
  end.
Proof.
  intros Hk Hal Hps Hpa Hsz Hmax.
  pose proof (uio_window_spec p k pa size Hk Hal Hpa Hsz ltac:(lia)) as Hw.
  unfold rproc_mmap. assert ((pa =? METAL_BAD_PHYS) = false) as Hbad.
  { apply Z.eqb_neq. assert (0 < 2 ^ k) by (apply Z.pow_pos_nonneg; lia). unfold METAL_BAD_PHYS. lia. }
  rewrite Hbad. cbn [andb bind call exec]. rewrite Hps.
  destruct (uio_window p (2 ^ k) pa size) as [asz off]. destruct Hw as (H1 & H2 & H3 & H4 & H5).
  cbn [bind call exec app]. destruct (u64 _ =? MAP_FAILED); [done|].
  cbn [bind call exec app]. destruct (j_ret _ =? 0); [done|].
  cbn [bind call exec app]. destruct (j_ret _ =? 0); [done|].
  cbn [bind call exec app]. eexists asz, off, _, _. cbn [nth_error]. split; [done|].
  split; [done|]. cbn [m_pa m_size io_virt]. rewrite H5. split_and!; try done; lia.
Qed.

Definition pdata_example : rproc_pdata := Pdata "rtos" 5 0 0 0x7f0000000000 1 0x7fb00000 0x100000.
Definition uio_oracle : oracle jcall jans := fun _ c =>
  match c with
  | Sysconf => Jans (2 ^ 12) 0 0 ""
  | MmapUio _ _ off => Jans (0x7f1100000000 + off) 0 0 ""
  | _ => Jans 1 0 0 ""
  end.

Lemma uio_mapping_correct_witness :
  let '((va, _, mems), h) := exec uio_oracle (rproc_mmap pdata_example [] 0x7fb01010 METAL_BAD_PHYS 0x2000) [] in
  exists asz off base mem, nth_error h 1 = Some (MmapUio 5 asz off, base) /\ mems = [mem] /\ off = 0x3000 /\
    asz = 0x3000 /\ io_virt mem = 0x7f1100003010.
Proof.
  pose proof (uio_mapping_correct uio_oracle pdata_example [] 12 0x7fb01010 METAL_BAD_PHYS 0x2000) as H.
  destruct (exec _ _ []) as [[[va pd] mems] h] eqn:E.
  assert (va = Some 1) as -> by (vm_compute in E; congruence).
  destruct H as (asz & off & base & mem & H1 & H2 & _).
  - lia.
  - by exists 0x7fb00.
  - done.
  - cbn. lia.
  - lia.
  - lia.
  - exists asz, off, base, mem. split; [done|]. split; [done|].
    vm_compute in E. by simplify_eq/=.
Defined.

(** A machine on which everything works; the pipe is readable once written to. *)
Definition cell_oracle : oracle jcall jans := fun h c =>
  match c with
  | FreadHdr => Jans 1 13 0 "rtos"
  | PthreadCreate | PthreadDetach => Jans 0 0 0 ""
  | Poll => Jans 0 0 (if observe written false h then POLLIN else 0) ""
  | Pipe => Jans 0 7 8 ""
  | _ => Jans 1 0 0 "0x1000"
  end.
Abbreviation cycle_example := (cell_cycle (fun _ _ => Some (4096, 0, tt)) (fun _ _ => Some 4096) 3
  pdata_example "c" "a.elf" (Shmem 0 0 0 0 0 tt) (Rproc RPROC_OFFLINE false 0 0 0 [])).

Lemma cell_balanced_witness :
  pipe_seen cell_oracle /\ (result cell_oracle cycle_example).2 = None /\
  holds [] (observe jledger (Some []) (trace cell_oracle cycle_example)).
Proof.
  assert (pipe_seen cell_oracle) as Hp by (intros h E; right; cbn; by rewrite E).
  destruct (cell_balanced (fun _ _ => Some (4096, 0, tt)) (fun _ _ => Some 4096) cell_oracle 3
    pdata_example "c" "a.elf" (Shmem 0 0 0 0 0 tt) (Rproc RPROC_OFFLINE false 0 0 0 [])) as [_ H].
  cbv zeta in H. assert ((result cell_oracle cycle_example).1 = (None, 0)) as E by (by vm_compute).
  destruct (result cell_oracle cycle_example) as [[p sh] n]. cbn [fst] in E. simplify_eq.
  destruct H as [Hl Hn]. specialize (Hn ltac:(lia) Hp eq_refl). subst n. done.
Defined.

(** A cell that could not be shut down but could be destroyed: the client is gone
    with its private data, and the notifier still waits with its pipe open (line 502;
    [rproc_remove] does not stop it). *)
Theorem failed_shutdown_leaves_notifier :
  exists o : oracle jcall jans, let c := cycle_example in
  (result o c).1.1 = None /\ (pipe_wr <$> (result o c).2) = Some 8 /\
  observe jledger (Some []) (trace o c) = Some [JFd 7; JFd 8].
Proof.
  exists (fun h c => match c with
    | Waitpid [_; _; verb; _] => Jans 1 (if String.eqb verb "shutdown" then 256 else 0) 0 ""
    | _ => cell_oracle h c end).
  by vm_compute.
Qed.

(** The mapping of the registers stays behind when the client is removed. *)
Theorem registers_stay_mapped :
  exists o : oracle jcall jans, let t := trace o (p <- rproc_init pdata_example "c";;
    match p with Some p => rproc_remove p | None => Ret None end) in
  result o (rproc_init pdata_example "c") <> None /\
  existsb (fun ca => match ca.1 with MmapRegs _ => true | _ => false end) t = true /\
  existsb (fun ca => match ca.1 with Munmap _ _ => true | _ => false end) t = false.
Proof.
  exists (fun _ c => match c with FreadHdr => Jans 1 13 0 "rtos" | _ => Jans 1 0 0 "0x1000" end).
  by vm_compute.
Qed.

(** [mmap] reports a failure as [MAP_FAILED], but the result is compared with NULL
    (line 209): the device is set up with registers at that address. *)
Theorem failed_register_mapping_accepted :
  exists o : oracle jcall jans,
    let '(ret, p) := result o (init_ivshmem_dev "/dev/uio0" pdata_example) in
    ret = 0 /\ ivshm_regs p = MAP_FAILED.
Proof. exists (fun _ c => match c with MmapRegs _ => Jans (-1) 0 0 "" | _ => Jans 1 0 0 "" end). by vm_compute. Qed.

(** [munmap] gets the address and size of the request, not those of the mapping
    (line 511). *)
Theorem unmap_misses_mapping :
  let '((_, _, mems), h) := exec uio_oracle (rproc_mmap pdata_example [] 0x7fb01010 METAL_BAD_PHYS 0x2000) [] in
  nth_error h 1 = Some (MmapUio 5 0x3000 0x3000, Jans 0x7f1100003000 0 0 "") /\
  nth_error (trace uio_oracle (unmap_all mems)) 0 = Some (Munmap 0x7f1100003010 0x2000, Jans 1 0 0 "").
Proof. by vm_compute. Qed.

(** A firmware with an empty resource table is reported as configured (line 419). *)
Theorem empty_rsc_table_accepted :
  exists o : oracle jcall jans,
    let '(ret, r, _) := result o (rproc_config (fun _ _ => Some (4096, 0, tt)) (fun _ _ => Some 4096)
        pdata_example "a.elf" (Shmem 0 0 0 0 0 tt) (Rproc RPROC_OFFLINE false 0 0 0 [])) in
    ret = 0 /\ rp_rsc_table r = false.
Proof. exists (fun _ _ => Jans 0 0 0 ""). by vm_compute. Qed.

(** When the tool cannot be executed, the forked child returns into the daemon's
    code as if it were the daemon (line 183). *)
Theorem exec_failure_returns_in_child (o : oracle jcall jans) (argv : list string) :
  (forall h, j_ret (o h Fork) = 0) -> (forall h n, j_ret (o h (MallocArgv n)) <> 0) ->
  result o (run_command argv) = -1.
Proof.
  intros Hf Hm. unfold result, run_command. cbn [bind call exec].
  rewrite (proj2 (Z.eqb_neq _ _)) by apply Hm. cbn [bind call exec]. by rewrite Hf.
Qed.
