(* ===== verification/UserMsg.v ===== *)
(** * Messages from user processes ([library/user_msg/user_msg.c],
    [library/user_msg/user_msg_mem.c])

    A user process hands data to the client OS through the memory that the kernel
    module reserves for copies, tells micad through a shared memory object and a
    semaphore, and waits on a second semaphore for the answer.  System calls and the
    accesses to shared memory are calls, in the order of the code; waiting for the
    spin lock is one call. *)

From stdpp Require Import pretty.
From S2P Require Import Prelude.

Definition OPENAMP_SHM_COPY_SIZE : Z := 0x100000.
Definition sizeof_process_shared_data : Z := 280.
Definition SHM_NAME (instance : Z) : string := "/my_shared_memory_" +:+ pretty instance.
Definition SEM_USER_TO_MICAD (instance : Z) : string := "/sem_user_to_mciad_" +:+ pretty instance.
Definition SEM_MICAD_TO_USER (instance : Z) : string := "/sem_mciad_to_user_" +:+ pretty instance.

(** The fields of [process_shared_data_t]. *)
Inductive shfield := PhyAddr | DataLen | InstanceId | RcvDataLen.

Inductive ucall :=
| ShmOpen (name : string)
| Ftruncate (fd size : Z)
| MmapShm (fd size : Z)
| CloseFd (fd : Z)
| Munmap (addr size : Z)
| SemOpen (name : string)
| SemClose (sem : Z)
| OpenMcs
| IoctlCopyMem (fd instance : Z)
| Sysconf
| MmapMcs (fd size addr : Z)
| SpinLock                           (* until [lock] was 0; it is 1 now *)
| LockRelease
| ReadField (f : shfield)
| WriteField (f : shfield) (v : Z)
| CopyIn (addr : Z) (data : list Z) (len : Z)      (* memcpy to the mapping *)
| CopyOut (addr len : Z)                           (* memcpy from the mapping *)
| SemPost (sem : Z)
| SemWait (sem : Z).

(** The result; the physical address and size that the kernel module answers; bytes
    that were read. *)
Record uans := Uans { u_ret : Z; u_phy : Z; u_size : Z; u_bytes : list Z }.
Abbreviation uio := (io ucall uans).

(** [struct core_msg_mem_info]. *)
Record core_msg_mem_info := CoreMem {
  ci_instance_id : Z; ci_phy_addr : Z; ci_vir_addr : Z; ci_size : Z; ci_align_size : Z;
}.

Definition MAP_FAILED : Z := 2 ^ 64 - 1.
Definition SEM_FAILED : Z := 0.

Definition init_core_shared_memory (info : core_msg_mem_info) : uio (Z * core_msg_mem_info) :=
  f <- call OpenMcs;;
  let mcs_fd := u_ret f in
  if mcs_fd <? 0 then Ret (-1, info)
  else
    r <- call (IoctlCopyMem mcs_fd (ci_instance_id info));;
    if u_ret r <? 0 then _ <- call (CloseFd mcs_fd);; Ret (-1, info)
    else
      let lpa := u_phy r in
      s <- call Sysconf;;
      let pagesize := u_ret s in
      let aligned_addr := align_down lpa pagesize in
      let offset := u64 (lpa - aligned_addr) in
      let aligned_size := align_up (offset + u_size r) pagesize in
      m <- call (MmapMcs mcs_fd aligned_size aligned_addr);;
      let va := u64 (u_ret m) in
      if va =? MAP_FAILED then
        _ <- call (CloseFd mcs_fd);;
        Ret (-1, CoreMem (ci_instance_id info) lpa va (u_size r) (ci_align_size info))
      else Ret (0, CoreMem (ci_instance_id info) aligned_addr va (u_size r) aligned_size).

(** The result and the two semaphores. *)
Definition create_sem (instance_id : Z) : uio (Z * Z * Z) :=
  a <- call (SemOpen (SEM_USER_TO_MICAD instance_id));;
  if u_ret a =? SEM_FAILED then Ret (-1, SEM_FAILED, SEM_FAILED)
  else
    b <- call (SemOpen (SEM_MICAD_TO_USER instance_id));;
    if u_ret b =? SEM_FAILED then _ <- call (SemClose (u_ret a));; Ret (-1, u_ret a, SEM_FAILED)
    else Ret (0, u_ret a, u_ret b).

(** [None] is NULL. *)
Definition init_process_shared_memory (instance_id : Z) : uio (option Z) :=
  f <- call (ShmOpen (SHM_NAME instance_id));;
  let shm_fd := u_ret f in
  if shm_fd =? -1 then Ret None
  else
    t <- call (Ftruncate shm_fd sizeof_process_shared_data);;
    if u_ret t =? -1 then _ <- call (CloseFd shm_fd);; Ret None
    else
      m <- call (MmapShm shm_fd sizeof_process_shared_data);;
      let p := u64 (u_ret m) in
      _ <- call (CloseFd shm_fd);;
      Ret (if p =? MAP_FAILED then None else Some p).

(** [data]: the [data_len] bytes to send.  The result is the return value with,
    on success, the bytes received and [*rcv_data_len]. *)
Definition send_data_to_rtos_and_wait_rcv (data : list Z) (data_len target_instance : Z)
    : uio (Z * option (list Z * Z)) :=
  if OPENAMP_SHM_COPY_SIZE <? data_len then Ret (-1, None)
  else
    p <- init_process_shared_memory target_instance;;
    match p with
    | None => Ret (-1, None)
    | Some shm =>
        i <- call (ReadField InstanceId);;
        if negb (u_ret i =? target_instance) then Ret (-1, None)
        else
          s <- create_sem target_instance;;
          let '(_, sem_user_to_micad, sem_micad_to_user) := s in
          _ <- call SpinLock;;
          c <- init_core_shared_memory (CoreMem (u32 target_instance) 0 0 0 0);;
          let '(ret, info) := c in
          let unmap : uio unit :=
            _ <- call (Munmap shm sizeof_process_shared_data);;
            if negb (ci_vir_addr info =? 0)
            then _ <- call (Munmap (ci_vir_addr info) (ci_align_size info));; Ret tt
            else Ret tt in
          if negb (ret =? 0) then unmap;;; Ret (-1, None)
          else
            _ <- call (CopyIn (ci_vir_addr info) data (u64 data_len));;
            _ <- call (WriteField PhyAddr (ci_phy_addr info));;
            _ <- call (WriteField DataLen data_len);;
            _ <- call (SemPost sem_user_to_micad);;
            _ <- call (SemWait sem_micad_to_user);;
            n <- call (ReadField RcvDataLen);;
            b <- call (CopyOut (u64 (ci_vir_addr info + OPENAMP_SHM_COPY_SIZE)) (u64 (u_ret n)));;
            m <- call (ReadField RcvDataLen);;
            _ <- call (SemClose sem_user_to_micad);;
            _ <- call (SemClose sem_micad_to_user);;
            _ <- call LockRelease;;
            unmap;;;
            Ret (0, Some (u_bytes b, u_ret m))
    end.
