(* ===== verification/Umt.v ===== *)
(** * The message service of micad ([mica/micad/services/umt/rpmsg_umt.c])

    micad forwards the messages of user processes to the client OS: a thread waits
    for the users' semaphore and sends the physical address and the length of the
    data; the endpoint callback stores the length of the answer and wakes the user.
    The second half of the file runs users, thread, callback and client OS
    concurrently. *)

From stdpp Require Import pretty.
From S2P Require Import Prelude UserMsg.

Definition RPMSG_UMT_NAME : string := "rpmsg-umt".

(** Calls besides those of the user library. *)
Inductive mcall :=
| User (c : ucall)
| MallocSvc
| FreeSvc
| CreateEpt (name : string) (src dst : Z)
| DestroyEpt
| InitSem
| InitMutex
| DestroySem
| DestroyMutex
| RpmsgSend (phy_addr data_len : Z)
| WriteLock (v : Z)
| ReadActive
| WriteActive (v : Z)
| ShmUnlink (name : string)
| SemUnlink (name : string)
| ThreadCreate
| ThreadDetach
| ThreadCancel
| ThreadExit.
Abbreviation mio := (io mcall uans).

(** A function of the user library, called by micad. *)
Fixpoint lib {R} (p : uio R) : mio R :=
  match p with
  | Ret r => Ret r
  | Call c k => Call (User c) (fun a => lib (k a))
  end.

(** [struct rpmsg_umt_service]; a pointer that was not stored yet has an
    indeterminate value. *)
Record umt_service := UmtService {
  us_instance_id : Z;
  us_sem_user_to_micad : Z;
  us_sem_micad_to_user : Z;
  us_process_shared_memory : Z;
}.

(** The callback gets the length of the answer in the message. *)
Definition rpmsg_rx_umt_callback (svc : umt_service) (rcv : Z) : mio Z :=
  _ <- call (User (WriteField RcvDataLen rcv));;
  _ <- call (User (SemPost (us_sem_micad_to_user svc)));;
  Ret 0.

(** At most [fuel] rounds of the loop. *)
Fixpoint umt_tx_loop (fuel : nat) (svc : umt_service) : mio unit :=
  match fuel with
  | O => Ret tt
  | S fuel =>
      a <- call ReadActive;;
      if u_ret a =? 0 then _ <- call FreeSvc;; _ <- call ThreadExit;; Ret tt
      else
        _ <- call (User (SemWait (us_sem_user_to_micad svc)));;
        p <- call (User (ReadField PhyAddr));;
        l <- call (User (ReadField DataLen));;
        _ <- call (RpmsgSend (u_ret p) (u_ret l));;
        umt_tx_loop fuel svc
  end.
Definition rpmsg_umt_tx_task (fuel : nat) (svc : umt_service) : mio unit :=
  _ <- call (WriteActive 1);; umt_tx_loop fuel svc.

(** [g_umt_list] with the services in it. *)
Definition rpmsg_umt_unbind (g_umt_list : list umt_service) (i : nat) (svc : umt_service) : mio (list umt_service) :=
  _ <- call DestroyEpt;;
  _ <- call DestroySem;;
  _ <- call DestroyMutex;;
  _ <- call (User (Munmap (us_process_shared_memory svc) sizeof_process_shared_data));;
  _ <- call (ShmUnlink (SHM_NAME (us_instance_id svc)));;
  _ <- call (User (SemClose (us_sem_user_to_micad svc)));;
  _ <- call (SemUnlink (SEM_USER_TO_MICAD (us_instance_id svc)));;
  _ <- call (User (SemClose (us_sem_micad_to_user svc)));;
  _ <- call (SemUnlink (SEM_MICAD_TO_USER (us_instance_id svc)));;
  _ <- call (WriteActive 0);;
  Ret (delete i g_umt_list).

(** [fresh]: the indeterminate contents of the new service. *)
Definition umt_service_init (fresh : umt_service) (g_umt_list : list umt_service) (name : string)
    (remote_addr remote_dest : Z) : mio (list umt_service) :=
  m <- call MallocSvc;;
  if u_ret m =? 0 then Ret g_umt_list
  else
    e <- call (CreateEpt name remote_dest remote_addr);;
    if negb (u_ret e =? 0) then _ <- call FreeSvc;; Ret g_umt_list
    else
      _ <- call InitSem;;
      _ <- call InitMutex;;
      _ <- call (RpmsgSend 0 32);;
      let free_ept (svc : umt_service) : mio (list umt_service) :=
        _ <- call DestroyEpt;;
        (if negb (us_process_shared_memory svc =? 0)
         then _ <- call (User (Munmap (us_process_shared_memory svc) sizeof_process_shared_data));; Ret tt
         else Ret tt);;;
        (if negb (us_sem_micad_to_user svc =? SEM_FAILED)
         then _ <- call (User (SemClose (us_sem_micad_to_user svc)));; Ret tt else Ret tt);;;
        (if negb (us_sem_user_to_micad svc =? SEM_FAILED)
         then _ <- call (User (SemClose (us_sem_user_to_micad svc)));; Ret tt else Ret tt);;;
        _ <- call FreeSvc;;
        Ret g_umt_list in
      p <- lib (init_process_shared_memory 0);;
      let svc := UmtService 0 (us_sem_user_to_micad fresh) (us_sem_micad_to_user fresh) (default 0 p) in
      match p with
      | None => free_ept svc
      | Some p =>
          _ <- call (WriteLock 0);;
          _ <- call (User (WriteField InstanceId 0));;
          s <- lib (create_sem 0);;
          let '(ret, u2m, m2u) := s in
          (* the second semaphore is not stored when the first one fails *)
          let m2u := if u2m =? SEM_FAILED then us_sem_micad_to_user fresh else m2u in
          let svc := UmtService 0 u2m m2u p in
          if negb (ret =? 0) then free_ept svc
          else
            t <- call ThreadCreate;;
            if negb (u_ret t =? 0) then free_ept svc
            else
              d <- call ThreadDetach;;
              if negb (u_ret d =? 0) then _ <- call ThreadCancel;; free_ept svc
              else Ret (g_umt_list ++ [svc])
      end.

Definition umt_name_match (name : string) : bool := strcmp0 name RPMSG_UMT_NAME.

(** The first service of instance 0 is unbound. *)
Definition remove_umt_service (g_umt_list : list umt_service) : mio (list umt_service) :=
  match list_find (fun s => us_instance_id s = 0) g_umt_list with
  | Some (i, svc) => rpmsg_umt_unbind g_umt_list i svc
  | None => Ret g_umt_list
  end.

(** ** Users, micad and the client OS together *)

(** Physical memory. *)
Definition mem_write (addr : Z) (bs : list Z) (m : Z -> Z) : Z -> Z :=
  fun a => match bs !! Z.to_nat (a - addr) with
           | Some b => if addr <=? a then b else m a
           | None => m a
           end.
Definition mem_read (addr : Z) (n : Z) (m : Z -> Z) : list Z := m <$> seqZ addr n.

Lemma mem_read_write addr bs m : mem_read addr (Z.of_nat (length bs)) (mem_write addr bs m) = bs.
Proof.
  apply list_eq. intros i. unfold mem_read. rewrite list_lookup_fmap.
  destruct (decide (i < length bs)%nat) as [Hi|Hi].
  - rewrite lookup_seqZ_lt by lia. cbn. unfold mem_write.
    replace (Z.to_nat (addr + Z.of_nat i - addr)) with i by lia.
    destruct (lookup_lt_is_Some_2 bs i Hi) as [b ->]. by rewrite (proj2 (Z.leb_le _ _)) by lia.
  - rewrite lookup_seqZ_ge by lia. cbn. symmetry. apply lookup_ge_None_2. lia.
Qed.

(** What is written behind the part that is read does not matter. *)
Lemma mem_read_write_above addr n addr' bs m :
  addr + n <= addr' -> mem_read addr n (mem_write addr' bs m) = mem_read addr n m.
Proof.
  intros H. apply list_fmap_ext. intros i a [-> Hi]%lookup_seqZ. unfold mem_write.
  destruct (bs !! _); [|done]. by rewrite (proj2 (Z.leb_gt _ _)) by lia.
Qed.

(** Shared state: the lock and the fields of [process_shared_data_t], the
    semaphores, memory, and the messages under way on the rpmsg channel;
    [dropped]: a message of micad's thread was lost because [rpmsg_send] failed. *)
Record shared := Shared {
  sh_lock : bool;
  sh_phy : Z;
  sh_len : Z;
  sh_rcv : Z;
  sh_u2m : nat;
  sh_m2u : nat;
  sh_mem : Z -> Z;
  to_rtos : list (Z * Z);
  to_host : list Z;
  dropped : bool;
}.

(** A user process: where it maps physical memory, its semaphores, its message. *)
Record uenv := Uenv { ue_va : Z; ue_u2m : Z; ue_m2u : Z; ue_data : list Z }.

Definition set_lock (b : bool) (s : shared) : shared :=
  Shared b (sh_phy s) (sh_len s) (sh_rcv s) (sh_u2m s) (sh_m2u s) (sh_mem s) (to_rtos s) (to_host s) (dropped s).
Definition set_field (f : shfield) (v : Z) (s : shared) : shared :=
  match f with
  | PhyAddr => Shared (sh_lock s) v (sh_len s) (sh_rcv s) (sh_u2m s) (sh_m2u s) (sh_mem s) (to_rtos s) (to_host s) (dropped s)
  | DataLen => Shared (sh_lock s) (sh_phy s) v (sh_rcv s) (sh_u2m s) (sh_m2u s) (sh_mem s) (to_rtos s) (to_host s) (dropped s)
  | RcvDataLen => Shared (sh_lock s) (sh_phy s) (sh_len s) v (sh_u2m s) (sh_m2u s) (sh_mem s) (to_rtos s) (to_host s) (dropped s)
  | InstanceId => s
  end.
Definition set_sems (u m : nat) (s : shared) : shared :=
  Shared (sh_lock s) (sh_phy s) (sh_len s) (sh_rcv s) u m (sh_mem s) (to_rtos s) (to_host s) (dropped s).
Definition set_mem (mem : Z -> Z) (s : shared) : shared :=
  Shared (sh_lock s) (sh_phy s) (sh_len s) (sh_rcv s) (sh_u2m s) (sh_m2u s) mem (to_rtos s) (to_host s) (dropped s).
Definition set_chan (r : list (Z * Z)) (h : list Z) (s : shared) : shared :=
  Shared (sh_lock s) (sh_phy s) (sh_len s) (sh_rcv s) (sh_u2m s) (sh_m2u s) (sh_mem s) r h (dropped s).
Definition set_dropped (s : shared) : shared :=
  Shared (sh_lock s) (sh_phy s) (sh_len s) (sh_rcv s) (sh_u2m s) (sh_m2u s) (sh_mem s) (to_rtos s) (to_host s) true.

Definition field (f : shfield) (s : shared) : Z :=
  match f with PhyAddr => sh_phy s | DataLen => sh_len s | RcvDataLen => sh_rcv s | InstanceId => 0 end.

(** The effect of a call on the shared state; [None]: the caller is blocked.  [hu]
    and [hm] are the caller's handles of the two semaphores. *)
Definition effect (hu hm va : Z) (c : ucall) (s : shared) : option shared :=
  match c with
  | SpinLock => if sh_lock s then None else Some (set_lock true s)
  | LockRelease => Some (set_lock false s)
  | WriteField f v => Some (set_field f v s)
  | CopyIn addr d n => Some (set_mem (mem_write (addr - va) (take (Z.to_nat n) d) (sh_mem s)) s)
  | SemPost h =>
      if h =? hu then Some (set_sems (S (sh_u2m s)) (sh_m2u s) s)
      else if h =? hm then Some (set_sems (sh_u2m s) (S (sh_m2u s)) s) else Some s
  | SemWait h =>
      if h =? hu then match sh_u2m s with O => None | S n => Some (set_sems n (sh_m2u s) s) end
      else if h =? hm then match sh_m2u s with O => None | S n => Some (set_sems (sh_u2m s) n s) end
      else Some s
  | _ => Some s
  end.

Section protocol.
(** The copy area the kernel module answers with, the page size, what the client OS
    answers to a message, and the service. *)
Context (raw sz ps : Z) (reply : list Z -> list Z) (svc : umt_service).

(** Where the data goes: the area is mapped from its page boundary on. *)
Definition base : Z := align_down raw ps.
Definition zlen (l : list Z) : Z := Z.of_nat (length l).

(** What the kernel and the shared state answer to a user process. *)
Definition uanswer (e : uenv) (s : shared) (c : ucall) (a : uans) : Prop :=
  match c with
  | Sysconf => u_ret a = ps
  | IoctlCopyMem _ _ => 0 <= u_ret a -> u_phy a = raw /\ u_size a = sz
  | MmapMcs _ _ addr => u64 (u_ret a) = UserMsg.MAP_FAILED \/ u64 (u_ret a) = ue_va e + addr
  | SemOpen name => u_ret a = if strcmp0 name (SEM_USER_TO_MICAD 0) then ue_u2m e else ue_m2u e
  | ReadField f => u_ret a = field f s
  | CopyOut addr n => u_bytes a = mem_read (addr - ue_va e) n (sh_mem s)
  | _ => True
  end.
Definition manswer (s : shared) (c : mcall) (a : uans) : Prop :=
  match c with User (ReadField f) => u_ret a = field f s | _ => True end.
Definition meffect (c : mcall) (s : shared) : option shared :=
  match c with
  | User c => effect (us_sem_user_to_micad svc) (us_sem_micad_to_user svc) 0 c s
  | RpmsgSend p l => Some (set_chan (to_rtos s ++ [(p, l)]) (to_host s) s)
  | _ => Some s
  end.

Abbreviation uprog := (uio (Z * option (list Z * Z))).
Record config := Config {
  users : list (uenv * uprog);
  tx : mio unit;
  rx : option (mio Z);
  sh : shared;
}.

(** One call of one party.  [rpmsg_send] may fail, which micad's thread does not
    notice.  The client OS takes a message, reads the data and puts the answer behind
    the data area; the greeting of [umt_service_init], which has the address 0, it
    takes without an answer. *)
Inductive step : config -> config -> Prop :=
| step_user cfg i e c k a s' :
    users cfg !! i = Some (e, Call c k) ->
    effect (ue_u2m e) (ue_m2u e) (ue_va e) c (sh cfg) = Some s' -> uanswer e (sh cfg) c a ->
    step cfg (Config (<[i := (e, k a)]> (users cfg)) (tx cfg) (rx cfg) s')
| step_tx cfg c k a s' :
    tx cfg = Call c k -> meffect c (sh cfg) = Some s' -> manswer (sh cfg) c a ->
    step cfg (Config (users cfg) (k a) (rx cfg) s')
| step_tx_dropped cfg p l k a :
    tx cfg = Call (RpmsgSend p l) k ->
    step cfg (Config (users cfg) (k a) (rx cfg) (set_dropped (sh cfg)))
| step_rx_start cfg n rest :
    rx cfg = None -> to_host (sh cfg) = n :: rest ->
    step cfg (Config (users cfg) (tx cfg) (Some (rpmsg_rx_umt_callback svc n))
                (set_chan (to_rtos (sh cfg)) rest (sh cfg)))
| step_rx cfg c k a s' :
    rx cfg = Some (Call c k) -> meffect c (sh cfg) = Some s' -> manswer (sh cfg) c a ->
    step cfg (Config (users cfg) (tx cfg) (Some (k a)) s')
| step_rx_end cfg r :
    rx cfg = Some (Ret r) -> step cfg (Config (users cfg) (tx cfg) None (sh cfg))
| step_rtos cfg p l rest :
    to_rtos (sh cfg) = (p, l) :: rest -> p <> 0 ->
    let ans := reply (mem_read p l (sh_mem (sh cfg))) in
    step cfg (Config (users cfg) (tx cfg) (rx cfg)
      (set_chan rest (to_host (sh cfg) ++ [zlen ans])
        (set_mem (mem_write (p + OPENAMP_SHM_COPY_SIZE) ans (sh_mem (sh cfg))) (sh cfg))))
| step_rtos_greeting cfg l rest :
    to_rtos (sh cfg) = (0, l) :: rest ->
    step cfg (Config (users cfg) (tx cfg) (rx cfg) (set_chan rest (to_host (sh cfg)) (sh cfg))).

(** What the code is not prepared for: a [sem_wait] that a signal interrupts, whose
    result neither side looks at, and a client OS that answers the greeting. *)
Inductive fault : config -> config -> Prop :=
| fault_user cfg i e h k a :
    users cfg !! i = Some (e, Call (SemWait h) k) ->
    fault cfg (Config (<[i := (e, k a)]> (users cfg)) (tx cfg) (rx cfg) (sh cfg))
| fault_tx cfg h k a :
    tx cfg = Call (User (SemWait h)) k ->
    fault cfg (Config (users cfg) (k a) (rx cfg) (sh cfg))
| fault_greeting cfg l rest n :
    to_rtos (sh cfg) = (0, l) :: rest ->
    fault cfg (Config (users cfg) (tx cfg) (rx cfg) (set_chan rest (to_host (sh cfg) ++ [n]) (sh cfg))).
Definition any_step (cfg cfg' : config) : Prop := step cfg cfg' \/ fault cfg cfg'.

(** The service is bound, its semaphores are at 0, and its greeting is on the way. *)
Definition initial (envs : list uenv) (fuel : nat) (mem : Z -> Z) : config :=
  Config ((fun e => (e, send_data_to_rtos_and_wait_rcv (ue_data e) (zlen (ue_data e)) 0)) <$> envs)
    (rpmsg_umt_tx_task fuel svc) None (Shared false 0 0 0 0 0 mem [(0, 32)] [] false).

(** *** The conversations the programs follow *)

Inductive uphase := UOut | ULocked | UCopied | UPhy | UReady | UPosted | UWoken | UDone.
Inductive tphase := TWait | TGot | TPhy (p : Z) | TLen (p l : Z).
Inductive rphase := RIdle | RSet (n : Z) | RPost | REnd.

(** A call without effect on the shared state and whose answer does not depend on it. *)
Definition uprivate (c : ucall) : bool :=
  match c with
  | SpinLock | LockRelease | WriteField _ _ | CopyIn _ _ _ | CopyOut _ _ | SemPost _ | SemWait _ => false
  | ReadField InstanceId => true
  | ReadField _ => false
  | _ => true
  end.

(** [p] follows the conversation of a user process from [ph] on. *)
Fixpoint uok (e : uenv) (ph : uphase) (p : uprog) : Prop :=
  match p with
  | Ret (ret, rcv) =>
      match ph with
      | UOut | ULocked => ret = -1 /\ rcv = None
      | UDone => ret = 0 /\ rcv = Some (reply (ue_data e), zlen (reply (ue_data e)))
      | _ => False
      end
  | Call c k =>
      match ph, c with
      | UOut, SpinLock => forall a, uok e ULocked (k a)
      | ULocked, CopyIn addr d n =>
          addr - ue_va e = base /\ d = ue_data e /\ n = zlen d /\ forall a, uok e UCopied (k a)
      | UCopied, WriteField PhyAddr v => v = base /\ forall a, uok e UPhy (k a)
      | UPhy, WriteField DataLen v => v = zlen (ue_data e) /\ forall a, uok e UReady (k a)
      | UReady, SemPost h => h = ue_u2m e /\ forall a, uok e UPosted (k a)
      | UPosted, SemWait h => h = ue_m2u e /\ forall a, uok e UWoken (k a)
      | UWoken, ReadField RcvDataLen =>
          forall a, u_ret a = zlen (reply (ue_data e)) -> uok e UWoken (k a)
      | UWoken, CopyOut addr n =>
          addr - ue_va e = base + OPENAMP_SHM_COPY_SIZE /\ n = zlen (reply (ue_data e)) /\
          forall a, u_bytes a = reply (ue_data e) -> uok e UWoken (k a)
      | UWoken, LockRelease => forall a, uok e UDone (k a)
      | _, _ => uprivate c = true /\ forall s a, uanswer e s c a -> uok e ph (k a)
      end
  end.

Definition mprivate (c : mcall) : bool :=
  match c with User _ | RpmsgSend _ _ => false | _ => true end.
Fixpoint tok (ph : tphase) (p : mio unit) : Prop :=
  match p with
  | Ret _ => ph = TWait
  | Call c k =>
      match ph, c with
      | TWait, User (SemWait h) => h = us_sem_user_to_micad svc /\ forall a, tok TGot (k a)
      | TGot, User (ReadField PhyAddr) => forall a, tok (TPhy (u_ret a)) (k a)
      | TPhy p, User (ReadField DataLen) => forall a, tok (TLen p (u_ret a)) (k a)
      | TLen p l, RpmsgSend p' l' => p' = p /\ l' = l /\ forall a, tok TWait (k a)
      | TWait, c => mprivate c = true /\ forall a, tok TWait (k a)
      | _, _ => False
      end
  end.
Fixpoint rok (ph : rphase) (p : mio Z) : Prop :=
  match p with
  | Ret _ => ph = REnd
  | Call c k =>
      match ph, c with
      | RSet n, User (WriteField RcvDataLen v) => v = n /\ forall a, rok RPost (k a)
      | RPost, User (SemPost h) => h = us_sem_micad_to_user svc /\ forall a, rok REnd (k a)
      | _, _ => False
      end
  end.
Definition rxok (ph : rphase) (p : option (mio Z)) : Prop :=
  match p with None => ph = RIdle | Some p => ph <> RIdle /\ rok ph p end.

(** *** The programs conform *)

(** A piece of program with private calls only, and its results. *)
Fixpoint pwp {R} (e : uenv) (p : uio R) (Q : R -> Prop) : Prop :=
  match p with
  | Ret r => Q r
  | Call c k => uprivate c = true /\ forall s a, uanswer e s c a -> pwp e (k a) Q
  end.

Lemma uok_private e ph c k :
  uprivate c = true -> (forall s a, uanswer e s c a -> uok e ph (k a)) -> uok e ph (Call c k).
Proof. intros Hc Hk. destruct ph, c as [| | | | | | | | | | | | |[]|[]| | | |]; cbn; done. Qed.

Lemma uok_bind {R} e ph (p : uio R) (f : R -> uprog) Q :
  pwp e p Q -> (forall r, Q r -> uok e ph (f r)) -> uok e ph (bind p f).
Proof.
  intros Hp Hf. induction p as [r|c k IH]; cbn [bind]; [by apply Hf|].
  destruct Hp as [Hc Hk]. apply uok_private; [done|]. intros s a Ha. by eapply IH, Hk.
Qed.

Record env_ok (e : uenv) : Prop := EnvOk {
  eo_u2m : ue_u2m e <> SEM_FAILED;
  eo_m2u : ue_m2u e <> SEM_FAILED;
  eo_sems : ue_u2m e <> ue_m2u e;
  eo_data : zlen (ue_data e) <= OPENAMP_SHM_COPY_SIZE;
  eo_reply : zlen (reply (ue_data e)) <= OPENAMP_SHM_COPY_SIZE;
  eo_base : base <> 0;
  eo_va : 0 <= ue_va e + base;
  eo_va_max : ue_va e + base + OPENAMP_SHM_COPY_SIZE < 2 ^ 64;
}.

Lemma init_process_shared_memory_pwp e : pwp e (init_process_shared_memory 0) (fun _ => True).
Proof.
  unfold init_process_shared_memory. cbn. split; [done|]. intros _ f _. case_match; [done|].
  cbn. split; [done|]. intros _ t _. case_match; cbn; [done|]. split; [done|]. by intros.
Qed.

Lemma create_sem_pwp e :
  env_ok e -> pwp e (create_sem 0) (fun r => r = (0, ue_u2m e, ue_m2u e)).
Proof.
  intros [Hu Hm _ _ _ _ _ _]. unfold create_sem. cbn [bind call pwp]. split; [done|]. intros s0 a Ha.
  assert (u_ret a = ue_u2m e) as -> by exact Ha. rewrite (proj2 (Z.eqb_neq _ _)) by done.
  cbn [bind call pwp]. split; [done|]. intros s1 b Hb.
  assert (u_ret b = ue_m2u e) as -> by exact Hb. by rewrite (proj2 (Z.eqb_neq _ _)) by done.
Qed.

Lemma init_core_shared_memory_pwp e info :
  pwp e (init_core_shared_memory info)
    (fun r => r.1 <> 0 \/ r.1 = 0 /\ ci_phy_addr r.2 = base /\ ci_vir_addr r.2 = ue_va e + base).
Proof.
  unfold init_core_shared_memory. cbn [bind call pwp]. split; [done|]. intros _ f _. case_match; [by left|].
  cbn [bind call pwp]. split; [done|]. intros s0 r Hr. case_match; [cbn; split; [done|]; intros; by left|].
  bool_to_Prop. destruct (Hr ltac:(done)) as [-> ->]. cbn [bind call pwp]. split; [done|]. intros s1 s Hs.
  cbn in Hs. rewrite Hs. split; [done|]. intros s2 m Hm. cbn in Hm. case_match.
  - cbn. split; [done|]. intros. by left.
  - cbn. right. bool_to_Prop. destruct Hm as [?|Hm]; done.
Qed.

Lemma zlen_nonneg l : 0 <= zlen l.
Proof. unfold zlen. lia. Qed.

Lemma send_data_uok e :
  env_ok e -> uok e UOut (send_data_to_rtos_and_wait_rcv (ue_data e) (zlen (ue_data e)) 0).
Proof.
  intros He. pose proof He as [Hu Hm Hum Hd Hr _ Hva Hmax]. unfold send_data_to_rtos_and_wait_rcv.
  pose proof (zlen_nonneg (ue_data e)). pose proof (zlen_nonneg (reply (ue_data e))).
  assert (OPENAMP_SHM_COPY_SIZE < 2 ^ 64) by done.
  rewrite (proj2 (Z.ltb_ge _ _)) by done.
  eapply uok_bind; [apply init_process_shared_memory_pwp|]. intros [shm|] _; [|done].
  apply uok_private; [done|]. intros s i Hi. cbn in Hi. rewrite Hi. cbn [Z.eqb negb].
  eapply uok_bind; [by apply create_sem_pwp|]. intros ? ->.
  cbn [bind call uok]. intros _. eapply uok_bind; [apply init_core_shared_memory_pwp|].
  intros [ret info] [Hret|(E & Hphy & Hvir)]; cbn [fst snd] in *; [|subst ret].
  { rewrite (proj2 (Z.eqb_neq _ _)) by done. cbn [negb bind call].
    apply uok_private; [done|]. intros. case_match; [apply uok_private; [done|]; by intros|done]. }
  cbn [Z.eqb negb]. rewrite Hphy, Hvir.
  cbn [bind call uok]. split_and!; [lia|done|apply wrapu_small; lia|]. intros _.
  split; [done|]. intros _. split; [done|]. intros _. split; [done|]. intros _. split; [done|]. intros _ n Hn.
  rewrite Hn. rewrite (wrapu_small 64 (_ + _)) by (unfold OPENAMP_SHM_COPY_SIZE in *; lia).
  rewrite (wrapu_small 64 (zlen _)) by lia. split_and!; [lia|done|]. intros b Hb m Hm'.
  split; [done|]. intros _ c1 _. split; [done|]. intros _ c2 _ _.
  split; [done|]. intros _ c3 _. rewrite Hb, Hm'.
  case_match; [cbn; split; [done|]; by intros|done].
Qed.

Lemma umt_tx_tok fuel : tok TWait (rpmsg_umt_tx_task fuel svc).
Proof.
  unfold rpmsg_umt_tx_task. cbn. split; [done|]. intros _. induction fuel as [|fuel IH]; cbn; [done|].
  split; [done|]. intros a. case_match; cbn; [by repeat split; intros; repeat split|].
  split; [done|]. intros _ p l. split_and!; [done..|]. by intros _.
Qed.
Lemma umt_rx_rok n : rok (RSet n) (rpmsg_rx_umt_callback svc n).
Proof. cbn. split; [done|]. intros _. by split; [|intros]. Qed.

(** *** The invariant *)

(** The messages of users on the way to the client OS. *)
Definition user_msgs (s : shared) : list (Z * Z) := filter (fun m : Z * Z => m.1 <> 0) (to_rtos s).

Definition outside (ph : uphase) : Prop := ph = UOut \/ ph = UDone.
(** Nothing is under way; the callback may still have to return. *)
Definition quiet (t : tphase) (r : rphase) (s : shared) : Prop :=
  t = TWait /\ (r = RIdle \/ r = REnd) /\
  sh_u2m s = 0%nat /\ sh_m2u s = 0%nat /\ user_msgs s = [] /\ to_host s = [].
Definition has_data (d : list Z) (s : shared) : Prop := mem_read base (zlen d) (sh_mem s) = d.
Definition has_reply (d : list Z) (s : shared) : Prop :=
  mem_read (base + OPENAMP_SHM_COPY_SIZE) (zlen (reply d)) (sh_mem s) = reply d.
Definition request (d : list Z) (s : shared) : Prop := has_data d s /\ sh_phy s = base /\ sh_len s = zlen d.

(** The way of one message, from the user's post to the user's wake-up. *)
Inductive posted (d : list Z) : tphase -> rphase -> shared -> Prop :=
| posted_sem r s : r = RIdle \/ r = REnd ->
    sh_u2m s = 1%nat -> sh_m2u s = 0%nat -> user_msgs s = [] -> to_host s = [] -> request d s -> posted d TWait r s
| posted_tx t r s : r = RIdle \/ r = REnd -> t = TGot \/ t = TPhy base \/ t = TLen base (zlen d) ->
    sh_u2m s = 0%nat -> sh_m2u s = 0%nat -> user_msgs s = [] -> to_host s = [] -> request d s -> posted d t r s
| posted_rtos r s : r = RIdle \/ r = REnd ->
    sh_u2m s = 0%nat -> sh_m2u s = 0%nat -> user_msgs s = [(base, zlen d)] -> to_host s = [] -> request d s ->
    posted d TWait r s
| posted_host r s : r = RIdle \/ r = REnd ->
    sh_u2m s = 0%nat -> sh_m2u s = 0%nat -> user_msgs s = [] -> to_host s = [zlen (reply d)] -> has_reply d s ->
    posted d TWait r s
| posted_rx s : sh_u2m s = 0%nat -> sh_m2u s = 0%nat -> user_msgs s = [] -> to_host s = [] -> has_reply d s ->
    posted d TWait (RSet (zlen (reply d))) s
| posted_rx' s : sh_u2m s = 0%nat -> sh_m2u s = 0%nat -> user_msgs s = [] -> to_host s = [] -> has_reply d s ->
    sh_rcv s = zlen (reply d) -> posted d TWait RPost s
| posted_back r s : r = RIdle \/ r = REnd ->
    sh_u2m s = 0%nat -> sh_m2u s = 1%nat -> user_msgs s = [] -> to_host s = [] -> has_reply d s ->
    sh_rcv s = zlen (reply d) -> posted d TWait r s
| posted_lost r s : r = RIdle \/ r = REnd ->
    sh_u2m s = 0%nat -> sh_m2u s = 0%nat -> user_msgs s = [] -> to_host s = [] -> dropped s = true ->
    posted d TWait r s.

Definition phase_ok (ph : uphase) (d : list Z) (t : tphase) (r : rphase) (s : shared) : Prop :=
  match ph with
  | ULocked => quiet t r s
  | UCopied => quiet t r s /\ has_data d s
  | UPhy => quiet t r s /\ has_data d s /\ sh_phy s = base
  | UReady => quiet t r s /\ request d s
  | UPosted => posted d t r s
  | UWoken => quiet t r s /\ has_reply d s /\ sh_rcv s = zlen (reply d)
  | UOut | UDone => False
  end.

Lemma uok_private_inv e ph c k s a :
  uok e ph (Call c k) -> uprivate c = true -> uanswer e s c a -> uok e ph (k a).
Proof.
  intros Hu Hc Ha. destruct ph, c as [| | | | | | | | | | | | |[]|[]| | | |]; cbn in Hu, Hc; try done; by eapply Hu.
Qed.
Lemma effect_private hu hm va c s : uprivate c = true -> effect hu hm va c s = Some s.
Proof. by destruct c as [| | | | | | | | | | | | |[]|[]| | | |]. Qed.

(** A step of the process that holds the lock. *)
Lemma holder_step e ph c k t r s a s' :
  env_ok e -> uok e ph (Call c k) -> phase_ok ph (ue_data e) t r s ->
  effect (ue_u2m e) (ue_m2u e) (ue_va e) c s = Some s' -> uanswer e s c a ->
  exists ph', uok e ph' (k a) /\
    (phase_ok ph' (ue_data e) t r s' /\ sh_lock s' = sh_lock s \/ ph' = UDone /\ quiet t r s' /\ sh_lock s' = false).
Proof.
  intros He Hu Hp Hs Ha. destruct (uprivate c) eqn:Hc.
  { rewrite effect_private in Hs by done. simplify_eq. exists ph. split; [by eapply uok_private_inv|]. by left. }
  destruct ph; [done|..|done];
    destruct c as [| | | | | | | | | | | | |[]|[]| | | |]; cbn in Hc, Hu; try done; try (by destruct Hu).
  - destruct Hu as (Hb & -> & -> & Hk). exists UCopied. split; [done|]. left. cbn in Hs. simplify_eq.
    split; [|done]. split; [done|]. unfold has_data. cbn. rewrite Hb. unfold zlen at 2.
    rewrite Nat2Z.id, firstn_all. apply mem_read_write.
  - destruct Hu as [-> Hk]. exists UPhy. cbn in Hs. simplify_eq. split; [done|]. left. by destruct Hp.
  - destruct Hu as [-> Hk]. exists UReady. cbn in Hs. simplify_eq. split; [done|]. left.
    by destruct Hp as (? & ? & ?).
  - destruct Hu as [-> Hk]. exists UPosted. cbn in Hs. rewrite Z.eqb_refl in Hs. simplify_eq. split; [done|].
    left. split; [|done]. destruct Hp as [(-> & Hr & Hu & Hm & Hto & Hho) Hq]. cbn. apply posted_sem; cbn; try done. lia.
  - destruct Hu as [-> Hk]. exists UWoken. split; [done|]. cbn in Hs.
    pose proof (eo_sems e He) as Hne. rewrite (proj2 (Z.eqb_neq _ _)), Z.eqb_refl in Hs by done.
    left. destruct Hp; match goal with H : sh_m2u _ = _ |- _ => rewrite H in Hs end; try done.
    simplify_eq. by repeat split.
  - exists UDone. split; [done|]. right. cbn in Hs. simplify_eq. split; [done|]. split; [|done]. apply Hp.
  - exists UWoken. split; [|left; cbn in Hs; by simplify_eq]. apply Hu. rewrite Ha. by apply Hp.
  - destruct Hu as (Hb & -> & Hk). exists UWoken. split; [|left; cbn in Hs; by simplify_eq].
    apply Hk. rewrite Ha, Hb. by apply Hp.
Qed.

(** A step of a process outside of the lock. *)
Lemma outside_step e ph c k s a s' :
  outside ph -> uok e ph (Call c k) ->
  effect (ue_u2m e) (ue_m2u e) (ue_va e) c s = Some s' -> uanswer e s c a ->
  uok e ph (k a) /\ s' = s \/ uok e ULocked (k a) /\ sh_lock s = false /\ s' = set_lock true s.
Proof.
  intros Ho Hu Hs Ha. destruct (uprivate c) eqn:Hc.
  { rewrite effect_private in Hs by done. simplify_eq. left. split; [by eapply uok_private_inv|done]. }
  destruct Ho as [-> | ->]; destruct c as [| | | | | | | | | | | | |[]|[]| | | |]; cbn in Hc, Hu; try done; try (by destruct Hu).
  right. split; [done|]. cbn in Hs. destruct (sh_lock s); by simplify_eq.
Qed.

(** Steps of micad and of the client OS, while a message is under way or not. *)
Lemma tx_step_quiet c k t r s a s' :
  tok t (Call c k) -> quiet t r s -> meffect c s = Some s' -> tok TWait (k a) /\ s' = s.
Proof.
  intros Ht (-> & _ & Hu & _) Hs.
  destruct c as [[]| | | | | | | | | | | | | | | | | |]; cbn in Ht, Hs; try (by destruct Ht); try (by destruct Ht; simplify_eq).
  destruct Ht as [-> Hk]. rewrite Z.eqb_refl, Hu in Hs. done.
Qed.

Lemma posted_tx_inv d t r s :
  posted d t r s -> t <> TWait ->
  (r = RIdle \/ r = REnd) /\ (t = TGot \/ t = TPhy base \/ t = TLen base (zlen d)) /\
  (sh_u2m s = 0%nat /\ sh_m2u s = 0%nat /\ user_msgs s = [] /\ to_host s = []) /\ request d s.
Proof. destruct 1; done. Qed.

(** The thread's message is lost: its user stays in the wait. *)
Lemma tx_drop_posted d p l k t r s a :
  tok t (Call (RpmsgSend p l) k) -> posted d t r s -> tok TWait (k a) /\ posted d TWait r (set_dropped s).
Proof.
  intros Ht Hp. destruct t as [| |q|q n]; cbn in Ht; [by destruct Ht|done|done|]. destruct Ht as (-> & -> & Hk).
  destruct (posted_tx_inv _ _ _ _ Hp ltac:(done)) as (Hr & _ & (? & ? & ? & ?) & _).
  split; [done|]. by apply posted_lost.
Qed.

Lemma user_msgs_send s p l h : p <> 0 -> user_msgs (set_chan (to_rtos s ++ [(p, l)]) h s) = user_msgs s ++ [(p, l)].
Proof. intros Hp. unfold user_msgs. cbn. rewrite filter_app. f_equal. by rewrite filter_cons_True. Qed.

Lemma tx_step_posted d c k t r s a s' :
  base <> 0 -> tok t (Call c k) -> posted d t r s -> meffect c s = Some s' -> manswer s c a ->
  exists t', tok t' (k a) /\ posted d t' r s' /\ sh_lock s' = sh_lock s.
Proof.
  intros Hbase Ht Hp Hs Ha.
  destruct (mprivate c) eqn:Hc.
  { assert (s' = s /\ t = TWait /\ tok TWait (k a)) as (-> & -> & Hk).
    { destruct c as [[]| | | | | | | | | | | | | | | | | |], t; cbn in *; try done; simplify_eq; naive_solver. }
    by exists TWait. }
  destruct c as [c| | | | | | | | | | | | | | | | | |]; try done.
  - destruct t as [| |p|p l].
    + destruct c; cbn in Ht; try (by destruct Ht). destruct Ht as [-> Hk]. cbn in Hs. rewrite Z.eqb_refl in Hs.
      exists TGot. destruct Hp; match goal with H : sh_u2m _ = _ |- _ => rewrite H in Hs end; try done; try naive_solver.
      simplify_eq. split; [done|]. split; [|done]. apply posted_tx; try done. by left.
    + destruct (posted_tx_inv _ _ _ _ Hp ltac:(done)) as (Hr & _ & (? & ? & ? & ?) & Hq).
      destruct c as [| | | | | | | | | | | | |[]|[]| | | |]; cbn in Ht; try done.
      cbn in Hs, Ha. simplify_eq. exists (TPhy (u_ret a)). split; [done|]. split; [|done].
      apply posted_tx; try done. right. left. f_equal. rewrite Ha. apply Hq.
    + destruct (posted_tx_inv _ _ _ _ Hp ltac:(done)) as (Hr & Hph & (? & ? & ? & ?) & Hq).
      destruct c as [| | | | | | | | | | | | |[]|[]| | | |]; cbn in Ht; try done.
      cbn in Hs, Ha. simplify_eq. exists (TLen p (u_ret a)). split; [done|]. split; [|done].
      apply posted_tx; try done. right. right. f_equal; [naive_solver|]. rewrite Ha. apply Hq.
    + by destruct c as [| | | | | | | | | | | | |[]|[]| | | |]; cbn in Ht.
  - destruct t as [| |p|p l]; cbn in Ht; [by destruct Ht|done|done|]. destruct Ht as (-> & -> & Hk).
    destruct (posted_tx_inv _ _ _ _ Hp ltac:(done)) as (Hr & Hph & (? & ? & Hto & ?) & Hq).
    assert (p = base /\ l = zlen d) as [-> ->] by naive_solver.
    cbn in Hs. simplify_eq. exists TWait. split; [done|]. split; [|done].
    apply posted_rtos; try done. by rewrite user_msgs_send, Hto.
Qed.

Lemma rx_step_posted d c k t r s a s' :
  us_sem_user_to_micad svc <> us_sem_micad_to_user svc ->
  rok r (Call c k) -> posted d t r s -> meffect c s = Some s' ->
  exists r', r' <> RIdle /\ rok r' (k a) /\ posted d t r' s' /\ sh_lock s' = sh_lock s.
Proof.
  intros Hne Hr Hp Hs. destruct r as [|n| |]; cbn in Hr; try done.
  - destruct c as [c| | | | | | | | | | | | | | | | | |]; try done.
    destruct c as [| | | | | | | | | | | | |[]|[]| | | |]; try done.
    destruct Hr as [-> Hk]. cbn in Hs. simplify_eq. exists RPost. split_and!; try done.
    inversion Hp; subst; try naive_solver. by apply posted_rx'.
  - destruct c as [c| | | | | | | | | | | | | | | | | |]; try done. destruct c; try done.
    destruct Hr as [-> Hk]. cbn in Hs. rewrite (proj2 (Z.eqb_neq _ _)), Z.eqb_refl in Hs by done.
    simplify_eq. exists REnd. split_and!; try done.
    inversion Hp; subst; try naive_solver. apply posted_back; cbn; try done; [by right|lia].
Qed.

Lemma rx_start_posted d n rest t s :
  posted d t RIdle s -> to_host s = n :: rest -> posted d t (RSet n) (set_chan (to_rtos s) rest s).
Proof.
  intros Hp Hn. inversion Hp; subst; try congruence.
  assert (n = zlen (reply d) /\ rest = []) as [-> ->] by (split; congruence). by apply posted_rx.
Qed.

Lemma rx_end_posted d t s : posted d t REnd s -> posted d t RIdle s.
Proof.
  intros Hp. inversion Hp; subst;
    [apply posted_sem|apply posted_tx|apply posted_rtos|apply posted_host|apply posted_back|apply posted_lost];
    try done; by left.
Qed.

Lemma rtos_posted d p l rest t r s :
  posted d t r s -> to_rtos s = (p, l) :: rest -> p <> 0 ->
  let ans := reply (mem_read p l (sh_mem s)) in
  posted d t r (set_chan rest (to_host s ++ [zlen ans])
    (set_mem (mem_write (p + OPENAMP_SHM_COPY_SIZE) ans (sh_mem s)) s)).
Proof.
  intros Hp Hto Hne. assert (user_msgs s = (p, l) :: filter (fun m : Z * Z => m.1 <> 0) rest) as Hum
    by (unfold user_msgs; rewrite Hto; by rewrite filter_cons_True).
  destruct Hp as [r s|t r s|r s Hr Hu Hm Hto' Hho Hq|r s|s|s|r s|r s]; try congruence.
  rewrite Hto' in Hum. simplify_eq. destruct Hq as (Hd & _). rewrite Hd. cbn zeta.
  apply posted_host; cbn; try done; [by rewrite Hho|]. apply mem_read_write.
Qed.

(** The greeting concerns no user. *)
Lemma user_msgs_greeting s l rest h :
  to_rtos s = (0, l) :: rest -> user_msgs (set_chan rest h s) = user_msgs s.
Proof. intros E. unfold user_msgs. rewrite E, filter_cons_False; [done|]. cbn. lia. Qed.

Lemma phase_greeting ph d t r s l rest :
  to_rtos s = (0, l) :: rest -> phase_ok ph d t r s -> phase_ok ph d t r (set_chan rest (to_host s) s).
Proof.
  intros E. pose proof (user_msgs_greeting s l rest (to_host s) E) as Hum.
  destruct ph; cbn; unfold quiet; rewrite ?Hum; try done.
  destruct 1; [apply posted_sem|apply posted_tx|apply posted_rtos|apply posted_host|apply posted_rx
              |apply posted_rx'|apply posted_back|apply posted_lost]; rewrite ?Hum; done.
Qed.

Lemma phase_cases ph d t r s :
  phase_ok ph d t r s ->
  ph = UPosted /\ posted d t r s \/
  quiet t r s /\ forall r', r' = RIdle \/ r' = REnd -> phase_ok ph d TWait r' s.
Proof.
  destruct ph; cbn; try done; [..|by left|]; unfold quiet; intros H; right; naive_solver.
Qed.

Definition umt_inv (cfg : config) : Prop :=
  exists (ph : nat -> uphase) t r,
    (forall i e p, users cfg !! i = Some (e, p) -> env_ok e /\ uok e (ph i) p) /\
    tok t (tx cfg) /\ rxok r (rx cfg) /\
    (sh_lock (sh cfg) = false /\ quiet t r (sh cfg) /\
       (forall i ep, users cfg !! i = Some ep -> outside (ph i)) \/
     exists i e p, users cfg !! i = Some (e, p) /\ sh_lock (sh cfg) = true /\
       phase_ok (ph i) (ue_data e) t r (sh cfg) /\
       forall j ep, users cfg !! j = Some ep -> j <> i -> outside (ph j)).

(** A step of micad or of the client OS. *)
Lemma env_step_inv cfg tx' rx' s' :
  umt_inv cfg ->
  (forall t r, tok t (tx cfg) -> rxok r (rx cfg) -> quiet t r (sh cfg) ->
     exists r', (r' = RIdle \/ r' = REnd) /\ tok TWait tx' /\ rxok r' rx' /\ s' = sh cfg) ->
  (forall d t r, base <> 0 -> tok t (tx cfg) -> rxok r (rx cfg) -> posted d t r (sh cfg) ->
     exists t' r', tok t' tx' /\ rxok r' rx' /\ posted d t' r' s' /\ sh_lock s' = sh_lock (sh cfg)) ->
  umt_inv (Config (users cfg) tx' rx' s').
Proof.
  intros (ph & t & r & Hu & Ht & Hr & Hcase) Hq Hp.
  destruct Hcase as [(Hl & Hquiet & Hout)|(i & e & p & Hi & Hl & Hph & Hout)].
  - destruct (Hq t r Ht Hr Hquiet) as (r' & Hr' & Ht' & Hrx' & ->). exists ph, TWait, r'.
    split_and!; try done. left. split_and!; try done. unfold quiet in *. naive_solver.
  - destruct (phase_cases _ _ _ _ _ Hph) as [[Epo Hpo]|[Hquiet Hk]].
    + destruct (Hu i e p Hi) as [[_ _ _ _ _ Hbase _ _] _].
      destruct (Hp _ t r Hbase Ht Hr Hpo) as (t' & r' & Ht' & Hrx' & Hpo' & Hl'). exists ph, t', r'.
      split_and!; try done. right. exists i, e, p. split_and!; try done; [cbn; by rewrite Hl'|]. by rewrite Epo.
    + destruct (Hq t r Ht Hr Hquiet) as (r' & Hr' & Ht' & Hrx' & ->). exists ph, TWait, r'.
      split_and!; try done. right. exists i, e, p. split_and!; try done. by apply Hk.
Qed.

Lemma greeting_inv cfg l rest :
  to_rtos (sh cfg) = (0, l) :: rest -> umt_inv cfg ->
  umt_inv (Config (users cfg) (tx cfg) (rx cfg) (set_chan rest (to_host (sh cfg)) (sh cfg))).
Proof.
  intros E (ph & t & r & Hu & Ht & Hr & Hcase). exists ph, t, r. split_and!; try done.
  destruct Hcase as [(Hl & Hq & Hout)|(i & e & p & Hi & Hl & Hph & Hout)].
  - left. split_and!; try done. by apply (phase_greeting ULocked [] t r (sh cfg) l rest).
  - right. exists i, e, p. split_and!; try done. by eapply phase_greeting.
Qed.

Definition set_phase (ph : nat -> uphase) (i : nat) (x : uphase) : nat -> uphase :=
  fun j => if decide (j = i) then x else ph j.
Lemma set_phase_eq ph i x : set_phase ph i x i = x.
Proof. unfold set_phase. by rewrite decide_True. Qed.
Lemma set_phase_ne ph i x j : j <> i -> set_phase ph i x j = ph j.
Proof. intros. unfold set_phase. by rewrite decide_False. Qed.

(** A step of a user process. *)
Lemma user_step_inv cfg i e c k a s' :
  umt_inv cfg -> users cfg !! i = Some (e, Call c k) ->
  effect (ue_u2m e) (ue_m2u e) (ue_va e) c (sh cfg) = Some s' -> uanswer e (sh cfg) c a ->
  umt_inv (Config (<[i := (e, k a)]> (users cfg)) (tx cfg) (rx cfg) s').
Proof.
  intros (ph & t & r & Hu & Ht & Hr & Hcase) Hi Hs Ha. destruct (Hu i e _ Hi) as [He Hok].
  assert (forall x, uok e x (k a) -> forall j e' p',
    <[i := (e, k a)]> (users cfg) !! j = Some (e', p') -> env_ok e' /\ uok e' (set_phase ph i x j) p') as Husers.
  { intros x Hx j e' p' Hj. destruct (decide (j = i)) as [->|Hne].
    - rewrite list_lookup_insert_eq in Hj by (by eapply lookup_lt_Some). simplify_eq. by rewrite set_phase_eq.
    - rewrite list_lookup_insert_ne in Hj by done. rewrite set_phase_ne by done. by apply Hu. }
  assert (forall x j ep, <[i := (e, k a)]> (users cfg) !! j = Some ep -> j <> i ->
    (forall ep', users cfg !! j = Some ep' -> outside (ph j)) -> outside (set_phase ph i x j)) as Hother.
  { intros x j ep Hj Hne Ho. rewrite list_lookup_insert_ne in Hj by done. rewrite set_phase_ne by done. by eapply Ho. }
  assert (<[i := (e, k a)]> (users cfg) !! i = Some (e, k a)) as Hself
    by (apply list_lookup_insert_eq; by eapply lookup_lt_Some).
  destruct Hcase as [(Hl & Hq & Hout)|(h & eh & p & Hh & Hl & Hph & Hout)].
  - destruct (outside_step e (ph i) c k (sh cfg) a s') as [[Hk ->]|(Hk & _ & ->)]; try done; [by eapply Hout|..].
    + exists (set_phase ph i (ph i)), t, r. split_and!; try done; [by apply Husers|]. left. split_and!; try done.
      intros j ep Hj. destruct (decide (j = i)) as [->|]; [rewrite set_phase_eq; by eapply Hout|].
      eapply Hother; [done..|]. intros ep' Hj'. by eapply Hout.
    + exists (set_phase ph i ULocked), t, r. split_and!; try done; [by apply Husers|]. right.
      exists i, e, (k a). split_and!; try done; [by rewrite set_phase_eq|]. intros j ep Hj Hne.
      eapply Hother; [done..|]. intros ep' Hj'. by eapply Hout.
  - destruct (decide (i = h)) as [->|Hne].
    + assert (eh = e) as -> by congruence.
      destruct (holder_step e (ph h) c k t r (sh cfg) a s') as (x & Hx & Hcase); try done.
      exists (set_phase ph h x), t, r. split_and!; try done; [by apply Husers|].
      destruct Hcase as [[Hph' Hl']|(-> & Hq & Hl')].
      * right. exists h, e, (k a). split_and!; try done; [cbn; congruence|by rewrite set_phase_eq|].
        intros j ep Hj Hne. eapply Hother; [done..|]. intros ep' Hj'. by eapply Hout.
      * left. split_and!; try done. intros j ep Hj. destruct (decide (j = h)) as [->|]; [by rewrite set_phase_eq; right|].
        eapply Hother; [done..|]. intros ep' Hj'. by eapply Hout.
    + destruct (outside_step e (ph i) c k (sh cfg) a s') as [[Hk ->]|(_ & Hl' & _)]; try done; [by eapply Hout| |congruence].
      exists (set_phase ph i (ph i)), t, r. split_and!; try done; [by apply Husers|]. right.
      exists h, eh, p. split_and!; try done.
      * cbn. by rewrite list_lookup_insert_ne.
      * rewrite set_phase_ne by done. done.
      * intros j ep Hj Hjh. destruct (decide (j = i)) as [->|]; [rewrite set_phase_eq; by eapply Hout|].
        eapply Hother; [done..|]. intros ep' Hj'. by eapply Hout.
Qed.

Lemma step_inv cfg cfg' :
  us_sem_user_to_micad svc <> us_sem_micad_to_user svc -> umt_inv cfg -> step cfg cfg' -> umt_inv cfg'.
Proof.
  intros Hne Hinv Hstep.
  destruct Hstep as [cfg i e c k a s' Hi Hs Ha|cfg c k a s' Htx Hs Ha|cfg p l k a Htx|cfg n rest Hrx Hho
    |cfg c k a s' Hrx Hs Ha|cfg z Hrx|cfg p l rest Hto Hp0 ans|cfg l rest Hto].
  - by eapply user_step_inv.
  - apply env_step_inv; [done|..]; rewrite Htx.
    + intros t r Ht Hr Hq. destruct (tx_step_quiet _ _ _ _ _ a _ Ht Hq Hs) as [Hk ->].
      exists r. split_and!; try done. apply Hq.
    + intros d t r Hb Ht Hr Hp. destruct (tx_step_posted _ _ _ _ _ _ _ _ Hb Ht Hp Hs Ha) as (t' & ? & ? & ?).
      by exists t', r.
  - apply env_step_inv; [done|..]; rewrite Htx.
    + intros t r Ht Hr (-> & _). by destruct Ht.
    + intros d t r _ Ht Hr Hp. destruct (tx_drop_posted _ _ _ _ _ _ _ a Ht Hp). by exists TWait, r.
  - apply env_step_inv; [done|..]; rewrite Hrx.
    + intros t r _ _ (_ & _ & _ & _ & _ & Hho'). congruence.
    + intros d t r _ Ht -> Hp. exists t, (RSet n). split_and!; try done. by apply rx_start_posted.
  - apply env_step_inv; [done|..]; rewrite Hrx.
    + intros t r _ [Hr1 Hr2] (_ & [->| ->] & _); [done|]. by cbn in Hr2.
    + intros d t r _ Ht [Hr1 Hr2] Hp. destruct (rx_step_posted d c k t r _ a s' Hne Hr2 Hp Hs) as (r' & ? & ? & ? & ?).
      by exists t, r'.
  - apply env_step_inv; [done|..]; rewrite Hrx.
    + intros t r Ht _ Hq. exists RIdle. split_and!; try done; [by left|]. by destruct Hq as [<- _].
    + intros d t r _ Ht [_ Hr2] Hp. cbn in Hr2. subst r. exists t, RIdle. split_and!; try done. by apply rx_end_posted.
  - apply env_step_inv; [done|..].
    + intros t r _ _ (_ & _ & _ & _ & Hto' & _). unfold user_msgs in Hto'. rewrite Hto in Hto'.
      by rewrite filter_cons_True in Hto'.
    + intros d t r _ Ht Hr Hp. exists t, r. split_and!; try done. by apply rtos_posted.
  - by eapply greeting_inv.
Qed.

Lemma initial_inv envs fuel mem : Forall env_ok envs -> umt_inv (initial envs fuel mem).
Proof.
  intros He. exists (fun _ => UOut), TWait, RIdle. split; [|split; [|split]].
  - intros i e p Hi. cbn [users initial] in Hi. rewrite list_lookup_fmap in Hi. destruct (envs !! i) as [e'|] eqn:E; [|done].
    cbn in Hi. simplify_eq. assert (env_ok e) by (by eapply Forall_lookup_1). split; [done|]. by apply send_data_uok.
  - apply (umt_tx_tok fuel).
  - done.
  - left. split_and!; [done| |by left]. unfold quiet. cbn. naive_solver.
Qed.

Lemma reachable_inv envs fuel mem cfg :
  us_sem_user_to_micad svc <> us_sem_micad_to_user svc -> Forall env_ok envs ->
  rtc step (initial envs fuel mem) cfg -> umt_inv cfg.
Proof.
  intros Hne He Hr. assert (umt_inv (initial envs fuel mem)) as Hinv by (by apply initial_inv).
  revert Hinv. induction Hr as [c|c c1 c2 Hs Hr IH]; [done|]. intros Hinv. by apply IH, (step_inv c).
Qed.

(** A process that has returned failed before it sent anything, or has its answer. *)
Lemma umt_inv_returned cfg i e ret rcv :
  umt_inv cfg -> users cfg !! i = Some (e, Ret (ret, rcv)) ->
  ret = -1 /\ rcv = None \/ ret = 0 /\ rcv = Some (reply (ue_data e), zlen (reply (ue_data e))).
Proof.
  intros (ph & t & r & Hu & _) Hi. destruct (Hu _ _ _ Hi) as [_ Hok]. cbn in Hok.
  destruct (ph i); cbn in Hok; try done; [by left|by left|by right].
Qed.

(** *** An executable schedule *)

(** The answers of a system in which every call succeeds that can. *)
Definition uans_of (e : uenv) (s : shared) (c : ucall) : uans :=
  match c with
  | Sysconf => Uans ps 0 0 []
  | IoctlCopyMem _ _ => Uans 0 raw sz []
  | MmapMcs _ _ addr =>
      let va := ue_va e + addr in Uans (if (0 <=? va) && (va <? 2 ^ 64) then va else UserMsg.MAP_FAILED) 0 0 []
  | SemOpen name => Uans (if strcmp0 name (SEM_USER_TO_MICAD 0) then ue_u2m e else ue_m2u e) 0 0 []
  | ReadField f => Uans (field f s) 0 0 []
  | CopyOut addr n => Uans 0 0 0 (mem_read (addr - ue_va e) n (sh_mem s))
  | _ => Uans 0 0 0 []
  end.
Lemma uans_of_ok e s c : uanswer e s c (uans_of e s c).
Proof.
  destruct c; cbn; try done. destruct (Z.leb_spec 0 (ue_va e + addr)); cbn; [|by left].
  destruct (Z.ltb_spec (ue_va e + addr) (2 ^ 64)); [right|by left]. by apply wrapu_small.
Qed.
Definition mans_of (s : shared) (c : mcall) : uans :=
  match c with User (ReadField f) => Uans (field f s) 0 0 [] | _ => Uans 1 0 0 [] end.
Lemma mans_of_ok s c : manswer s c (mans_of s c).
Proof. by destruct c as [[]| | | | | | | | | | | | | | | | | |]. Qed.

Inductive move := MUser (i : nat) | MTx | MRxStart | MRx | MRxEnd | MRtos.
Definition run_move (m : move) (cfg : config) : option config :=
  match m with
  | MUser i =>
      match users cfg !! i with
      | Some (e, Call c k) =>
          (fun s' => Config (<[i := (e, k (uans_of e (sh cfg) c))]> (users cfg)) (tx cfg) (rx cfg) s')
            <$> effect (ue_u2m e) (ue_m2u e) (ue_va e) c (sh cfg)
      | _ => None
      end
  | MTx =>
      match tx cfg with
      | Call c k => (fun s' => Config (users cfg) (k (mans_of (sh cfg) c)) (rx cfg) s') <$> meffect c (sh cfg)
      | _ => None
      end
  | MRxStart =>
      match rx cfg, to_host (sh cfg) with
      | None, n :: rest => Some (Config (users cfg) (tx cfg) (Some (rpmsg_rx_umt_callback svc n))
                                   (set_chan (to_rtos (sh cfg)) rest (sh cfg)))
      | _, _ => None
      end
  | MRx =>
      match rx cfg with
      | Some (Call c k) => (fun s' => Config (users cfg) (tx cfg) (Some (k (mans_of (sh cfg) c))) s') <$> meffect c (sh cfg)
      | _ => None
      end
  | MRxEnd =>
      match rx cfg with Some (Ret _) => Some (Config (users cfg) (tx cfg) None (sh cfg)) | _ => None end
  | MRtos =>
      match to_rtos (sh cfg) with
      | (p, l) :: rest =>
          let ans := reply (mem_read p l (sh_mem (sh cfg))) in
          if p =? 0 then Some (Config (users cfg) (tx cfg) (rx cfg) (set_chan rest (to_host (sh cfg)) (sh cfg)))
          else Some (Config (users cfg) (tx cfg) (rx cfg)
            (set_chan rest (to_host (sh cfg) ++ [zlen ans])
              (set_mem (mem_write (p + OPENAMP_SHM_COPY_SIZE) ans (sh_mem (sh cfg))) (sh cfg))))
      | [] => None
      end
  end.
Fixpoint run_moves (ms : list move) (cfg : config) : option config :=
  match ms with [] => Some cfg | m :: ms => run_move m cfg ≫= run_moves ms end.

Lemma run_move_step m cfg cfg' : run_move m cfg = Some cfg' -> step cfg cfg'.
Proof.
  destruct m as [i| | | | |]; cbn; intros H; repeat case_match; simplify_eq.
  - apply fmap_Some in H as (s' & E & ->). eapply step_user; [done..|]. apply uans_of_ok.
  - apply fmap_Some in H as (s' & E & ->). eapply step_tx; [done..|]. apply mans_of_ok.
  - by apply step_rx_start.
  - apply fmap_Some in H as (s' & E & ->). eapply step_rx; [done..|]. apply mans_of_ok.
  - by eapply step_rx_end.
  - bool_to_Prop. subst. by eapply step_rtos_greeting.
  - bool_to_Prop. by apply step_rtos.
Qed.
Lemma run_moves_steps ms cfg cfg' : run_moves ms cfg = Some cfg' -> rtc step cfg cfg'.
Proof.
  revert cfg. induction ms as [|m ms IH]; intros cfg; cbn; [by intros [= ->]|].
  intros (c & Hm & H)%bind_Some. eapply rtc_l; [by eapply run_move_step|by apply IH].
Qed.
End protocol.

(** C2: Every user process gets the answer to its own message.  Any number of
    processes send messages at once, and processes, micad's thread and callback and
    the client OS take their steps in any order: a process that has returned either
    failed with -1, or returned 0 with exactly the bytes and the length that the
    client OS answered to the data of that process; messages lost by a failing
    [rpmsg_send] included.  Conditions: the service is bound and its semaphores exist
    and are at 0 when the processes start, messages and answers fit the copy area,
    which is not at address 0, no signal interrupts a [sem_wait], and the client OS
    does not answer the greeting (address 0) that micad sends first; for the last two
    see [interrupted_wait_misleads] and [greeting_answer_misleads]. *)
Theorem users_get_their_answers (raw sz ps : Z) (reply : list Z -> list Z) (svc : umt_service)
    (envs : list uenv) (fuel : nat) (mem : Z -> Z) (cfg : config) (i : nat) (e : uenv)
    (ret : Z) (rcv : option (list Z * Z)) :
  us_sem_user_to_micad svc <> us_sem_micad_to_user svc ->
  Forall (env_ok raw ps reply) envs ->
  rtc (step raw sz ps reply svc) (initial svc envs fuel mem) cfg ->
  users cfg !! i = Some (e, Ret (ret, rcv)) ->
  ret = -1 /\ rcv = None \/ ret = 0 /\ rcv = Some (reply (ue_data e), zlen (reply (ue_data e))).
Proof. intros Hne He Hr Hi. by eapply umt_inv_returned, Hi; eapply reachable_inv. Qed.

(** Two processes at once; the client OS reverses what it gets. *)
Definition env_example : list uenv := [Uenv 0x7f0000000000 3 4 [1; 2; 3]; Uenv 0x7f8800000000 9 8 [7; 8]].
Definition svc_example : umt_service := UmtService 0 5 6 0x7fff00000000.
Definition moves_example : list move :=
  MRtos :: concat (replicate 7 [MUser 0; MUser 1]) ++ [MUser 1] ++ replicate 8 (MUser 1) ++
  [MTx; MTx; MTx; MTx; MTx; MTx; MRtos; MRxStart; MRx; MRx] ++ replicate 9 (MUser 1) ++
  replicate 9 (MUser 0) ++ [MRxEnd; MTx; MTx; MTx; MTx; MTx; MRtos; MRxStart; MRx; MRx] ++ replicate 9 (MUser 0).
Abbreviation cfg_example :=
  (run_moves 0x70000000 0x200000 4096 (@reverse Z) svc_example moves_example
    (initial svc_example env_example 10 (fun _ => 0))).

Lemma example_run :
  exists cfg e, rtc (step 0x70000000 0x200000 4096 (@reverse Z) svc_example)
      (initial svc_example env_example 10 (fun _ => 0)) cfg /\
    users cfg !! 0%nat = Some (e, Ret (0, Some ([3; 2; 1], 3))).
Proof.
  assert ((cfg_example ≫= fun c => snd <$> users c !! 0%nat) = Some (Ret (0, Some ([3; 2; 1], 3)))) as Hret
    by (by vm_compute).
  apply bind_Some in Hret as (cfg & E & Hret). apply fmap_Some in Hret as ([e p] & Hu & Hp).
  exists cfg, e. split; [exact (run_moves_steps _ _ _ _ _ _ _ _ E)|]. rewrite Hu. f_equal. f_equal. by symmetry.
Qed.

Lemma users_get_their_answers_witness :
  exists e, Some ([3; 2; 1], 3) = Some (reverse (ue_data e), zlen (reverse (ue_data e))).
Proof.
  destruct example_run as (cfg & e & Hr & Hu). exists e.
  destruct (users_get_their_answers 0x70000000 0x200000 4096 (@reverse Z) svc_example env_example 10
    (fun _ => 0) cfg 0 e 0 (Some ([3; 2; 1], 3))) as [[H _]|[_ H]]; [done| |exact Hr|exact Hu|done|exact H].
  repeat constructor; by vm_compute.
Defined.

(** One process, and a schedule that gets it to its return. *)
Abbreviation astep := (any_step 0x70000000 0x200000 4096 (@reverse Z) svc_example).
Abbreviation one_user := (initial svc_example (take 1 env_example) 10 (fun _ => 0)).
Lemma moves_any ms cfg cfg' :
  run_moves 0x70000000 0x200000 4096 (@reverse Z) svc_example ms cfg = Some cfg' -> rtc astep cfg cfg'.
Proof.
  intros Hm%run_moves_steps. induction Hm as [c|c c1 c2 Hs _ IH]; [done|]. eapply rtc_l; [by left|exact IH].
Qed.

(** If the client OS answers the greeting, the first process takes that answer for its
    own: it sends 1, 2, 3 and returns 0 before its message was even taken from the
    queue, with the byte that happens to be in the copy area. *)
Theorem greeting_answer_misleads :
  exists cfg e, rtc astep one_user cfg /\ users cfg !! 0%nat = Some (e, Ret (0, Some ([0], 1))) /\
    sh_u2m (sh cfg) = 1%nat.
Proof.
  pose (c0 := Config (users one_user) (tx one_user) (rx one_user)
                (set_chan [] (to_host (sh one_user) ++ [1]) (sh one_user))).
  assert ((run_moves 0x70000000 0x200000 4096 (@reverse Z) svc_example
             ([MRxStart; MRx; MRx; MRxEnd] ++ replicate 25 (MUser 0)) c0 ≫= fun c => 
           (fun u => (snd u, sh_u2m (sh c))) <$> users c !! 0%nat) = Some (Ret (0, Some ([0], 1)), 1%nat)) as Hret
    by (by vm_compute).
  apply bind_Some in Hret as (cfg & E & Hret). apply fmap_Some in Hret as ([e p] & Hu & [= Hp Hn]).
  exists cfg, e. split; [|split; [rewrite Hu; f_equal; f_equal; symmetry; exact Hp|symmetry; exact Hn]].
  eapply rtc_l; [right; apply (fault_greeting one_user 32 [] 1); reflexivity|]. exact (moves_any _ _ _ E).
Qed.

(** A signal interrupts the wait of the first process. *)
Definition interrupt (cfg : config) : option config :=
  match users cfg !! 0%nat with
  | Some (e, Call (SemWait h) k) =>
      Some (Config (<[0%nat := (e, k (Uans (-1) 0 0 []))]> (users cfg)) (tx cfg) (rx cfg) (sh cfg))
  | _ => None
  end.
Lemma interrupt_fault cfg cfg' : interrupt cfg = Some cfg' -> fault cfg cfg'.
Proof. unfold interrupt. intros H. repeat case_match; simplify_eq. by eapply fault_user. Qed.

(** A [sem_wait] that a signal interrupts counts as an answer: the process returns 0
    with no bytes, while its message is still on the way. *)
Theorem interrupted_wait_misleads :
  exists cfg e, rtc astep one_user cfg /\ users cfg !! 0%nat = Some (e, Ret (0, Some ([], 0))) /\
    sh_u2m (sh cfg) = 1%nat.
Proof.
  assert ((run_moves 0x70000000 0x200000 4096 (@reverse Z) svc_example (replicate 16 (MUser 0)) one_user
           ≫= fun c => interrupt c
           ≫= fun c => run_moves 0x70000000 0x200000 4096 (@reverse Z) svc_example (replicate 8 (MUser 0)) c
           ≫= fun c => (fun u => (snd u, sh_u2m (sh c))) <$> users c !! 0%nat) =
         Some (Ret (0, Some ([], 0)), 1%nat)) as Hret by (vm_compute; reflexivity).
  apply bind_Some in Hret as (c1 & E1 & Hret). apply bind_Some in Hret as (c2 & E2%interrupt_fault & Hret).
  apply bind_Some in Hret as (cfg & E3 & Hret). apply fmap_Some in Hret as ([e p] & Hu & [= Hp Hn]).
  exists cfg, e. split; [|split; [rewrite Hu; f_equal; f_equal; symmetry; exact Hp|symmetry; exact Hn]].
  transitivity c1; [exact (moves_any _ _ _ E1)|].
  eapply rtc_l; [right; exact E2|]. exact (moves_any _ _ _ E3).
Qed.

(** A process that cannot map the copy area returns with the lock held: all later
    senders spin forever (lines 64 and 91 of [user_msg.c]). *)
Theorem failed_mapping_keeps_lock :
  let t := trace (fun _ c => match c with OpenMcs => Uans (-1) 0 0 [] | ReadField _ => Uans 0 0 0 []
                             | _ => Uans 1 0 0 [] end)
             (send_data_to_rtos_and_wait_rcv [1] 1 0) in
  existsb (fun ca => match ca.1 with SpinLock => true | _ => false end) t = true /\
  existsb (fun ca => match ca.1 with LockRelease => true | _ => false end) t = false.
Proof. by vm_compute. Qed.

(** The device descriptor stays open after a message that succeeded (line 51 of
    [user_msg_mem.c] returns without closing it). *)
Theorem mcs_device_stays_open :
  let o : oracle ucall uans := fun _ c =>
    match c with OpenMcs => Uans 7 0 0 [] | ReadField _ => Uans 0 0 0 [] | _ => Uans 1 4096 4096 [] end in
  (result o (send_data_to_rtos_and_wait_rcv [1] 1 0)).1 = 0 /\
  existsb (fun ca => match ca.1 with CloseFd fd => fd =? 7 | _ => false end)
    (trace o (send_data_to_rtos_and_wait_rcv [1] 1 0)) = false.
Proof. by vm_compute. Qed.

(** If the second semaphore cannot be opened, micad closes the first one twice (line
    72 of [user_msg_mem.c], line 138 of [rpmsg_umt.c]). *)
Theorem semaphore_closed_twice :
  let t := trace (fun _ c => match c with
        | User (SemOpen n) => Uans (if strcmp0 n (SEM_USER_TO_MICAD 0) then 5 else 0) 0 0 []
        | CreateEpt _ _ _ | User (Ftruncate _ _) => Uans 0 0 0 []
        | _ => Uans 1 0 0 [] end)
      (umt_service_init (UmtService 0 0 0 0) [] "rpmsg-umt" 1 2) in
  length (List.filter (fun ca => match ca.1 with User (SemClose h) => h =? 5 | _ => false end) t) = 2%nat.
Proof. by vm_compute. Qed.
