(* ===== verification/UmtProgress.v ===== *)
(** * User messages: no process waits forever

    The conversation of [Umt] comes to an end, and at its end every process has
    returned. *)

From Stdlib Require Import Relation_Operators Lexicographic_Product.
From S2P Require Import Prelude UserMsg Umt.

Section progress.
Context (raw sz ps : Z) (reply : list Z -> list Z) (svc : umt_service).
Abbreviation step := (step raw sz ps reply svc).
Abbreviation any_step := (any_step raw sz ps reply svc).
Abbreviation umt_inv := (umt_inv raw sz ps reply svc).
Abbreviation uprog := (uio (Z * option (list Z * Z))).

(** ** Every run ends *)

Definition next_user (u' u : uenv * uprog) : Prop := next_prog u'.2 u.2.

Lemma users_wf : well_founded (upd1 next_user).
Proof.
  intros l. apply Acc_upd1, Forall_true. intros u.
  apply (wf_projected next_prog snd); [done|apply next_prog_wf].
Qed.

(** What a step makes smaller: a process or micad's thread comes closer to its end, or a
    message comes closer to its receiver. *)
Abbreviation order :=
  (slexprod _ _ (slexprod _ _ (slexprod _ _ (upd1 next_user) (@next_prog mcall uans unit)) (slexprod _ _ lt lt)) (@next_opt mcall uans Z)).
Definition measure (cfg : config) :=
  ((users cfg, tx cfg, (length (to_rtos (sh cfg)), length (to_host (sh cfg)))), rx cfg).

Lemma effect_chan hu hm va c s s' :
  effect hu hm va c s = Some s' -> to_rtos s' = to_rtos s /\ to_host s' = to_host s.
Proof. destruct c as [| | | | | | | | | | | | |[]|[]| | | |]; cbn; intros; repeat case_match; by simplify_eq. Qed.

Lemma rx_effect_chan cfg r c k s' :
  rxok svc r (rx cfg) -> rx cfg = Some (Call c k) -> meffect svc c (sh cfg) = Some s' ->
  to_rtos s' = to_rtos (sh cfg) /\ to_host s' = to_host (sh cfg).
Proof.
  intros Hr E Hs. rewrite E in Hr. destruct Hr as [_ Hr], c; destruct r; try done.
  all: by eapply effect_chan.
Qed.

(** The callback runs its program, whatever else goes wrong. *)
Definition rx_runs (cfg : config) : Prop := exists r, rxok svc r (rx cfg).

Lemma rx_runs_step cfg cfg' : rx_runs cfg -> any_step cfg cfg' -> rx_runs cfg'.
Proof.
  unfold rx_runs. intros [r Hr] [Hs|Hs]; [|by destruct Hs; exists r].
  destruct Hs as [| | |cfg n rest Hrx Hho|cfg c k a s' Hrx Hs Ha|cfg z Hrx| |]; cbn [rx]; try (by exists r).
  - exists (RSet n). split; [done|apply umt_rx_rok].
  - rewrite Hrx in Hr. destruct Hr as [_ Hr]. destruct r; cbn in Hr; try done.
    + destruct c as [c| | | | | | | | | | | | | | | | | |]; try done.
      destruct c as [| | | | | | | | | | | | |[]|[]| | | |]; try done. exists RPost. by split; [|apply Hr].
    + destruct c as [c| | | | | | | | | | | | | | | | | |]; try done. destruct c; try done.
      exists REnd. by split; [|apply Hr].
  - by exists RIdle.
Qed.

Lemma step_smaller cfg cfg' : rx_runs cfg -> any_step cfg cfg' -> order (measure cfg') (measure cfg).
Proof.
  intros [r Hr] Hs. unfold measure. destruct Hs as [Hs|Hs].
  - destruct Hs as [cfg i e c k a s' Hi Hs Ha|cfg c k a s' Htx Hs Ha|cfg p l k a Htx|cfg n rest Hrx Hho
      |cfg c k a s' Hrx Hs Ha|cfg z Hrx|cfg p l rest Hto Hp ans|cfg l rest Hto]; cbn [users tx rx sh].
    + do 3 apply left_slex. exists i, (e, Call c k), (e, k a). split_and!; [done| |done]. by exists c, k, a.
    + do 2 apply left_slex. apply right_slex. by exists c, k, a.
    + do 2 apply left_slex. apply right_slex. by exists (RpmsgSend p l), k, a.
    + apply left_slex, right_slex. cbn [to_rtos to_host set_chan]. apply right_slex. rewrite Hho. cbn. lia.
    + destruct (rx_effect_chan cfg r c k s' Hr Hrx Hs) as [-> ->]. apply right_slex. rewrite Hrx. by exists c, k, a.
    + apply right_slex. by rewrite Hrx.
    + apply left_slex, right_slex, left_slex. cbn. rewrite Hto. cbn. lia.
    + apply left_slex, right_slex, left_slex. cbn. rewrite Hto. cbn. lia.
  - destruct Hs as [cfg i e h k a Hi|cfg h k a Htx|cfg l rest n Hto]; cbn [users tx rx sh].
    + do 3 apply left_slex. exists i, (e, Call (SemWait h) k), (e, k a). split_and!; [done| |done].
      by exists (SemWait h), k, a.
    + do 2 apply left_slex. apply right_slex. by exists (User (SemWait h)), k, a.
    + apply left_slex, right_slex, left_slex. cbn. rewrite Hto. cbn. lia.
Qed.

Lemma step_wf cfg : rx_runs cfg -> Acc (flip any_step) cfg.
Proof.
  remember (measure cfg) as m eqn:Em. revert cfg Em.
  assert (well_founded order) as Hwf
    by (repeat apply wf_slexprod; [apply users_wf|apply next_prog_wf|apply lt_wf|apply lt_wf|apply next_opt_wf]).
  induction (Hwf m) as [m _ IH]. intros cfg -> Hinv. constructor. intros cfg' Hs.
  eapply IH; [by apply step_smaller|done|by eapply rx_runs_step].
Qed.

(** ** At rest everyone has returned *)

(** micad's thread moves, unless it waits for a message. *)
Lemma tx_moves t c k s :
  tok svc t (Call c k) -> (t = TWait -> sh_u2m s <> 0%nat) -> exists s', meffect svc c s = Some s'.
Proof.
  intros Ht Hu.
  destruct c as [c| | | | | | | | | | | | | | | | | |]; try (by eexists).
  destruct c as [| | | | | | | | | | | | |[]|[]| | | |]; try (by eexists); destruct t; cbn in Ht; try done; try (by destruct Ht).
  destruct Ht as [-> _]. cbn. rewrite Z.eqb_refl. destruct (sh_u2m s); [by destruct Hu|eauto].
Qed.

(** A process moves, unless it waits for the lock or for its answer. *)
Lemma user_moves e ph c k s :
  env_ok raw ps reply e -> uok raw sz ps reply e ph (Call c k) ->
  (ph = UOut -> sh_lock s = false) -> (ph = UPosted -> sh_m2u s <> 0%nat) ->
  exists s', effect (ue_u2m e) (ue_m2u e) (ue_va e) c s = Some s'.
Proof.
  intros He Hu Hl Hm. destruct (uprivate c) eqn:Hc; [rewrite effect_private by done; eauto|].
  destruct ph, c as [| | | | | | | | | | | | |[]|[]| | | |]; cbn in Hc, Hu; try done; try (by destruct Hu); cbn; eauto.
  - rewrite Hl by done. eauto.
  - case_match; [eauto|]. case_match; eauto.
  - destruct Hu as [-> _]. rewrite (proj2 (Z.eqb_neq _ _)), Z.eqb_refl by (pose proof (eo_sems _ _ _ _ He); done).
    destruct (sh_m2u s); [by destruct Hm|eauto].
Qed.

Definition returned (p : uprog) : Prop := exists r, p = Ret r.

Section rest.
Context (cfg : config) (Hrest : forall cfg', ~ step cfg cfg').

Lemma rest_user i e c k s' :
  users cfg !! i = Some (e, Call c k) -> effect (ue_u2m e) (ue_m2u e) (ue_va e) c (sh cfg) = Some s' -> False.
Proof. intros Hi Hs. eapply Hrest, step_user; [done..|]. apply uans_of_ok. Qed.

Lemma rest_tx c k s' : tx cfg = Call c k -> meffect svc c (sh cfg) = Some s' -> False.
Proof. intros Ht Hs. eapply Hrest, step_tx; [done..|]. apply mans_of_ok. Qed.

(** No message is on its way to the callback or the client OS. *)
Lemma rest_chan r : rxok svc r (rx cfg) -> r = RIdle /\ to_rtos (sh cfg) = [] /\ to_host (sh cfg) = [].
Proof.
  intros Hr. destruct (rx cfg) as [[z|c k]|] eqn:E.
  - exfalso. by eapply Hrest, step_rx_end.
  - exfalso. assert (exists s', meffect svc c (sh cfg) = Some s') as [s' Hs].
    { destruct Hr as [_ Hr]. destruct r; cbn in Hr; try done.
      - destruct c as [c| | | | | | | | | | | | | | | | | |]; try done. destruct c; try done. by eexists.
      - destruct c as [c| | | | | | | | | | | | | | | | | |]; try done. destruct c; try done.
        cbn. case_match; [eauto|]. case_match; eauto. }
    eapply Hrest, step_rx; [done..|]. apply mans_of_ok.
  - split; [exact Hr|]. split.
    + destruct (to_rtos (sh cfg)) as [|[p l] rest] eqn:Et; [done|]. exfalso.
      destruct (decide (p = 0)) as [->|]; [by eapply Hrest, step_rtos_greeting|by eapply Hrest, step_rtos].
    + destruct (to_host (sh cfg)) as [|n rest] eqn:Eh; [done|]. exfalso. by eapply Hrest, step_rx_start.
Qed.

(** The message of the process that holds the lock does not get stuck, unless it
    was lost. *)
Lemma rest_posted d t c k :
  tok svc t (tx cfg) -> tx cfg = Call c k -> posted raw ps reply d t RIdle (sh cfg) ->
  to_rtos (sh cfg) = [] -> to_host (sh cfg) = [] -> dropped (sh cfg) = false ->
  sh_m2u (sh cfg) <> 0%nat.
Proof.
  intros Ht Etx Hp Hto Hho Hd Hm. rewrite Etx in Ht.
  assert (user_msgs (sh cfg) = []) as Hum by (unfold user_msgs; by rewrite Hto).
  assert (t = TWait -> sh_u2m (sh cfg) <> 0%nat) as Hu.
  { intros ->. inversion Hp; subst; try congruence; naive_solver. }
  destruct (tx_moves t c k (sh cfg) Ht Hu) as [s' Hs]. by eapply rest_tx.
Qed.

Lemma umt_at_rest :
  umt_inv cfg -> (exists c k, tx cfg = Call c k) ->
  (forall i e p, users cfg !! i = Some (e, p) -> returned p) \/
  (sh_lock (sh cfg) = true /\ exists i e, users cfg !! i = Some (e, Ret (-1, None))) \/
  (sh_lock (sh cfg) = true /\ dropped (sh cfg) = true).
Proof.
  intros (ph & t & r & Hu & Ht & Hr & Hcase) (ct & kt & Etx).
  destruct (rest_chan r Hr) as (-> & Hto & Hho).
  destruct Hcase as [(Hl & _ & Hout)|(i & e & p & Hi & Hl & Hph & _)].
  - left. intros i e p Hi. destruct p as [res|c k]; [by exists res|]. exfalso.
    destruct (Hu i e _ Hi) as [He Hok]. destruct (user_moves e (ph i) c k (sh cfg) He Hok) as [s' Hs]; [done| |].
    + intros E. by destruct (Hout i _ Hi) as [?|?]; congruence.
    + by eapply rest_user.
  - destruct (Hu i e p Hi) as [He Hok]. destruct p as [[ret rcv]|c k].
    + right. left. split; [done|]. exists i, e. cbn in Hok. destruct (ph i); cbn in Hph; try done.
      by destruct Hok as [-> ->].
    + destruct (dropped (sh cfg)) eqn:Hd; [right; by right|].
      exfalso. destruct (user_moves e (ph i) c k (sh cfg) He Hok) as [s' Hs]; [| |by eapply rest_user].
      * intros E. by rewrite E in Hph.
      * intros E. rewrite E in Hph. by eapply rest_posted.
Qed.
End rest.

(** *** A test for rest *)

Definition rests (cfg : config) : bool :=
  forallb (fun u : uenv * uprog => match u.2 with Ret _ => true | Call _ _ => false end) (users cfg) &&
  match tx cfg with Call (User (SemWait h)) _ => h =? us_sem_user_to_micad svc | _ => false end &&
  (sh_u2m (sh cfg) =? 0)%nat &&
  match rx cfg, to_rtos (sh cfg), to_host (sh cfg) with None, [], [] => true | _, _, _ => false end.

Lemma rests_spec cfg :
  rests cfg = true -> (forall cfg', ~ step cfg cfg') /\ exists c k, tx cfg = Call c k.
Proof.
  unfold rests. intros [[[Hu Ht]%andb_true_iff Hn]%andb_true_iff Hc]%andb_true_iff.
  apply Nat.eqb_eq in Hn. rewrite forallb_forall in Hu.
  destruct (tx cfg) as [|ct kt] eqn:Etx; [done|]. split; [|eauto].
  assert (meffect svc ct (sh cfg) = None) as Hblock.
  { destruct ct as [[]| | | | | | | | | | | | | | | | | |]; try done. cbn. by rewrite Ht, Hn. }
  intros cfg' Hs. destruct Hs as [cfg i e c k a s' Hi|cfg c k a s' Htx Hs|cfg p l k a Htx|cfg n rest Hrx Hho
    |cfg c k a s' Hrx|cfg z Hrx|cfg p l rest Hto Hp ans|cfg l rest Hto].
  - by specialize (Hu (e, Call c k) (proj1 (list_elem_of_In _ _) (list_elem_of_lookup_2 _ _ _ Hi))).
  - congruence.
  - rewrite Htx in Etx. by simplify_eq.
  - rewrite Hrx, Hho in Hc. by destruct (to_rtos (sh cfg)).
  - by rewrite Hrx in Hc.
  - by rewrite Hrx in Hc.
  - rewrite Hto in Hc. by destruct (rx cfg).
  - rewrite Hto in Hc. by destruct (rx cfg).
Qed.
End progress.

(** ** Properties *)

(** C4: No user process waits forever for its answer, unless a message was lost.  Any
    number of processes send messages at once, and [rpmsg_send] may fail: every run
    of the processes with any number [fuel] of rounds of micad's thread ends, in whatever order processes, micad's thread and callback and the client OS
    move, interrupted [sem_wait]s and an answered greeting included; and when, in a
    run without the latter two, nothing can move any more while micad's thread is
    still in its loop, every process has returned.  The two exceptions both leave the
    lock held: a process that failed and kept it, and a message whose [rpmsg_send]
    failed, which its process waits for.  The conditions are those of the answers:
    the service is bound, its semaphores are at 0, and messages and answers fit the
    copy area, which is not at address 0. *)
Theorem users_all_return (raw sz ps : Z) (reply : list Z -> list Z) (svc : umt_service)
    (envs : list uenv) (fuel : nat) (mem : Z -> Z) (cfg : config) :
  us_sem_user_to_micad svc <> us_sem_micad_to_user svc ->
  Forall (env_ok raw ps reply) envs ->
  (rtc (any_step raw sz ps reply svc) (initial svc envs fuel mem) cfg ->
   Acc (flip (any_step raw sz ps reply svc)) cfg) /\
  (rtc (step raw sz ps reply svc) (initial svc envs fuel mem) cfg ->
   (forall cfg', ~ step raw sz ps reply svc cfg cfg') -> (exists c k, tx cfg = Call c k) ->
   (forall i e p, users cfg !! i = Some (e, p) -> returned p) \/
   (sh_lock (sh cfg) = true /\ exists i e, users cfg !! i = Some (e, Ret (-1, None))) \/
   (sh_lock (sh cfg) = true /\ dropped (sh cfg) = true)).
Proof.
  intros Hne He. split.
  - intros Hr. eapply step_wf. assert (rx_runs svc (initial svc envs fuel mem)) as H0 by (by exists RIdle).
    revert H0. induction Hr as [|c c1 c2 Hs _ IH]; [done|]. intros H0. eapply IH, rx_runs_step; eauto.
  - intros Hr Hrest Htx.
    by eapply umt_at_rest, Htx; [|eapply reachable_inv].
Qed.

Definition moves_to_rest : list move := moves_example ++ [MRxEnd; MTx].
Abbreviation cfg_at_rest :=
  (run_moves 0x70000000 0x200000 4096 (@reverse Z) svc_example moves_to_rest
    (initial svc_example env_example 10 (fun _ => 0))).

(** Two processes have sent and got their answers. *)
Lemma users_all_return_witness :
  exists cfg, rtc (step 0x70000000 0x200000 4096 (@reverse Z) svc_example)
      (initial svc_example env_example 10 (fun _ => 0)) cfg /\
    sh_lock (sh cfg) = false /\ forall i e p, users cfg !! i = Some (e, p) -> returned p.
Proof.
  assert ((cfg_at_rest ≫= fun c => Some (rests svc_example c && negb (sh_lock (sh c)))) = Some true) as H
    by (by vm_compute).
  apply bind_Some in H as (cfg & E & H). injection H as H. apply andb_true_iff in H as [H Hl].
  apply negb_true_iff in Hl.
  pose proof (run_moves_steps _ _ _ _ _ _ _ _ E) as Hr. exists cfg. split; [exact Hr|]. split; [exact Hl|].
  destruct (rests_spec 0x70000000 0x200000 4096 (@reverse Z) svc_example cfg H) as [Hrest Htx].
  destruct (users_all_return 0x70000000 0x200000 4096 (@reverse Z) svc_example env_example 10 (fun _ => 0) cfg)
    as [_ Hret]; [done|repeat constructor; by vm_compute|].
  destruct (Hret Hr Hrest Htx) as [Hall|[[Hlock _]|[Hlock _]]]; [exact Hall|congruence..].
Defined.
