(* ===== verification/RpcWorkers.v ===== *)
(** * RPC requests served by several workers
    ([rpc_backend.c] built with [MULTI_WORKERS], [rpc_workers.c])

    The callback copies a message into memory of its own and queues a request; the
    workers take requests and run the handlers concurrently.  A handler releases the
    copy with the macro [CLEANUP], which frees it in this build. *)

From S2P Require Import Prelude RpcHelper RpcModel RpcBackend RpcServer RpcQueue.

(** ** What a handler does with its request *)

(** The request is released at most once, and nothing is done after the release. *)
Definition released (s : list revent) : Prop :=
  exists pre, (s = pre \/ s = pre ++ [Freed]) /\ Forall (fun e => exists m, e = Sent m) pre.
(** Functions whose handler keeps the request. *)
Definition not_released : list Z := [FREEADDRINFO_ID; PRINTF_ID].

Definition handled (OK id trace_id : Z) (r : option Z) (s : list revent) : Prop :=
  released s /\ (id ∉ not_released -> r = Some 0 -> Freed ∈ s) /\
  (id ∉ no_reply -> id <> UNLINK_ID -> replied OK id trace_id r s).

Lemma replied_handled OK id trace_id r s : replied OK id trace_id r s -> handled OK id trace_id r s.
Proof.
  intros Hr. split_and!; [| |done]; destruct Hr as [[[->| ->] Hne]|(m & -> & Hm)].
  - exists []. split; [by left|constructor].
  - exists []. split; [by right|constructor].
  - exists [Sent m]. split; [by right|]. repeat constructor. eauto.
  - done.
  - set_solver.
  - set_solver.
Qed.

(** Functions without a reply leave the request alone or release it. *)
Lemma silent_handled OK id trace_id r s :
  id ∈ no_reply \/ id = UNLINK_ID -> released s -> (id ∉ not_released -> r = Some 0 -> Freed ∈ s) ->
  handled OK id trace_id r s.
Proof. intros Hid Hrel Hf. split_and!; [done|done|]. intros ? ?. by destruct Hid. Qed.

Lemma released_Freed pre : Forall (fun e => exists m, e = Sent m) pre -> released (pre ++ [Freed]).
Proof. exists pre. auto. Qed.

(** The table is searched from the front, so each special function has its own
    handler. *)
Lemma special_service OK stk id h req :
  find_service (service_table OK stk) id = Some (id, h) -> id ∈ no_reply \/ id = UNLINK_ID ->
  rwp (h (Some req) true true) (handled OK id (trace_of req)) [].
Proof.
  intros Ef Hid. pose proof (fun r s => silent_handled OK id (trace_of req) r s Hid) as Hsilent.
  assert (released []) as H0 by (exists []; auto).
  assert (released [Freed]) as H1 by (by apply (released_Freed [])).
  unfold no_reply in Hid.
  assert (id = FREEADDRINFO_ID \/ id = PRINTF_ID \/ id = FPRINTF_ID \/ id = CLEARERR_ID \/ id = UNLINK_ID) as Hcase
    by set_solver. clear Hid.
  destruct Hcase as [->|[->|[->|[->| ->]]]]; injection Ef as <-.
  - apply Hsilent; [done|]. unfold not_released. set_solver.
  - cbn. intros a _ b _. apply Hsilent; [done|]. unfold not_released. set_solver.
  - unfold rpmsg_handle_fprintf. cbn [with_req_priv with_req].
    destruct (is_pty_fd _); cbn; intros a _ b _; [intros c _|]; apply Hsilent; done || set_solver.
  - cbn. intros a _ b _. apply Hsilent; done || set_solver.
  - cbn. intros a _ b _ c _ d _ e _. apply Hsilent; [|set_solver].
    apply (released_Freed [Sent _]). repeat constructor. eauto.
Qed.

(** Every handler that can be found. *)
Lemma service_handled OK stk id h req :
  (4 <= length stk)%nat -> Forall (fun b => 0 <= b) req ->
  find_service (service_table OK stk) id = Some (id, h) -> (id, h) ∈ service_table OK stk ->
  rwp (h (Some req) true true) (handled OK id (trace_of req)) [].
Proof.
  intros Hstk Hb Ef Hin. destruct (decide (id ∈ no_reply \/ id = UNLINK_ID)) as [Hs|Hs]; [by eapply special_service|].
  eapply wpv_mono; [|apply replied_handled].
  apply (proj1 (Forall_forall _ _) (all_replies_ok OK stk Hstk) _ Hin); [tauto|tauto|done].
Qed.

Section workers_server.
(** Constants of [openamp/rpmsg.h] and [rpmsg_rpc_client_server.h]; [stk] as in the
    handlers. *)
Context (RPMSG_RPC_OK RPMSG_RPC_INVALID_ID RPMSG_SUCCESS RPMSG_ERR_NO_MEM : Z) (stk : list Z).

Definition services : list (Z * handler) := service_table RPMSG_RPC_OK stk.

(** The result and the request that is handed to [enqueue_req]. *)
Definition rpmsg_rpc_server_cb_mw (data : list Z) (len : Z) : rio (Z * option (req_t handler)) :=
  let id := le_val (memread 0 8 data) in
  if RPC_BUFFER_SIZE <? len then
    _ <- rpc_server_send (u32 id) RPC_EOVERLONG [] 0;;
    Ret (- EINVAL, None)
  else
    p <- libc_ulong "malloc" [I len];;
    if p =? 0 then
      _ <- rpc_server_send (u32 id) RPC_ENOMEM [] 0;;
      Ret (RPMSG_ERR_NO_MEM, None)
    else
      let buf := take (Z.to_nat len) data in
      match find_service services (u32 id) with
      | Some (sid, h) =>
          m <- libc_ulong "malloc" [I 32];;
          Ret (RPMSG_SUCCESS, build_req (negb (m =? 0)) buf (Some (RpcService sid (Some h))) 0)
      | None =>
          _ <- rpc_server_send (u32 id) RPMSG_RPC_INVALID_ID [] 0;;
          Ret (RPMSG_SUCCESS, None)
      end.

(** A request that was taken, what is left of its handler, and the messages and
    releases of the handler so far. *)
Record job := Job { j_req : req_t handler; j_prog : rio (option Z); j_events : list revent }.
Definition job_of (r : req_t handler) : job :=
  Job r (match req_service r with
         | Some (RpcService _ (Some cb)) => cb (Some (req_data r)) true true
         | _ => Ret None
         end) [].
(** The handler has returned or run into a memory fault. *)
Definition finished (j : job) : bool := match j_prog j with Ret _ => true | Call _ _ => false end.

(** The queue and its workers, the requests taken so far in order, and the messages
    that have arrived.  [wp_taken] of the pool is [j_req <$> w_jobs]. *)
Record wstate := WState {
  w_pool : worker_pool (H := handler);
  w_jobs : list job;
  w_arrived : list (list Z * Z);
}.

(** Workers that are awake and run no handler. *)
Definition idle (w : wstate) : Z :=
  wp_awake (w_pool w) - Z.of_nat (length (filter (fun j => finished j = false) (w_jobs w))).

Inductive wstep : wstate -> wstate -> Prop :=
| wstep_message w o data len pool' :
    0 <= len <= Z.of_nat (length data) -> Forall (fun b => 0 <= b < 256) data ->
    let r := result o (rpmsg_rpc_server_cb_mw data len) in
    (match r.2 with
     | None => pool' = w_pool w
     | Some req =>
         let '(rq, signalled) := enqueue_req (wp_rq (w_pool w)) (Some req) in
         let '(a, n) := if signalled then signal (wp_awake (w_pool w)) (wp_waiting (w_pool w))
                        else (wp_awake (w_pool w), wp_waiting (w_pool w)) in
         pool' = WorkerPool rq a n (wp_accepted (w_pool w) ++ (if signalled then [req] else []))
                   (wp_taken (w_pool w))
     end) ->
    wstep w (WState pool' (w_jobs w) (w_arrived w ++ [(data, len)]))
| wstep_take w rq r err a n acc tk :
    w_pool w = WorkerPool rq a n acc tk -> 0 < idle w ->
    forall rq', dequeue rq = (rq', Some r, err, false) ->
    wstep w (WState (WorkerPool rq' a n acc (tk ++ [r])) (w_jobs w ++ [job_of r]) (w_arrived w))
| wstep_wait w rq err a n acc tk :
    w_pool w = WorkerPool rq a n acc tk -> 0 < idle w ->
    forall rq', dequeue rq = (rq', None, err, true) ->
    wstep w (WState (WorkerPool rq' (a - 1) (n + 1) acc tk) (w_jobs w) (w_arrived w))
| wstep_wakeup w rq a n acc tk :
    w_pool w = WorkerPool rq a n acc tk -> 0 < n ->
    wstep w (WState (WorkerPool rq (a + 1) (n - 1) acc tk) (w_jobs w) (w_arrived w))
| wstep_handler w i r c k s a :
    w_jobs w !! i = Some (Job r (Call c k) s) -> libc_sane c a ->
    wstep w (WState (w_pool w) (<[i := Job r (k a) (events s c a)]> (w_jobs w)) (w_arrived w)).

(** The request [r] comes from a message that has arrived. *)
Definition from_message (arrived : list (list Z * Z)) (r : req_t handler) : Prop :=
  exists data len id h, (data, len) ∈ arrived /\ Forall (fun b => 0 <= b < 256) data /\ req_data r = take (Z.to_nat len) data /\
    id = u32 (le_val (memread 0 8 data)) /\ find_service services id = Some (id, h) /\
    req_service r = Some (RpcService id (Some h)).

(** A job does what its handler may do. *)
Definition job_ok (j : job) : Prop :=
  forall id h, req_service (j_req j) = Some (RpcService id (Some h)) ->
    Forall (fun b => 0 <= b) (req_data (j_req j)) ->
    rwp (j_prog j) (handled RPMSG_RPC_OK id (trace_of (req_data (j_req j)))) (j_events j).

Record winv (w : wstate) : Prop := WInv {
  wi_pool : pool_inv (w_pool w);
  wi_taken : wp_taken (w_pool w) = j_req <$> w_jobs w;
  wi_from : Forall (from_message (w_arrived w)) (wp_accepted (w_pool w));
  wi_jobs : Forall job_ok (w_jobs w);
}.

Lemma find_service_Some l id s : find_service l id = Some s -> s ∈ l /\ s.1 = id.
Proof.
  induction l as [|x l IH]; cbn; [done|]. destruct (Z.eqb_spec x.1 id); [intros [= ->]; split; [by left|done]|].
  intros [? ?]%IH. split; [by right|done].
Qed.

(** The request built for a message belongs to it. *)
Lemma server_cb_request o data len req :
  Forall (fun b => 0 <= b < 256) data ->
  (result o (rpmsg_rpc_server_cb_mw data len)).2 = Some req -> from_message [(data, len)] req.
Proof.
  intros Hb. apply (wp_result_trace (fun (_ : unit) _ _ => tt) o _
    (fun r _ => r.2 = Some req -> from_message [(data, len)] req) tt).
  unfold rpmsg_rpc_server_cb_mw, rpc_server_send, libc_ulong, libc. case_match; [by cbn|].
  cbn [bind call wp]. intros p. case_match; [by cbn|].
  destruct (find_service services _) as [[sid h]|] eqn:Ef; [|by cbn].
  cbn [bind call wp]. intros m E. unfold build_req in E. cbn [snd] in E. case_match; [|done]. simplify_eq.
  destruct (find_service_Some _ _ _ Ef) as [_ Eid]. cbn in Eid. rewrite <- Eid in Ef.
  exists data, len, sid, h. split_and!; try done; by left.
Qed.

Lemma from_message_mono arrived arrived' r :
  (forall x, x ∈ arrived -> x ∈ arrived') -> from_message arrived r -> from_message arrived' r.
Proof. intros Hs (data & len & id & h & Hin & H). exists data, len, id, h. eauto. Qed.

Lemma from_message_job arrived r : (4 <= length stk)%nat -> from_message arrived r -> job_ok (job_of r).
Proof.
  intros Hstk (data & len & id' & h' & _ & _ & Ed & _ & Ef & Es) id h Es' Hb.
  cbn [job_of j_req j_prog j_events] in *. rewrite Es in Es'. simplify_eq. rewrite Es.
  pose proof (find_service_Some _ _ _ Ef) as [Hin _]. by apply (service_handled RPMSG_RPC_OK stk).
Qed.

Lemma idle_awake w : 0 < idle w -> 0 < wp_awake (w_pool w).
Proof. unfold idle. lia. Qed.

(** A message changes the queue by at most one request, which belongs to it. *)
Lemma message_pool o data len p pool' :
  Forall (fun b => 0 <= b < 256) data -> pool_inv p ->
  (match (result o (rpmsg_rpc_server_cb_mw data len)).2 with
   | None => pool' = p
   | Some req =>
       let '(rq, signalled) := enqueue_req (wp_rq p) (Some req) in
       let '(a, n) := if signalled then signal (wp_awake p) (wp_waiting p) else (wp_awake p, wp_waiting p) in
       pool' = WorkerPool rq a n (wp_accepted p ++ (if signalled then [req] else [])) (wp_taken p)
   end) ->
  pool_inv pool' /\ wp_taken pool' = wp_taken p /\
  exists l, wp_accepted pool' = wp_accepted p ++ l /\ Forall (from_message [(data, len)]) l.
Proof.
  intros Hb Hp E. destruct (result o _).2 as [req|] eqn:Er.
  2: { subst pool'. split_and!; try done. exists []. by rewrite app_nil_r. }
  pose proof (server_cb_request o data len req Hb Er) as Hfrom.
  destruct p as [rq a n acc tk]. cbn [wp_rq wp_awake wp_waiting wp_accepted wp_taken] in *.
  destruct (enqueue_req rq (Some req)) as [rq' signalled] eqn:Eq. destruct signalled.
  - destruct (signal a n) as [a' n'] eqn:Es. subst pool'.
    pose proof (pool_enqueue rq a n acc tk req rq' Eq) as Hstep. rewrite Es in Hstep.
    split; [exact (pool_step_inv _ _ Hstep Hp)|]. split; [done|]. exists [req]. eauto.
  - subst pool'. pose proof (pool_overflow rq a n acc tk req rq' Eq) as Hstep.
    rewrite app_nil_r. split; [exact (pool_step_inv _ _ Hstep Hp)|]. split; [done|]. exists []. by rewrite app_nil_r.
Qed.

(** The request that is taken was accepted. *)
Lemma taken_accepted (p : worker_pool (H := handler)) r : pool_inv p -> r ∈ wp_taken p -> r ∈ wp_accepted p.
Proof.
  intros [_ _ _ Hf _] Hr.
  assert (Some r ∈ Some <$> wp_accepted p) as H.
  { rewrite Hf. apply elem_of_app. left. by apply list_elem_of_fmap_2. }
  apply list_elem_of_fmap in H as (x & [= ->] & Hx). done.
Qed.

Lemma wstep_inv w w' : (4 <= length stk)%nat -> wstep w w' -> winv w -> winv w'.
Proof.
  intros Hstk Hs [Hp Ht Hf Hj].
  destruct Hs as [w o data len pool' Hl Hb r Er|w rq r err a n acc tk Ew Hi rq' Ed|w rq err a n acc tk Ew Hi rq' Ed
    |w rq a n acc tk Ew Hn|w i r c k s a Ei Ha].
  - destruct (message_pool o data len (w_pool w) pool' Hb Hp Er) as (Hp' & Et & l & El & Hfl).
    split; cbn; [done|congruence| |done]. rewrite El. apply Forall_app. split.
    + eapply Forall_impl; [exact Hf|]. intros x. apply from_message_mono. set_solver.
    + eapply Forall_impl; [exact Hfl|]. intros x. apply from_message_mono. set_solver.
  - apply idle_awake in Hi. rewrite Ew in *. cbn in *.
    pose proof (pool_step_inv _ _ (pool_take rq a n acc tk rq' r err Hi Ed) Hp) as Hp'.
    split; cbn; [done|by rewrite Ht, fmap_app|done|]. apply Forall_app. split; [done|]. apply Forall_singleton.
    apply (from_message_job (w_arrived w)); [done|]. apply (proj1 (Forall_forall _ _) Hf).
    apply (taken_accepted _ r Hp'). cbn. set_solver.
  - apply idle_awake in Hi. rewrite Ew in *. cbn in *.
    pose proof (pool_step_inv _ _ (pool_wait rq a n acc tk rq' err Hi Ed) Hp) as Hp'. by split.
  - rewrite Ew in *. cbn in *. pose proof (pool_step_inv _ _ (pool_spurious_wakeup rq a n acc tk Hn) Hp) as Hp'.
    by split.
  - split; cbn; [done| |done|].
    + rewrite Ht, list_fmap_insert. cbn. rewrite list_insert_id; [done|].
      rewrite list_lookup_fmap, Ei. done.
    + apply Forall_insert; [done|]. pose proof (proj1 (Forall_lookup _ _) Hj i _ Ei) as Hok.
      intros id h Es Hb. cbn in *. by apply (Hok id h Es Hb).
Qed.

End workers_server.

(** What a program has done is the beginning of what it will have done. *)
Lemma events_grow s c a : exists e, events s c a = s ++ e.
Proof.
  destruct c; cbn [events]; eauto; destruct (last s) as [[]|]; eauto; exists []; by rewrite app_nil_r.
Qed.

Lemma rwp_prefix {R} (p : rio R) Q s :
  rwp p Q s -> exists r l, Q r (s ++ l) /\ (forall x, p = Ret x -> x = r /\ l = []).
Proof.
  revert s. induction p as [r|c k IH]; cbn; intros s Hp.
  - exists r, []. rewrite app_nil_r. split; [done|]. by intros x [= ->].
  - assert (libc_sane c (Ans 0 [] 0 None [] None None)) as Hsane by (destruct c; done).
    destruct (IH _ _ (Hp _ Hsane)) as (r & l & HQ & _).
    destruct (events_grow s c (Ans 0 [] 0 None [] None None)) as [e He].
    exists r, (e ++ l). rewrite app_assoc, <- He. done.
Qed.

Lemma released_prefix s l : released (s ++ l) -> released s.
Proof.
  destruct l as [|x l _] using rev_ind; [by rewrite app_nil_r|]. rewrite app_assoc.
  intros (pre & [<-|[E _]%app_inj_tail] & Hpre); exists s; (split; [by left|]).
  - apply Forall_app in Hpre as [Hpre _]. by apply Forall_app in Hpre as [Hpre _].
  - subst pre. by apply Forall_app in Hpre as [Hpre _].
Qed.

Lemma replied_prefix OK id trace_id r s l :
  replied OK id trace_id r (s ++ l) ->
  s `prefix_of` [Freed] \/ exists m, reply_for OK id trace_id m /\ s `prefix_of` [Sent m; Freed].
Proof.
  intros [[[E|E] _]|(m & E & Hm)].
  - apply app_nil in E as [-> _]. left. apply prefix_nil.
  - left. exists l. done.
  - right. exists m. split; [done|]. by exists l.
Qed.

(** What is seen of a request: its copy is released at most once, with nothing done
    after that, and once the handler has returned 0; and, but for the functions without
    a reply and unlink, there is no answer yet or one that belongs to the request, which
    has been sent once the handler has returned 0. *)
Definition answered (OK : Z) (r : req_t handler) (j : job) : Prop :=
  forall id h, req_service r = Some (RpcService id (Some h)) ->
    released (j_events j) /\ (id ∉ not_released -> j_prog j = Ret (Some 0) -> Freed ∈ j_events j) /\
    (id ∉ no_reply -> id <> UNLINK_ID ->
     (j_events j `prefix_of` [Freed] \/
      exists m, reply_for OK id (trace_of (req_data r)) m /\ j_events j `prefix_of` [Sent m; Freed]) /\
     (j_prog j = Ret (Some 0) -> exists m, reply_for OK id (trace_of (req_data r)) m /\ j_events j = [Sent m; Freed])).

Lemma job_ok_answered OK arrived stk j :
  from_message OK stk arrived (j_req j) -> job_ok OK j -> answered OK (j_req j) j.
Proof.
  intros (data & len & id' & h' & _ & Hb & Ed & _) Hok id h Es.
  assert (Forall (fun b => 0 <= b) (req_data (j_req j))) as Hb'.
  { rewrite Ed. apply Forall_take. eapply Forall_impl; [exact Hb|]. cbn. lia. }
  destruct (rwp_prefix _ _ _ (Hok id h Es Hb')) as (r & l & (Hrel & Hfr & Hrep) & Hr).
  split_and!; [by eapply released_prefix| |].
  - intros Hid Ep. destruct (Hr _ Ep) as [<- ->]. rewrite app_nil_r in Hfr. by apply Hfr.
  - intros Hno Hun. specialize (Hrep Hno Hun). split; [by eapply replied_prefix|].
    intros Ep. destruct (Hr _ Ep) as [<- ->]. rewrite app_nil_r in Hrep.
    destruct Hrep as [[_ ?]|(m & E & Hm)]; [done|eauto].
Qed.


(** ** All requests are served *)

Section drain.
Context (OK INVALID SUCCESS NO_MEM : Z) (stk : list Z).










Lemma reachable_winv rq w :
  (4 <= length stk)%nat -> Z.of_nat (length (rq_q rq)) = MAX_QUEUE_SIZE ->
  rtc (wstep OK INVALID SUCCESS NO_MEM stk) (WState (workers_init rq) [] []) w -> winv OK stk w.
Proof.
  intros Hstk Hl Hr.
  assert (winv OK stk (WState (workers_init rq) [] [])) as H0
    by (split; cbn; [by apply workers_init_inv|done|constructor|constructor]).
  revert H0. induction Hr as [|w1 w2 w3 Hs _ IH]; [done|]. intros H0. eapply IH, wstep_inv; done.
Qed.
End drain.

(** ** Properties *)

(** C3: With several workers every request is still served once and answered under its
    own name.  In every state reached by messages that arrive, workers that take
    requests, wait and wake up, and handlers that run call by call at the same time:
    the requests taken and those queued are the accepted ones in order; each accepted
    request is a copy of a message that arrived, with the handler of its function; a
    handler has sent nothing yet or one answer with the function and trace id of its
    own request, and has answered once it has returned 0; the copy is released at most
    once, by its handler and as the handler's last act, and is released once the handler
    has returned 0 (but for printf and freeaddrinfo); and some worker is awake while a
    request is queued.  The library gives [getaddrinfo] a list whose encoded length is
    an [int] and returns a count below 2^63 from [fread]. *)
Theorem workers_serve_requests (OK INVALID SUCCESS NO_MEM : Z) (stk : list Z) (rq : rpc_queue (req_t handler))
    (w : wstate) :
  (4 <= length stk)%nat -> Z.of_nat (length (rq_q rq)) = MAX_QUEUE_SIZE ->
  rtc (wstep OK INVALID SUCCESS NO_MEM stk) (WState (workers_init rq) [] []) w ->
  Some <$> wp_accepted (w_pool w) = (Some <$> (j_req <$> w_jobs w)) ++ pending (wp_rq (w_pool w)) /\
  (forall r, r ∈ wp_accepted (w_pool w) -> from_message OK stk (w_arrived w) r) /\
  (forall j, j ∈ w_jobs w -> answered OK (j_req j) j) /\
  (pending (wp_rq (w_pool w)) <> [] -> 0 < wp_awake (w_pool w)).
Proof.
  intros Hstk Hl Hr.
  destruct (reachable_winv OK INVALID SUCCESS NO_MEM stk rq w Hstk Hl Hr) as [Hp Ht Hf Hj].
  pose proof (proj1 (Forall_forall _ _) Hf) as Hf'. split_and!; [| |
    |by destruct Hp].
  - rewrite <- Ht. by destruct Hp.
  - done.
  - intros j Hin. apply (job_ok_answered OK (w_arrived w) stk); [|by apply (proj1 (Forall_forall _ _) Hj)].
    apply Hf', (taken_accepted _ _ Hp). rewrite Ht. by apply list_elem_of_fmap_2.
Qed.


(** A request to close a file arrives and is taken by a worker. *)
Abbreviation stk12 := (replicate 12 0).
Abbreviation close_data := (le_bytes 8 CLOSE_ID ++ le_bytes 4 77 ++ le_bytes 4 5).
Abbreviation close_req :=
  (Req close_data (Some (RpcService CLOSE_ID (Some (rpmsg_handle_close 0 stk12)))) 0).
Abbreviation empty_rq := (RpcQueue (replicate 256 (None : option (req_t handler))) 0 0 0).
Abbreviation queued := (enqueue_req (rq_init empty_rq MAX_QUEUE_SIZE) (Some close_req)).

Lemma close_message_queued :
  (result (fun _ _ => Ans 1 [] 0 None [] None None) (rpmsg_rpc_server_cb_mw 0 1 0 2 stk12 close_data 16)).2 =
    Some close_req.
Proof. reflexivity. Qed.

Lemma close_message_step :
  wstep 0 1 0 2 stk12 (WState (workers_init empty_rq) [] [])
    (WState (WorkerPool queued.1 5 0 [close_req] []) [] [(close_data, 16)]).
Proof.
  apply (wstep_message 0 1 0 2 stk12 (WState (workers_init empty_rq) [] []) (fun _ _ => Ans 1 [] 0 None [] None None)
    close_data 16); [vm_compute; done|apply (bool_decide_unpack _); by vm_compute|].
  rewrite close_message_queued. reflexivity.
Qed.

Lemma workers_serve_requests_witness :
  let w := WState (WorkerPool queued.1 5 0 [close_req] []) [] [(close_data, 16)] in
  Some <$> wp_accepted (w_pool w) = (Some <$> (j_req <$> w_jobs w)) ++ pending (wp_rq (w_pool w)) /\
  (pending (wp_rq (w_pool w)) <> [] -> 0 < wp_awake (w_pool w)).
Proof.
  intros w.
  destruct (workers_serve_requests 0 1 0 2 stk12 empty_rq w) as (Hq & _ & _ & Ha); [cbn; lia|done| |done].
  apply rtc_once, close_message_step.
Defined.


(** ** Copies that are never released *)

(** Printing keeps the copy of the request. *)
Theorem printf_keeps_request (o : oracle rcall ans) (req : list Z) :
  observe events [] (trace o (rpmsg_handle_printf (Some req) true true)) = [].
Proof. done. Qed.

(** A message with an unknown function is refused after it was copied; the copy is not
    freed. *)
Theorem unknown_function_keeps_copy :
  let o := fun (h : history rcall ans) (c : rcall) => Ans 1 [] 0 None [] None None in
  let p := rpmsg_rpc_server_cb_mw 0 1 0 2 stk12 (le_bytes 8 200) 8 in
  (result o p).2 = None /\
  fst <$> trace o p = [Libc "malloc" [I 8]; RpmsgSend (le_bytes 4 200 ++ le_bytes 4 1)].
Proof. by vm_compute. Qed.

(** A request that finds the queue full is dropped: the client OS gets no answer. *)
Theorem full_queue_drops_request (rq : rpc_queue (req_t handler)) (req : req_t handler) :
  queue_inv rq -> Z.of_nat (length (pending rq)) = rq_size rq - 1 -> enqueue_req rq (Some req) = (rq, false).
Proof. intros Hi Hf. unfold enqueue_req, enqueue. by rewrite enqueue_full. Qed.
