(* ===== verification/Pty.v ===== *)
(** * The terminal service of micad ([mica/micad/services/pty/rpmsg_pty.c])

    Each rpmsg-tty endpoint of a client OS gets a pseudo terminal under
    /dev/ttyRPMSG<n>.  Text from the client goes to the terminal with carriage
    returns added; a thread sends what is typed to the client. *)

From stdpp Require Import pretty.
From S2P Require Import Prelude.

Definition RPMSG_TTY_NAME : string := "rpmsg-tty".
Definition RPMSG_TTY_DEV : string := "/dev/ttyRPMSG".
Definition RPMSG_TTY_DEV_LEN : nat := 20.
Definition RPMSG_TTY_MAX_DEV : nat := 10.
Definition BUF_SIZE : Z := 256.
Definition POLLIN : Z := 1.

Inductive pcall :=
| MallocSvc
| FreeSvc
| MallocList
| FreeList
| MallocMsg (size : nat)
| FreeMsg
| Openpt
| Grantpt (fd : Z)
| Unlockpt (fd : Z)
| Ptsname (fd : Z)
| Unlink (path : string)
| Symlink (target path : string)
| OpenSlave (path : string)
| Close (fd : Z)
| CreateEpt (name : string) (src dst : Z)
| DestroyEpt
| ReadActive
| WriteActive (v : Z)
| Write (fd : Z) (bytes : list Z)
| Poll (fd : Z)
| Read (fd size : Z)
| RpmsgSend (bytes : list Z)
| PthreadCreate
| PthreadDetach
| PthreadCancel
| PthreadExit.

(** The result, [revents], a name and bytes that were read. *)
Record pans := Pans { p_ret : Z; p_rev : Z; p_text : string; p_bytes : list Z }.
Abbreviation pio := (io pcall pans).

(** [struct rpmsg_tty_service]. *)
Record tty_service := TtyService {
  ept_name : string;
  pty_master_fd : Z;
  pty_slave_fd : Z;
  tty_index : Z;
  tty_dev : string;
}.

(** [tty_id] and the list of a client's terminals. *)
Record tty_state := TtyState { tty_id : list Z; tty_dev_list : list tty_service }.
Definition tty_id_init : list Z := replicate RPMSG_TTY_MAX_DEV (-1).

(** The service that is unbound is number [i] of the list.  It leaves the list, so its
    descriptors, set to -1 here, are not seen again. *)
Definition rpmsg_tty_unbind (st : tty_state) (i : nat) (svc : tty_service) : pio tty_state :=
  _ <- call DestroyEpt;;
  _ <- call (Unlink (tty_dev svc));;
  _ <- call (Close (pty_master_fd svc));;
  _ <- call (Close (pty_slave_fd svc));;
  _ <- call (WriteActive 0);;
  Ret (TtyState (<[Z.to_nat (tty_index svc) := -1]> (tty_id st)) (delete i (tty_dev_list st))).

(** The loop from index [i] on. *)
Fixpoint new_index_from (i : nat) (ids : list Z) : option nat :=
  match ids with
  | [] => None
  | x :: ids => if x =? -1 then Some i else new_index_from (S i) ids
  end.
Definition rpmsg_tty_new_index (tty_id : list Z) : Z * list Z :=
  match new_index_from 0 tty_id with
  | Some i => (Z.of_nat i, <[i := 1]> tty_id)
  | None => (-1, tty_id)
  end.

Definition tty_dev_name (index : Z) : string :=
  strprefix (RPMSG_TTY_DEV_LEN - 1) (RPMSG_TTY_DEV +:+ pretty index).

Definition create_tty_device (ids : list Z) (svc : tty_service) : pio (Z * tty_service * list Z) :=
  let '(ret, ids) := rpmsg_tty_new_index ids in
  if ret =? -1 then Ret (ret, svc, ids)
  else
    let svc := TtyService (ept_name svc) (pty_master_fd svc) (pty_slave_fd svc) ret (tty_dev svc) in
    m <- call Openpt;;
    if p_ret m =? -1 then Ret (p_ret m, svc, ids)
    else
      let master := p_ret m in
      let err (ret : Z) (svc : tty_service) : pio (Z * tty_service * list Z) :=
        _ <- call (Close master);;
        Ret (ret, svc, <[Z.to_nat (tty_index svc) := -1]> ids) in
      g <- call (Grantpt master);;
      if negb (p_ret g =? 0) then err (p_ret g) svc
      else
        u <- call (Unlockpt master);;
        if negb (p_ret u =? 0) then err (p_ret u) svc
        else
          n <- call (Ptsname master);;
          if negb (p_ret n =? 0) then err (p_ret n) svc
          else
            let svc := TtyService (ept_name svc) (pty_master_fd svc) (pty_slave_fd svc) (tty_index svc)
                         (tty_dev_name (tty_index svc)) in
            _ <- call (Unlink (tty_dev svc));;
            l <- call (Symlink (p_text n) (tty_dev svc));;
            if negb (p_ret l =? 0) then err (p_ret l) svc
            else
              s <- call (OpenSlave (p_text n));;
              if p_ret s =? -1 then _ <- call (Unlink (p_text n));; err (p_ret l) svc
              else
                Ret (p_ret l, TtyService (ept_name svc) master (p_ret s) (tty_index svc) (tty_dev svc), ids).

(** The loop that writes a message; [None]: [fuel] calls were not enough. *)
Fixpoint tty_write (fuel : nat) (fd : Z) (msg : list Z) : pio (option unit) :=
  match fuel with
  | O => Ret None
  | S fuel =>
      match msg with
      | [] => Ret (Some tt)
      | _ =>
          w <- call (Write fd msg);;
          if p_ret w <? 0 then Ret (Some tt) else tty_write fuel fd (drop (Z.to_nat (p_ret w)) msg)
      end
  end.

(** The text the loop leaves in the array of [len * 2] bytes, which holds [junk] at
    first. *)
Definition tty_translate (data junk : list Z) : list Z :=
  let '(i, j, msg) := crlf_fill data 0 0 junk in take (i + j) msg.

Definition rpmsg_rx_tty_callback (fuel : nat) (svc : tty_service) (data junk : list Z) : pio (option Z) :=
  a <- call ReadActive;;
  if negb (p_ret a =? 1) then Ret (Some (- EAGAIN))
  else
    m <- call (MallocMsg (length data * 2));;
    if p_ret m =? 0 then Ret (Some (- ENOMEM))
    else
      w <- tty_write fuel (pty_master_fd svc) (tty_translate data junk);;
      match w with
      | None => Ret None
      | Some _ => _ <- call FreeMsg;; Ret (Some 0)
      end.

(** At most [fuel] rounds of the thread. *)
Fixpoint tty_tx_loop (fuel : nat) (svc : tty_service) : pio unit :=
  match fuel with
  | O => Ret tt
  | S fuel =>
      a <- call ReadActive;;
      if p_ret a =? 0 then Ret tt
      else
        r <- call (Poll (pty_master_fd svc));;
        if p_ret r =? -1 then Ret tt
        else if negb (Z.land (p_rev r) POLLIN =? 0) then
          b <- call (Read (pty_master_fd svc) BUF_SIZE);;
          if p_ret b <=? 0 then Ret tt
          else
            s <- call (RpmsgSend (take (Z.to_nat (p_ret b)) (p_bytes b)));;
            if p_ret s <? 0 then Ret tt else tty_tx_loop fuel svc
        else tty_tx_loop fuel svc
  end.
(** [i]: where the terminal is in the list. *)
Definition rpmsg_tty_tx_task (fuel : nat) (st : tty_state) (i : nat) (svc : tty_service) : pio tty_state :=
  _ <- call (WriteActive 1);;
  tty_tx_loop fuel svc;;;
  a <- call ReadActive;;
  st <- (if negb (p_ret a =? 0) then rpmsg_tty_unbind st i svc else Ret st);;
  _ <- call FreeSvc;;
  _ <- call PthreadExit;;
  Ret st.

(** [fresh]: the indeterminate contents of the new service. *)
Definition rpmsg_tty_init (fresh : tty_service) (st : tty_state) (name : string) (remote_addr remote_dest : Z)
    : pio tty_state :=
  m <- call MallocSvc;;
  if p_ret m =? 0 then Ret st
  else
    r <- create_tty_device (tty_id st) fresh;;
    let '(ret, svc, ids) := r in
    let st := TtyState ids (tty_dev_list st) in
    if negb (ret =? 0) then _ <- call FreeSvc;; Ret st
    else
      e <- call (CreateEpt name remote_dest remote_addr);;
      if negb (p_ret e =? 0) then _ <- call FreeSvc;; Ret st
      else
        let svc := TtyService name (pty_master_fd svc) (pty_slave_fd svc) (tty_index svc) (tty_dev svc) in
        let free_ept : pio tty_state := _ <- call DestroyEpt;; _ <- call FreeSvc;; Ret st in
        t <- call PthreadCreate;;
        if negb (p_ret t =? 0) then free_ept
        else
          d <- call PthreadDetach;;
          if negb (p_ret d =? 0) then _ <- call PthreadCancel;; free_ept
          else Ret (TtyState ids (tty_dev_list st ++ [svc])).

Definition rpmsg_tty_match (name : string) : bool :=
  strncmp0 name RPMSG_TTY_NAME (Nat.min (String.length name) (String.length RPMSG_TTY_NAME)).

(** [str] and what [snprintf] adds to it. *)
Fixpoint get_rpmsg_tty_dev (str : string) (size : nat) (l : list tty_service) : string :=
  match l with
  | [] => str
  | svc :: l =>
      get_rpmsg_tty_dev
        (str +:+ strprefix (size - String.length str - 1) (ept_name svc +:+ "(" +:+ tty_dev svc +:+ ") ")) size l
  end.

Definition create_tty_dev_lists : pio Z :=
  m <- call MallocList;; Ret (if p_ret m =? 0 then - ENOMEM else 0).

Fixpoint unbind_all (st : tty_state) (l : list tty_service) : pio tty_state :=
  match l with
  | [] => Ret st
  | svc :: l => st <- rpmsg_tty_unbind st 0 svc;; unbind_all st l
  end.
Definition remove_tty_dev_lists (st : tty_state) : pio tty_state :=
  st <- unbind_all st (tty_dev_list st);; _ <- call FreeList;; Ret st.

(** ** Output to the terminal *)

(** The bytes the terminal took, whether a write failed, and the arrays held. *)
Record output := Output { out_bytes : list Z; out_failed : bool; out_held : Z }.
Definition written (s : output) (c : pcall) (a : pans) : output :=
  match c with
  | Write _ bytes =>
      if p_ret a <? 0 then Output (out_bytes s) true (out_held s)
      else Output (out_bytes s ++ take (Z.to_nat (p_ret a)) bytes) (out_failed s) (out_held s)
  | MallocMsg _ => if p_ret a =? 0 then s else Output (out_bytes s) (out_failed s) (out_held s + 1)
  | FreeMsg => Output (out_bytes s) (out_failed s) (out_held s - 1)
  | _ => s
  end.
(** A write fails, or takes at least one byte and no more than it is given. *)
Definition write_answers (c : pcall) (a : pans) : Prop :=
  match c with
  | Write _ bytes => bytes <> [] -> p_ret a < 0 \/ 0 < p_ret a <= Z.of_nat (length bytes)
  | _ => True
  end.

(** What has been written of [msg] when the loop ends. *)
Definition wrote (msg : list Z) (s s' : output) : Prop :=
  out_held s' = out_held s /\
  exists n, out_bytes s' = out_bytes s ++ take n msg /\ (out_failed s' = false -> take n msg = msg).

Lemma tty_write_wpv fuel fd msg s :
  (length msg < fuel)%nat ->
  wpv written write_answers (tty_write fuel fd msg) (fun r s' => r = Some tt /\ wrote msg s s') s.
Proof.
  revert msg s. induction fuel as [|fuel IH]; intros msg s Hf; [lia|].
  cbn [tty_write]. destruct msg as [|b msg].
  { split; [done|]. split; [done|]. exists 0%nat. cbn. by rewrite app_nil_r. }
  cbn [bind call wpv]. intros w Hw. cbn [written write_answers] in *.
  destruct (Hw ltac:(done)) as [Hneg|Hpos].
  { rewrite (proj2 (Z.ltb_lt _ _)) by done. cbn [wpv]. split; [done|]. split; [done|].
    exists 0%nat. cbn. by rewrite app_nil_r. }
  rewrite (proj2 (Z.ltb_ge _ _)) by lia.
  eapply wpv_mono; [apply IH; rewrite length_drop; cbn in *; lia|].
  intros r s' [-> (Hh & n & Hb & Hn)]. split; [done|]. split; [done|]. exists (Z.to_nat (p_ret w) + n)%nat.
  rewrite Hb. cbn [out_bytes]. rewrite <- app_assoc, take_take_drop. split; [done|].
  intros E. rewrite <- take_take_drop, Hn, take_drop by done. done.
Qed.

Lemma tty_translate_crlf data junk :
  length junk = (length data * 2)%nat -> tty_translate data junk = crlf data.
Proof.
  intros Hj. unfold tty_translate. pose proof (length_crlf data).
  destruct (crlf_fill_spec data 0 0 [] junk) as (i & j & junk' & E & El & _); [done|lia|].
  cbn [app] in E, El. rewrite E, El. apply take_app_length.
Qed.

(** C38: What the terminal service does with a message of the client OS.  If the
    terminal is not active, the result is -EAGAIN, and no memory is allocated and
    nothing is written; if it is active and there is no memory, the result is -ENOMEM
    and nothing is written.  Otherwise the text, with a carriage return before every
    newline, goes to the terminal in order, through as many write calls as the terminal
    asks for: all of it if no write fails, and else a prefix; the result is 0 in both
    cases, and the memory is freed.  The array of [2 * len] bytes is not overrun, and
    [2 * len + 1] rounds of the write loop are enough if no write takes 0 bytes. *)
Theorem tty_output_complete (o : oracle pcall pans) (fuel : nat) (svc : tty_service) (data junk : list Z) :
  (forall h c, write_answers c (o h c)) -> length junk = (length data * 2)%nat ->
  (2 * length data < fuel)%nat ->
  let p := rpmsg_rx_tty_callback fuel svc data junk in
  let active := o [] ReadActive in
  let memory := o [(ReadActive, active)] (MallocMsg (length data * 2)) in
  let out := observe written (Output [] false 0) (trace o p) in
  (length (tty_translate data junk) <= length junk)%nat /\ out_held out = 0 /\
  if p_ret active =? 1 then
    if p_ret memory =? 0 then result o p = Some (- ENOMEM) /\ out_bytes out = []
    else result o p = Some 0 /\ out_bytes out `prefix_of` crlf data /\
      (out_failed out = false -> out_bytes out = crlf data)
  else result o p = Some (- EAGAIN) /\ trace o p = [(ReadActive, active)] /\ out_bytes out = [].
Proof.
  intros Ho Hj Hf p active memory out. pose proof (length_crlf data) as Hl.
  rewrite tty_translate_crlf by done. split; [lia|].
  unfold out, trace, result, p, rpmsg_rx_tty_callback. cbn [bind call exec app]. fold active.
  destruct (p_ret active =? 1); cbn [negb exec fst snd]; [|done].
  cbn [bind call exec]. fold memory. destruct (p_ret memory =? 0) eqn:Em.
  { cbn. by rewrite Em. }
  rewrite tty_translate_crlf, exec_bind by done.
  set (h := [(ReadActive, active)] ++ [(MallocMsg (length data * 2), memory)]).
  assert (observe written (Output [] false 0) h = Output [] false 1) as Hh by (cbn; by rewrite Em).
  pose proof (wpv_sound written write_answers o (tty_write fuel (pty_master_fd svc) (crlf data)) _
    (Output [] false 0) h Ho (tty_write_wpv fuel (pty_master_fd svc) (crlf data) _ ltac:(lia))) as Hw. rewrite Hh in Hw.
  destruct (exec o (tty_write _ _ _) h) as [r h']. cbn [fst snd] in Hw. destruct Hw as [-> (Hheld & n & Hb & Hn)].
  cbn [bind call exec fst snd]. rewrite observe_snoc. cbn [written out_held out_bytes out_failed] in *.
  rewrite Hb. cbn [app]. split; [lia|]. split; [done|]. split; [apply prefix_take|done].
Qed.

(** An active terminal that takes one byte at a time. *)
Abbreviation byte_by_byte := (fun (_ : history pcall pans) (_ : pcall) => Pans 1 0 "" []).

Lemma tty_output_complete_witness :
  let p := rpmsg_rx_tty_callback 7 (TtyService "rpmsg-tty" 5 6 0 "/dev/ttyRPMSG0") [104; 10; 105] (replicate 6 9) in
  result byte_by_byte p = Some 0 /\
  out_bytes (observe written (Output [] false 0) (trace byte_by_byte p)) = [104; 13; 10; 105].
Proof.
  intros p. destruct (tty_output_complete byte_by_byte 7 (TtyService "rpmsg-tty" 5 6 0 "/dev/ttyRPMSG0")
    [104; 10; 105] (replicate 6 9)) as (_ & _ & Hr & _ & Hb); [|done|cbn; lia|].
  - intros h c. destruct c; try done. cbn. intros Hbs. destruct bytes; [done|]. cbn. lia.
  - split; [exact Hr|]. apply Hb. by vm_compute.
Defined.

(** ** Terminal numbers *)

(** The slave side of a terminal that was just created can be opened. *)
Definition slave_opens (c : pcall) (a : pans) : Prop :=
  match c with OpenSlave _ => p_ret a <> -1 | _ => True end.
Abbreviation iwp := (wpv (fun (_ : unit) (_ : pcall) (_ : pans) => tt) slave_opens).

(** Each terminal has a number of its own, and the number is marked as taken. *)
Record tty_inv (st : tty_state) : Prop := TtyInv {
  ti_len : length (tty_id st) = RPMSG_TTY_MAX_DEV;
  ti_taken : forall svc, svc ∈ tty_dev_list st ->
    0 <= tty_index svc /\ tty_id st !! Z.to_nat (tty_index svc) = Some 1 /\ tty_dev svc = tty_dev_name (tty_index svc);
  ti_nodup : NoDup (tty_index <$> tty_dev_list st);
}.

Lemma new_index_from_Some i ids k :
  new_index_from i ids = Some k -> (i <= k)%nat /\ ids !! (k - i)%nat = Some (-1).
Proof.
  revert i. induction ids as [|x ids IH]; intros i; cbn; [done|].
  destruct (Z.eqb_spec x (-1)) as [->|]; [intros [= <-]; by rewrite Nat.sub_diag|].
  intros [Hle Hk]%IH. split; [lia|]. by replace (k - i)%nat with (S (k - S i)) by lia.
Qed.

(** A free number [k] may be marked and given back. *)
Lemma tty_inv_ids st ids k v :
  tty_inv st -> tty_id st !! k = Some (-1) -> ids = <[k := v]> (tty_id st) -> tty_inv (TtyState ids (tty_dev_list st)).
Proof.
  intros [Hl Ht Hn] Hk ->. split; cbn; [by rewrite length_insert| |done].
  intros svc Hs. destruct (Ht svc Hs) as (H0 & H1 & H2). split_and!; try done.
  rewrite list_lookup_insert_ne; [done|]. intros ->. rewrite H1 in Hk. done.
Qed.

Lemma create_tty_device_iwp st fresh u :
  tty_inv st ->
  iwp (create_tty_device (tty_id st) fresh)
    (fun r _ => let '(ret, svc, ids) := r in
       tty_inv (TtyState ids (tty_dev_list st)) /\
       (ret = 0 -> tty_id st !! Z.to_nat (tty_index svc) = Some (-1) /\ 0 <= tty_index svc /\
          ids !! Z.to_nat (tty_index svc) = Some 1 /\ tty_dev svc = tty_dev_name (tty_index svc))) u.
Proof.
  intros Hi. unfold create_tty_device, rpmsg_tty_new_index.
  destruct (new_index_from 0 (tty_id st)) as [k|] eqn:Ek; [|cbn; split; [by destruct st|done]].
  apply new_index_from_Some in Ek as [_ Ek]. rewrite Nat.sub_0_r in Ek.
  assert (tty_id st !! k = Some (-1)) as Hk by done.
  assert (tty_inv (TtyState (<[k := 1]> (tty_id st)) (tty_dev_list st))) as H1 by (by eapply tty_inv_ids).
  assert (tty_inv (TtyState (<[k := -1]> (<[k := 1]> (tty_id st))) (tty_dev_list st))) as H2.
  { rewrite list_insert_insert_eq. by eapply tty_inv_ids. }
  rewrite (proj2 (Z.eqb_neq _ _)) by lia. cbn [tty_index]. rewrite !Nat2Z.id.
  cbn [bind call wpv]. intros m _. case_match; [bool_to_Prop; split; [done|]; intros; lia|].
  assert (forall ret svc, ret <> 0 ->
    iwp (_ <- call (Close (p_ret m));; Ret (ret, svc, <[k := -1]> (<[k := 1]> (tty_id st))))
    (fun r _ => let '(ret, svc, ids) := r in
       tty_inv (TtyState ids (tty_dev_list st)) /\
       (ret = 0 -> tty_id st !! Z.to_nat (tty_index svc) = Some (-1) /\ 0 <= tty_index svc /\
          ids !! Z.to_nat (tty_index svc) = Some 1 /\ tty_dev svc = tty_dev_name (tty_index svc))) tt) as Herr.
  { intros ret svc Hr. cbn. by intros _ _. }
  cbn [bind call wpv]. intros g _. case_match; [bool_to_Prop; by apply Herr|].
  cbn [bind call wpv]. intros uu _. case_match; [bool_to_Prop; by apply Herr|].
  cbn [bind call wpv]. intros n _. case_match; [bool_to_Prop; by apply Herr|].
  cbn [bind call wpv]. intros x _ l _. case_match; [bool_to_Prop; by apply Herr|].
  cbn [bind call wpv slave_opens]. intros s Hs. rewrite (proj2 (Z.eqb_neq _ _)) by done.
  cbn [wpv tty_index tty_dev]. rewrite Nat2Z.id. split; [done|]. intros _. split_and!; [done|lia| |done].
  apply list_lookup_insert_eq. by eapply lookup_lt_Some.
Qed.

Lemma rpmsg_tty_init_iwp fresh st name addr dest u :
  tty_inv st -> iwp (rpmsg_tty_init fresh st name addr dest) (fun st' _ => tty_inv st') u.
Proof.
  intros Hi. unfold rpmsg_tty_init. cbn [bind call wpv]. intros m _. case_match; [done|].
  apply wpv_bind. eapply wpv_mono; [by apply create_tty_device_iwp|]. intros [[ret svc] ids] u' [Hi' Hret].
  case_match; [by cbn|]. bool_to_Prop. specialize (Hret ltac:(done)) as (Hfree & Hge & Hone & Hdev).
  cbn [bind call wpv]. intros e _. case_match; [by cbn|].
  cbn [bind call wpv]. intros t _. case_match; [by cbn|].
  cbn [bind call wpv]. intros d _. case_match; [by cbn|]. cbn.
  destruct Hi as [Hl Ht Hn], Hi' as [Hl' Ht' _]. split; cbn.
  - done.
  - intros s [Hs|Hs]%elem_of_app; [by apply Ht'|]. apply list_elem_of_singleton in Hs as ->. done.
  - rewrite fmap_app. cbn. apply NoDup_app. split_and!; [done| |apply NoDup_singleton].
    intros i (s & -> & Hs)%list_elem_of_fmap E%list_elem_of_singleton.
    destruct (Ht s Hs) as (_ & Htk & _). rewrite E, Hfree in Htk. done.
Qed.

Lemma rpmsg_tty_unbind_iwp st i svc u :
  tty_inv st -> tty_dev_list st !! i = Some svc ->
  iwp (rpmsg_tty_unbind st i svc)
    (fun st' _ => tty_inv st' /\ tty_dev_list st' = delete i (tty_dev_list st)) u.
Proof.
  intros [Hl Ht Hn] Hi. unfold rpmsg_tty_unbind. cbn. intros _ _ _ _ _ _ _ _ _ _. split; [|done].
  pose proof (delete_Permutation _ _ _ Hi) as Hp. rewrite Hp in Hn. cbn in Hn. apply NoDup_cons in Hn as [Hni Hn].
  split; cbn; [by rewrite length_insert| |done]. intros s Hs.
  assert (s ∈ tty_dev_list st) as Hs' by (rewrite Hp; by right).
  destruct (Ht s Hs') as (H0 & H1 & H2). split_and!; try done.
  destruct (Ht svc (list_elem_of_lookup_2 _ _ _ Hi)) as (H0' & _).
  rewrite list_lookup_insert_ne; [done|]. intros E. apply Hni.
  replace (tty_index svc) with (tty_index s) by lia. by apply list_elem_of_fmap_2.
Qed.

Lemma remove_tty_dev_lists_iwp st u :
  tty_inv st -> iwp (remove_tty_dev_lists st) (fun st' _ => tty_inv st' /\ tty_dev_list st' = []) u.
Proof.
  intros Hi. unfold remove_tty_dev_lists. apply wpv_bind.
  eapply (wpv_mono _ _ _ (fun st' _ => tty_inv st' /\ tty_dev_list st' = [])); [|by cbn; intros].
  remember (tty_dev_list st) as l eqn:E. symmetry in E. revert st u Hi E.
  induction l as [|svc l IH]; intros st u Hi E; cbn [unbind_all]; [done|].
  apply wpv_bind. eapply wpv_mono; [apply rpmsg_tty_unbind_iwp; [done|by rewrite E]|].
  intros st' u' [Hi' El]. apply IH; [done|]. by rewrite El, E.
Qed.

(** Endpoints come and go. *)
Inductive tty_op := TtyBind (name : string) (addr dest : Z) | TtyUnbind (i : nat) | TtyRemove.
Definition run_op (fresh : tty_service) (st : tty_state) (op : tty_op) : pio tty_state :=
  match op with
  | TtyBind name addr dest => rpmsg_tty_init fresh st name addr dest
  | TtyUnbind i =>
      match tty_dev_list st !! i with Some svc => rpmsg_tty_unbind st i svc | None => Ret st end
  | TtyRemove => remove_tty_dev_lists st
  end.
Fixpoint run_ops (fresh : tty_service) (st : tty_state) (ops : list tty_op) : pio tty_state :=
  match ops with [] => Ret st | op :: ops => st <- run_op fresh st op;; run_ops fresh st ops end.

Lemma run_ops_iwp fresh st ops u : tty_inv st -> iwp (run_ops fresh st ops) (fun st' _ => tty_inv st') u.
Proof.
  revert st u. induction ops as [|op ops IH]; intros st u Hi; [done|]. cbn [run_ops]. apply wpv_bind.
  eapply (wpv_mono _ _ _ (fun st' _ => tty_inv st')); [|intros st' u' H; by apply IH].
  destruct op as [name addr dest|i|]; cbn [run_op].
  - by apply rpmsg_tty_init_iwp.
  - case_match; [|done]. eapply wpv_mono; [by apply rpmsg_tty_unbind_iwp|]. by intros ? ? [].
  - eapply wpv_mono; [by apply remove_tty_dev_lists_iwp|]. by intros ? ? [].
Qed.

Lemma tty_dev_name_inj i j : 0 <= i < 10 -> 0 <= j < 10 -> tty_dev_name i = tty_dev_name j -> i = j.
Proof.
  intros Hi Hj. assert (forall k, 0 <= k < 10 -> k ∈ seqZ 0 10) as Hin by (intros; apply elem_of_seqZ; lia).
  assert (NoDup (tty_dev_name <$> seqZ 0 10)) as Hn
    by (apply (bool_decide_unpack _); by vm_compute).
  intros E. apply (NoDup_fmap_elem_inj tty_dev_name (seqZ 0 10)); auto.
Qed.

(** Terminals never share a number: after any sequence of endpoints bound,
    unbound and removed, and whatever the calls answer, there are at most ten
    terminals, their numbers are between 0 and 9 and pairwise different, and so are
    their device names.  The slave side of a new terminal must open. *)
Theorem tty_numbers_distinct (o : oracle pcall pans) (fresh : tty_service) (ops : list tty_op) :
  (forall h c, slave_opens c (o h c)) ->
  let l := tty_dev_list (result o (run_ops fresh (TtyState tty_id_init []) ops)) in
  NoDup (tty_index <$> l) /\ NoDup (tty_dev <$> l) /\
  (forall svc, svc ∈ l -> 0 <= tty_index svc < 10 /\ tty_dev svc = tty_dev_name (tty_index svc)) /\
  (length l <= 10)%nat.
Proof.
  intros Ho l.
  assert (tty_inv (result o (run_ops fresh (TtyState tty_id_init []) ops))) as [Hl Ht Hn].
  { apply (wpv_result_trace (fun _ _ _ => tt) slave_opens o _ (fun st' _ => tty_inv st') tt Ho). apply run_ops_iwp.
    split; [done|by intros ? ?%elem_of_nil|apply NoDup_nil_2]. }
  fold l in Ht, Hn.
  assert (forall svc, svc ∈ l -> 0 <= tty_index svc < 10 /\ tty_dev svc = tty_dev_name (tty_index svc)) as Hr.
  { intros svc Hs. destruct (Ht svc Hs) as (H0 & H1 & H2). apply lookup_lt_Some in H1. rewrite Hl in H1.
    unfold RPMSG_TTY_MAX_DEV in H1. split; [lia|done]. }
  split_and!; [done| |done|].
  - apply NoDup_fmap_2_strong; [|by eapply NoDup_fmap_1]. intros x y Hx Hy E.
    destruct (Hr x Hx) as [Hx' Ex], (Hr y Hy) as [Hy' Ey].
    apply (NoDup_fmap_elem_inj tty_index l); try done. apply tty_dev_name_inj; try done. congruence.
  - rewrite <- (length_fmap tty_index l). change 10%nat with (length (seqZ 0 10)).
    apply submseteq_length, NoDup_submseteq; [done|].
    intros i (s & -> & Hs)%list_elem_of_fmap. apply elem_of_seqZ. destruct (Hr s Hs). lia.
Qed.

(** Every call succeeds. *)
Abbreviation zero_answers := (fun (h : history pcall pans) (c : pcall) =>
  match c with
  | Openpt => Pans (Z.of_nat (length h)) 0 "" []
  | MallocSvc => Pans 1 0 "" []
  | OpenSlave _ => Pans 9 0 "" []
  | _ => Pans 0 0 "/dev/pts/3" []
  end).
Abbreviation fresh0 := (TtyService "" 0 0 0 "").
Abbreviation two_terminals :=
  [TtyBind "rpmsg-tty0" 1 1; TtyBind "rpmsg-tty1" 2 2; TtyUnbind 0; TtyBind "rpmsg-tty2" 3 3].

Lemma tty_numbers_distinct_witness :
  let l := tty_dev_list (result zero_answers (run_ops fresh0 (TtyState tty_id_init []) two_terminals)) in
  (tty_index <$> l) = [1; 0] /\ NoDup (tty_dev <$> l).
Proof.
  split; [by vm_compute|].
  apply (tty_numbers_distinct zero_answers fresh0 two_terminals). by intros h [].
Defined.

(** ** Errors that are not handled *)

(** If the slave side does not open, [ret] is still 0 from [symlink], and the
    terminal, whose master is closed and whose number is free, is used. *)
Theorem slave_failure_accepted :
  let o := fun h c => match c with OpenSlave _ => Pans (-1) 0 "" [] | _ => zero_answers h c end in
  let st := result o (rpmsg_tty_init fresh0 (TtyState tty_id_init []) "rpmsg-tty" 1 1) in
  length (tty_dev_list st) = 1%nat /\ tty_id st = tty_id_init.
Proof. by vm_compute. Qed.

(** Two terminals then have the same number. *)
Theorem slave_failure_shares_number :
  let o := fun h c => match c with OpenSlave _ => Pans (-1) 0 "" [] | _ => zero_answers h c end in
  let st := result o (run_ops fresh0 (TtyState tty_id_init []) [TtyBind "a" 1 1; TtyBind "b" 2 2]) in
  tty_index <$> tty_dev_list st = [0; 0].
Proof. by vm_compute. Qed.

(** A number is taken for good if no pseudo terminal can be opened. *)
Theorem openpt_failure_loses_number :
  let o := fun (h : history pcall pans) (c : pcall) => match c with Openpt => Pans (-1) 0 "" [] | _ => zero_answers h c end in
  let st := result o (rpmsg_tty_init fresh0 (TtyState tty_id_init []) "rpmsg-tty" 1 1) in
  tty_dev_list st = [] /\ tty_id st = 1 :: replicate 9 (-1).
Proof. by vm_compute. Qed.

Definition is_close (c : pcall) : bool := match c with Close _ => true | _ => false end.

(** If the endpoint cannot be created, both descriptors stay open, and the number
    stays taken. *)
Theorem endpoint_failure_leaks_terminal :
  let o := fun (h : history pcall pans) (c : pcall) => match c with CreateEpt _ _ _ => Pans (-1) 0 "" [] | _ => zero_answers h c end in
  let p := rpmsg_tty_init fresh0 (TtyState tty_id_init []) "rpmsg-tty" 1 1 in
  tty_dev_list (result o p) = [] /\ tty_id (result o p) = 1 :: replicate 9 (-1) /\
  existsb (fun e => is_close (fst e)) (trace o p) = false.
Proof. by vm_compute. Qed.

(** Every name that is a prefix of the service's name matches, the empty one too. *)
Theorem short_names_match : forall n, rpmsg_tty_match (strprefix n RPMSG_TTY_NAME) = true.
Proof.
  intros n. do 9 (destruct n as [|n]; [done|]). by destruct n.
Qed.
