(* ===== verification/Routing.v ===== *)
(** * The services of micad in the registry

    The [struct mica_service] tables of the four services ([rpmsg_pty.c], [rpmsg_rpc.c],
    [rpmsg_umt.c], [mica_debug.c]) put into the registry of [Services].  The match
    functions of the services exclude each other: [route] is the service whose match
    function accepts a name.  The callbacks of the
    tables act on the device state and are modelled with their services; here they are a
    parameter, [callbacks]. *)

From S2P Require Import Prelude RpcServer Services Pty Umt.

(** ** Where an endpoint belongs *)

Definition route (name : string) : option string :=
  if rpmsg_tty_match name then Some RPMSG_TTY_NAME
  else if rpc_name_match name then Some RPMSG_RPC_EPT_NAME
  else if umt_name_match name then Some RPMSG_UMT_NAME
  else None.

(** The names of the services exclude each other. *)
Lemma route_spec name :
  (rpmsg_tty_match name = true <-> route name = Some RPMSG_TTY_NAME) /\
  (rpc_name_match name = true <-> route name = Some RPMSG_RPC_EPT_NAME) /\
  (umt_name_match name = true <-> route name = Some RPMSG_UMT_NAME).
Proof.
  unfold route, rpc_name_match, umt_name_match, strcmp0.
  destruct (rpmsg_tty_match name) eqn:E.
  - rewrite !bool_decide_eq_true. split_and!; split; try done; intros ->; done.
  - repeat case_bool_decide; subst; done.
Qed.

(** A service takes the endpoints that are routed to it and no others.  This is all the
    registry needs to know of a service. *)
Class Routed {D} (svc : mica_service D) : Prop := {
  routed_accepts : forall r, accepts svc r <-> route (re_name r) = Some (sv_name svc);
  routed_bindable : bindable svc;
}.

(** ** The tables *)

Class callbacks (D : Type) := {
  cb_create_tty_dev_lists : D -> D;
  cb_remove_tty_dev_lists : D -> D;
  cb_rpmsg_tty_init : string -> Z -> Z -> D -> D;
  cb_get_rpmsg_tty_dev : D -> nat -> string;
  cb_rpc_service_init : string -> Z -> Z -> D -> D;
  cb_remove_rpc_service : D -> D;
  cb_umt_service_init : string -> Z -> Z -> D -> D;
  cb_remove_umt_service : D -> D;
  cb_debug_start : D -> D;
  cb_debug_stop : D -> D;
}.

Section tables.
Context {D : Type} `{callbacks D}.

Definition rpmsg_tty_service : mica_service D :=
  Service RPMSG_TTY_NAME (Some cb_create_tty_dev_lists) (Some cb_remove_tty_dev_lists)
    (Some (fun name _ _ => rpmsg_tty_match name)) (Some cb_rpmsg_tty_init) (Some cb_get_rpmsg_tty_dev).
Definition rpmsg_rpc_service : mica_service D :=
  Service RPMSG_RPC_EPT_NAME None (Some cb_remove_rpc_service)
    (Some (fun name _ _ => rpc_name_match name)) (Some cb_rpc_service_init) None.
Definition rpmsg_umt_service : mica_service D :=
  Service RPMSG_UMT_NAME None (Some cb_remove_umt_service)
    (Some (fun name _ _ => umt_name_match name)) (Some cb_umt_service_init) None.
Definition debug_service : mica_service D :=
  Service "debug-rtos-kernel" (Some cb_debug_start) (Some cb_debug_stop) None None None.

(** What a start registers, in this order ([client_ctrl_handler], lines 295-319). *)
Definition start_services (debug : bool) : list (mica_service D) :=
  (if debug then [debug_service] else []) ++ [rpmsg_tty_service; rpmsg_rpc_service; rpmsg_umt_service].

(** The functions that a start calls; [ok]: there is memory for the service. *)
Definition create_rpmsg_tty (ept_of : D -> list rpmsg_endpoint) (ok : bool) (c : client D) (pending : list remote_ept) :=
  mica_register_service ept_of ok c pending rpmsg_tty_service.
Definition create_rpmsg_umt_service (ept_of : D -> list rpmsg_endpoint) (ok : bool) (c : client D) (pending : list remote_ept) :=
  mica_register_service ept_of ok c pending rpmsg_umt_service.
Definition create_debug_service (ept_of : D -> list rpmsg_endpoint) (ok : bool) (c : client D) (pending : list remote_ept) :=
  mica_register_service ept_of ok c pending debug_service.

Ltac routed :=
  split; [|by intros ?];
  intros r; destruct (route_spec (re_name r)) as (Ht & Hr & Hu); unfold accepts; cbn;
  split; [intros (m & [= <-] & E); by (apply Ht || apply Hr || apply Hu)|];
  intros E; eexists; split; [reflexivity|]; by (apply Ht || apply Hr || apply Hu).

#[global] Instance rpmsg_tty_routed : Routed rpmsg_tty_service.
Proof. routed. Qed.
#[global] Instance rpmsg_rpc_routed : Routed rpmsg_rpc_service.
Proof. routed. Qed.
#[global] Instance rpmsg_umt_routed : Routed rpmsg_umt_service.
Proof. routed. Qed.
#[global] Instance debug_routed : Routed debug_service.
Proof.
  split; [|by intros ?]. intros r. split; [by intros (m & ? & _)|].
  cbn. unfold route. repeat case_match; done.
Qed.

Lemma start_services_routed debug : Forall Routed (start_services debug).
Proof. destruct debug; (repeat apply Forall_cons_2; try apply Forall_nil_2); apply _. Qed.
End tables.

(** ** Sessions *)

Section sessions.
Context {D : Type} (ept_of : D -> list rpmsg_endpoint).
Implicit Types (evs : list (reg_event D)) (c : client D).

(** While the only client runs: services are registered and endpoints announced in any
    order, with or without memory for them. *)
Definition session_event (e : reg_event D) : Prop :=
  match e with
  | EvRegister _ svc => Routed svc
  | EvAnnounce _ name _ => (String.length name < RPMSG_NAME_SIZE)%nat
  | _ => False
  end.

Definition registered (e : reg_event D) : list (mica_service D) :=
  match e with EvRegister true svc => [svc] | _ => [] end.

(** The service that an endpoint is bound to, if it is registered. *)
Definition binding (names : list string) (r : remote_ept) : option (string * remote_ept) :=
  match route (re_name r) with
  | Some n => if bool_decide (n ∈ names) then Some (n, r) else None
  | None => None
  end.

Lemma bind_pending_running svc m b pending c :
  cl_running (bind_pending ept_of svc m b pending c).1.1 = cl_running c.
Proof.
  revert c. induction pending as [|r pending IH]; intros c; cbn [bind_pending]; [done|].
  destruct (m _ _ _).
  - specialize (IH (bind_service ept_of c b (re_name r) (re_addr r) (re_dest r))).
    by destruct (bind_pending _ _ _ _ _ _) as [[c' rest] log].
  - specialize (IH c). by destruct (bind_pending _ _ _ _ _ _) as [[c' rest] log].
Qed.

(** The registered services are in the client's list, in order. *)
Lemma session_services evs c p0 :
  cl_running c = true -> cl_services c = [] -> Forall session_event evs ->
  let s := foldl (reg_step ept_of) (RegState c p0 [] []) evs in
  cl_running (rg_client s) = true /\ cl_services (rg_client s) = evs ≫= registered.
Proof.
  intros Hrun Hsvc. induction evs as [|e evs IH] using rev_ind; intros Hev; [done|].
  apply Forall_app in Hev as [Hev He]. apply Forall_cons in He as [He _].
  rewrite foldl_app, bind_app. cbn [foldl]. destruct (IH Hev) as [IHr IHs].
  destruct (foldl _ _ _) as [c' pending log lost]. cbn [rg_client] in *.
  destruct e as [ok svc|ok name dest| | |]; [| |done..].
  - cbn [reg_step rg_client rg_pending]. unfold mica_register_service. rewrite IHr. cbn [negb].
    destruct ok; cbn [negb registered]; [|cbn; by rewrite app_nil_r].
    destruct (sv_ns_match svc) as [m|] eqn:Hm.
    + destruct (sv_ns_bind_cb svc) as [b|] eqn:Hb; [|by destruct (routed_bindable (Routed := He)); rewrite ?Hm].
      pose proof (bind_pending_running svc m b pending (apply_cb (sv_init svc) c')) as Hbr.
      pose proof (bind_pending_spec ept_of svc m b pending (apply_cb (sv_init svc) c')) as Hbs.
      destruct (bind_pending _ _ _ _ _ _) as [[c'' rest] log']. destruct Hbs as (Hs & _).
      cbn in Hbr |- *. rewrite apply_cb_services in Hs. rewrite Hs, IHs. split; [|done].
      rewrite Hbr. by destruct (sv_init svc).
    + cbn. rewrite apply_cb_services, IHs. split; [|done]. by destruct (sv_init svc).
  - cbn [reg_step rg_client rg_pending]. unfold mica_ns_bind_cb.
    cbn. rewrite app_nil_r. by destruct (ns_search _ _ _) as [[[svc b]|]|].
Qed.

Lemma binding_cases names r :
  (exists n, route (re_name r) = Some n /\ n ∈ names /\ binding names r = Some (n, r)) \/
  ((forall n, route (re_name r) = Some n -> n ∉ names) /\ binding names r = None).
Proof.
  unfold binding. destruct (route _) as [n|]; [|by right]. case_bool_decide; [left; eauto|].
  right. split; [|done]. by intros ? [= <-].
Qed.

(** After a session: what was announced waits or is bound, and which of the two depends on
    [binding] only. *)
Lemma session_bindings evs c p0 :
  cl_running c = true -> cl_services c = [] -> Forall session_event evs ->
  let s := foldl (reg_step ept_of) (RegState c p0 [] []) evs in
  let names := sv_name <$> (evs ≫= registered) in
  p0 ++ (evs ≫= announced) ≡ₚ (rg_pending s ++ (rg_log s).*2) ++ rg_lost s /\
  Forall (fun r => binding names r = None) (rg_pending s) /\
  Forall (fun nr => binding names nr.2 = Some nr) (rg_log s) /\
  (forall r, r ∈ rg_lost s -> exists n d, EvAnnounce false n d ∈ evs /\ r = RemoteEpt n d RPMSG_ADDR_ANY).
Proof.
  intros Hrun Hsvc Hev s names.
  destruct (session_services evs c p0 Hrun Hsvc Hev) as [_ Hs]. fold s in Hs.
  assert (forall svc, EvRegister true svc ∈ evs -> Routed svc) as Hrouted.
  { intros svc Hin. by apply (proj1 (Forall_forall _ _) Hev (EvRegister true svc)). }
  assert (Forall alone evs) as Halone by (eapply Forall_impl; [exact Hev|]; by intros []).
  destruct (reg_inv_run ept_of evs p0 c Hsvc Halone) as [_ Hreg Hwait Honce Hbound Hlost].
  fold s in Hreg, Hwait, Honce, Hbound, Hlost. rewrite app_assoc in Honce.
  assert (Forall (fun r => binding names r = None) (rg_pending s)) as Hpend.
  { apply Forall_forall. intros r Hr. destruct (binding_cases names r) as [(n & Hn & Hin & _)|[_ ?]]; [|done].
    apply list_elem_of_fmap in Hin as (svc & -> & Hin). rewrite <- Hs in Hin.
    destruct (Hwait svc r Hin Hr). by apply (routed_accepts (Routed := Hrouted svc (Hreg svc Hin))). }
  assert (Forall (fun nr => binding names nr.2 = Some nr) (rg_log s)) as Hlog.
  { apply Forall_forall. intros [n r] Hr. destruct (Hbound n r Hr) as (svc & Hin & <- & Hacc).
    apply (routed_accepts (Routed := Hrouted svc Hin)) in Hacc. unfold binding. cbn. rewrite Hacc.
    rewrite bool_decide_eq_true_2; [done|]. apply list_elem_of_fmap. exists svc. split; [done|].
    apply list_elem_of_bind. exists (EvRegister true svc). set_solver. }
  done.
Qed.

Lemma log_split names pending (log : list (string * remote_ept)) :
  Forall (fun r => binding names r = None) pending -> Forall (fun nr => binding names nr.2 = Some nr) log ->
  omap (binding names) (pending ++ log.*2) = log /\
  filter (fun r => binding names r = None) (pending ++ log.*2) = pending.
Proof.
  intros Hpend Hlog. induction Hpend as [|r l E _ [IH1 IH2]].
  - induction Hlog as [|[n r] l E _ [IH1 IH2]]; [done|]. cbn [app fmap list_fmap snd] in *. split.
    + cbn. rewrite E. by f_equal.
    + rewrite filter_cons_False; [done|]. by rewrite E.
  - cbn [app]. split; [cbn; by rewrite E|]. by rewrite filter_cons_True, IH2.
Qed.
End sessions.

(** After a start every endpoint that is meant for a service is bound to it. *)
Lemma start_binds_all {D} `{callbacks D} debug r n :
  route (re_name r) = Some n -> binding (sv_name <$> @start_services D _ debug) r = Some (n, r).
Proof.
  intros E. unfold binding. rewrite E, bool_decide_eq_true_2; [done|].
  unfold route in E. destruct debug; cbn; repeat case_match; simplify_eq; set_solver.
Qed.

(** ** Properties *)

(** C7: While the only client of micad runs, its endpoints reach their service in every
    order of registrations and announcements, also those restored from the endpoint
    table: of the announced and restored endpoints, except those announced when no
    registered service took them and there was no memory to keep them, the ones bound
    are exactly those for which a service is registered by now whose match function
    accepts their name, each bound to that one service; all others wait.  Once the
    services of a start are registered, every endpoint whose name one of them accepts
    is bound or was lost for want of memory.  The list of waiting endpoints is shared by
    all clients, and with a second client endpoints go astray
    ([pending_endpoint_crosses_clients]).  Announced names are shorter than 32
    characters. *)
Theorem endpoints_routed {D} `{callbacks D} (ept_of : D -> list rpmsg_endpoint) (c : client D) (p0 : list remote_ept)
    (evs : list (reg_event D)) :
  cl_running c = true -> cl_services c = [] -> Forall session_event evs ->
  let s := foldl (reg_step ept_of) (RegState c p0 [] []) evs in
  let names := sv_name <$> (evs ≫= registered) in
  exists kept,
    p0 ++ (evs ≫= announced) ≡ₚ kept ++ rg_lost s /\
    (forall r, r ∈ rg_lost s -> exists n d, EvAnnounce false n d ∈ evs /\ r = RemoteEpt n d RPMSG_ADDR_ANY) /\
    rg_log s ≡ₚ omap (binding names) kept /\
    rg_pending s ≡ₚ filter (fun r => binding names r = None) kept /\
    (forall debug r n, evs ≫= registered = start_services debug -> r ∈ kept ->
       route (re_name r) = Some n -> (n, r) ∈ rg_log s).
Proof.
  intros Hrun Hsvc Hev s names.
  destruct (session_bindings ept_of evs c p0 Hrun Hsvc Hev) as (Honce & Hpend & Hlog & Hlost).
  fold s names in Honce, Hpend, Hlog, Hlost. destruct (log_split _ _ _ Hpend Hlog) as [Hl Hp].
  exists (rg_pending s ++ (rg_log s).*2). split_and!; [done|done|by rewrite Hl|by rewrite Hp|].
  intros debug r n Hstart Hr Hn. rewrite <- Hl. apply list_elem_of_omap.
  exists r. split; [done|]. unfold names. rewrite Hstart. by apply start_binds_all.
Qed.

#[local] Instance no_callbacks : callbacks nat := {|
  cb_create_tty_dev_lists := S; cb_remove_tty_dev_lists := Nat.pred;
  cb_rpmsg_tty_init _ _ _ d := d; cb_get_rpmsg_tty_dev _ _ := "";
  cb_rpc_service_init _ _ _ d := d; cb_remove_rpc_service d := d;
  cb_umt_service_init _ _ _ d := d; cb_remove_umt_service d := d;
  cb_debug_start d := d; cb_debug_stop d := d;
|}.

(** The client OS announces its endpoints before and while micad registers its services;
    there is no memory to keep one of them. *)
Definition start_events : list (reg_event nat) :=
  [EvAnnounce true "rpmsg-umt" 1024; EvRegister true debug_service; EvRegister true rpmsg_tty_service;
   EvAnnounce true "rpmsg-rpc" 1025; EvAnnounce false "rpmsg-rpc2" 1028; EvRegister true rpmsg_rpc_service;
   EvRegister true rpmsg_umt_service; EvAnnounce false "rpmsg-tty1" 1026; EvAnnounce true "other" 1027].

Lemma endpoints_routed_witness :
  let s := foldl (reg_step (fun _ => [])) (RegState (Client true 0%nat None []) [] [] []) start_events in
  rg_lost s = [RemoteEpt "rpmsg-rpc2" 1028 RPMSG_ADDR_ANY] /\
  ("rpmsg-tty", RemoteEpt "rpmsg-tty1" 1026 RPMSG_ADDR_ANY) ∈ rg_log s /\
  exists kept, start_events ≫= announced ≡ₚ kept ++ rg_lost s /\
    rg_log s ≡ₚ omap (binding (sv_name <$> (start_events ≫= registered))) kept.
Proof.
  destruct (endpoints_routed (fun _ : nat => []) (Client true 0%nat None []) [] start_events)
    as (kept & Hk & _ & Hl & _ & Hall); [done|done| |].
  { repeat apply Forall_cons_2; try apply Forall_nil_2; first [exact (_ : Routed _) | vm_compute; lia]. }
  intros s. split; [reflexivity|]. split; [|exists kept; split; [exact Hk|exact Hl]].
  apply (Hall true); [reflexivity| |reflexivity].
  assert (RemoteEpt "rpmsg-tty1" 1026 RPMSG_ADDR_ANY ∈ kept ++ [RemoteEpt "rpmsg-rpc2" 1028 RPMSG_ADDR_ANY]) as Hin.
  { rewrite <- Hk. set_solver. }
  apply elem_of_app in Hin as [Hin|Hin%list_elem_of_singleton]; [exact Hin|discriminate Hin].
Defined.
