(* ===== verification/Debug.v ===== *)
(** * The debug service of micad ([mica/micad/services/debug])

    gdb talks to a proxy server in micad over TCP.  The server and the threads of
    the ring buffer module exchange packets through two message queues, and the
    threads move them to and from the ring buffers shared with the client OS:
    [mica_gdb_server.c], [mica_debug_ring_buffer.c] and [mica_debug.c].  The second
    half of the file runs gdb, the four threads and the client OS concurrently. *)

From S2P Require Import Prelude RingBuffer.

Definition TO_SHARED_MEM_QUEUE_NAME : string := "/to_shared_mem_queue".
Definition FROM_SHARED_MEM_QUEUE_NAME : string := "/from_shared_mem_queue".
Definition MAX_QUEUE_SIZE : Z := 10.
Definition MAX_BUFF_LENGTH : Z := 1600.
Definition CTRLC_PACKET : list Z := [3].
Definition RUN_PACKET : list Z := [36; 82; 48; 35; 56; 50].
Definition GDB_PROXY_PORT : Z := 5678.
Definition MAX_PARALLEL_CONNECTIONS : Z := 3.
Definition RBUF_STATE_CTRL_C : Z := 3.
Definition RBUF_STATE_CPU_STOP : Z := 4.

Inductive start_routine := ToRtos | ToServer | ServerLoop | RecvFromSharedMem (to_server client_socket_fd : Z).

Inductive dcall :=
| MqOpen (name : string) (maxmsg msgsize : Z)
| MqClose (q : Z)
| MqReceive (q size : Z)
| MqSend (q : Z) (bytes : list Z)
| KfifoIn (buf : list Z) (cnt len : Z)  (* one iteration of [ring_buffer_write] *)
| RbRead (len : Z)                      (* [ring_buffer_read] *)
| Calloc
| Free (p : Z)
| MemsetRx (len : Z)
| MemsetTx (len : Z)
| PthreadCreate (r : start_routine)
| PthreadCancel (tid : Z)
| PthreadJoin (tid : Z)
| TestCancel
| ReadRunning
| WriteRunning (b : bool)
| Socket
| Setsockopt (fd : Z)
| Bind (fd port : Z)
| Listen (fd backlog : Z)
| Accept (fd : Z)
| Send (fd : Z) (bytes : list Z)
| Recv (fd size : Z)
| Close (fd : Z)
| FindRsc
| Sleep
| MicaStop
| MicaStart
| ReadState
| WriteState (v : Z)
| CacheInvalidate
| CacheFlush
| Notify
| CreateDebugService
| CreateRpmsgTty
| CreateRpmsgRpcService.

(** The result, [errno], a thread identifier, and bytes that were received. *)
Record dans := Dans { d_ret : Z; d_errno : Z; d_tid : Z; d_bytes : list Z }.
Abbreviation dio := (io dcall dans).

(** ** The ring buffer module ([mica_debug_ring_buffer.c]) *)

Record debug_ring_buffer_module_data := ModuleData {
  rm_len : Z;
  rm_to_server : Z;
  rm_from_server : Z;
  rm_data_to_rtos_thread : Z;
  rm_data_to_server_thread : Z;
}.

(** The loop of [ring_buffer_write], one access to the shared ring per iteration;
    [None]: more than [fuel] iterations. *)
Fixpoint write_ring (fuel : nat) (buf : list Z) (cnt len : Z) : dio (option Z) :=
  if cnt <? len then
    match fuel with
    | O => Ret None
    | S fuel => o <- call (KfifoIn buf cnt len);; write_ring fuel buf (i32 (cnt + i32 (d_ret o))) len
    end
  else Ret (Some cnt).

(** At most [fuel] packets; [None]: the thread is still running. *)
Fixpoint data_to_rtos_thread (fuel spin : nat) (data : debug_ring_buffer_module_data) : dio (option Z) :=
  match fuel with
  | O => Ret None
  | S fuel =>
      n <- call (MqReceive (rm_from_server data) MAX_BUFF_LENGTH);;
      if d_ret n =? -1 then Ret (Some (- d_errno n))
      else
        w <- write_ring spin (d_bytes n) 0 (d_ret n);;
        match w with
        | None => Ret None
        | Some ret => if ret <? 0 then Ret (Some (-1)) else data_to_rtos_thread fuel spin data
        end
  end.

Fixpoint data_to_server_thread (fuel : nat) (data : debug_ring_buffer_module_data) : dio (option Z) :=
  match fuel with
  | O => Ret None
  | S fuel =>
      _ <- call TestCancel;;
      n <- call (RbRead MAX_BUFF_LENGTH);;
      if d_ret n =? -1 then Ret (Some (- d_errno n))
      else if d_ret n =? 0 then data_to_server_thread fuel data
      else
        s <- call (MqSend (rm_to_server data) (d_bytes n));;
        if d_ret s =? -1 then Ret (Some (- d_errno s)) else data_to_server_thread fuel data
  end.

Definition transfer_data_to_rtos (d : debug_ring_buffer_module_data) : dio (Z * debug_ring_buffer_module_data) :=
  t <- call (PthreadCreate ToRtos);;
  Ret (d_ret t, ModuleData (rm_len d) (rm_to_server d) (rm_from_server d) (d_tid t) (rm_data_to_server_thread d)).
Definition transfer_data_to_server (d : debug_ring_buffer_module_data) : dio (Z * debug_ring_buffer_module_data) :=
  t <- call (PthreadCreate ToServer);;
  Ret (d_ret t, ModuleData (rm_len d) (rm_to_server d) (rm_from_server d) (rm_data_to_rtos_thread d) (d_tid t)).

(** The result and the new data with its address; the memory is not NULL. *)
Definition start_ring_buffer_module (rbuf_len from_server to_server : Z)
    : dio (Z * (Z * debug_ring_buffer_module_data)) :=
  p <- call Calloc;;
  r1 <- transfer_data_to_rtos (ModuleData rbuf_len to_server from_server 0 0);;
  r2 <- transfer_data_to_server r1.2;;
  Ret (r2.1, (d_ret p, r2.2)).

Definition cancel_join (tid : Z) : dio unit :=
  if 0 <? tid then _ <- call (PthreadCancel tid);; _ <- call (PthreadJoin tid);; Ret tt else Ret tt.
Definition free_resources_for_ring_buffer_module (data : option (Z * debug_ring_buffer_module_data)) : dio unit :=
  match data with
  | None => Ret tt
  | Some (p, d) =>
      cancel_join (rm_data_to_rtos_thread d);;;
      cancel_join (rm_data_to_server_thread d);;;
      _ <- call (MemsetRx (rm_len d));;
      _ <- call (MemsetTx (rm_len d));;
      _ <- call (Free p);;
      Ret tt
  end.

(** ** The proxy server ([mica_gdb_server.c]) *)

(** [struct proxy_server_resources]. *)
Record proxy_server_resources := Resources {
  server_socket_fd : Z;
  client_socket_fd : Z;
  recv_from_shared_mem_tid : Z;
}.

Definition send_to_gdb (client_socket_fd : Z) (buffer : list Z) : dio Z :=
  s <- call (Send client_socket_fd buffer);; Ret (if d_ret s =? -1 then - d_errno s else 0).

Fixpoint recv_from_shared_mem_thread (fuel : nat) (to_server client_socket_fd : Z) : dio (option Z) :=
  match fuel with
  | O => Ret None
  | S fuel =>
      n <- call (MqReceive to_server MAX_BUFF_LENGTH);;
      if d_ret n =? -1 then Ret (Some (- d_errno n))
      else
        ret <- send_to_gdb client_socket_fd (d_bytes n);;
        if ret <? 0 then Ret (Some ret) else recv_from_shared_mem_thread fuel to_server client_socket_fd
  end.

Definition send_to_shared_mem (from_server : Z) (buffer : list Z) : dio Z :=
  s <- call (MqSend from_server buffer);; Ret (if d_ret s =? -1 then - d_errno s else 0).

Definition recv_from_gdb (client_socket_fd : Z) : dio (Z * list Z) :=
  n <- call (Recv client_socket_fd MAX_BUFF_LENGTH);;
  if d_ret n =? -1 then Ret (- d_errno n, []) else Ret (d_ret n, d_bytes n).

(** The loop that waits for the client OS; [None]: it did not stop in [fuel] rounds. *)
Fixpoint wait_cpu_stop (fuel : nat) : dio (option unit) :=
  match fuel with
  | O => Ret None
  | S fuel =>
      s <- call ReadState;;
      if negb (d_ret s =? RBUF_STATE_CPU_STOP) then _ <- call CacheInvalidate;; wait_cpu_stop fuel
      else Ret (Some tt)
  end.
Definition restart_client (fuel : nat) : dio (option Z) :=
  f <- call FindRsc;;
  if d_ret f =? 0 then Ret (Some (- ENODEV))
  else
    _ <- call Sleep;;
    _ <- call MicaStop;;
    w <- wait_cpu_stop fuel;;
    match w with
    | None => Ret None
    | Some _ =>
        _ <- call Sleep;;
        m <- call MicaStart;;
        if negb (d_ret m =? 0) then Ret (Some (d_ret m))
        else
          d <- call CreateDebugService;;
          if negb (d_ret d =? 0) then Ret (Some (d_ret d))
          else
            t <- call CreateRpmsgTty;;
            if negb (d_ret t =? 0) then Ret (Some (d_ret t))
            else
              r <- call CreateRpmsgRpcService;;
              if negb (d_ret r =? 0) then Ret (Some (d_ret r)) else Ret (Some 0)
    end.

Definition cancel_join_nonzero (tid : Z) : dio unit :=
  if negb (tid =? 0) then _ <- call (PthreadCancel tid);; _ <- call (PthreadJoin tid);; Ret tt else Ret tt.
Definition close_nonzero (fd : Z) : dio unit :=
  if negb (fd =? 0) then _ <- call (Close fd);; Ret tt else Ret tt.
Definition free_resources_for_proxy_server (resources : option (Z * proxy_server_resources)) : dio unit :=
  match resources with
  | None => Ret tt
  | Some (p, r) =>
      cancel_join_nonzero (recv_from_shared_mem_tid r);;;
      close_nonzero (client_socket_fd r);;;
      close_nonzero (server_socket_fd r);;;
      _ <- call (Free p);;
      Ret tt
  end.

Definition send_ctrl_c : dio Z :=
  f <- call FindRsc;;
  if d_ret f =? 0 then Ret (- ENODEV)
  else
    _ <- call (WriteState RBUF_STATE_CTRL_C);;
    _ <- call CacheFlush;;
    _ <- call Notify;;
    Ret 0.

Definition configure_socket (server_socket_fd : Z) : dio Z :=
  s <- call (Setsockopt server_socket_fd);;
  if negb (d_ret s =? 0) then Ret (- d_errno s)
  else
    b <- call (Bind server_socket_fd GDB_PROXY_PORT);;
    if d_ret b =? -1 then Ret (- d_errno b) else Ret 0.

(** The result and the identifier of the thread. *)
Definition create_recv_thread (to_server client_socket_fd : Z) : dio (Z * Z) :=
  t <- call (PthreadCreate (RecvFromSharedMem to_server client_socket_fd));;
  if negb (d_ret t =? 0) then Ret (- d_ret t, d_tid t) else Ret (0, d_tid t).

(** [strcmp]/[strncmp] with a packet of the source, on the bytes received and the
    NUL behind them. *)
Definition is_packet (packet recv_buf : list Z) : bool := bool_decide (cstr (recv_buf ++ [0]) = Some packet).

(** At most [fuel] packets.  [inl ret]: an error, [inr true]: gdb closed the
    connection, [inr false]: the loop goes on. *)
Fixpoint proxy_loop (fuel wait : nat) (from_server client_socket_fd : Z) : dio (Z + bool) :=
  match fuel with
  | O => Ret (inr false)
  | S fuel =>
      _ <- call TestCancel;;
      n <- recv_from_gdb client_socket_fd;;
      let '(n_bytes, recv_buf) := n in
      if n_bytes <? 0 then Ret (inl n_bytes)
      else if n_bytes =? 0 then Ret (inr true)
      else
        r <- (if is_packet CTRLC_PACKET recv_buf then r <- send_ctrl_c;; Ret (Some r)
              else if is_packet RUN_PACKET recv_buf then restart_client wait
              else Ret (Some 0));;
        match r with
        | None => Ret (inr false)
        | Some ret =>
            if negb (ret =? 0) then Ret (inl ret)
            else
              ret <- send_to_shared_mem from_server recv_buf;;
              if ret <? 0 then Ret (inl ret) else proxy_loop fuel wait from_server client_socket_fd
        end
  end.

(** [None]: the server is still running.  [resources] is allocated and, unless the
    connection was closed, freed here. *)
Definition start_proxy_server (fuel wait : nat) (from_server to_server : Z) : dio (option Z) :=
  p <- call Calloc;;
  s <- call Socket;;
  let sfd := d_ret s in
  if sfd =? -1 then Ret (Some (-1))
  else
    let err_close_server_sock (ret : Z) : dio (option Z) :=
      _ <- call (Close sfd);; _ <- call (Free (d_ret p));; Ret (Some ret) in
    ret <- configure_socket sfd;;
    if negb (ret =? 0) then err_close_server_sock ret
    else
      l <- call (Listen sfd MAX_PARALLEL_CONNECTIONS);;
      if d_ret l =? -1 then err_close_server_sock (- d_errno l)
      else
        a <- call (Accept sfd);;
        let cfd := d_ret a in
        if cfd =? -1 then err_close_server_sock (- d_errno a)
        else
          let err_close_client_sock (ret : Z) : dio (option Z) :=
            _ <- call (Close cfd);; err_close_server_sock ret in
          t <- create_recv_thread to_server cfd;;
          let '(ret, tid) := t in
          if negb (ret =? 0) then err_close_client_sock ret
          else
            r <- proxy_loop fuel wait from_server cfd;;
            match r with
            | inr false => Ret None
            | inr true => Ret (Some 0)
            | inl ret => _ <- call (PthreadCancel tid);; err_close_client_sock ret
            end.

(** ** The service ([mica_debug.c]) *)

(** The global variables, with the address of the module's data. *)
Record debug_globals := Globals {
  g_from_server : Z;
  g_to_server : Z;
  g_ring_buffer_module_data : option (Z * debug_ring_buffer_module_data);
}.

Definition server_loop_thread (fuel wait : nat) (g : debug_globals) : dio (option Z) :=
  _ <- call (WriteRunning true);;
  ret <- start_proxy_server fuel wait (g_from_server g) (g_to_server g);;
  match ret with
  | None => Ret None
  | Some ret => _ <- call (WriteRunning false);; Ret (Some ret)
  end.

Definition alloc_message_queue (g : debug_globals) : dio (Z * debug_globals) :=
  f <- call (MqOpen TO_SHARED_MEM_QUEUE_NAME MAX_QUEUE_SIZE MAX_BUFF_LENGTH);;
  let g := Globals (d_ret f) (g_to_server g) (g_ring_buffer_module_data g) in
  if d_ret f =? -1 then Ret (- d_errno f, g)
  else
    t <- call (MqOpen FROM_SHARED_MEM_QUEUE_NAME MAX_QUEUE_SIZE MAX_BUFF_LENGTH);;
    let g := Globals (g_from_server g) (d_ret t) (g_ring_buffer_module_data g) in
    if d_ret t =? -1 then Ret (- d_errno t, g) else Ret (0, g).

Definition free_message_queue (g : debug_globals) : dio unit :=
  (if negb (g_from_server g =? 0) then _ <- call (MqClose (g_from_server g));; Ret tt else Ret tt);;;
  (if negb (g_to_server g =? 0) then _ <- call (MqClose (g_to_server g));; Ret tt else Ret tt).

Definition debug_start (rbuf_len : Z) (g : debug_globals) : dio (Z * debug_globals) :=
  a <- alloc_message_queue g;;
  let '(ret, g) := a in
  if ret <? 0 then Ret (ret, g)
  else
    m <- start_ring_buffer_module rbuf_len (g_from_server g) (g_to_server g);;
    let '(ret, data) := m in
    let g := Globals (g_from_server g) (g_to_server g) (Some data) in
    if ret <? 0 then free_message_queue g;;; Ret (ret, g)
    else
      run <- call ReadRunning;;
      if negb (d_ret run =? 0) then Ret (0, g)
      else
        t <- call (PthreadCreate ServerLoop);;
        if negb (d_ret t =? 0) then
          free_resources_for_ring_buffer_module (g_ring_buffer_module_data g);;;
          free_message_queue g;;;
          Ret (- d_ret t, g)
        else Ret (0, g).

Definition debug_stop (g : debug_globals) : dio debug_globals :=
  free_resources_for_ring_buffer_module (g_ring_buffer_module_data g);;; Ret g.

(** ** What the proxy server holds *)

Inductive dres := RMem (p : Z) | RSock (fd : Z) | RThread (tid : Z) | RQueue (q : Z).
#[global] Instance dres_eq_dec : EqDecision dres.
Proof. solve_decision. Defined.

(** What is held; [None] once something not held is released. *)
Definition dledger (s : option (list dres)) (c : dcall) (a : dans) : option (list dres) :=
  match c with
  | Calloc => cons (RMem (d_ret a)) <$> s
  | Free p => s ≫= remove1 (RMem p)
  | Socket | Accept _ => if d_ret a =? -1 then s else cons (RSock (d_ret a)) <$> s
  | Close fd => s ≫= remove1 (RSock fd)
  | PthreadCreate _ => if d_ret a =? 0 then cons (RThread (d_tid a)) <$> s else s
  | PthreadCancel tid => s ≫= remove1 (RThread tid)
  | MqOpen _ _ _ => if d_ret a =? -1 then s else cons (RQueue (d_ret a)) <$> s
  | MqClose q => s ≫= remove1 (RQueue q)
  | _ => s
  end.
Abbreviation dwp := (wp dledger).

(** A program that neither takes nor releases anything. *)
Definition neutral {R} (p : dio R) : Prop := forall s, dwp p (fun _ s' => s' = s) s.

Lemma neutral_bind {R T} (p : dio R) (f : R -> dio T) : neutral p -> (forall r, neutral (f r)) -> neutral (bind p f).
Proof. intros Hp Hf s. apply wp_bind. eapply wp_mono; [apply Hp|]. intros r s' ->. apply Hf. Qed.

Lemma neutral_call c : (forall s a, dledger s c a = s) -> neutral (call c).
Proof. intros Hc s. cbn. intros a. apply Hc. Qed.

Ltac neutral_tac :=
  repeat first
    [ assumption
    | apply neutral_bind; [|intros ?]
    | apply neutral_call; done
    | progress case_match
    | intros ? ; done ].

Lemma wait_cpu_stop_neutral fuel : neutral (wait_cpu_stop fuel).
Proof. induction fuel as [|fuel IH]; cbn [wait_cpu_stop]; neutral_tac. Qed.

Lemma restart_client_neutral fuel : neutral (restart_client fuel).
Proof. unfold restart_client. pose proof (wait_cpu_stop_neutral fuel). neutral_tac. Qed.

Lemma proxy_loop_neutral fuel wait from_server fd : neutral (proxy_loop fuel wait from_server fd).
Proof.
  pose proof (restart_client_neutral wait).
  induction fuel as [|fuel IH]; cbn [proxy_loop]; [done|].
  unfold recv_from_gdb, send_ctrl_c, send_to_shared_mem. neutral_tac.
Qed.

(** What the server has given back and what it still holds when it ends with [res]. *)
Definition proxy_end (res : option Z) (s : option (list dres)) : Prop :=
  exists l, s = Some l /\
    ((exists r, res = Some r) /\ l = [] \/
     res = Some (-1) /\ (exists m, l = [RMem m]) \/
     (res = None \/ res = Some 0) /\
       exists tid cfd sfd m, l = [RThread tid; RSock cfd; RSock sfd; RMem m]).

Lemma wp_neutral {R T} (p : dio R) (f : R -> dio T) Q s :
  neutral p -> (forall r, dwp (f r) Q s) -> dwp (bind p f) Q s.
Proof. intros Hp Hf. apply wp_bind. eapply wp_mono; [apply Hp|]. intros r s' ->. apply Hf. Qed.

Lemma close_server_end sfd m ret :
  dwp (_ <- call (Close sfd);; _ <- call (Free m);; Ret (Some ret)) proxy_end (Some [RSock sfd; RMem m]).
Proof.
  cbn [bind call wp dledger mbind option_bind]. intros _. rewrite remove1_head. intros _.
  cbn [mbind option_bind]. rewrite remove1_head. exists []. eauto.
Qed.

Lemma close_client_end cfd sfd m ret :
  dwp (_ <- call (Close cfd);; _ <- call (Close sfd);; _ <- call (Free m);; Ret (Some ret)) proxy_end
    (Some [RSock cfd; RSock sfd; RMem m]).
Proof.
  cbn [bind call wp dledger mbind option_bind]. intros _. rewrite remove1_head. apply close_server_end.
Qed.

Lemma start_proxy_server_end fuel wait from_server to_server :
  dwp (start_proxy_server fuel wait from_server to_server) proxy_end (Some []).
Proof.
  unfold start_proxy_server. cbn [bind call wp dledger fmap option_fmap option_map]. intros p s.
  case_match; [exists [RMem (d_ret p)]; eauto 8|].
  apply wp_neutral; [unfold configure_socket; neutral_tac|]. intros ret. case_match; [apply close_server_end|].
  cbn [bind call wp dledger]. intros l. case_match; [apply close_server_end|].
  cbn [bind call wp dledger]. intros a. case_match; [apply close_server_end|].
  cbn [fmap option_fmap option_map]. unfold create_recv_thread. cbn [bind call wp dledger]. intros t.
  destruct (Z.eqb_spec (d_ret t) 0) as [E|E]; cbn [negb bind].
  - rewrite Z.eqb_refl. cbn [negb fmap option_fmap option_map].
    apply wp_neutral; [apply proxy_loop_neutral|]. intros [r|[]].
    + cbn [bind call wp dledger mbind option_bind]. intros _. rewrite remove1_head. apply close_client_end.
    + eexists. eauto 12.
    + eexists. eauto 12.
  - rewrite (proj2 (Z.eqb_neq (- d_ret t) 0)) by lia. cbn [negb]. apply close_client_end.
Qed.

(** The proxy server gives back what it holds: whatever the sockets, the client
    OS and gdb do, when it gives up with an error the receiving thread is cancelled,
    both sockets are closed, and its data is freed, each once.  What stays behind is
    the data if no socket can be created, and everything if gdb closed the
    connection. *)
Theorem proxy_server_balanced (o : oracle dcall dans) (fuel wait : nat) (from_server to_server : Z) :
  let p := start_proxy_server fuel wait from_server to_server in
  exists l, observe dledger (Some []) (trace o p) = Some l /\
    ((exists r, result o p = Some r) /\ l = [] \/
     result o p = Some (-1) /\ (exists m, l = [RMem m]) \/
     (result o p = None \/ result o p = Some 0) /\
       exists tid cfd sfd m, l = [RThread tid; RSock cfd; RSock sfd; RMem m]).
Proof.
  intros p. apply (wp_result_trace dledger o p proxy_end), start_proxy_server_end.
Qed.

(** ** A debug session: gdb, the threads and the client OS together *)

(** Both directions: what was sent, the message queue, the ring, what was read.
    [send] may take a part of a packet, and the caller does not send the rest:
    [offered] is what was passed to [send], [gdb_read] what it took, and [cut]
    says that it once took less. *)
Record chan := Chan {
  gdb_sent : list Z;
  mq_from : list (list Z);
  tx_ring : ring_buffer;
  rtos_read : list Z;
  rtos_sent : list Z;
  rx_ring : ring_buffer;
  mq_to : list (list Z);
  offered : list Z;
  gdb_read : list Z;
  cut : bool;
}.

Definition set_down (sent : list Z) (mq : list (list Z)) (tx : ring_buffer) (read : list Z) (s : chan) : chan :=
  Chan sent mq tx read (rtos_sent s) (rx_ring s) (mq_to s) (offered s) (gdb_read s) (cut s).
Definition set_up (sent : list Z) (rx : ring_buffer) (mq : list (list Z)) (s : chan) : chan :=
  Chan (gdb_sent s) (mq_from s) (tx_ring s) (rtos_read s) sent rx mq (offered s) (gdb_read s) (cut s).
(** [send] takes the first [n] of [bytes]. *)
Definition set_gdb (bytes : list Z) (n : nat) (s : chan) : chan :=
  Chan (gdb_sent s) (mq_from s) (tx_ring s) (rtos_read s) (rtos_sent s) (rx_ring s) (mq_to s)
    (offered s ++ bytes) (gdb_read s ++ take n bytes) (cut s || (n <? length bytes)%nat).

Definition zlen (l : list Z) : Z := Z.of_nat (length l).

Section session.
(** The descriptors of the two queues. *)
Context (from_server to_server : Z).

(** A message queue takes and gives whole messages, in order. *)
Definition mq_push (bytes : list Z) (mq : list (list Z)) : option (list (list Z)) :=
  if Z.of_nat (length mq) <? MAX_QUEUE_SIZE then
    if zlen bytes <=? MAX_BUFF_LENGTH then Some (mq ++ [bytes]) else None
  else None.
Definition mq_pop (a : dans) (mq : list (list Z)) : option (list (list Z)) :=
  match mq with
  | m :: mq => if decide (d_bytes a = m /\ d_ret a = zlen m) then Some mq else None
  | [] => None
  end.

(** A failed call has no effect. *)
Definition failed (a : dans) (s : chan) : option chan := if 0 <? d_errno a then Some s else None.

(** What the call [c], answered with [a], does; [None]: the caller is blocked or the
    answer is not possible.  Queues and sockets may fail at any time, and [send] may
    take a part of the packet.  gdb does not ask for a restart of the client OS. *)
Definition effect (c : dcall) (a : dans) (s : chan) : option chan :=
  match c with
  | MqReceive q _ =>
      if d_ret a =? -1 then failed a s
      else if q =? from_server then
        mq ← mq_pop a (mq_from s); Some (set_down (gdb_sent s) mq (tx_ring s) (rtos_read s) s)
      else if q =? to_server then
        mq ← mq_pop a (mq_to s); Some (set_up (rtos_sent s) (rx_ring s) mq s)
      else None
  | MqSend q bytes =>
      if d_ret a =? -1 then failed a s
      else if q =? from_server then
        mq ← mq_push bytes (mq_from s); Some (set_down (gdb_sent s) mq (tx_ring s) (rtos_read s) s)
      else if q =? to_server then
        mq ← mq_push bytes (mq_to s); Some (set_up (rtos_sent s) (rx_ring s) mq s)
      else None
  | KfifoIn buf cnt len =>
      let '(rb, n) := __kfifo_in (tx_ring s) (drop (Z.to_nat cnt) buf) (u32 (len - cnt)) in
      if d_ret a =? n then Some (set_down (gdb_sent s) (mq_from s) rb (rtos_read s) s) else None
  | RbRead len =>
      let '(rb, buf, n) := ring_buffer_read (rx_ring s) len in
      if decide (d_bytes a = buf /\ d_ret a = n)
      then Some (set_up (rtos_sent s) rb (mq_to s) s) else None
  | Recv _ size =>
      if d_ret a =? -1 then failed a s
      else if decide (d_ret a = zlen (d_bytes a) /\ zlen (d_bytes a) <= size /\
                      is_packet RUN_PACKET (d_bytes a) = false)
      then Some (set_down (gdb_sent s ++ d_bytes a) (mq_from s) (tx_ring s) (rtos_read s) s) else None
  | Send _ bytes =>
      if d_ret a =? -1 then failed a s
      else if decide (0 <= d_ret a <= zlen bytes) then Some (set_gdb bytes (Z.to_nat (d_ret a)) s) else None
  | _ => Some s
  end.

(** The connection is set up; each thread is about to make its next call. *)
Record session := Session {
  s_server : dio (Z + bool);
  s_to_rtos : dio (option Z);
  s_to_server : dio (option Z);
  s_recv : dio (option Z);
  s_chan : chan;
}.


(** The queues and rings keep what an earlier session left in them: the queues are
    opened with [O_CREAT] and never unlinked. *)
Definition session_start (fuel spin : nat) (d : debug_ring_buffer_module_data) (cfd : Z) (tx rx : ring_buffer)
    (mqf mqt : list (list Z)) : session :=
  Session (proxy_loop fuel spin from_server cfd) (data_to_rtos_thread fuel spin d)
    (data_to_server_thread fuel d) (recv_from_shared_mem_thread fuel to_server cfd)
    (Chan [] mqf tx [] [] rx mqt [] [] false).

(** *** Each thread passes on all it takes before it takes more *)

Definition receives (c : dcall) : bool :=
  match c with MqReceive _ _ | Recv _ _ | RbRead _ => true | _ => false end.

Inductive role := RServer | RToRtos | RToServer | RRecv.








(** *** Nothing is lost between the ends *)



(** What the session starts with. *)
Context (tx0 rx0 : ring_buffer) (mqf0 mqt0 : list (list Z)).



























(** The thread waits for its next packet. *)
Definition waiting {R} (p : dio R) : bool := match p with Call c _ => receives c | Ret _ => false end.

End session.


(** The next call of thread [r], answered with [a]. *)
Definition act (q1 q2 : Z) (ra : role * dans) (cfg : session) : option session :=
  let '(r, a) := ra in
  match r with
  | RServer =>
      match s_server cfg with
      | Call c k => s ← effect q1 q2 c a (s_chan cfg); Some (Session (k a) (s_to_rtos cfg) (s_to_server cfg) (s_recv cfg) s)
      | Ret _ => None
      end
  | RToRtos =>
      match s_to_rtos cfg with
      | Call c k => s ← effect q1 q2 c a (s_chan cfg); Some (Session (s_server cfg) (k a) (s_to_server cfg) (s_recv cfg) s)
      | Ret _ => None
      end
  | RToServer =>
      match s_to_server cfg with
      | Call c k => s ← effect q1 q2 c a (s_chan cfg); Some (Session (s_server cfg) (s_to_rtos cfg) (k a) (s_recv cfg) s)
      | Ret _ => None
      end
  | RRecv =>
      match s_recv cfg with
      | Call c k => s ← effect q1 q2 c a (s_chan cfg); Some (Session (s_server cfg) (s_to_rtos cfg) (s_to_server cfg) (k a) s)
      | Ret _ => None
      end
  end.
Fixpoint acts (q1 q2 : Z) (l : list (role * dans)) (cfg : session) : option session :=
  match l with [] => Some cfg | ra :: l => cfg ← act q1 q2 ra cfg; acts q1 q2 l cfg end.




(** ** Errors that are not handled *)

(** The answers of a run in which everything succeeds. *)
Abbreviation all_well := (fun (h : history dcall dans) (c : dcall) =>
  match c with
  | MqOpen _ _ _ | Calloc | Socket | Accept _ => Dans (Z.of_nat (length h) + 3) 0 0 []
  | PthreadCreate _ => Dans 0 0 (Z.of_nat (length h) + 1) []
  | _ => Dans 0 0 0 []
  end).
Abbreviation no_globals := (Globals 0 0 None).

(** A packet of which [send] takes a part only is not sent to its end: three bytes
    of the client OS are in the queue, [send] takes the first, and the thread goes on
    to the next packet. *)
Theorem short_send_loses_bytes :
  let start := session_start 1 2 3 3 (ModuleData 8 2 1 0 0) 5 ring8 ring8 [] [[36; 79; 75]] in
  (fun cfg => (gdb_read (s_chan cfg), mq_to (s_chan cfg), waiting (s_recv cfg))) <$>
    acts 1 2 [(RRecv, Dans 3 0 0 [36; 79; 75]); (RRecv, Dans 1 0 0 [])] start = Some ([36], [], true).
Proof. by vm_compute. Qed.

(** After gdb has closed the connection the listening socket stays open, so the
    port is taken when the next session starts. *)
Theorem closed_session_keeps_sockets :
  let p := start_proxy_server 1 0 3 4 in
  result all_well p = Some 0 /\
  observe dledger (Some []) (trace all_well p) = Some [RThread 7; RSock 8; RSock 4; RMem 3].
Proof. by vm_compute. Qed.

(** [pthread_create] returns a positive error number, which is not noticed: the
    service starts without the threads of the ring buffer module. *)
Theorem missing_threads_not_noticed :
  let o := fun (h : history dcall dans) (c : dcall) => match c with
             | PthreadCreate ToRtos | PthreadCreate ToServer => Dans EAGAIN 0 0 [] | _ => all_well h c end in
  (result o (debug_start 8 no_globals)).1 = 0.
Proof. by vm_compute. Qed.

(** The message queues are not closed when the service stops. *)
Theorem queues_stay_open :
  observe dledger (Some []) (trace all_well (r <- debug_start 8 no_globals;; debug_stop r.2)) =
    Some [RThread 7; RQueue 4; RQueue 3].
Proof. by vm_compute. Qed.

(** The first queue stays open if the second cannot be opened. *)
Theorem first_queue_stays_open :
  let o := fun (h : history dcall dans) (c : dcall) => match c with
             | MqOpen name _ _ => if strcmp0 name FROM_SHARED_MEM_QUEUE_NAME then Dans (-1) ENOSPC 0 [] else all_well h c
             | _ => all_well h c end in
  let p := debug_start 8 no_globals in
  (result o p).1 = - ENOSPC /\ observe dledger (Some []) (trace o p) = Some [RQueue 3].
Proof. by vm_compute. Qed.

(** If the server's thread cannot be created, the module's data is freed, and freed
    again when the service is removed. *)
Theorem module_data_freed_twice :
  let o := fun (h : history dcall dans) (c : dcall) => match c with
             | PthreadCreate ServerLoop => Dans EAGAIN 0 0 [] | _ => all_well h c end in
  (result o (debug_start 8 no_globals)).1 = - EAGAIN /\
  observe dledger (Some []) (trace o (debug_start 8 no_globals)) = Some [] /\
  observe dledger (Some []) (trace o (r <- debug_start 8 no_globals;; debug_stop r.2)) = None.
Proof. by vm_compute. Qed.

(** The NUL is stored behind a buffer of [MAX_BUFF_LENGTH] bytes. *)
Definition store_nul (recv_buf : list Z) (n_bytes : Z) : option (list Z) :=
  if n_bytes <? zlen recv_buf then Some (<[Z.to_nat n_bytes := 0]> recv_buf) else None.
Theorem full_packet_overruns :
  let recv_buf := replicate (Z.to_nat MAX_BUFF_LENGTH) 0 in
  store_nul recv_buf MAX_BUFF_LENGTH = None /\ is_Some (store_nul recv_buf (MAX_BUFF_LENGTH - 1)).
Proof. split; [by vm_compute|]. eexists. by vm_compute. Qed.
