(* ===== verification/Syscalls.v ===== *)
(** * User space on the kernel module

    The programs of [Baremetal] and [UserMsg] with the calls to [/dev/mcs] carried out by
    the module of [McsKm]: [open], [ioctl] and [mmap] run [mcs_open], [mcs_ioctl] and
    [mcs_mmap].  What the rest of the kernel does for these calls is documented
    behaviour: an error of the driver is -1 or MAP_FAILED in user space, [copy_to_user]
    that succeeds fills the caller's structure, [mmap] of a length at an offset asks the
    driver for whole pages at a new address.  The descriptor and that address are the
    answers to the call itself, before the module is entered. *)

From S2P Require Import Prelude ShmPool McsKm Baremetal UserMsg.

(** ** Entering the module *)

(** The structures that the module fills. *)
Record user_buf := UserBuf { ub_mem : McsKm.mcs_rproc_mem; ub_msg : McsKm.core_msg_mem_info }.

Definition copy_to_user (c : kcall) (a : Z) (b : user_buf) : user_buf :=
  if negb (a =? 0) then b
  else match c with
       | CopyToUserMem m => UserBuf m (ub_msg b)
       | CopyToUserMsg m => UserBuf (ub_mem b) m
       | _ => b
       end.

(** A call of a user program is [inl], one of the module [inr]; an answer has a part for
    either. *)
Fixpoint in_kernel {C A R} (p : kio R) (b : user_buf) : io (C + kcall) (A * Z) (R * user_buf) :=
  match p with
  | Ret r => Ret (r, b)
  | Call c k => a <- call (inr c);; in_kernel (k a.2) (copy_to_user c a.2 b)
  end.

(** The calls of a user program that enter the module: from the answer of the rest of the
    kernel, what the module does and what the program gets. *)
Class Device (C A : Type) := enter : Z -> mcs_state -> C -> option (A -> io (C + kcall) (A * Z) A).

Fixpoint on_kernel {C A R} `{Device C A} (NR_CPUS : Z) (st : mcs_state) (p : io C A R)
    : io (C + kcall) (A * Z) R :=
  match p with
  | Ret r => Ret r
  | Call c k =>
      a <- call (inl c);;
      match enter NR_CPUS st c with
      | Some f => a <- f a.1;; on_kernel NR_CPUS st (k a)
      | None => on_kernel NR_CPUS st (k a.1)
      end
  end.

Definition no_msg : McsKm.core_msg_mem_info := CoreMsgMemInfo 0 0 0 0 0.
Definition no_buf : user_buf := UserBuf (McsKm.RprocMem 0 0) no_msg.

(** [mmap] of [size] bytes at offset [addr] of the device, at the address [va]. *)
Definition device_mmap {C A} (st : mcs_state) (va size addr : Z) : io (C + kcall) (A * Z) bool :=
  if u64 va =? Baremetal.MAP_FAILED then Ret false
  else
    r <- in_kernel (mcs_mmap st (u64 va) (u64 va + align_up size 4096) (Z.shiftr addr PAGE_SHIFT)) no_buf;;
    Ret (negb (r.1 <? 0)).

(** [ioctl] in user space. *)
Definition device_ioctl {C A} (NR_CPUS : Z) (st : mcs_state) (cmd : Z) (info : McsKm.cpu_info)
    (msg : McsKm.core_msg_mem_info) : io (C + kcall) (A * Z) (Z * user_buf) :=
  r <- in_kernel (mcs_ioctl NR_CPUS st cmd info msg) (UserBuf (McsKm.RprocMem 0 0) msg);;
  Ret (if r.1 <? 0 then -1 else r.1, r.2).

Definition ioctl_code (c : ioctl_cmd) : Z :=
  match c with
  | Baremetal.IOC_SENDIPI => McsKm.IOC_SENDIPI
  | Baremetal.IOC_CPUON => McsKm.IOC_CPUON
  | Baremetal.IOC_QUERY_MEM => McsKm.IOC_QUERY_MEM
  end.

#[global] Instance baremetal_device : Device bcall bans := fun NR_CPUS st c =>
  match c with
  | Baremetal.OpenMcs => Some (fun a =>
      r <- in_kernel mcs_open no_buf;; Ret (Bans (if r.1 <? 0 then -1 else b_ret a) 0 0))
  | Ioctl cmd cpu addr => Some (fun a =>
      r <- device_ioctl NR_CPUS st (ioctl_code cmd) (CpuInfo (u32 cpu) (u64 addr)) no_msg;;
      Ret (Bans r.1 (phy_addr (ub_mem r.2)) (mem_size (ub_mem r.2))))
  | Mmap size addr => Some (fun a =>
      ok <- device_mmap st (b_ret a) size addr;;
      Ret (Bans (if ok : bool then u64 (b_ret a) else Baremetal.MAP_FAILED) 0 0))
  | _ => None
  end.

#[global] Instance user_msg_device : Device ucall uans := fun NR_CPUS st c =>
  match c with
  | OpenMcs => Some (fun a =>
      r <- in_kernel mcs_open no_buf;; Ret (Uans (if r.1 <? 0 then -1 else u_ret a) 0 0 []))
  | IoctlCopyMem _ instance => Some (fun a =>
      r <- device_ioctl NR_CPUS st IOC_GET_COPY_MSG_MEM (CpuInfo 0 0) (CoreMsgMemInfo instance 0 0 0 0);;
      Ret (Uans r.1 (cm_phy_addr (ub_msg r.2)) (cm_size (ub_msg r.2)) []))
  | MmapMcs _ size addr => Some (fun a =>
      ok <- device_mmap st (u_ret a) size addr;;
      Ret (Uans (if ok : bool then u64 (u_ret a) else MAP_FAILED) 0 0 []))
  | _ => None
  end.

(** ** Booting a core *)

(** The calls of the firmware, with its answers. *)
Definition psci_calls {C A} (t : history (C + kcall) (A * Z)) : list (Z * Z * Z * Z * Z) :=
  omap (fun ca => match ca.1 with inr (SmcccCall _ f x y z) => Some (f, x, y, z, ca.2.2) | _ => None end) t.
Definition status_writes {A} (t : history (bcall + kcall) (A * Z)) : list Z :=
  omap (fun ca => match ca.1 with inl (SetStatus v) => Some v | _ => None end) t.

(** ** The copy area of user messages *)

(** The mappings the module makes. *)
Definition remaps {C A} (s : list (Z * Z)) (c : C + kcall) (a : A) : list (Z * Z) :=
  match c with inr (RemapPfnRange pgoff size) => s ++ [(pgoff, size)] | _ => s end.

(** ** Properties *)

(** The commands that are used, without the tests of the others. *)
Lemma mcs_ioctl_cpuon NR_CPUS st info msg :
  mcs_ioctl NR_CPUS st McsKm.IOC_CPUON info msg =
    (ret <- call CopyFromUser;;
     if negb (i32 ret =? 0) then Ret (- EFAULT)
     else
       mpidr <- get_cpu_mpidr NR_CPUS st (ci_cpu info);;
       if mpidr =? INVALID_HWID then Ret (- EINVAL)
       else
         ret <- invoke_psci_fn st McsKm.CPU_ON_FUNCID mpidr (ci_boot_addr info) 0;;
         Ret (if i32 ret =? 0 then 0 else - EINVAL)).
Proof. reflexivity. Qed.
Lemma mcs_ioctl_copy_mem NR_CPUS st info msg :
  mcs_ioctl NR_CPUS st IOC_GET_COPY_MSG_MEM info msg =
    (ret <- call CopyFromUser;; if negb (i32 ret =? 0) then Ret (- EFAULT) else get_copy_msg_mem st msg).
Proof. reflexivity. Qed.

(** What a start leaves: its result and the calls made. *)
Definition boot_outcome (NR_CPUS cpu_id boot : Z) (on : bool) (x : Z * history (bcall + kcall) (bans * Z)) : Prop :=
  let '(ret, t) := x in
  let asked m a := psci_calls t = [(Baremetal.CPU_ON_FUNCID, m, boot, 0, a)] in
  if on then ret = 0 /\ psci_calls t = [] /\ status_writes t = []
  else
    (ret = 0 /\ status_writes t = [Baremetal.CPU_ON_FUNCID] /\ cpu_id < NR_CPUS /\
     exists w a, (inr (CpuLogicalMap cpu_id), w) ∈ t /\ u64 w.2 <> INVALID_HWID /\
       asked (u64 w.2) a /\ i32 (u64 a) = 0) \/
    (ret = -1 /\ status_writes t = [] /\ (psci_calls t = [] \/ exists m a, asked m a /\ i32 (u64 a) <> 0)).

(** C8: Starting a bare-metal client boots its core through the kernel module and the
    firmware, once: if the status word says that the core is on, nothing is done;
    otherwise the start returns 0 exactly when the firmware was asked once, with the
    hardware id of the client's core and the entry of the image, and answered SUCCESS,
    and only then is the status word set; in every other case the start returns -1 and
    the status word is left alone. *)
Theorem start_boots_core (NR_CPUS : Z) (st : mcs_state) (o : oracle (bcall + kcall) (bans * Z)) (cpu_id : Z)
    (r : rproc) :
  let on := u32 (b_ret (o [] (inl GetStatus)).1) =? Baremetal.CPU_ON_FUNCID in
  let p := on_kernel NR_CPUS st (rproc_start cpu_id r) in
  boot_outcome NR_CPUS (u32 cpu_id) (u64 (rp_bootaddr r)) on (result o p, trace o p).
Proof.
  cbn zeta. unfold result, trace. rewrite <- surjective_pairing.
  unfold rproc_start, get_cpu_status, set_cpu_status. cbn -[wraps wrapu boot_outcome mcs_ioctl device_ioctl].
  destruct (_ =? Baremetal.CPU_ON_FUNCID) eqn:Es; cbn -[wraps wrapu boot_outcome mcs_ioctl device_ioctl]; [done|].
  unfold device_ioctl. rewrite mcs_ioctl_cpuon. unfold get_cpu_mpidr, invoke_psci_fn.
  cbn -[wraps wrapu boot_outcome]. case_match; [right; split_and!; [done..|by left]|].
  case_match; [right; split_and!; [done..|by left]|].
  destruct (cpu_logical_map_fn st); cbn -[wraps wrapu boot_outcome]; [|right; split_and!; [done..|by left]].
  case_match eqn:Hid; cbn -[wraps wrapu boot_outcome]; [right; split_and!; [done..|by left]|].
  match goal with |- context [i32 (u64 ?x) =? 0] => destruct (i32 (u64 x) =? 0) eqn:Hret end;
    cbn -[wraps wrapu boot_outcome]; bool_to_Prop.
  - left. split_and!; [reflexivity|reflexivity|lia|]. do 2 eexists.
    split_and!; [do 3 apply list_elem_of_further; apply list_elem_of_here|done|reflexivity|done].
  - right. split_and!; [done..|]. right. do 2 eexists. split; [reflexivity|done].
Qed.

(** The core can be booted. *)
Definition boot_oracle : oracle (bcall + kcall) (bans * Z) := fun _ c =>
  match c with inr (CpuLogicalMap cpu) => (Bans 0 0 0, 0x80000000 + cpu) | _ => (Bans 0 0 0, 0) end.

Example start_boots_core_example :
  psci_calls (trace boot_oracle
    (on_kernel 4 sample_state (rproc_start 3 (Rproc RPROC_READY true 0 0 0x7a000000 [])))) =
    [(0xC4000003, 0x80000003, 0x7a000000, 0, 0)].
Proof. by vm_compute. Qed.

Lemma shiftr_page x : Z.shiftr x PAGE_SHIFT = x / 4096.
Proof. by rewrite Z.shiftr_div_pow2. Qed.

(** The copy area is page aligned, and so is its size. *)
Lemma copy_area_aligned base id :
  0 <= base -> base mod 4096 = 0 -> 0 <= id -> base + copy_offset id < 2 ^ 64 ->
  align_down (base + copy_offset id) 4096 = base + copy_offset id /\
  (base + copy_offset id) / 4096 * 4096 = base + copy_offset id /\
  u64 (base + copy_offset id - (base + copy_offset id)) = 0 /\
  align_up (0 + 0x200000) 4096 = 0x200000 /\ align_up 0x200000 4096 = 0x200000.
Proof.
  intros Hb Hm Hid Hlt.
  assert ((base + copy_offset id) mod 4096 = 0) as Hmod.
  { unfold copy_offset, INSTANCE_SIZE, OPENAMP_SHM_SIZE, McsKm.OPENAMP_SHM_COPY_SIZE.
    replace (base + _) with (base + (id * 9216 + 3328) * 4096) by lia. by rewrite Z_mod_plus_full. }
  assert (0 <= base + copy_offset id) by (unfold copy_offset, INSTANCE_SIZE, OPENAMP_SHM_SIZE, McsKm.OPENAMP_SHM_COPY_SIZE; lia).
  split_and!; [|pose proof (Z.div_mod (base + copy_offset id) 4096); lia|by rewrite Z.sub_diag|done|done].
  change 4096 with (2 ^ 12). rewrite align_down_spec by lia. change (2 ^ 12) with 4096. lia.
Qed.

(** A mapping of pages of the first region is granted. *)
Lemma mcs_mmap_granted st va n pgoff :
  let r := mem_entry (mem st) 0 in
  0 <= va -> 0 < n -> va + n < 2 ^ 64 -> 0 <= pgoff -> pgoff * 4096 + n <= 2 ^ 64 ->
  phy_addr r <> 0 -> phy_addr r <= pgoff * 4096 -> n <= mem_size r ->
  mcs_mmap st va (va + n) pgoff =
    (r <- call (RemapPfnRange pgoff n);; Ret (if r <? 0 then - EAGAIN else 0)).
Proof.
  cbn zeta. intros Hva Hn Hend Hpg Hwrap Hr0 Hlo Hsz. unfold mcs_mmap. cbn zeta.
  replace (va + n - va) with n by lia. rewrite (wrapu_small 64 n) by lia.
  rewrite Z.shiftl_mul_pow2 by done. change (2 ^ PAGE_SHIFT) with 4096.
  rewrite (wrapu_small 64 (pgoff * 4096)) by lia. rewrite shiftr_page, Z.div_mul, Z.eqb_refl by lia. cbn [negb].
  rewrite (wrapu_small 64 (pgoff * 4096 + n - 1)) by lia. rewrite (proj2 (Z.ltb_ge _ _)) by lia.
  assert (mmap_found (mem st) (pgoff * 4096) n = true) as ->; [|done].
  unfold mem_entry in *. destruct (mem st) as [|r rs]; [done|]. cbn [nth Z.to_nat mmap_found] in *.
  rewrite (proj2 (Z.eqb_neq (phy_addr r) 0)) by done.
  by rewrite (proj2 (Z.leb_le (phy_addr r) _)), (proj2 (Z.leb_le n _)) by done.
Qed.

(** The system does its part: the caller may open the device, pages have 4096 bytes,
    memory can be copied, and there is an address for the mapping. *)
Definition kernel_serves (c : ucall + kcall) (a : uans * Z) : Prop :=
  match c with
  | inl OpenMcs => 0 <= u_ret a.1
  | inl Sysconf => u_ret a.1 = 4096
  | inl (MmapMcs _ _ _) => 0 <= u_ret a.1 /\ u_ret a.1 + 0x200000 < 2 ^ 64
  | inr Capable => a.2 <> 0
  | inr CopyFromUser | inr (CopyToUserMsg _) => a.2 = 0
  | inr (RemapPfnRange _ _) => 0 <= a.2
  | _ => True
  end.

Section copy_area.
Context (NR_CPUS : Z) (st : mcs_state) (id : Z).
Abbreviation base := (phy_addr (mem_entry (mem st) 0)).
Abbreviation size := (mem_size (mem_entry (mem st) 0)).
Abbreviation area := (base + copy_offset id).
Context (Hbase : 0 < base) (Hpage : base mod 4096 = 0) (Hend : base + size < 2 ^ 64)
  (Hmax : base + copy_offset 4 < 2 ^ 64) (Hid : 0 <= id <= RPROC_MEM_MAX) (Hroom : copy_offset id + 0x200000 <= size).
Abbreviation swp := (wpv remaps kernel_serves).
#[local] Arguments wpv : simpl nomatch.

Lemma copy_offset_nonneg : 0 <= copy_offset id.
Proof. unfold copy_offset, INSTANCE_SIZE, OPENAMP_SHM_SIZE, McsKm.OPENAMP_SHM_COPY_SIZE. lia. Qed.

Lemma areas_disjoint id' :
  0 <= id' -> id' <> id ->
  base + copy_offset id' + 0x200000 <= area \/ area + 0x200000 <= base + copy_offset id'.
Proof. intros. unfold copy_offset, INSTANCE_SIZE, OPENAMP_SHM_SIZE, McsKm.OPENAMP_SHM_COPY_SIZE. lia. Qed.

(** The [ioctl] fills the structure of the caller. *)
Lemma ioctl_copy_mem_swp info s :
  swp (device_ioctl NR_CPUS st IOC_GET_COPY_MSG_MEM info (CoreMsgMemInfo id 0 0 0 0))
    (fun r s' => r.1 = 0 /\ cm_phy_addr (ub_msg r.2) = area /\ cm_size (ub_msg r.2) = 0x200000 /\ s' = s) s.
Proof.
  pose proof copy_offset_nonneg. unfold device_ioctl. rewrite mcs_ioctl_copy_mem.
  rewrite get_copy_msg_mem_granted by (cbn; lia).
  cbn -[wraps]. intros a Ha. rewrite Ha. cbn. intros b Hb. cbn in Hb |- *. by rewrite Hb.
Qed.

(** [mmap] of the area. *)
Lemma mmap_area_swp va s :
  0 <= va -> va + 0x200000 < 2 ^ 64 ->
  swp (device_mmap (C := ucall) (A := uans) st va 0x200000 area) (fun ok s' => ok = true /\ s' = s ++ [(area / 4096, 0x200000)]) s.
Proof.
  intros Hva Hva'. pose proof copy_offset_nonneg. unfold device_mmap.
  destruct (copy_area_aligned base id) as (_ & Hdiv & _ & _ & Hup); [lia..|].
  rewrite (wrapu_small 64 va) by lia. rewrite (proj2 (Z.eqb_neq _ _)) by (unfold Baremetal.MAP_FAILED; lia).
  rewrite Hup, shiftr_page, mcs_mmap_granted by (rewrite ?Hdiv; lia || apply Z.div_pos; lia).
  cbn. intros a Ha. cbn in Ha |- *. by rewrite (proj2 (Z.ltb_ge a.2 0)) by exact Ha.
Qed.

Lemma init_core_shared_memory_swp info :
  ci_instance_id info = id ->
  swp (on_kernel NR_CPUS st (init_core_shared_memory info))
    (fun r s => exists va, r = (0, CoreMem id area va 0x200000 0x200000) /\ s = [(area / 4096, 0x200000)]) [].
Proof.
  intros Ei. pose proof copy_offset_nonneg.
  destruct (copy_area_aligned base id) as (Hdown & _ & Hzero & Hup & _); [lia..|].
  unfold init_core_shared_memory. cbn -[wraps wrapu device_ioctl device_mmap align_down align_up].
  intros f Hf c Hc. rewrite (proj2 (Z.eqb_neq _ _)) by exact Hc. cbn [Z.ltb Z.compare].
  rewrite (proj2 (Z.ltb_ge _ _)) by exact Hf. cbn -[wraps wrapu device_ioctl device_mmap align_down align_up].
  intros _ _. rewrite Ei. apply wpv_bind, wpv_bind. eapply wpv_mono; [apply ioctl_copy_mem_swp|].
  intros [ret b] ? (Hret & Hphy & Hsz & ->). cbn [fst snd] in *. rewrite Hret, Hphy, Hsz.
  cbn -[wraps wrapu device_mmap align_down align_up]. intros pg Hpg. rewrite Hpg.
  intros m [Hm Hm']. rewrite Hdown, Hzero, Hup.
  apply wpv_bind, wpv_bind. eapply wpv_mono; [by apply mmap_area_swp|]. intros ok s [-> ->].
  cbn -[wraps wrapu]. rewrite (wrapu_small 64 (u64 _)) by (apply wrapu_range; lia).
  rewrite (wrapu_small 64 (u_ret _)) by lia. rewrite (proj2 (Z.eqb_neq _ _)) by (unfold MAP_FAILED; lia).
  by eexists.
Qed.
End copy_area.

(** C9: A user process gets the copy area of its instance mapped: if the first reserved
    region holds that area, and the system does its part, init_core_shared_memory returns
    0 with the physical address and size of the area, and the kernel module has mapped
    exactly these 2 MiB, which lie in the region; areas of other instances are not mapped. *)
Theorem copy_area_mapped (NR_CPUS : Z) (st : mcs_state) (o : oracle (ucall + kcall) (uans * Z))
    (info : UserMsg.core_msg_mem_info) :
  let base := phy_addr (mem_entry (mem st) 0) in
  let size := mem_size (mem_entry (mem st) 0) in
  let id := ci_instance_id info in
  let area := base + copy_offset id in
  0 < base -> base mod 4096 = 0 -> 0 <= size -> base + size < 2 ^ 64 -> base + copy_offset 4 < 2 ^ 64 ->
  0 <= id <= RPROC_MEM_MAX -> copy_offset id + 0x200000 <= size ->
  (forall h c, kernel_serves c (o h c)) ->
  let p := on_kernel NR_CPUS st (init_core_shared_memory info) in
  exists va, result o p = (0, CoreMem id area va 0x200000 0x200000) /\
    observe remaps [] (trace o p) = [(area / 4096, 0x200000)] /\
    area / 4096 * 4096 = area /\ base <= area /\ area + 0x200000 <= base + size /\
    forall id', 0 <= id' -> id' <> id ->
      base + copy_offset id' + 0x200000 <= area \/ area + 0x200000 <= base + copy_offset id'.
Proof.
  cbn zeta. intros Hb Hmod Hs Hbs H4 Hid Hroom Ho.
  pose proof (copy_offset_mono (ci_instance_id info) 4).
  pose proof (copy_offset_nonneg (ci_instance_id info) Hid).
  destruct (copy_area_aligned (phy_addr (mem_entry (mem st) 0)) (ci_instance_id info)) as (_ & Hdiv & _); [lia..|].
  destruct (wpv_result_trace remaps kernel_serves o _ _ _ Ho
    (init_core_shared_memory_swp NR_CPUS st (ci_instance_id info) Hb Hmod Hbs H4 Hid Hroom info eq_refl)) as (va & Hr & Ht).
  exists va. split_and!; [done|done|done|lia|lia|]. by apply areas_disjoint.
Qed.

Definition map_oracle : oracle (ucall + kcall) (uans * Z) := fun _ c =>
  (match c with
   | inl Sysconf => Uans 4096 0 0 []
   | inl (MmapMcs _ _ _) => Uans 0x7f0000000000 0 0 []
   | _ => Uans 3 0 0 []
   end, match c with inr Capable => 1 | _ => 0 end).

Lemma copy_area_mapped_witness :
  exists va, result map_oracle (on_kernel 4 sample_state (init_core_shared_memory (CoreMem 1 0 0 0 0))) =
    (0, CoreMem 1 (0x70000000 + 0x3100000) va 0x200000 0x200000).
Proof.
  destruct (copy_area_mapped 4 sample_state map_oracle (CoreMem 1 0 0 0 0)) as (va & Hr & _);
    [vm_compute; done..|vm_compute; split; done|vm_compute; done| |].
  - intros h c. destruct c as [[]|[]]; cbn; try done.
  - exists va. exact Hr.
Defined.
