(* ===== verification/Daemon.v ===== *)
(** * The daemon ([mica/micad/main.c])

    micad detaches from its terminal, locks its pid file so that only one instance
    runs, starts the control socket listener, lets the [mica] tool recreate the
    clients, and serves until a signal arrives. *)

From S2P Require Import Prelude.

Definition PATH_PIDFILE : string := "/var/run/micad.pid".

Inductive signal := SIGHUP | SIGPIPE | SIGUSR1 | SIGINT | SIGTERM.
Inductive handler := SIG_IGN | ExitHandler.

Inductive ccall :=
| Strdup (s : string)
| OpenPid (path : string)
| LockPid (fd : Z)
| UnlockPid (fd : Z)
| Asprintf
| WritePid (fd : Z)
| Unlink (path : string)
| FreeName
| FreeTmp
| Close (fd : Z)
| Fork
| ForkTool  (* the [fork] of [mica_create_all] *)
| Setsid
| Umask
| Chdir (path : string)
| ReopenStd
| Openlog
| Closelog
| Sigaction (sig : signal) (h : handler)
| SignalDefault  (* [signal(SIGCHLD, SIG_DFL)], -1 for [SIG_ERR] *)
| SemInit
| SemPost
| SemWait
| Execvp (argv : list string)
| Waitpid (pid : Z)  (* 0: the tool exited with status 0 *)
| RegisterListener
| UnregisterListener.

(** The answers: a result; [Strdup] returns 0 for NULL. *)
Abbreviation cio := (io ccall Z).

(** The variables [pid_file] and [pid_fd]. *)
Record pid_state := PidState { pid_file : option string; pid_fd : Z }.

Definition write_pid_file : cio (Z * pid_state) :=
  m <- call (Strdup PATH_PIDFILE);;
  if m =? 0 then Ret (-1, PidState None 0)
  else
    fd <- call (OpenPid PATH_PIDFILE);;
    let st := PidState (Some PATH_PIDFILE) fd in
    let err_free : cio (Z * pid_state) := _ <- call FreeName;; Ret (-1, st) in
    if fd <? 0 then err_free
    else
      let err_close : cio (Z * pid_state) := _ <- call (Close fd);; err_free in
      l <- call (LockPid fd);;
      if l <? 0 then err_close
      else
        n <- call Asprintf;;
        if n <? 0 then err_close
        else
          w <- call (WritePid fd);;
          (if w <? 0 then _ <- call (Unlink PATH_PIDFILE);; Ret tt else Ret tt);;;
          _ <- call FreeTmp;;
          Ret (0, st).

Definition close_pid_file (st : pid_state) : cio unit :=
  (if negb (pid_fd st =? -1)
   then _ <- call (UnlockPid (pid_fd st));; _ <- call (Close (pid_fd st));; Ret tt else Ret tt);;;
  match pid_file st with
  | Some name => _ <- call (Unlink name);; _ <- call FreeName;; Ret tt
  | None => Ret tt
  end.

(** [inl code]: [exit(code)]. *)
Definition daemonize : cio (Z + pid_state) :=
  p <- call Fork;;
  if p =? -1 then Ret (inl 1)
  else if 0 <? p then Ret (inl 0)
  else
    s <- call Setsid;;
    if s <? 0 then Ret (inl 1)
    else
      p <- call Fork;;
      if p <? 0 then Ret (inl 1)
      else if 0 <? p then Ret (inl 0)
      else
        _ <- call Umask;;
        _ <- call (Chdir "/");;
        _ <- call ReopenStd;;
        _ <- call Openlog;;
        w <- write_pid_file;;
        let '(ret, st) := w in
        if ret <? 0 then _ <- call Closelog;; Ret (inl 1) else Ret (inr st).

(** Runs when a signal arrives, while [main] waits. *)
Definition exit_handler : cio unit := _ <- call SemPost;; Ret tt.

(** The handlers in turn; [false] once one cannot be set. *)
Fixpoint set_handlers (l : list signal) (h : handler) : cio bool :=
  match l with
  | [] => Ret true
  | sig :: l => r <- call (Sigaction sig h);; if r <? 0 then Ret false else set_handlers l h
  end.
Definition add_signal_handler : cio Z :=
  i <- set_handlers [SIGHUP; SIGPIPE; SIGUSR1] SIG_IGN;;
  if negb i then Ret (-1)
  else
    d <- call SignalDefault;;
    if d =? -1 then Ret (-1)
    else
      s <- call SemInit;;
      if s =? -1 then Ret (-1)
      else
        t <- set_handlers [SIGINT; SIGTERM] ExitHandler;;
        if negb t then Ret (-1) else Ret 0.

(** Returns in the child too, if the tool cannot be run. *)
Definition mica_create_all : cio unit :=
  p <- call ForkTool;;
  if p <? 0 then Ret tt
  else if p =? 0 then _ <- call (Execvp ["mica"; "create"; "--all"]);; Ret tt
  else _ <- call (Waitpid p);; Ret tt.

(** The exit status of the process. *)
Definition main : cio Z :=
  d <- daemonize;;
  match d with
  | inl code => Ret code
  | inr st =>
      let out (ret : Z) : cio Z := close_pid_file st;;; Ret ret in
      r <- call RegisterListener;;
      if negb (r =? 0) then out r
      else
        mica_create_all;;;
        h <- add_signal_handler;;
        if negb (h =? 0) then _ <- call UnregisterListener;; out h
        else
          _ <- call SemWait;;
          _ <- call UnregisterListener;;
          out h
  end.

(** ** What the daemon holds *)

Inductive cres := CName | CTmp | CFd (fd : Z) | CLock | CListener.
#[global] Instance cres_eq_dec : EqDecision cres.
Proof. solve_decision. Defined.

Definition drop_lock (l : list cres) : list cres := filter (fun r => r <> CLock) l.
(** The lock may be given up only while no listener runs. *)
Definition unless_listening (l : list cres) : option (list cres) := if decide (CListener ∈ l) then None else Some l.

(** What is held; [None] once something not held is released, the listener starts
    without the lock, or the lock is given up while it runs.  Closing the file gives
    up a lock that is still held. *)
Definition cledger (s : option (list cres)) (c : ccall) (a : Z) : option (list cres) :=
  match c with
  | Strdup _ => if a =? 0 then s else cons CName <$> s
  | OpenPid _ => if a <? 0 then s else cons (CFd a) <$> s
  | LockPid _ => if a <? 0 then s else cons CLock <$> s
  | UnlockPid fd =>
      (s ≫= unless_listening) ≫= (fun l =>
        if decide (CFd fd ∈ l) then (if a <? 0 then Some l else remove1 CLock l) else None)
  | Asprintf => if a <? 0 then s else cons CTmp <$> s
  | FreeTmp => s ≫= remove1 CTmp
  | FreeName => s ≫= remove1 CName
  | Close fd => drop_lock <$> ((s ≫= unless_listening) ≫= remove1 (CFd fd))
  | RegisterListener =>
      s ≫= (fun l => if decide (CLock ∈ l) then Some (if a =? 0 then CListener :: l else l) else None)
  | UnregisterListener => s ≫= remove1 CListener
  | _ => s
  end.
(** The process is not the child that is to run the tool. *)
Definition not_the_tool (c : ccall) (a : Z) : Prop := match c with ForkTool => a <> 0 | _ => True end.
Abbreviation cwp := (wpv cledger not_the_tool).

(** What a process with the pid file holds. *)
Definition locked (st : pid_state) : list cres := [CLock; CFd (pid_fd st); CName].

Lemma close_cledger fd l l' a :
  CListener ∉ l -> remove1 (CFd fd) l = Some l' -> cledger (Some l) (Close fd) a = Some (drop_lock l').
Proof.
  intros Hl E. cbn [cledger mbind option_bind]. unfold unless_listening. rewrite decide_False by done.
  cbn [mbind option_bind]. by rewrite E.
Qed.
Lemma remove1_pid_fd fd : remove1 (CFd fd) [CLock; CFd fd; CName] = Some [CLock; CName].
Proof. change (CLock :: ?l) with ([CLock] ++ l) at 1. by rewrite remove1_app_r, remove1_head by set_solver. Qed.

Lemma unlock_cledger st a :
  cledger (Some (locked st)) (UnlockPid (pid_fd st)) a =
    if a <? 0 then Some [CLock; CFd (pid_fd st); CName] else Some [CFd (pid_fd st); CName].
Proof.
  unfold locked. cbn [cledger mbind option_bind]. unfold unless_listening. rewrite decide_False by set_solver.
  cbn [mbind option_bind]. rewrite decide_True by set_solver. case_match; [done|]. apply remove1_head.
Qed.

Lemma write_pid_file_wp :
  cwp write_pid_file (fun r s => let '(ret, st) := r in
    ret < 0 /\ s = Some [] \/
    ret = 0 /\ 0 <= pid_fd st /\ pid_file st = Some PATH_PIDFILE /\ s = Some (locked st)) (Some []).
Proof.
  unfold write_pid_file. cbn [bind call wpv cledger]. intros m _. case_match; [by left|].
  cbn [bind call wpv cledger fmap option_fmap option_map]. intros fd _. case_match; [cbn; by left|]. bool_to_Prop.
  cbn [bind call wpv cledger fmap option_fmap option_map]. intros l _. case_match.
  { cbn [bind call wpv]. intros c _. rewrite (close_cledger _ _ [CName]) by (apply remove1_head || set_solver).
    cbn. by left. }
  cbn [bind call wpv cledger fmap option_fmap option_map]. intros n _. case_match.
  { cbn [bind call wpv]. intros c _. rewrite (close_cledger _ _ [CLock; CName]) by (apply remove1_pid_fd || set_solver).
    cbn. by left. }
  cbn [bind call wpv cledger fmap option_fmap option_map]. intros w _.
  case_match; cbn [bind call wpv cledger mbind option_bind]; [intros _ _|]; intros _ _; rewrite remove1_head; right; eauto.
Qed.

Lemma close_pid_file_wp st :
  0 <= pid_fd st -> pid_file st = Some PATH_PIDFILE ->
  forall ret : Z, cwp (close_pid_file st;;; Ret ret) (fun r s => r = ret /\ s = Some []) (Some (locked st)).
Proof.
  intros Hfd Hn ret. unfold close_pid_file. rewrite Hn, (proj2 (Z.eqb_neq _ _)) by lia.
  cbn [negb bind call wpv]. intros u _ c _.
  assert (cledger (cledger (Some (locked st)) (UnlockPid (pid_fd st)) u) (Close (pid_fd st)) c = Some [CName]) as ->.
  { rewrite unlock_cledger. case_match.
    - by rewrite (close_cledger _ _ [CLock; CName]) by (apply remove1_pid_fd || set_solver).
    - by rewrite (close_cledger _ _ [CName]) by (apply remove1_head || set_solver). }
  by cbn.
Qed.

Lemma set_handlers_wp l h s : cwp (set_handlers l h) (fun _ s' => s' = s) s.
Proof. induction l as [|sig l IH]; cbn [set_handlers]; [done|]. cbn. intros r _. by case_match. Qed.

Lemma add_signal_handler_wp s : cwp add_signal_handler (fun _ s' => s' = s) s.
Proof.
  unfold add_signal_handler. apply wpv_bind. eapply wpv_mono; [apply set_handlers_wp|]. intros i s' ->.
  case_match; [done|]. cbn [bind call wpv cledger]. intros d _. case_match; [done|].
  cbn [bind call wpv cledger]. intros m _. case_match; [done|].
  apply wpv_bind. eapply wpv_mono; [apply set_handlers_wp|]. intros t s' ->. by case_match.
Qed.

Lemma mica_create_all_wp s : cwp mica_create_all (fun _ s' => s' = s) s.
Proof. unfold mica_create_all. cbn. intros p _. case_match; [done|]. case_match; by cbn. Qed.

Lemma daemonize_wp :
  cwp daemonize (fun d s => match d with
    | inl _ => s = Some []
    | inr st => 0 <= pid_fd st /\ pid_file st = Some PATH_PIDFILE /\ s = Some (locked st)
    end) (Some []).
Proof.
  unfold daemonize. cbn [bind call wpv cledger]. intros p _. case_match; [done|]. case_match; [done|].
  cbn [bind call wpv cledger]. intros s _. case_match; [done|].
  cbn [bind call wpv cledger]. intros p2 _. case_match; [done|]. case_match; [done|].
  cbn [bind call wpv cledger]. intros _ _ _ _ _ _ _ _. apply wpv_bind.
  eapply wpv_mono; [apply write_pid_file_wp|]. intros [ret st] s' [[Hr ->]|(-> & Hfd & Hn & ->)]; [|done].
  by rewrite (proj2 (Z.ltb_lt _ _)).
Qed.

Lemma main_wp : cwp main (fun _ s => s = Some []) (Some []).
Proof.
  unfold main. apply wpv_bind. eapply wpv_mono; [apply daemonize_wp|].
  intros [code|st] s; [done|]. intros (Hfd & Hn & ->).
  assert (forall ret : Z, cwp (close_pid_file st;;; Ret ret) (fun _ s => s = Some []) (Some (locked st))) as Hout.
  { intros ret. eapply wpv_mono; [by apply close_pid_file_wp|]. by intros ? ? []. }
  cbn [bind call wpv cledger mbind option_bind]. intros r _. rewrite decide_True by (unfold locked; set_solver).
  destruct (Z.eqb_spec r 0); cbn [negb]; [|apply Hout].
  apply wpv_bind. eapply wpv_mono; [apply mica_create_all_wp|]. intros _ s ->.
  apply wpv_bind. eapply wpv_mono; [apply add_signal_handler_wp|]. intros h s ->.
  case_match; cbn [bind call wpv cledger mbind option_bind].
  - intros _ _. rewrite remove1_head. apply Hout.
  - intros _ _ _ _. rewrite remove1_head. apply Hout.
Qed.

(** The calls, the last one first. *)
Definition calls (s : list ccall) (c : ccall) (_ : Z) : list ccall := c :: s.

Lemma observe_calls s h : observe calls s h = reverse (fst <$> h) ++ s.
Proof.
  revert s. induction h as [|[c a] h IH]; intros s; [done|].
  rewrite fmap_cons, reverse_cons, <- app_assoc. exact (IH (c :: s)).
Qed.

(** The calls that end a run of the daemon. *)
Definition farewell (st : pid_state) : list ccall :=
  [UnlockPid (pid_fd st); Close (pid_fd st); Unlink PATH_PIDFILE; FreeName].

Lemma close_pid_file_calls st (ret : Z) s :
  0 <= pid_fd st -> pid_file st = Some PATH_PIDFILE ->
  wp calls (close_pid_file st;;; Ret ret) (fun _ s' => s' = reverse (farewell st) ++ s) s.
Proof.
  intros Hfd Hn. unfold close_pid_file. rewrite Hn, (proj2 (Z.eqb_neq _ _)) by lia. by cbn.
Qed.

(** No part of the start-up registers a listener unless the pid file is locked. *)
Lemma daemonize_calls :
  wp calls daemonize (fun d s => (RegisterListener ∉ s) /\
    match d with inl _ => True | inr st => 0 <= pid_fd st /\ pid_file st = Some PATH_PIDFILE end) [].
Proof.
  unfold daemonize, write_pid_file. cbn [bind call wp calls]. intros p. case_match; [set_solver|]. case_match; [set_solver|].
  cbn [bind call wp calls]. intros s. case_match; [set_solver|].
  cbn [bind call wp calls]. intros p2. case_match; [set_solver|]. case_match; [set_solver|].
  cbn [bind call wp calls]. intros ? ? ? ? m. case_match; [set_solver|].
  cbn [bind call wp calls]. intros fd. case_match; [cbn; intros; set_solver|]. bool_to_Prop.
  cbn [bind call wp calls]. intros l. case_match; [cbn; intros; set_solver|].
  cbn [bind call wp calls]. intros n. case_match; [cbn; intros; set_solver|].
  cbn [bind call wp calls]. intros w. case_match; cbn; intros; (split; [set_solver|done]).
Qed.

Lemma main_calls :
  wp calls main (fun _ s => RegisterListener ∈ s ->
    exists st t, s = reverse (farewell st) ++ t /\ RegisterListener ∈ t) [].
Proof.
  unfold main. apply wp_bind. eapply wp_mono; [apply daemonize_calls|].
  intros [code|st] s [Hs Hst]; [by cbn; intros H; destruct (Hs H)|]. destruct Hst as [Hfd Hn].
  assert (forall (ret : Z) s', wp calls (close_pid_file st;;; Ret ret) (fun _ s => RegisterListener ∈ s ->
    exists st t, s = reverse (farewell st) ++ t /\ RegisterListener ∈ t) s') as Hout.
  { intros ret s'. eapply wp_mono; [by apply close_pid_file_calls|]. intros _ s'' -> H.
    exists st, s'. split; [done|]. cbn in H. set_solver. }
  cbn [bind call wp]. intros r. case_match; [apply Hout|].
  apply wp_any. intros _ s'. apply wp_any. intros h s''. case_match; cbn [bind call wp]; intros; apply Hout.
Qed.

(** C39: The daemon cleans up: whatever fails on the way, the daemon that returns from
    main, or gives up before, has stopped the listener if it was started, and has
    given up the lock and closed and freed what belongs to the pid file, each once;
    the listener runs only while the lock is held.  A daemon that got as far as to
    start the listener ends with unlocking and closing the pid file, removing it and
    freeing its name, in this order.  This is about the daemon itself, not about a child
    that could not run the tool (see failed_tool_becomes_daemon), and not about a daemon
    that a signal or the exit call of the listener thread (line 455 of
    socket_listener.c) ends: these clean nothing up. *)
Theorem daemon_cleans_up (o : oracle ccall Z) :
  (forall h, o h ForkTool <> 0) ->
  observe cledger (Some []) (trace o main) = Some [] /\
  let cs := fst <$> trace o main in
  (RegisterListener ∈ cs -> exists st t, cs = t ++ farewell st /\ RegisterListener ∈ t).
Proof.
  intros Ho. split.
  - apply (wpv_result_trace cledger not_the_tool o main (fun _ s => s = Some [])); [|apply main_wp].
    intros h []; cbn; auto.
  - intros cs Hr. pose proof (wp_result_trace calls o main _ [] main_calls) as H. cbv beta in H.
    rewrite observe_calls, app_nil_r in H. fold cs in H.
    destruct H as (st & t & E & Ht); [by apply elem_of_reverse|].
    exists st, (reverse t). split; [|by apply elem_of_reverse].
    rewrite <- (reverse_involutive cs), E, reverse_app, reverse_involutive. done.
Qed.

(** ** Errors that are not handled *)

(** The answers of a run in which everything succeeds, in the daemon process. *)
Abbreviation daemon_answers := (fun (h : history ccall Z) (c : ccall) =>
  match c with
  | ForkTool => 77
  | Strdup _ => 1
  | OpenPid _ => 3
  | _ => 0
  end).

Lemma daemon_cleans_up_witness :
  let cs := fst <$> trace daemon_answers main in
  (RegisterListener ∈ cs /\ UnregisterListener ∈ cs) /\
  observe cledger (Some []) (trace daemon_answers main) = Some [] /\
  exists st t, cs = t ++ farewell st /\ RegisterListener ∈ t.
Proof.
  intros cs. destruct (daemon_cleans_up daemon_answers ltac:(done)) as [H1 H2].
  assert (RegisterListener ∈ cs /\ UnregisterListener ∈ cs) as Hr
    by (split; vm_compute; repeat (apply list_elem_of_here || apply list_elem_of_further)).
  split; [done|]. split; [exact H1|]. apply H2, Hr.
Defined.

(** The daemon runs though its pid could not be written, and the file it has locked
    was removed: a second instance can lock a new one. *)
Theorem runs_without_pid_file :
  let o := fun h c => match c with WritePid _ => -1 | _ => daemon_answers h c end in
  (RegisterListener, 0) ∈ trace o main /\ (Unlink PATH_PIDFILE, 0) ∈ trace o write_pid_file.
Proof. split; vm_compute; set_solver. Qed.

(** If the tool cannot be run, the child goes on as a second daemon. *)
Theorem failed_tool_becomes_daemon :
  let o := fun (h : history ccall Z) (c : ccall) =>
    match c with ForkTool => 0 | Execvp _ => -1 | _ => daemon_answers h c end in
  (UnregisterListener, 0) ∈ trace o main /\ (Execvp ["mica"; "create"; "--all"], -1) ∈ trace o main.
Proof. split; vm_compute; set_solver. Qed.
